(* ===== verification/_CoqProject ===== *)
-Q . S2P
Prelude.v
Utils.v
Skbuff.v
Addr.v
Headers.v
TcpOptions.v
CircularBuffer.v
Tcb.v
TcbFacts.v
TcbSend.v
TcbRecv.v
TcbState.v
TcbHandshake.v
BaseProtocol.v
Packets.v
Text.v
TcbManager.v
Socket.v
SocketFacts.v
SocketRead.v
Echo.v
Accept.v
Tcp.v
Intercept.v
Icmp.v
NeighCache.v
RoutingTable.v
Arp.v
Ipv4.v
Ethernet.v
Device.v
FileDesc.v
Stack.v
Bounds.v
Layers.v
Netns.v
NetnsFacts.v
NetnsRun.v
Ping.v
Pipeline.v
Resolve.v
Incoming.v
Program.v
Prior.v
ProgramFacts.v
ProgramOk.v
EchoFrame.v
Segments.v
EchoOpen.v
EchoServer.v
ClientOpen.v
ClientTalk.v
Neighbours.v
Wire.v
TwoPrograms.v
Exchange.v
Session.v
