(* ===== verification/Prelude.v ===== *)
(** * mstack: a user-space TCP/IP stack, verified

    mstack (src/mstack/mstack/) is a C++ library that puts a TCP/IP stack
    behind a TAP device.  A [netns] owns the layers: [ethernetv2], [arp],
    [ipv4], [icmp], [tcp] and [tcb_manager], which holds one block [tcb_t] for
    each TCP connection.  Every layer is an instance of [base_protocol]: it
    queues outgoing packets and posts a closure to the [io_context] for each,
    and dispatches incoming ones on their protocol number.  Everything runs on
    the thread of the [io_context], so that an execution is a sequence of
    handlers: the model has one function for each handler and each posted
    closure, and theorems about the interleavings quantify over sequences of
    them.

    ** How the code is represented

    - A function that can fail returns a [result]: a value or a [fault].  The
      build type defaults to Debug, so that a failed [assert] is the fault
      [AssertFail]; the other faults are undefined behaviour or exceptions that nothing
      catches.  The methods of a socket that throw return the exception with
      the state it leaves ([try_async_read] and so on); [uncaught] is a
      caller that does not catch it.
    - A method that changes its object is in the monad [M]: it takes the state
      to a result, the new state and the list of the calls it makes to its
      environment, in order (a packet handed on, a closure posted, a callback
      called, bytes copied to a buffer of the user).
    - Integers are [Z] with the wrap-around of their C++ type written out
      ([u8], [u16], [u32]); [lia] and the tactic [ulia] decide what the width
      requires.  Bytes are [Byte.byte], a buffer is a list of them.
    - Both byte orders of the host are covered by the class [Host], which also
      has the contents of memory that the program does not initialise.
    - Code that is not part of the repository is an interface with laws:
      [CircularBuffer] for [boost::circular_buffer], [Signal] for
      [boost::signals2::signal].  Random numbers (initial sequence numbers,
      ports), addresses of allocations, members that a constructor leaves
      indeterminate, the answers of the kernel, Boost's parser of addresses,
      and the callbacks of the user are arguments.

    ** The files

    - [Prelude]: faults, the monad and its weakest preconditions ([wp], with
      the tactic [wp_steps] and the hint database [mstack]), machine integers,
      bytes, cursors and spans.
    - [Utils] (utils.hpp): byte order, cursors, the Internet checksum, and
      that it is the one of RFC 1071 on either host.
    - [Skbuff] (skbuff.hpp): the packet buffer and the lemmas by which the
      layers prepend, strip and check-sum headers.
    - [Addr] (mac_addr.hpp, ipv4_addr.hpp, endpoint.hpp, packets.hpp):
      addresses with their wire format, order and hashes; [Headers] (the five
      [*_header.hpp]): the wire formats; the class [Wire] is what a layer
      relies on.
    - [TcpOptions] (tcb.cpp, lines 32-154): [decode_options] and
      [encode_options].
    - [CircularBuffer]: the interface of the queues of a connection.
    - [Tcb] (tcb.hpp, tcb.cpp): the connection block, handler by handler.
      [TcbFacts], [TcbSend], [TcbRecv], [TcbState] and [TcbHandshake] hold its
      theory: how a packet is built, the send queue, the receive queue, the
      invariant and the reachable states, and the handshake.
    - [BaseProtocol] (base_protocol.hpp): the queue, the posted closures and
      the dispatch, of the template and of its two partial specialisations
      ([bottom] and [top]).
    - [Packets] (ipv4_packet.hpp, ethernetv2_frame.hpp): what the layers hand
      to each other.
    - [Text] (the [operator<<] of every type, defination.hpp, endpoint.hpp,
      size_literals.hpp, the argument of main.cpp): what is printed, and
      endpoints read back from text.
    - [TcbManager] (tcb_manager.hpp, tcb_manager.cpp): the connection table.
    - [Socket] (socket.hpp, socket.cpp, acceptor.hpp, acceptor.cpp, read.hpp,
      write.hpp, main.cpp): sockets and acceptors over the connection table,
      and the echo server; a closure the library creates is a constructor with
      what it captures.  [SocketFacts], [SocketRead], [Echo] and [Accept] hold
      the theory: buffers and steps, [async_read], the echo, and accepting.
    - [Tcp] (tcp.hpp, tcp.cpp): the checksum, interception and raw sockets;
      [Intercept] (interceptor.hpp, interceptor.cpp, raw_socket.hpp,
      raw_socket.cpp): the classes of the user for both.
    - [Icmp] (icmp.hpp), [NeighCache] (neigh_cache.hpp), [RoutingTable]
      (routing_table.hpp, routing_table.cpp), [Arp] (arp.hpp, arp.cpp), [Ipv4]
      (ipv4.hpp, ipv4.cpp), [Ethernet] (ethernet.hpp, ethernet.cpp).
    - [Device] (device.cpp): the queue of a device; [FileDesc] (file_desc.hpp,
      device.cpp): who owns its descriptor, and how it is opened.
    - [Stack] (netns.cpp): how the layers are connected, and a segment's way
      through the layers of two hosts; [Bounds]: how long it can be.
    - [Layers]: what each layer promises to the whole, as weakest
      preconditions of its operations.
    - [Netns] (netns.hpp, netns.cpp): the state of a whole namespace, with its
      devices and the queue of the [io_context]: what a layer emits becomes a
      closure in the queue, a call of the layer below or above, or an event.
      [NetnsFacts] has the invariant and that every operation keeps it,
      [NetnsRun] the runs, [Ping] an echo request through the whole,
      [Pipeline] several datagrams at once on their way down, [Resolve] a
      datagram that waits for ARP; [Incoming] which TCP segment the bytes of a
      frame carry, and what the layers make of it.
    - [Program] (netns.cpp, main.cpp): a namespace and the sockets above it,
      which share the connection table and the [io_context]; the application
      takes its own fields for both only while it runs.  [Prior] has the
      operations that do not look at what was posted or emitted before them,
      [ProgramFacts] the refinement of the model of [Socket], [ProgramOk] the
      invariant.  [EchoFrame] and [EchoOpen] follow the frames of a connection
      through the program, texts and the handshake; [EchoServer] has the
      abstract echo server, and that the program of main.cpp implements it;
      [Segments]: the segments of one text on their way to the device.
      [ClientOpen] is the other side: a program that connects; [ClientTalk]:
      that writes and reads then; [Neighbours]: the steps of [Resolve] in
      programs.
    - [Wire]: two programs on hosts of their own.  [at_side] runs one and puts
      what its device writes on the wire, [deliver] completes a read of the
      other device with it.  [TwoPrograms]: the handshake of the client
      with the echo server; [Exchange]: a text of several segments there and
      back; [Session]: the whole.

    ** What is shown

    - The whole, end to end.  [texts_come_back]: a client program and the echo
      server, with all layers of both hosts between them; what the client
      writes it reads back, in as many segments as it takes.  They may be strangers, that is, know no MAC
      address but their own.
    - Data transfer.  [drain_sends_unsent]: the sending loop ends and sends
      the unsent bytes once, in order, in segments of at most the MSS.
      [receive_stream]: for any interleaving of reads and in-sequence segments
      the bytes delivered are a prefix of the bytes received.
      [data_transfer] joins the two ends, and [segment_crosses] takes a
      segment through TCP, IPv4 and Ethernet of one host and up the layers of
      another.  [datagram_length_bounds] has the limits of its length.
    - Sockets.  [async_read_refines] and [async_read_completes]: [async_read]
      is an exact reader of the stream.  [acceptor_takes_connection],
      [echo_accepts] and [echo_stream]: connections go to the accepts in
      order, and the echo server sends back what it was sent.
      [unconnected_socket_throws] is what happens without a connection: the
      methods that need one throw and change nothing.
    - The whole namespace.  [namespace_stays_well_formed] and
      [io_context_runs_dry]: any interleaving of frames, completed writes,
      calls and closures keeps the invariant, and without input the closures
      run out.  [ping_is_answered] follows a frame up and its answer down,
      [neighbour_is_found] a datagram that waits until ARP has found the MAC
      address of its next hop.
    - The whole program.  [program_refines_application]: the sockets above a
      namespace go through the steps that [Socket] allows them, with the
      segments that the frames carry, and the packets they queue are handed
      to TCP as they are, so that what is shown of the sockets over the
      connection table alone holds of the whole.  It is a theorem of the
      composition: the handlers of sockets and connections are the same on
      both sides, and have theorems of their own.  [program_stays_well_formed] is the invariant with the
      application on top.  [echo_server_refines_spec]: from frame to frame,
      the program of main.cpp is an abstract echo server with any number of
      clients, whose handshakes and texts interleave; [frames_are_echoed] is
      the conversation of one of them.  [client_connects]: a program that
      calls [async_connect], from the frame with its SYN to its callback.
    - States.  [tcb_inv] is kept by every operation (the [_wp] lemmas of
      [TcbState]); [reachable_states] lists the states a connection can have,
      [process_remote_faults] the faults a peer can provoke,
      [posted_tasks_complete] shows that posted closures always complete, and
      [three_way_handshake] runs the handshake between two blocks.
    - Order.  [posted_closures_fifo], [raw_sockets_fifo],
      [resolutions_in_order] and [device_writes_in_order] show that the queues
      of a layer, of a raw socket, of the callers of ARP and of a device keep
      their order under any interleaving.  [interceptions_in_order] is the
      same for the connections that an interceptor takes and the callbacks
      that ask for them; [intercepted_connection] has what else happens to
      them.
    - Resources.  [descriptors_closed_once] shows that moves keep one owner
      for each descriptor; copies, and the two members of a device that own
      the same descriptor, do not.
    - Each layer: what a handler does on every branch, faults included
      ([parse_segment_spec], [async_write_spec], [process_demultiplexes],
      [tcp_process_checksum], [icmp_process_spec], [arp_process_spec],
      [ip_process_spec], [ip_make_packet_spec], [next_hop_after]).
    - Formats: [tcp_header_roundtrip], [headers_bijection],
      [options_roundtrip], [checksum_rfc1071], [endpoint_text_roundtrip].
    - Departures from RFC 793 and other surprises, as theorems of what the
      code does: stale and future acknowledgments, gaps, wrap-around of
      sequence numbers, resets, FIN, missing MSS options, and the checksum of
      an odd length on a big-endian host ([checksum_big_endian_odd]).

    ** Fuel

    [decode_loop] has the length of the options as fuel
    ([decode_options_terminates]); [fold_sum] has two rounds, which are enough
    for any 32-bit sum ([fold_sum_spec]); [send_loop] has the length of the
    send queue ([drain_sends_unsent]); [mgr_async_connect] has the list of the
    ports that the generator draws, since the loop of the source need not end.
    [run_until_idle] counts the closures to run: [io_context_runs_dry] gives a
    number after which none is left, and any more run nothing; an answered
    ping takes four, a request of ARP three, its answer two.
    [prog_until_idle] counts them for a program: an echoed frame takes eight
    ([frames_are_echoed]), an answered SYN five, an accepted connection one, a
    SYN,ACK six, a text that a client writes two and five for each byte at
    most ([say_fuel]), since a segment takes five and has a byte.  The wire
    between them is quiet after three frames of the handshake, five with those
    of ARP, for which [until_quiet] has eight, and after three for each
    segment of a text, for which it has three for each byte; a device has no
    more frames to write than the [backlog] that [settle] counts.
    [digits] has twenty decimal digits, which hold
    [2 ^ 64] ([number_digits]).

    ** Bounds

    Where a checksum is to be valid and a host may be big-endian, the segment
    or message has an even length, since the code is wrong for odd ones
    there.  Theorems that exclude the wrap-around of sequence numbers say so with a
    hypothesis below [2 ^ 32], because the code compares sequence numbers as
    plain integers; [wrapped_window_rejects_acks] and
    [wrapped_next_inverts_clamp] show what happens beyond.  A read behind the
    contents of a received buffer is the fault [OutOfBounds], although the
    allocation may be longer: those bytes are indeterminate.

    ** What is not modelled

    What the system calls do that open a TAP device (device.cpp,
    file_desc.hpp), beyond what they return; logging by spdlog; the hash
    functions of the libraries, which [Addr] combines as the source does,
    while a key of a map is compared by equality; [main] itself beyond its
    first argument and the server it starts, as it calls members that the
    library does not have at this commit.

    In a namespace without an application ([Netns]) the callbacks of a
    connection call only operations of this connection; in a [Program] they
    are those of [Socket].  The callbacks of interception rules are assumed
    not to throw in both; [Intercept] has what happens when they do.  A
    program has one namespace, so that the two ends of a connection are two
    programs.  The [Wire] loses and reorders nothing, and gives
    a device a frame only when the program that reads it is idle; what else a
    network does is covered by the theorems in which frames are arguments.
    There a text fits the window.  A handler runs to its end before the next
    one, so that a callback which calls back into the layer that calls it is a
    sequence of calls at the point where it is called ([run_task]). *)

From Stdlib Require Export ZArith Lia.
From stdpp Require Export base gmap sets list strings.
From coqutil Require Export Byte Word.LittleEndianList.

#[global] Open Scope Z_scope.

(** ** Faults

    The ways a C++ function of the program can fail to return normally.  The
    build type defaults to Debug, so [assert] is active and aborts. *)

Inductive fault : Type :=
| AssertFail             (** an [assert] whose condition is false *)
| OutOfBounds            (** access outside a span or the contents of a buffer *)
| NullDeref              (** dereference of an empty [unique_ptr] *)
| ClampInverted          (** [std::clamp] called with [hi < lo] *)
| EmptyQueue             (** [front] or [pop] of an empty [std::queue] *)
| BadFunctionCall        (** call of an empty [std::function] *)
| Dangling               (** use of an erased iterator or a dead reference *)
| Thrown (what : string) (** an exception that leaves the function *)
| OutOfFuel.             (** the fuel of a modelled loop ran out *)

#[export] Instance fault_eq_dec : EqDecision fault.
Proof. solve_decision. Defined.

Inductive result (A : Type) : Type :=
| Ok (a : A)
| Fault (f : fault).
Arguments Ok {A} a.
Arguments Fault {A} f.

#[export] Instance result_ret : MRet result := @Ok.
#[export] Instance result_bind : MBind result := λ A B k m,
  match m with Ok a => k a | Fault f => Fault f end.

(** [assert(b)] *)
Definition assert_ (b : bool) : result unit := if b then Ok () else Fault AssertFail.

(** ** State, output and faults

    The operations of a component are functions from its state to a fault or
    to a result, the new state and the calls it makes to its environment, in
    program order. *)

Definition M (S E A : Type) : Type := S → result (A * S * list E).

#[export] Instance M_ret {S E} : MRet (M S E) := λ A a s, Ok (a, s, []).
#[export] Instance M_bind {S E} : MBind (M S E) := λ A B k m s,
  match m s with
  | Ok (a, s1, e1) =>
      match k a s1 with
      | Ok (b, s2, e2) => Ok (b, s2, e1 ++ e2)
      | Fault f => Fault f
      end
  | Fault f => Fault f
  end.

Section Monad.
Context {S E : Type}.
Definition get : M S E S := λ s, Ok (s, s, []).
Definition gets {A} (f : S → A) : M S E A := λ s, Ok (f s, s, []).
Definition modify (f : S → S) : M S E unit := λ s, Ok ((), f s, []).
Definition emit (e : E) : M S E unit := λ s, Ok ((), s, [e]).
Definition fail {A} (f : fault) : M S E A := λ _, Fault f.
Definition lift {A} (r : result A) : M S E A := λ s,
  match r with Ok a => Ok (a, s, []) | Fault f => Fault f end.
Definition when (b : bool) (m : M S E unit) : M S E unit :=
  if b then m else mret ().
End Monad.

(** An operation of a part, as an operation of the whole: [f] reads the part,
    [g] replaces it, [h] is what the whole makes of the part's output. *)
Definition zoom {S1 E1 S E A} (f : S → S1) (g : S1 → S → S) (h : E1 → E) (m : M S1 E1 A)
    : M S E A := λ s,
  match m (f s) with
  | Ok (a, s1, es) => Ok (a, g s1 s, h <$> es)
  | Fault e => Fault e
  end.

(** The weakest precondition of an operation: [Q] of the result, the final
    state and the output, or [F] of the fault. *)
Definition wp {S E A} (m : M S E A) (Q : A → S → list E → Prop) (F : fault → Prop)
    (s : S) : Prop :=
  match m s with
  | Ok (a, s', es) => Q a s' es
  | Fault f => F f
  end.

Create HintDb mstack discriminated.

Section WpRules.
Context {S E : Type}.
Implicit Types (s : S) (F : fault → Prop).

Lemma wp_ret {A} (a : A) (Q : A → S → list E → Prop) F s :
  Q a s [] → wp (mret a) Q F s.
Proof. done. Qed.

Lemma wp_bind {A B} (m : M S E A) (k : A → M S E B) Q F s :
  wp m (λ a s1 e1, wp (k a) (λ b s2 e2, Q b s2 (e1 ++ e2)) F s1) F s →
  wp (m ≫= k) Q F s.
Proof.
  unfold wp, mbind, M_bind. destruct (m s) as [[[a s1] e1]|f]; [|done].
  by destruct (k a s1) as [[[b s2] e2]|f].
Qed.

Lemma wp_mono {A} (m : M S E A) (Q Q' : A → S → list E → Prop) (F F' : fault → Prop) s :
  wp m Q F s → (∀ a s' es, Q a s' es → Q' a s' es) → (∀ f, F f → F' f) →
  wp m Q' F' s.
Proof. unfold wp. destruct (m s) as [[[a s1] e1]|f]; auto. Qed.

Lemma wp_get (Q : S → S → list E → Prop) F s : Q s s [] → wp get Q F s.
Proof. done. Qed.

Lemma wp_gets {A} (f : S → A) Q F s : Q (f s) s [] → wp (E:=E) (gets f) Q F s.
Proof. done. Qed.

Lemma wp_modify (f : S → S) Q F s : Q () (f s) [] → wp (E:=E) (modify f) Q F s.
Proof. done. Qed.

Lemma wp_emit (e : E) Q F s : Q () s [e] → wp (emit e) Q F s.
Proof. done. Qed.

Lemma wp_lift {A} (r : result A) Q F s :
  (∀ a, r = Ok a → Q a s []) → (∀ f, r = Fault f → F f) → wp (E:=E) (lift r) Q F s.
Proof. unfold wp, lift. destruct r; eauto. Qed.

Lemma wp_when (b : bool) (m : M S E unit) Q F s :
  (b = true → wp m Q F s) → (b = false → Q () s []) → wp (when b m) Q F s.
Proof. destruct b; cbn; intros; [|apply wp_ret]; auto. Qed.

Lemma wp_and {A} (m : M S E A) (Q1 Q2 : A → S → list E → Prop) F s :
  wp m Q1 F s → wp m Q2 F s → wp m (λ a s' es, Q1 a s' es ∧ Q2 a s' es) F s.
Proof. unfold wp. destruct (m s) as [[[a s1] e1]|f]; auto. Qed.

(** What a [wp] says of a run that returned. *)
Lemma wp_run {A} (m : M S E A) Q F s a s' es :
  wp m Q F s → m s = Ok (a, s', es) → Q a s' es.
Proof. unfold wp. intros Hw Hm. by rewrite Hm in Hw. Qed.
End WpRules.

Lemma wp_zoom {S E S1 E1 A} (f : S → S1) (g : S1 → S → S) (h : E1 → E) (m : M S1 E1 A) Q F (s : S) :
  wp m (λ a s1 es, Q a (g s1 s) (h <$> es)) F (f s) → wp (zoom f g h m) Q F s.
Proof. unfold wp, zoom. by destruct (m (f s)) as [[[a s1] e1]|]. Qed.

(** One symbolic step of a [wp] goal; an operation's name is not unfolded. *)
Ltac wp_step :=
  lazymatch goal with
  | |- wp (_ ≫= _) _ _ _ => apply wp_bind
  | |- wp (mret _) _ _ _ => apply wp_ret
  | |- wp get _ _ _ => apply wp_get
  | |- wp (gets _) _ _ _ => apply wp_gets
  | |- wp (modify _) _ _ _ => apply wp_modify
  | |- wp (emit _) _ _ _ => apply wp_emit
  | |- wp (when _ _) _ _ _ => apply wp_when; intro
  end; cbv beta.
Ltac wp_steps := repeat wp_step.

(** ** Machine integers: [Z] with the wrap-around of the C++ type *)

Definition u8 (z : Z) : Z := z mod 2 ^ 8.
Definition u16 (z : Z) : Z := z mod 2 ^ 16.
Definition u32 (z : Z) : Z := z mod 2 ^ 32.
Definition u64 (z : Z) : Z := z mod 2 ^ 64.

(** [z] is a value of an unsigned type of [w] bits. *)
Definition is_u (w : Z) (z : Z) : Prop := 0 ≤ z < 2 ^ w.
#[export] Instance is_u_dec w z : Decision (is_u w z).
Proof. unfold is_u. apply _. Defined.

(** Truth value of a one-bit field, and back. *)
Definition bit (z : Z) : bool := negb (z =? 0).
Definition of_bool (b : bool) : Z := if b then 1 else 0.

Abbreviation len l := (Z.of_nat (length l)).

Lemma u8_is_u z : is_u 8 (u8 z).
Proof. unfold is_u, u8. apply Z.mod_pos_bound. lia. Qed.
Lemma u16_is_u z : is_u 16 (u16 z).
Proof. unfold is_u, u16. apply Z.mod_pos_bound. lia. Qed.
Lemma u32_is_u z : is_u 32 (u32 z).
Proof. unfold is_u, u32. apply Z.mod_pos_bound. lia. Qed.
Lemma u32_small z : is_u 32 z → u32 z = z.
Proof. unfold is_u, u32. apply Z.mod_small. Qed.
Lemma u16_small z : is_u 16 z → u16 z = z.
Proof. unfold is_u, u16. apply Z.mod_small. Qed.
Lemma u8_small z : is_u 8 z → u8 z = z.
Proof. unfold is_u, u8. apply Z.mod_small. Qed.

#[export] Hint Resolve u8_is_u u16_is_u u32_is_u : mstack.

(** [lia] with the powers of two and the wrap functions written out. *)
Ltac uwords :=
  unfold is_u, u8, u16, u32, u64 in *;
  change (2 ^ 1) with 2 in *; change (2 ^ 4) with 16 in *;
  change (2 ^ 8) with 256 in *; change (2 ^ 13) with 8192 in *;
  change (2 ^ 16) with 65536 in *;
  change (2 ^ 32) with 4294967296 in *;
  change (2 ^ 48) with 281474976710656 in *;
  change (2 ^ 64) with 18446744073709551616 in *.
Ltac ulia := uwords; Z.div_mod_to_equations; lia.

(** Deciding a property of every value of a small width by computation. *)
Fixpoint all_bits (w : nat) (P : Z → bool) : bool :=
  match w with
  | O => P 0
  | S w => all_bits w (λ z, P (2 * z)) && all_bits w (λ z, P (2 * z + 1))
  end.
Definition all_u (w : Z) (P : Z → bool) : bool := all_bits (Z.to_nat w) P.

Lemma all_bits_spec w P z : all_bits w P = true → is_u (Z.of_nat w) z → P z = true.
Proof.
  revert P z. induction w as [|w IH]; intros P z HP Hz; unfold is_u in *.
  - cbn in HP. replace z with 0 by lia. done.
  - apply andb_prop in HP as [H0 H1].
    rewrite Nat2Z.inj_succ, Z.pow_succ_r in Hz by lia.
    pose proof (Z.div_mod z 2). pose proof (Z.mod_pos_bound z 2).
    destruct (decide (z mod 2 = 0)).
    + replace z with (2 * (z / 2)) by lia. apply (IH (λ z, P (2 * z))); [done|lia].
    + replace z with (2 * (z / 2) + 1) by lia. apply (IH (λ z, P (2 * z + 1))); [done|lia].
Qed.

Lemma all_u_spec w P z : all_u w P = true → 0 ≤ w → is_u w z → P z = true.
Proof. intros HP Hw Hz. eapply all_bits_spec; [done|]. by rewrite Z2Nat.id. Qed.

(** ** Bytes *)

#[export] Instance byte_eq_dec : EqDecision byte := Byte.byte_eq_dec.

Lemma byte_range b : is_u 8 (byte.unsigned b).
Proof. unfold is_u. apply byte.unsigned_range. Qed.

(** The host: its byte order, and the contents of memory the program
    allocates without initialising ([make_unique_for_overwrite]). *)
Inductive endian : Type := Little | Big.

Class Host : Type := {
  host_endian : endian;
  host_junk : nat → byte;
}.

(** [std::make_unique_for_overwrite<std::byte[]>(n)] *)
Definition make_unique_for_overwrite `{Host} (n : Z) : list byte :=
  host_junk <$> seq 0 (Z.to_nat n).

Lemma length_make_unique `{Host} n : 0 ≤ n → len (make_unique_for_overwrite n) = n.
Proof. intros. unfold make_unique_for_overwrite. rewrite length_fmap, length_seq. lia. Qed.

(** ** Cursors

    A function that takes a [std::byte*&] reads the memory at the cursor and
    advances it: its state is the memory from the cursor to the end of the
    allocation. *)

Definition parser (A : Type) : Type := list byte → result (A * list byte).

#[export] Instance parser_ret : MRet parser := λ A a ptr, Ok (a, ptr).
#[export] Instance parser_bind : MBind parser := λ A B k m ptr,
  match m ptr with Ok (a, ptr') => k a ptr' | Fault f => Fault f end.

Lemma parser_bind_Ok {A B} (m : parser A) (k : A → parser B) ptr a ptr' :
  m ptr = Ok (a, ptr') → (m ≫= k) ptr = k a ptr'.
Proof. unfold mbind, parser_bind. by intros ->. Qed.

Lemma parser_bind_inv {A B} (m : parser A) (k : A → parser B) ptr b ptr' :
  (m ≫= k) ptr = Ok (b, ptr') → ∃ a ptr1, m ptr = Ok (a, ptr1) ∧ k a ptr1 = Ok (b, ptr').
Proof.
  unfold mbind, parser_bind. destruct (m ptr) as [[a ptr1]|f]; [|done]. eauto.
Qed.

(** ** Spans *)

(** [span.subspan(off, cnt)] and [span.subspan(off)] *)
Definition subspan {A} (off cnt : Z) (buf : list A) : result (list A) :=
  if (0 <=? off) && (0 <=? cnt) && (off + cnt <=? len buf)
  then Ok (take (Z.to_nat cnt) (drop (Z.to_nat off) buf))
  else Fault OutOfBounds.

Definition subspan_from {A} (off : Z) (buf : list A) : result (list A) :=
  if (0 <=? off) && (off <=? len buf)
  then Ok (drop (Z.to_nat off) buf)
  else Fault OutOfBounds.

(** [span[i]] *)
Definition span_at (i : Z) (buf : list byte) : result byte :=
  if 0 <=? i then
    match buf !! Z.to_nat i with Some b => Ok b | None => Fault OutOfBounds end
  else Fault OutOfBounds.

(** Writing [bs] into [buf] at [off]. *)
Definition write_at {A} (off : Z) (bs buf : list A) : result (list A) :=
  if (0 <=? off) && (off + len bs <=? len buf)
  then Ok (take (Z.to_nat off) buf ++ bs ++ drop (Z.to_nat off + length bs) buf)
  else Fault OutOfBounds.

Lemma subspan_Ok {A} off cnt (buf r : list A) :
  subspan off cnt buf = Ok r →
  0 ≤ off ∧ 0 ≤ cnt ∧ off + cnt ≤ len buf ∧
  r = take (Z.to_nat cnt) (drop (Z.to_nat off) buf) ∧ len r = cnt.
Proof.
  unfold subspan. case_match eqn:E; [|done]. intros [= <-].
  apply andb_prop in E as [[? ?]%andb_prop ?].
  split_and!; [lia|lia|lia|done|]. rewrite length_take, length_drop. lia.
Qed.

Lemma write_at_Ok {A} off (bs buf r : list A) :
  write_at off bs buf = Ok r →
  0 ≤ off ∧ off + len bs ≤ len buf ∧ length r = length buf ∧
  take (Z.to_nat off) r = take (Z.to_nat off) buf ∧
  drop (Z.to_nat off) r = bs ++ drop (Z.to_nat off + length bs) buf.
Proof.
  unfold write_at. case_match eqn:E; [|done]. intros [= <-].
  apply andb_prop in E as [?%Z.leb_le ?%Z.leb_le].
  assert (Z.to_nat off ≤ length buf)%nat by lia.
  split_and!; [lia|lia|..].
  - rewrite !length_app, length_take, length_drop. lia.
  - rewrite take_app_length'; [done|]. rewrite length_take. lia.
  - rewrite drop_app_length'; [done|]. rewrite length_take. lia.
Qed.

Lemma write_at_total {A} off (bs buf : list A) :
  0 ≤ off → off + len bs ≤ len buf → ∃ r, write_at off bs buf = Ok r.
Proof. intros. unfold write_at. rewrite !(proj2 (Z.leb_le _ _)) by done. eauto. Qed.
