(* ===== verification/Utils.v ===== *)
(** * utils.hpp: byte order and the Internet checksum

    [byteswap], [hton]/[ntoh], the cursor functions [consume_from_net] and
    [produce_to_net], [sum_every_16bits] and [checksum].  The functions are
    written for either byte order of the host, as the source is; the lemmas
    show what reaches the wire. *)

From S2P Require Import Prelude.

(** ** Native loads and stores *)

(** The integer an [n]-byte native load of [bs] reads, and the bytes an
    [n]-byte native store of [z] writes. *)
Definition native_load `{Host} (bs : list byte) : Z :=
  match host_endian with Little => le_combine bs | Big => le_combine (rev bs) end.
Definition native_store `{Host} (n : nat) (z : Z) : list byte :=
  match host_endian with Little => le_split n z | Big => rev (le_split n z) end.

(** The network representation: most significant byte first. *)
Definition be_split (n : nat) (z : Z) : list byte := rev (le_split n z).
Definition be_combine (bs : list byte) : Z := le_combine (rev bs).

(** ** Byte order *)

Definition byteswap `{Host} (n : nat) (value : Z) : Z :=
  native_load (rev (native_store n value)).

Definition big_to_native `{Host} (n : nat) (v : Z) : Z :=
  match host_endian with Little => byteswap n v | Big => v end.
Definition native_to_big `{Host} (n : nat) (v : Z) : Z := big_to_native n v.

(** The conversions from and to the little-endian order, which nothing in the
    repository calls. *)
Definition little_to_native `{Host} (n : nat) (v : Z) : Z :=
  match host_endian with Big => byteswap n v | Little => v end.
Definition native_to_little `{Host} (n : nat) (v : Z) : Z := little_to_native n v.
Definition little_to_big `{Host} (n : nat) (v : Z) : Z := byteswap n v.
Definition big_to_little `{Host} (n : nat) (v : Z) : Z := byteswap n v.

Definition hton `{Host} (n : nat) (value : Z) : Z := native_to_big n value.
Definition ntoh `{Host} (n : nat) (value : Z) : Z := big_to_native n value.

(** ** Cursors

    [ptr] is the memory from the cursor to the end of its allocation; reading
    past it is a fault.  [n] is [sizeof(T)]. *)

Definition consume_from_net `{Host} (n : nat) : parser Z := λ ptr,
  if decide (n ≤ length ptr)%nat then
    let ret := native_load (take n ptr) in
    Ok (if (1 <? Z.of_nat n) then ntoh n ret else ret, drop n ptr)
  else Fault OutOfBounds.

(** The bytes [produce_to_net] stores at the cursor; the callers write the
    bytes of consecutive calls one after the other. *)
Definition produce_to_net `{Host} (n : nat) (t : Z) : list byte :=
  if (1 <? Z.of_nat n) then native_store n (ntoh n t) else native_store n t.

(** ** The Internet checksum *)

(** The words [sum_every_16bits] adds: native 16-bit loads, and the left-over
    byte as a [uint8_t]. *)
Fixpoint sum_words `{Host} (sum : Z) (buf : list byte) : Z :=
  match buf with
  | b0 :: b1 :: rest => sum_words (u32 (sum + native_load [b0; b1])) rest
  | [b0] => u32 (sum + byte.unsigned b0)
  | [] => sum
  end.

(** [addr] is the address [buf.data()]. *)
Definition sum_every_16bits `{Host} (addr : Z) (buf : list byte) : result Z :=
  _ ← assert_ (negb (bit (Z.land addr 1)));
  Ok (sum_words 0 buf).

(** [while (sum >> 16) sum = (sum & 0xffff) + (sum >> 16);] *)
Fixpoint fold_sum (fuel : nat) (sum : Z) : result Z :=
  if bit (Z.shiftr sum 16) then
    match fuel with
    | O => Fault OutOfFuel
    | S fuel => fold_sum fuel (u32 (Z.land sum 65535 + Z.shiftr sum 16))
    end
  else Ok sum.

(** Two rounds are enough for any [uint32_t]: [fold_sum_spec]. *)
Definition fold_fuel : nat := 2.

Definition checksum `{Host} (addr : Z) (buf : list byte) (start_sum : Z) : result Z :=
  s ← sum_every_16bits addr buf;
  sum ← fold_sum fold_fuel (u32 (start_sum + s));
  Ok (u16 (Z.lnot sum)).

(** ** Lemmas: byte order *)

Lemma length_be_split n z : length (be_split n z) = n.
Proof. unfold be_split. by rewrite length_rev, length_le_split. Qed.

Lemma be_combine_split n z : be_combine (be_split n z) = z mod 2 ^ (Z.of_nat n * 8).
Proof. unfold be_combine, be_split. rewrite rev_involutive. apply le_combine_split. Qed.

Lemma be_split_combine bs : be_split (length bs) (be_combine bs) = bs.
Proof.
  unfold be_combine, be_split. rewrite <- length_rev, split_le_combine.
  apply rev_involutive.
Qed.

Lemma be_split_combine' n bs : length bs = n → be_split n (be_combine bs) = bs.
Proof. intros <-. apply be_split_combine. Qed.

Lemma be_combine_bound bs : 0 ≤ be_combine bs < 2 ^ (8 * len bs).
Proof.
  unfold be_combine. pose proof (le_combine_bound (rev bs)) as Hb.
  by rewrite length_rev in Hb.
Qed.

Lemma produce_to_net_be `{Host} n t : produce_to_net n t = be_split n t.
Proof.
  unfold produce_to_net, ntoh, big_to_native, byteswap, native_load, native_store, be_split.
  destruct (Z.ltb_spec 1 (Z.of_nat n)); destruct host_endian.
  - rewrite split_le_combine'; [done|]. by rewrite length_rev, length_le_split.
  - done.
  - destruct n as [|[|]]; [done..|lia].
  - done.
Qed.

(** [byteswap] is an involution on the values of the type, whatever the host. *)
Lemma native_load_store `{Host} n z : native_load (native_store n z) = z mod 2 ^ (Z.of_nat n * 8).
Proof.
  unfold native_load, native_store. destruct host_endian; rewrite ?rev_involutive; apply le_combine_split.
Qed.

Lemma native_store_load `{Host} n bs : length bs = n → native_store n (native_load bs) = bs.
Proof.
  intros Hn. unfold native_load, native_store. destruct host_endian; [by apply split_le_combine'|].
  rewrite split_le_combine' by (by rewrite length_rev). apply rev_involutive.
Qed.

Lemma length_native_store `{Host} n z : length (native_store n z) = n.
Proof. unfold native_store. case_match; by rewrite ?length_rev, length_le_split. Qed.

Lemma byteswap_involutive `{Host} n z : byteswap n (byteswap n z) = z mod 2 ^ (Z.of_nat n * 8).
Proof.
  unfold byteswap. rewrite native_store_load by (by rewrite length_rev, length_native_store).
  by rewrite rev_involutive, native_load_store.
Qed.

(** A value stored after [native_to_little] is least significant byte first,
    and going through the host's order is the direct conversion. *)
Lemma native_to_little_le `{Host} n z : native_store n (native_to_little n z) = le_split n z.
Proof.
  unfold native_to_little, little_to_native, byteswap. destruct host_endian eqn:E.
  - unfold native_store. by rewrite E.
  - rewrite native_store_load by (by rewrite length_rev, length_native_store).
    unfold native_store. rewrite E. apply rev_involutive.
Qed.

Lemma little_native_big `{Host} n z : native_to_big n (little_to_native n z) = little_to_big n z.
Proof.
  unfold native_to_big, big_to_native, little_to_native, little_to_big. by destruct host_endian.
Qed.

Lemma big_native_little `{Host} n z : native_to_little n (big_to_native n z) = big_to_little n z.
Proof.
  unfold native_to_little, little_to_native, big_to_native, big_to_little. by destruct host_endian.
Qed.

Lemma length_produce_to_net `{Host} n t : length (produce_to_net n t) = n.
Proof. by rewrite produce_to_net_be, length_be_split. Qed.

Lemma consume_from_net_be `{Host} n ptr :
  (n ≤ length ptr)%nat →
  consume_from_net n ptr = Ok (be_combine (take n ptr), drop n ptr).
Proof.
  intros Hn. unfold consume_from_net. rewrite decide_True by done.
  assert (length (take n ptr) = n) as Hl by (rewrite length_take; lia).
  do 2 f_equal. set (l := take n ptr) in *. clearbody l.
  unfold ntoh, big_to_native, byteswap, native_load, native_store, be_combine.
  destruct (Z.ltb_spec 1 (Z.of_nat n)); destruct host_endian; try done.
  - by rewrite split_le_combine'.
  - destruct l as [|? [|]]; [done..|]. cbn in Hl. lia.
Qed.

Lemma ntoh_load `{Host} n bs : length bs = n → 1 < Z.of_nat n → ntoh n (native_load bs) = be_combine bs.
Proof.
  intros Hl Hn. pose proof (consume_from_net_be n bs ltac:(lia)) as E. unfold consume_from_net in E.
  rewrite decide_True, take_ge in E by lia. replace (1 <? Z.of_nat n) with true in E by lia.
  by injection E.
Qed.

(** Reading a value back that was just produced. *)
Lemma consume_produce `{Host} n t rest :
  consume_from_net n (be_split n t ++ rest) = Ok (t mod 2 ^ (Z.of_nat n * 8), rest).
Proof.
  rewrite consume_from_net_be by (rewrite length_app, length_be_split; lia).
  rewrite take_app_length', drop_app_length' by (by rewrite length_be_split).
  by rewrite be_combine_split.
Qed.

Lemma u_small n z : is_u (8 * Z.of_nat n) z → z mod 2 ^ (Z.of_nat n * 8) = z.
Proof. intros. apply Z.mod_small. rewrite Z.mul_comm. done. Qed.

Lemma consume_be `{Host} n z rest :
  is_u (8 * Z.of_nat n) z → consume_from_net n (be_split n z ++ rest) = Ok (z, rest).
Proof. intros. rewrite consume_produce. by rewrite u_small. Qed.

(** What a read returned is what the memory at the cursor held. *)
Lemma consume_from_net_inv `{Host} n ptr z rest :
  consume_from_net n ptr = Ok (z, rest) → ptr = be_split n z ++ rest ∧ is_u (8 * Z.of_nat n) z.
Proof.
  intros E. assert (n ≤ length ptr)%nat as Hn.
  { unfold consume_from_net in E. by case_decide. }
  rewrite consume_from_net_be in E by done. injection E as <- <-.
  assert (length (take n ptr) = n) as Hl by (rewrite length_take; lia).
  split.
  - rewrite be_split_combine' by done. by rewrite take_drop.
  - pose proof (be_combine_bound (take n ptr)) as Hb. by rewrite Hl in Hb.
Qed.

(** ** The checksum of RFC 1071 *)

(** The sum of the 16-bit big-endian words of the data, an odd last byte
    padded with zero. *)
Fixpoint be_word_sum (buf : list byte) : Z :=
  match buf with
  | b0 :: b1 :: rest => 256 * byte.unsigned b0 + byte.unsigned b1 + be_word_sum rest
  | [b0] => 256 * byte.unsigned b0
  | [] => 0
  end.

(** The 16-bit ones' complement value of a sum. *)
Definition ones_complement (s : Z) : Z := if s =? 0 then 0 else (s - 1) mod 65535 + 1.

Definition rfc1071 (buf : list byte) : Z := 65535 - ones_complement (be_word_sum buf).

(** The little-endian sum, which the loop of [sum_every_16bits] computes on
    a little-endian host. *)
Fixpoint le_word_sum (buf : list byte) : Z :=
  match buf with
  | b0 :: b1 :: rest => byte.unsigned b0 + 256 * byte.unsigned b1 + le_word_sum rest
  | [b0] => byte.unsigned b0
  | [] => 0
  end.

Definition swap16 (x : Z) : Z := (x mod 256) * 256 + x / 256.

(** Induction over a list two elements at a time. *)
Lemma list_pair_ind {A} (P : list A → Prop) :
  P [] → (∀ x, P [x]) → (∀ x y l, P l → P (x :: y :: l)) → ∀ l, P l.
Proof.
  intros H0 H1 H2. fix IH 1. intros [|x [|y l]]; [done|apply H1|].
  apply H2, IH.
Qed.

Lemma ones_complement_unique s r :
  0 ≤ s → 0 ≤ r ≤ 65535 → (r = 0 ↔ s = 0) → (∃ k, s = r + k * 65535) →
  r = ones_complement s.
Proof.
  intros Hs Hr H0 [k Hk]. unfold ones_complement.
  destruct (Z.eqb_spec s 0); [tauto|].
  assert (r ≠ 0) by tauto.
  rewrite <- (Z.mod_unique (s - 1) 65535 k (r - 1)); lia.
Qed.

Lemma ones_complement_spec s :
  0 ≤ s → 0 ≤ ones_complement s ≤ 65535 ∧ (ones_complement s = 0 ↔ s = 0) ∧
  ∃ k, s = ones_complement s + k * 65535.
Proof.
  intros Hs. unfold ones_complement. destruct (Z.eqb_spec s 0) as [->|].
  { split_and!; [lia|lia|done|]. by exists 0. }
  pose proof (Z.mod_pos_bound (s - 1) 65535).
  split_and!; [lia|lia|lia|]. exists ((s - 1) / 65535).
  pose proof (Z.div_mod (s - 1) 65535). lia.
Qed.

Lemma land_ffff z : Z.land z 65535 = z mod 65536.
Proof. change 65535 with (Z.ones 16). by rewrite Z.land_ones. Qed.

Lemma shiftr_16 z : Z.shiftr z 16 = z / 65536.
Proof. by rewrite Z.shiftr_div_pow2. Qed.

(** The folding loop ends within its fuel, on the ones' complement value. *)
Lemma fold_sum_spec s : is_u 32 s → fold_sum fold_fuel s = Ok (ones_complement s).
Proof.
  intros Hs. unfold fold_fuel. cbn [fold_sum].
  rewrite !land_ffff, !shiftr_16. unfold bit.
  set (s1 := u32 (s mod 65536 + s / 65536)).
  assert (s1 = s mod 65536 + s / 65536 ∧ 0 ≤ s1 ≤ 131070) as [E1 B1].
  { subst s1. ulia. }
  set (s2 := u32 (s1 mod 65536 + s1 / 65536)).
  assert (s2 = s1 mod 65536 + s1 / 65536) as E2 by (subst s2; ulia).
  clearbody s1 s2.
  assert (Hk : ∃ k, s = s1 + k * 65535) by (exists (s / 65536); ulia).
  assert (Hk2 : ∃ k, s1 = s2 + k * 65535) by (exists (s1 / 65536); ulia).
  destruct Hk as [k Hk], Hk2 as [k2 Hk2].
  destruct (Z.eqb_spec (s / 65536) 0); cbn [negb].
  { f_equal. apply ones_complement_unique; [ulia|ulia|done|by exists 0; lia]. }
  destruct (Z.eqb_spec (s1 / 65536) 0); cbn [negb].
  { f_equal. apply ones_complement_unique; [ulia|ulia|ulia|eauto]. }
  destruct (Z.eqb_spec (s2 / 65536) 0); cbn [negb]; [|ulia].
  f_equal. apply ones_complement_unique; [ulia|ulia|ulia|].
  exists (k + k2). lia.
Qed.

Lemma be_word_sum_bound buf : 0 ≤ be_word_sum buf ≤ 65535 * ((len buf + 1) / 2).
Proof.
  induction buf as [|x|x y buf IH] using list_pair_ind; cbn [be_word_sum length].
  - ulia.
  - pose proof (byte_range x). ulia.
  - pose proof (byte_range x). pose proof (byte_range y). ulia.
Qed.

Lemma le_word_sum_bound buf : 0 ≤ le_word_sum buf ≤ 65535 * ((len buf + 1) / 2).
Proof.
  induction buf as [|x|x y buf IH] using list_pair_ind; cbn [le_word_sum length].
  - ulia.
  - pose proof (byte_range x). ulia.
  - pose proof (byte_range x). pose proof (byte_range y). ulia.
Qed.

Lemma lor_disjoint a b n : 0 ≤ n → is_u n a → Z.lor a (Z.shiftl b n) = a + b * 2 ^ n.
Proof.
  intros Hn Ha. pose proof (Z.add_lor_land a (Z.shiftl b n)) as E.
  rewrite Z.shiftl_mul_pow2 in * by done.
  enough (Z.land a (b * 2 ^ n) = 0) by lia.
  apply Z.bits_inj'. intros i Hi. rewrite Z.land_spec, Z.bits_0.
  destruct (decide (i < n)).
  - rewrite Z.mul_pow2_bits_low by lia. apply andb_false_r.
  - unfold is_u in Ha. rewrite <- (Z.mod_small _ _ Ha), Z.mod_pow2_bits_high by lia. done.
Qed.

Lemma le_combine_2 b0 b1 : le_combine [b0; b1] = byte.unsigned b0 + 256 * byte.unsigned b1.
Proof.
  change [b0; b1] with ([b0] ++ [b1]). rewrite le_combine_app, !le_combine_1.
  cbn [length]. change (Z.of_nat 1 * 8) with 8.
  rewrite lor_disjoint; [lia|done|apply byte_range].
Qed.

(** No 32-bit overflow: a datagram is far shorter than 131072 bytes. *)
Lemma sum_words_little `{H : Host} s buf :
  host_endian = Little → 0 ≤ s → s + le_word_sum buf < 2 ^ 32 →
  sum_words s buf = s + le_word_sum buf.
Proof.
  intros He. revert s.
  induction buf as [|x|x y buf IH] using list_pair_ind; intros s Hs Hb;
    cbn [sum_words le_word_sum] in *.
  - lia.
  - pose proof (byte_range x). ulia.
  - unfold native_load. rewrite He, le_combine_2.
    pose proof (byte_range x). pose proof (byte_range y).
    pose proof (le_word_sum_bound buf).
    rewrite u32_small by ulia. rewrite IH; ulia.
Qed.

Lemma sum_words_big `{H : Host} s buf :
  host_endian = Big → Z.even (len buf) = true → 0 ≤ s → s + be_word_sum buf < 2 ^ 32 →
  sum_words s buf = s + be_word_sum buf.
Proof.
  intros He. revert s.
  induction buf as [|x|x y buf IH] using list_pair_ind; intros s Hev Hs Hb;
    cbn [sum_words be_word_sum] in *.
  - lia.
  - done.
  - unfold native_load. rewrite He. cbn [rev app]. rewrite le_combine_2.
    pose proof (byte_range x). pose proof (byte_range y).
    pose proof (be_word_sum_bound buf).
    rewrite u32_small by ulia. rewrite IH; [ulia| |ulia..].
    rewrite <- Hev. cbn [length]. rewrite !Nat2Z.inj_succ.
    by rewrite Z.even_succ_succ.
Qed.

Lemma swap16_range x : is_u 16 x → is_u 16 (swap16 x).
Proof. unfold swap16. ulia. Qed.

Lemma le_split_2 z : le_split 2 z = [byte.of_Z z; byte.of_Z (Z.shiftr z 8)].
Proof. done. Qed.

Lemma byte_of_Z_ext x y : x mod 256 = y mod 256 → byte.of_Z x = byte.of_Z y.
Proof.
  intros E. apply byte.unsigned_inj. rewrite !byte.unsigned_of_Z. exact E.
Qed.

Lemma be_split_2 z : be_split 2 z = [byte.of_Z (Z.shiftr z 8); byte.of_Z z].
Proof. done. Qed.

Lemma be_split_swap16 y : is_u 16 y → be_split 2 (swap16 y) = le_split 2 y.
Proof.
  intros Hy. rewrite be_split_2, le_split_2, !Z.shiftr_div_pow2 by lia.
  unfold swap16. f_equal; [|f_equal]; apply byte_of_Z_ext; ulia.
Qed.

(** Byte order independence of the ones' complement sum. *)
Lemma ones_complement_swap buf :
  ones_complement (be_word_sum buf) = swap16 (ones_complement (le_word_sum buf)).
Proof.
  assert (Hk : ∃ k, 256 * le_word_sum buf = be_word_sum buf + 65535 * k).
  { induction buf as [|x|x y buf [k IH]] using list_pair_ind; cbn [le_word_sum be_word_sum].
    - by exists 0.
    - exists 0. lia.
    - exists (k + byte.unsigned y). lia. }
  destruct Hk as [k Hk].
  pose proof (le_word_sum_bound buf) as [Hl _]. pose proof (be_word_sum_bound buf) as [Hb _].
  destruct (ones_complement_spec _ Hl) as (Hr & H0 & k' & Hk').
  set (r := ones_complement (le_word_sum buf)) in *. clearbody r.
  assert (Hz : be_word_sum buf = 0 ↔ le_word_sum buf = 0).
  { clear -buf. induction buf as [|x|x y buf IH] using list_pair_ind;
      cbn [le_word_sum be_word_sum].
    - done.
    - lia.
    - pose proof (byte_range x). pose proof (byte_range y).
      pose proof (le_word_sum_bound buf). pose proof (be_word_sum_bound buf). ulia. }
  symmetry. apply ones_complement_unique; [done|unfold swap16; ulia|unfold swap16; ulia|].
  (* 256 r = swap16 r + 65535 (r / 256) *)
  exists (256 * k' + r / 256 - k). unfold swap16.
  pose proof (Z.div_mod r 256). lia.
Qed.

Lemma lnot_u16 x : 0 ≤ x ≤ 65535 → u16 (Z.lnot x) = 65535 - x.
Proof. intros. unfold Z.lnot. ulia. Qed.

(** A buffer the host's [sum_every_16bits] treats as RFC 1071 does: on a
    big-endian host the left-over byte would be added in the wrong half. *)
Definition sum_ok `{Host} (buf : list byte) : Prop :=
  len buf ≤ 131070 ∧ (host_endian = Big → Z.even (len buf) = true).

Lemma even_aligned addr : Z.even addr = true → bit (Z.land addr 1) = false.
Proof.
  intros Ha. unfold bit.
  replace (Z.land addr 1) with (addr mod 2) by (symmetry; apply (Z.land_ones addr 1); lia).
  by rewrite Zmod_even, Ha.
Qed.

Lemma checksum_value `{H : Host} addr buf :
  Z.even addr = true → sum_ok buf →
  checksum addr buf 0 = Ok (65535 -
    ones_complement (match host_endian with Little => le_word_sum | Big => be_word_sum end buf)).
Proof.
  intros Ha [Hl Hbig]. unfold checksum, sum_every_16bits.
  rewrite (even_aligned _ Ha).
  cbn -[fold_sum].
  pose proof (le_word_sum_bound buf) as Bl. pose proof (be_word_sum_bound buf) as Bb.
  set (w := match host_endian with Little => le_word_sum | Big => be_word_sum end buf).
  assert (sum_words 0 buf = w ∧ 0 ≤ w < 2 ^ 32) as [-> Hw].
  { subst w. destruct host_endian eqn:E.
    - split; [|ulia]. rewrite sum_words_little; [lia|done|lia|ulia].
    - split; [|ulia]. rewrite sum_words_big; [lia|done|auto|lia|ulia]. }
  rewrite Z.add_0_l, u32_small, fold_sum_spec by done. cbn.
  destruct (ones_complement_spec w) as (Hr & _); [lia|].
  by rewrite lnot_u16.
Qed.

(** A left-over byte on a big-endian host: it is added as it is, where RFC
    1071 pads it with a zero to the right, that is, adds it 256 times. *)
Lemma sum_words_big_odd `{H : Host} s buf b :
  host_endian = Big → Z.even (len buf) = true → 0 ≤ s → s + be_word_sum buf + byte.unsigned b < 2 ^ 32 →
  sum_words s (buf ++ [b]) = s + be_word_sum buf + byte.unsigned b.
Proof.
  intros He. revert s. pose proof (byte_range b).
  induction buf as [|x|x y buf IH] using list_pair_ind; intros s Hev Hs Hb; cbn [be_word_sum] in Hb.
  - cbn [app sum_words be_word_sum]. ulia.
  - done.
  - cbn [app sum_words be_word_sum]. unfold native_load. rewrite He. cbn [rev app].
    rewrite le_combine_2. pose proof (byte_range x). pose proof (byte_range y).
    pose proof (be_word_sum_bound buf). rewrite u32_small by ulia. rewrite IH; [ulia| |ulia..].
    rewrite <- Hev. cbn [length]. rewrite !Nat2Z.inj_succ. by rewrite Z.even_succ_succ.
Qed.

(** So [checksum] is not that of RFC 1071 for an odd length there: TCP
    segments and ICMP messages of odd length get a wrong checksum on a
    big-endian host. *)
Theorem checksum_big_endian_odd `{H : Host} addr buf b :
  host_endian = Big → Z.even addr = true → Z.even (len buf) = true → len buf ≤ 131068 →
  checksum addr (buf ++ [b]) 0 = Ok (65535 - ones_complement (be_word_sum buf + byte.unsigned b)).
Proof.
  intros He Ha Hev Hl. unfold checksum, sum_every_16bits. rewrite (even_aligned _ Ha). cbn -[fold_sum sum_words].
  pose proof (be_word_sum_bound buf) as Bb. pose proof (byte_range b) as Hb.
  rewrite sum_words_big_odd by (done || ulia). rewrite !Z.add_0_l, u32_small by ulia.
  set (w := be_word_sum buf + byte.unsigned b). assert (0 ≤ w < 2 ^ 32) as Hw by (unfold w; ulia).
  clearbody w. rewrite fold_sum_spec by exact Hw. cbn.
  destruct (ones_complement_spec w) as (Hr & _); [lia|]. by rewrite lnot_u16.
Qed.

(** At an even address the checksum of any buffer returns. *)
Lemma checksum_total `{H : Host} addr buf :
  Z.even addr = true → ∃ c, checksum addr buf 0 = Ok c ∧ is_u 16 c.
Proof.
  intros Ha. unfold checksum, sum_every_16bits.
  rewrite (even_aligned _ Ha).
  cbn -[fold_sum]. rewrite fold_sum_spec by apply u32_is_u. eexists. split; [done|apply u16_is_u].
Qed.

Lemma checksum_rfc1071_aux `{H : Host} addr buf :
  Z.even addr = true → sum_ok buf →
  ∃ c, checksum addr buf 0 = Ok c ∧ is_u 16 c ∧
       native_store 2 c = be_split 2 (rfc1071 buf).
Proof.
  intros Ha Hs. eexists. split; [by apply checksum_value|].
  pose proof (le_word_sum_bound buf) as [Bl _]. pose proof (be_word_sum_bound buf) as [Bb _].
  destruct (ones_complement_spec _ Bl) as [Rl _].
  destruct (ones_complement_spec _ Bb) as [Rb _].
  unfold rfc1071, native_store. destruct host_endian; (split; [ulia|]); [|done].
  rewrite ones_complement_swap, <- be_split_swap16 by ulia.
  f_equal. unfold swap16. ulia.
Qed.

(** C40: the checksum routine, stored in native byte order as its callers do,
    puts on the wire exactly the big-endian Internet checksum of RFC 1071, for
    every buffer of at most 131070 bytes at an even address (on a big-endian
    host: of even length). *)
Theorem checksum_rfc1071 `{H : Host} addr buf :
  Z.even addr = true → sum_ok buf →
  ∃ c, checksum addr buf 0 = Ok c ∧ is_u 16 c ∧
       native_store 2 c = be_split 2 (rfc1071 buf).
Proof. apply checksum_rfc1071_aux. Qed.

Lemma be_word_sum_app a b :
  Z.even (len a) = true → be_word_sum (a ++ b) = be_word_sum a + be_word_sum b.
Proof.
  induction a as [|x|x y a IH] using list_pair_ind; cbn [be_word_sum app]; intros He.
  - done.
  - done.
  - cbn [length] in He. rewrite !Nat2Z.inj_succ, Z.even_succ_succ in He.
    rewrite IH by done. lia.
Qed.

Lemma be_word_sum_be_split z : is_u 16 z → be_word_sum (be_split 2 z) = z.
Proof.
  intros Hz. rewrite be_split_2, Z.shiftr_div_pow2 by lia. cbn [be_word_sum].
  rewrite !byte.unsigned_of_Z. unfold byte.wrap. ulia.
Qed.

(** The ones' complement sum of a buffer whose zeroed checksum field has been
    filled in is all ones, so that the receiver's [checksum] is zero. *)
Lemma rfc1071_filled pre post :
  Z.even (len pre) = true →
  rfc1071 (pre ++ be_split 2 (rfc1071 (pre ++ be_split 2 0 ++ post)) ++ post) = 0.
Proof.
  intros He. unfold rfc1071.
  rewrite !be_word_sum_app by (rewrite ?length_be_split; done).
  rewrite (be_word_sum_be_split 0) by (unfold is_u; lia).
  pose proof (be_word_sum_bound pre) as [B1 _]. pose proof (be_word_sum_bound post) as [B2 _].
  set (s := be_word_sum pre + (0 + be_word_sum post)).
  destruct (ones_complement_spec s) as (Hr & H0 & k & Hk); [lia|].
  rewrite be_word_sum_be_split by ulia.
  rewrite <- (ones_complement_unique _ 65535); [lia|lia|lia|lia|exists k; lia].
Qed.

Lemma native_store_inj `{H : Host} c d :
  is_u 16 c → is_u 16 d → native_store 2 c = native_store 2 d → c = d.
Proof.
  intros Hc Hd E. unfold native_store in E.
  assert (le_split 2 c = le_split 2 d) as E'.
  { destruct host_endian; [done|]. rewrite <- (rev_involutive (le_split 2 c)), E.
    apply rev_involutive. }
  apply (f_equal le_combine) in E'. rewrite !le_combine_split in E'. ulia.
Qed.

Lemma native_store_0 `{H : Host} : native_store 2 0 = be_split 2 0.
Proof. unfold native_store. by destruct host_endian. Qed.

(** Filling the zeroed checksum field of a buffer with the value the
    routine computed makes the routine, run again over the whole buffer,
    return zero: the test a receiver performs. *)
Theorem checksum_verifies `{H : Host} addr pre post c :
  Z.even addr = true → Z.even (len pre) = true →
  sum_ok (pre ++ be_split 2 0 ++ post) →
  checksum addr (pre ++ be_split 2 0 ++ post) 0 = Ok c →
  checksum addr (pre ++ native_store 2 c ++ post) 0 = Ok 0.
Proof.
  intros Ha He Hs Hc.
  assert (∀ x, native_store 2 x = be_split 2 (rfc1071 (pre ++ be_split 2 0 ++ post)) →
    checksum addr (pre ++ native_store 2 x ++ post) 0 = Ok 0) as Hgoal.
  { intros x ->.
    assert (sum_ok (pre ++ be_split 2 (rfc1071 (pre ++ be_split 2 0 ++ post)) ++ post)) as Hs'.
    { unfold sum_ok in *. by rewrite !length_app, !length_be_split in *. }
    destruct (checksum_rfc1071_aux addr _ Ha Hs') as (d & -> & Hd & Ed).
    rewrite rfc1071_filled in Ed by done. f_equal.
    apply native_store_inj; [done|unfold is_u; lia|]. by rewrite native_store_0. }
  destruct (checksum_rfc1071_aux addr _ Ha Hs) as (c' & Ec & _ & E).
  rewrite Hc in Ec. injection Ec as ->. by apply Hgoal.
Qed.

(** A big-endian and a little-endian host agree with RFC 1071 on this datagram. *)
Definition test_host (e : endian) : Host := {| host_endian := e; host_junk := λ _, Byte.xcc |}.

(** The byte 1: the code stores 65534, the checksum is 65279. *)
Lemma checksum_big_endian_odd_witness :
  checksum (H := test_host Big) 34 [Byte.x01] 0 = Ok 65534 ∧ rfc1071 [Byte.x01] = 65279.
Proof.
  split; [|reflexivity].
  by apply (checksum_big_endian_odd (H := test_host Big) 34 [] Byte.x01).
Defined.

Lemma checksum_rfc1071_witness :
  let H := test_host Little in
  ∃ c, checksum 34 [Byte.x08; Byte.x00; Byte.x12; Byte.x34; Byte.xff] 0 = Ok c ∧ is_u 16 c ∧
       native_store 2 c = be_split 2 (rfc1071 [Byte.x08; Byte.x00; Byte.x12; Byte.x34; Byte.xff]).
Proof.
  apply (checksum_rfc1071 (H := test_host Little)); [reflexivity|split; [cbn; lia|done]].
Defined.

Lemma checksum_verifies_witness :
  let H := test_host Big in
  ∃ c, checksum 14 [Byte.x45; Byte.x00; Byte.x00; Byte.x00; Byte.x01; Byte.xff] 0 = Ok c ∧
  checksum 14 ([Byte.x45; Byte.x00] ++ native_store 2 c ++ [Byte.x01; Byte.xff]) 0 = Ok 0.
Proof.
  cbv zeta. eexists. split; [vm_compute; reflexivity|].
  apply (checksum_verifies (H := test_host Big) 14 [Byte.x45; Byte.x00] [Byte.x01; Byte.xff]);
    [reflexivity|reflexivity|split; [vm_compute; discriminate|done]|vm_compute; reflexivity].
Defined.
