(* ===== verification/Skbuff.v ===== *)
(** * skbuff.hpp: the packet buffer

    A buffer owns an allocation [skb_data] of [capacity_] bytes; [start_] is
    offset 0, [end_] the capacity, and [head_] and [tail_] are offsets from
    [start_].  Layers strip a header with [pop_front] and prepend one with
    [push_front] into the room in front of [head_]. *)

From S2P Require Import Prelude Utils.

Record skbuff : Type := mk_skb {
  skb_data : list byte;
  skb_head : Z;
  skb_tail : Z;
}.

#[export] Instance skbuff_eq_dec : EqDecision skbuff.
Proof. solve_decision. Defined.

(** [skbuff(buf, len, head_off)]: [data_] is [buf], whose length is [len]. *)
Definition skb_new (buf : list byte) (head_off : Z) : result skbuff :=
  _ ← assert_ (negb (len buf <? head_off));
  Ok {| skb_data := buf; skb_head := head_off; skb_tail := len buf |}.

Definition capacity (s : skbuff) : Z := len (skb_data s).
Definition headroom (s : skbuff) : Z := skb_head s.
Definition tailroom (s : skbuff) : Z := capacity s - skb_tail s.

(** [{head(), tail()}] *)
Definition payload (s : skbuff) : list byte :=
  take (Z.to_nat (skb_tail s - skb_head s)) (drop (Z.to_nat (skb_head s)) (skb_data s)).

(** The memory from [head()] to the end of the allocation: what a cursor that
    starts at [head()] can read. *)
Definition head (s : skbuff) : list byte := drop (Z.to_nat (skb_head s)) (skb_data s).

(** The copy constructor. *)
Definition skb_copy (other : skbuff) : skbuff := {|
  skb_data := skb_data other;
  skb_head := headroom other;
  skb_tail := capacity other - tailroom other;
|}.

Definition pop_front (n : Z) (s : skbuff) : result skbuff :=
  let s := {| skb_data := skb_data s; skb_head := skb_head s + n; skb_tail := skb_tail s |} in
  _ ← assert_ (negb (skb_tail s <? skb_head s));
  Ok s.

Definition push_front (n : Z) (s : skbuff) : result skbuff :=
  let s := {| skb_data := skb_data s; skb_head := skb_head s - n; skb_tail := skb_tail s |} in
  _ ← assert_ (negb (skb_head s <? 0));
  Ok s.

Definition pop_back (n : Z) (s : skbuff) : result skbuff :=
  let s := {| skb_data := skb_data s; skb_head := skb_head s; skb_tail := skb_tail s - n |} in
  _ ← assert_ (negb (skb_tail s <? skb_head s));
  Ok s.

Definition push_back (n : Z) (s : skbuff) : result skbuff :=
  let s := {| skb_data := skb_data s; skb_head := skb_head s; skb_tail := skb_tail s + n |} in
  _ ← assert_ (negb (capacity s <? skb_tail s));
  Ok s.

(** A write through [head() + off], as [memcpy] and [produce_to_net] do. *)
Definition skb_write (off : Z) (bs : list byte) (s : skbuff) : result skbuff :=
  d ← write_at (skb_head s + off) bs (skb_data s);
  Ok {| skb_data := d; skb_head := skb_head s; skb_tail := skb_tail s |}.

(** ** Well-formed buffers *)

Definition skb_wf (s : skbuff) : Prop := 0 ≤ skb_head s ≤ skb_tail s ∧ skb_tail s ≤ capacity s.

Lemma length_payload s : skb_wf s → len (payload s) = skb_tail s - skb_head s.
Proof.
  unfold skb_wf, payload, capacity. intros. rewrite length_take, length_drop. lia.
Qed.

Lemma length_head s : skb_wf s → len (head s) = capacity s - skb_head s.
Proof. unfold skb_wf, head, capacity. intros. rewrite length_drop. lia. Qed.

(** The payload is a prefix of what a cursor at [head()] can read. *)
Lemma head_payload s :
  skb_wf s → head s = payload s ++ drop (Z.to_nat (skb_tail s)) (skb_data s).
Proof.
  unfold skb_wf, head, payload, capacity. intros.
  rewrite <- (take_drop (Z.to_nat (skb_tail s - skb_head s))
    (drop (Z.to_nat (skb_head s)) (skb_data s))) at 1.
  f_equal. rewrite drop_drop. f_equal. lia.
Qed.

Lemma skb_new_Ok buf off :
  0 ≤ off ≤ len buf →
  ∃ s, skb_new buf off = Ok s ∧ skb_wf s ∧ payload s = drop (Z.to_nat off) buf ∧
       headroom s = off ∧ capacity s = len buf.
Proof.
  intros. unfold skb_new. rewrite (proj2 (Z.ltb_ge _ _)) by lia. cbn.
  eexists. split; [done|]. unfold skb_wf, payload, capacity. cbn.
  split_and!; [lia..| |done|done]. apply take_ge. rewrite length_drop. lia.
Qed.

Lemma pop_front_spec n s :
  skb_wf s → 0 ≤ n →
  pop_front n s =
    (if n <=? len (payload s)
     then Ok {| skb_data := skb_data s; skb_head := skb_head s + n; skb_tail := skb_tail s |}
     else Fault AssertFail).
Proof.
  intros Hw Hn. unfold pop_front. cbn. rewrite length_payload by done.
  unfold skb_wf in Hw.
  destruct (Z.ltb_spec (skb_tail s) (skb_head s + n));
  destruct (Z.leb_spec n (skb_tail s - skb_head s)); cbn; (done || lia).
Qed.

Lemma pop_front_Ok n s s' :
  skb_wf s → 0 ≤ n → pop_front n s = Ok s' →
  skb_wf s' ∧ payload s' = drop (Z.to_nat n) (payload s) ∧ n ≤ len (payload s) ∧
  headroom s' = headroom s + n ∧ capacity s' = capacity s ∧
  head s' = drop (Z.to_nat n) (head s).
Proof.
  intros Hw Hn. rewrite pop_front_spec by done.
  destruct (Z.leb_spec n (len (payload s))) as [Hl|]; [|done]. intros [= <-].
  rewrite length_payload in Hl by done.
  unfold skb_wf, payload, capacity, headroom, head in *. cbn in *.
  split_and!; [lia..| | | | |].
  - rewrite skipn_firstn_comm, drop_drop. f_equal; [lia|]. f_equal. lia.
  - rewrite length_take, length_drop. lia.
  - done.
  - done.
  - rewrite drop_drop. f_equal. lia.
Qed.

Lemma pop_front_total n s :
  skb_wf s → 0 ≤ n ≤ len (payload s) → ∃ s', pop_front n s = Ok s'.
Proof.
  intros Hw Hn. rewrite pop_front_spec by (done || lia).
  rewrite (proj2 (Z.leb_le n _)) by lia. eauto.
Qed.

Lemma push_front_spec n s :
  skb_wf s → 0 ≤ n →
  push_front n s =
    (if n <=? headroom s
     then Ok {| skb_data := skb_data s; skb_head := skb_head s - n; skb_tail := skb_tail s |}
     else Fault AssertFail).
Proof.
  intros Hw Hn. unfold push_front, headroom, skb_wf in *. cbn.
  destruct (Z.ltb_spec (skb_head s - n) 0); destruct (Z.leb_spec n (skb_head s));
    cbn; (done || lia).
Qed.

(** Prepending a header: [push_front] followed by a write of exactly the
    header at [head()]. *)
Definition prepend (hdr : list byte) (s : skbuff) : result skbuff :=
  s ← push_front (len hdr) s; skb_write 0 hdr s.

Lemma prepend_Ok hdr s :
  skb_wf s → len hdr ≤ headroom s →
  ∃ s', prepend hdr s = Ok s' ∧ skb_wf s' ∧ payload s' = hdr ++ payload s ∧
        headroom s' = headroom s - len hdr ∧ capacity s' = capacity s.
Proof.
  intros Hw Hr. unfold prepend. rewrite push_front_spec by (done || lia).
  rewrite (proj2 (Z.leb_le (len hdr) _)) by lia. cbn. unfold skb_write, skb_wf, capacity, headroom in *. cbn. rewrite Z.add_0_r.
  destruct (write_at_total (skb_head s - len hdr) hdr (skb_data s)) as [d Ed]; [lia..|].
  rewrite Ed. cbn. eexists. split; [done|].
  apply write_at_Ok in Ed as (_ & _ & Hlen & _ & Hdrop). cbn.
  split_and!; [lia..| |done|congruence].
  unfold payload. cbn. rewrite Hdrop.
  replace (Z.to_nat (skb_head s - len hdr) + length hdr)%nat with (Z.to_nat (skb_head s)) by lia.
  rewrite take_app_ge by lia. do 2 f_equal. lia.
Qed.

(** The two steps of [prepend], as the layers take them. *)
Lemma push_write_Ok hdr n s :
  len hdr = n → skb_wf s → n ≤ headroom s →
  ∃ s1 s2, push_front n s = Ok s1 ∧ skb_write 0 hdr s1 = Ok s2 ∧ skb_wf s2 ∧
    payload s2 = hdr ++ payload s ∧ headroom s2 = headroom s - n.
Proof.
  intros <- Hw Hr. destruct (prepend_Ok hdr s Hw Hr) as (s2 & E & Hw2 & Hp & Hh & _).
  unfold prepend in E. destruct (push_front (len hdr) s) as [s1|] eqn:E1; [|done].
  cbn in E. by exists s1, s2.
Qed.

(** Overwriting a field inside the payload. *)
Lemma skb_write_Ok off bs s :
  skb_wf s → 0 ≤ off → off + len bs ≤ len (payload s) →
  ∃ s', skb_write off bs s = Ok s' ∧ skb_wf s' ∧
    payload s' = take (Z.to_nat off) (payload s) ++ bs ++
                 drop (Z.to_nat off + length bs) (payload s) ∧
    headroom s' = headroom s ∧ capacity s' = capacity s.
Proof.
  intros Hw Ho Hb. rewrite length_payload in Hb by done.
  unfold skb_write. unfold skb_wf, capacity, headroom in *.
  destruct (write_at_total (skb_head s + off) bs (skb_data s)) as [d Ed]; [lia..|].
  rewrite Ed. cbn. eexists. split; [done|].
  assert (d = take (Z.to_nat (skb_head s + off)) (skb_data s) ++ bs ++
    drop (Z.to_nat (skb_head s + off) + length bs) (skb_data s)) as ->.
  { unfold write_at in Ed. case_match; [|done]. by injection Ed. }
  apply write_at_Ok in Ed as (_ & _ & Hlen & _ & _). cbn.
  split_and!; [lia..| |done|congruence].
  unfold payload. cbn. set (h := Z.to_nat (skb_head s)).
  replace (Z.to_nat (skb_head s + off)) with (h + Z.to_nat off)%nat by lia.
  set (o := Z.to_nat off). set (n := Z.to_nat (skb_tail s - skb_head s)).
  set (l := skb_data s) in *.
  rewrite drop_app_le by (rewrite length_take; lia).
  rewrite skipn_firstn_comm. replace (h + o - h)%nat with o by lia.
  rewrite take_take, skipn_firstn_comm, drop_drop.
  rewrite take_app_ge by (rewrite length_take, length_drop; lia).
  rewrite take_app_ge by (rewrite length_take, length_drop; lia).
  rewrite length_take, length_drop. f_equal; [f_equal; lia|]. f_equal. f_equal; [lia|].
  f_equal. lia.
Qed.

(** Filling in the checksum of the first part of the payload, whose checksum
    field is zero. *)
Lemma fill_checksum_Ok `{Host} addr n pre post rest s :
  skb_wf s → payload s = (pre ++ be_split 2 0 ++ post) ++ rest → len pre = n →
  Z.even n = true → Z.even (addr + headroom s) = true → sum_ok (pre ++ be_split 2 0 ++ post) →
  ∃ c s', checksum (addr + headroom s) (pre ++ be_split 2 0 ++ post) 0 = Ok c ∧
    skb_write n (native_store 2 c) s = Ok s' ∧ skb_wf s' ∧ headroom s' = headroom s ∧
    payload s' = (pre ++ be_split 2 (rfc1071 (pre ++ be_split 2 0 ++ post)) ++ post) ++ rest ∧
    rfc1071 (pre ++ be_split 2 (rfc1071 (pre ++ be_split 2 0 ++ post)) ++ post) = 0.
Proof.
  intros Hw Hp <- Hn Ha Hs.
  destruct (checksum_rfc1071_aux _ _ Ha Hs) as (c & Ec & _ & Sc).
  destruct (skb_write_Ok (len pre) (native_store 2 c) s) as (s' & Es & Hw' & Hp' & Hh & _);
    [done|lia| |].
  { rewrite Sc, length_be_split, Hp, !length_app, length_be_split. lia. }
  rewrite Sc, length_be_split, Nat2Z.id in Hp'.
  exists c, s'. split_and!; [done..| |by apply rfc1071_filled].
  rewrite Hp', Hp, <- !app_assoc. rewrite take_app_length. do 2 f_equal.
  rewrite app_assoc. apply drop_app_length'. by rewrite length_app, length_be_split.
Qed.

(** Room for the headers of the layers below, at an even offset as the
    checksums need it. *)
Definition has_room (k : Z) (s : skbuff) : Prop :=
  skb_wf s ∧ k ≤ headroom s ∧ Z.even (headroom s) = true.

Lemma has_room_even a k s : has_room k s → Z.even a = true → Z.even (a + headroom s) = true.
Proof. intros (_ & _ & He) Ha. by rewrite Z.even_add, He, Ha. Qed.

Lemma has_room_weaken k k' s : has_room k s → k' ≤ k → has_room k' s.
Proof. intros (? & ? & ?) Hk. unfold has_room. split_and!; [done|lia|done]. Qed.

Lemma pop_front_room k n s s' :
  has_room k s → 0 ≤ n → Z.even n = true → pop_front n s = Ok s' → has_room (k + n) s'.
Proof.
  intros (Hw & Hk & He) Hn Hen E. apply pop_front_Ok in E as (Hw' & _ & _ & Hh & _); [|done..].
  unfold has_room. rewrite Hh. split_and!; [done|lia|by rewrite Z.even_add, He, Hen].
Qed.

Lemma push_write_room hdr n k s :
  len hdr = n → has_room k s → n ≤ k → Z.even n = true →
  ∃ s1 s2, push_front n s = Ok s1 ∧ skb_write 0 hdr s1 = Ok s2 ∧ has_room (k - n) s2 ∧
    payload s2 = hdr ++ payload s ∧ headroom s2 = headroom s - n.
Proof.
  intros Hn (Hw & Hk & He) Hnk Hen.
  destruct (push_write_Ok hdr n s Hn Hw) as (s1 & s2 & E1 & E2 & Hw2 & Hp2 & Hh2); [lia|].
  exists s1, s2. unfold has_room. rewrite Hh2. split_and!; try done; [lia|].
  by rewrite Z.even_sub, He, Hen.
Qed.

Lemma skb_write_room k off bs s :
  has_room k s → 0 ≤ off → off + len bs ≤ len (payload s) →
  ∃ s', skb_write off bs s = Ok s' ∧ has_room k s' ∧ len (payload s') = len (payload s).
Proof.
  intros (Hw & Hk & He) Ho Hb.
  destruct (skb_write_Ok off bs s Hw Ho Hb) as (s' & E & Hw' & Hp & Hh & _).
  exists s'. unfold has_room. rewrite Hh. split_and!; try done.
  rewrite Hp, !length_app, length_take, length_drop. lia.
Qed.

(** Every operation of the buffer that returns keeps
    [start_ <= head_ <= tail_ <= end_]. *)
Theorem skbuff_ops_wf n s s' :
  skb_wf s → 0 ≤ n →
  pop_front n s = Ok s' ∨ push_front n s = Ok s' ∨
  pop_back n s = Ok s' ∨ push_back n s = Ok s' ∨ skb_copy s = s' →
  skb_wf s' ∧ capacity s' = capacity s.
Proof.
  unfold pop_front, push_front, pop_back, push_back, skb_copy, skb_wf, capacity, headroom,
    tailroom, assert_. cbn.
  intros Hw Hn Hop.
  repeat destruct Hop as [Hop|Hop]; revert Hop;
    repeat (case_match; cbn); intros [= <-]; cbn; unfold capacity in *; (split; [|done]); lia.
Qed.

Lemma skbuff_ops_wf_witness :
  skb_wf (mk_skb [Byte.x01; Byte.x02; Byte.x03] 1 3) ∧
  capacity (mk_skb [Byte.x01; Byte.x02; Byte.x03] 1 3) = 3.
Proof.
  apply (skbuff_ops_wf 1 (mk_skb [Byte.x01; Byte.x02; Byte.x03] 0 3));
    [unfold skb_wf, capacity; cbn; lia|lia|left; reflexivity].
Defined.

(** A layer that prepends a header and the layer that strips it agree:
    popping what was just prepended gives back the payload, and the headroom,
    that was there before. *)
Theorem prepend_pop_roundtrip hdr s :
  skb_wf s → len hdr ≤ headroom s →
  ∃ s1 s2, prepend hdr s = Ok s1 ∧ payload s1 = hdr ++ payload s ∧
           pop_front (len hdr) s1 = Ok s2 ∧ payload s2 = payload s ∧
           headroom s2 = headroom s.
Proof.
  intros Hw Hr. destruct (prepend_Ok hdr s Hw Hr) as (s1 & E1 & Hw1 & Hp1 & Hh1 & _).
  destruct (pop_front_total (len hdr) s1 Hw1) as [s2 E2].
  { rewrite Hp1, length_app. lia. }
  exists s1, s2. apply pop_front_Ok in E2 as E2'; [|done|lia].
  destruct E2' as (_ & Hp2 & _ & Hh2 & _ & _).
  split_and!; [done..| |lia].
  rewrite Hp2, Hp1, Nat2Z.id. by rewrite drop_app_length.
Qed.

Lemma prepend_pop_roundtrip_witness :
  let s := mk_skb [Byte.x01; Byte.x02; Byte.x03] 2 3 in
  ∃ s1 s2, prepend [Byte.xaa; Byte.xbb] s = Ok s1 ∧
           payload s1 = [Byte.xaa; Byte.xbb] ++ payload s ∧
           pop_front 2 s1 = Ok s2 ∧ payload s2 = payload s ∧ headroom s2 = headroom s.
Proof.
  apply (prepend_pop_roundtrip [Byte.xaa; Byte.xbb] (mk_skb [Byte.x01; Byte.x02; Byte.x03] 2 3)).
  - unfold skb_wf, capacity; cbn; lia.
  - cbn; lia.
Defined.
