(* ===== verification/Addr.v ===== *)
(** * mac_addr.hpp, ipv4_addr.hpp, endpoint.hpp, packets.hpp: addresses

    The address types, their (defaulted) comparison as decidable equality, the
    instances that make them keys of the program's [std::unordered_map]s, and
    their cursor functions. *)

From S2P Require Import Prelude Utils.

(** ** MAC addresses *)

(** [static_cast<std::byte>] of an integer of one byte, signed or not. *)
Definition to_byte (x : Z) : byte := byte.of_Z x.

(** [std::array<std::byte, 6>] *)
Record mac_addr_t : Type := Mac {
  mac_0 : byte; mac_1 : byte; mac_2 : byte; mac_3 : byte; mac_4 : byte; mac_5 : byte;
}.

#[export] Instance mac_addr_eq_dec : EqDecision mac_addr_t.
Proof. solve_decision. Defined.

Module mac_addr.
(** The default member initialiser [mac mac_{}]. *)
Definition zero : mac_addr_t := Mac Byte.x00 Byte.x00 Byte.x00 Byte.x00 Byte.x00 Byte.x00.
Definition broadcast : mac_addr_t := Mac Byte.xff Byte.xff Byte.xff Byte.xff Byte.xff Byte.xff.

Definition size : Z := 6.

Definition raw (m : mac_addr_t) : list byte :=
  [mac_0 m; mac_1 m; mac_2 m; mac_3 m; mac_4 m; mac_5 m].

Definition is_broadcast (m : mac_addr_t) : bool :=
  forallb (λ b, bool_decide (Byte.xff = b)) (raw m).
Definition is_zero (m : mac_addr_t) : bool :=
  forallb (λ b, bool_decide (Byte.x00 = b)) (raw m).

(** The constructors from an array: of [std::byte], with [cast] the identity,
    and of an integral type of one byte, with [to_byte]. *)
Definition of_array {T} (cast : T → byte) (mac_from : T * T * T * T * T * T) : mac_addr_t :=
  let '(x0, x1, x2, x3, x4, x5) := mac_from in
  Mac (cast x0) (cast x1) (cast x2) (cast x3) (cast x4) (cast x5).
Definition of_c_array {T} (cast : T → byte) (mac_from : T * T * T * T * T * T) : mac_addr_t :=
  of_array cast mac_from.

(** [generate()], of the six bytes the generator draws. *)
Definition generate (hw_addr : mac_addr_t) : mac_addr_t :=
  let b0 := byte.unsigned (mac_0 hw_addr) in
  Mac (byte.of_Z (Z.shiftl (Z.lor (Z.shiftr b0 1) 1) 1))
      (mac_1 hw_addr) (mac_2 hw_addr) (mac_3 hw_addr) (mac_4 hw_addr) (mac_5 hw_addr).

Section Cursor.
Context `{Host}.
Definition consume_byte : parser byte := λ ptr,
  '(z, ptr) ← consume_from_net 1 ptr; Ok (byte.of_Z z, ptr).
Definition consume_from_net : parser mac_addr_t :=
  b0 ← consume_byte; b1 ← consume_byte; b2 ← consume_byte;
  b3 ← consume_byte; b4 ← consume_byte; b5 ← consume_byte;
  mret (Mac b0 b1 b2 b3 b4 b5).
Definition produce_to_net (m : mac_addr_t) : list byte :=
  concat ((λ d, produce_to_net 1 (byte.unsigned d)) <$> raw m).
End Cursor.
End mac_addr.

(** ** IPv4 addresses *)

Record ipv4_addr_t : Type := Ipv4 { raw : Z }.

#[export] Instance ipv4_addr_eq_dec : EqDecision ipv4_addr_t.
Proof. solve_decision. Defined.
#[export] Program Instance ipv4_addr_countable : Countable ipv4_addr_t :=
  inj_countable raw (λ z, Some (Ipv4 z)) _.
Next Obligation. by intros []. Qed.

Module ipv4_addr.
Definition size : Z := 4.
Section Cursor.
Context `{Host}.
Definition consume_from_net : parser ipv4_addr_t :=
  r ← consume_from_net 4; mret (Ipv4 r).
Definition produce_to_net (a : ipv4_addr_t) : list byte := produce_to_net 4 (raw a).
End Cursor.
End ipv4_addr.

(** ** Endpoints and connections *)

Record endpoint : Type := mk_endpoint { addrv4 : ipv4_addr_t; addrv4_port : Z }.

#[export] Instance endpoint_eq_dec : EqDecision endpoint.
Proof. solve_decision. Defined.
#[export] Program Instance endpoint_countable : Countable endpoint :=
  inj_countable (λ e, (addrv4 e, addrv4_port e)) (λ '(a, p), Some (mk_endpoint a p)) _.
Next Obligation. by intros []. Qed.

Record two_ends_t : Type := mk_two_ends { te_remote_ep : endpoint; te_local_ep : endpoint }.

#[export] Instance two_ends_eq_dec : EqDecision two_ends_t.
Proof. solve_decision. Defined.
#[export] Program Instance two_ends_countable : Countable two_ends_t :=
  inj_countable (λ e, (te_remote_ep e, te_local_ep e)) (λ '(a, p), Some (mk_two_ends a p)) _.
Next Obligation. by intros []. Qed.

(** ** Order

    The defaulted [operator<=>]: member by member, the first difference
    decides. *)

Definition lex (c1 c2 : comparison) : comparison := match c1 with Eq => c2 | c => c end.
Fixpoint lex_list {A} (cmp : A → A → comparison) (l1 l2 : list A) : comparison :=
  match l1, l2 with
  | [], [] => Eq
  | [], _ :: _ => Lt
  | _ :: _, [] => Gt
  | x :: l1, y :: l2 => lex (cmp x y) (lex_list cmp l1 l2)
  end.

Definition byte_compare (a b : byte) : comparison := byte.unsigned a ?= byte.unsigned b.
Definition mac_compare (m1 m2 : mac_addr_t) : comparison :=
  lex_list byte_compare (mac_addr.raw m1) (mac_addr.raw m2).
Definition ipv4_compare (a b : ipv4_addr_t) : comparison := raw a ?= raw b.
Definition endpoint_compare (a b : endpoint) : comparison :=
  lex (ipv4_compare (addrv4 a) (addrv4 b)) (addrv4_port a ?= addrv4_port b).
Definition two_ends_compare (a b : two_ends_t) : comparison :=
  lex (endpoint_compare (te_remote_ep a) (te_remote_ep b))
      (endpoint_compare (te_local_ep a) (te_local_ep b)).

(** A strong order: equivalent values are equal. *)
Class Ordered {A} (cmp : A → A → comparison) : Prop := {
  ordered_eq x y : cmp x y = Eq → x = y;
  ordered_opp x y : cmp y x = CompOpp (cmp x y);
  ordered_trans x y z : cmp x y = Lt → cmp y z = Lt → cmp x z = Lt;
}.

(** ** Hashes

    [std::hash] of the keys of the [std::unordered_map]s, of what the
    standard library and Boost hash. *)
Section Hash.
Context (hash_u32 : Z → Z).                 (** [std::hash<uint32_t>] *)
Context (hash_u16 : Z → Z).                 (** [boost::hash<uint16_t>] *)
Context (hash_combine : Z → Z → Z).         (** [boost::hash_combine], of the hash of the value *)
Context (hash_range : list byte → Z).       (** [boost::hash_range] *)

Definition hash_ipv4 (a : ipv4_addr_t) : Z := hash_u32 (raw a).
Definition hash_mac (m : mac_addr_t) : Z := hash_range (mac_addr.raw m).
Definition hash_endpoint (ep : endpoint) : Z :=
  let seed := 0 in
  let seed := hash_combine seed (hash_ipv4 (addrv4 ep)) in
  let seed := hash_combine seed (hash_u16 (addrv4_port ep)) in
  seed.
Definition hash_two_ends (two_ends : two_ends_t) : Z :=
  let seed := 0 in
  let seed := hash_combine seed (hash_endpoint (te_remote_ep two_ends)) in
  let seed := hash_combine seed (hash_endpoint (te_local_ep two_ends)) in
  seed.
End Hash.

(** Values the C++ types can hold. *)
Definition ipv4_ok (a : ipv4_addr_t) : Prop := is_u 32 (raw a).
Definition endpoint_ok (e : endpoint) : Prop := ipv4_ok (addrv4 e) ∧ is_u 16 (addrv4_port e).
#[export] Instance ipv4_ok_dec a : Decision (ipv4_ok a).
Proof. unfold ipv4_ok. apply _. Defined.
#[export] Instance endpoint_ok_dec e : Decision (endpoint_ok e).
Proof. unfold endpoint_ok. apply _. Defined.

(** ** Lemmas *)

#[export] Instance Z_ordered : Ordered Z.compare.
Proof.
  split; [apply Z.compare_eq|intros; apply Z.compare_antisym|].
  intros x y z. rewrite !Z.compare_lt_iff. lia.
Qed.

Lemma ordered_refl {A} (cmp : A → A → comparison) `{!Ordered cmp} x : cmp x x = Eq.
Proof. pose proof (ordered_opp x x) as H. by destruct (cmp x x). Qed.

Lemma ordered_inj {A A'} (f : A → A') (cmp : A' → A' → comparison) `{!Ordered cmp} :
  (∀ x y, f x = f y → x = y) → Ordered (λ x y, cmp (f x) (f y)).
Proof.
  intros Hf. split; [intros x y E; by apply Hf, ordered_eq|intros; apply ordered_opp|].
  intros x y z. apply ordered_trans.
Qed.

Lemma lex_trans {A} (cmp : A → A → comparison) `{!Ordered cmp} x y z c1 c2 c :
  (c1 = Lt → c2 = Lt → c = Lt) → lex (cmp x y) c1 = Lt → lex (cmp y z) c2 = Lt →
  lex (cmp x z) c = Lt.
Proof.
  intros Hc. destruct (cmp x y) eqn:E1; [|intros _|done].
  - apply ordered_eq in E1 as ->. destruct (cmp y z); [|done..]. by cbn.
  - destruct (cmp y z) eqn:E2; [|intros _|done].
    + apply ordered_eq in E2 as ->. by rewrite E1.
    + by rewrite (ordered_trans _ _ _ E1 E2).
Qed.

Lemma lex_ordered {A A1 A2} (f : A → A1) (g : A → A2) c1 c2 `{!Ordered c1, !Ordered c2} :
  (∀ x y, f x = f y → g x = g y → x = y) → Ordered (λ x y, lex (c1 (f x) (f y)) (c2 (g x) (g y))).
Proof.
  intros Hfg. split.
  - intros x y. destruct (c1 (f x) (f y)) eqn:E; [|done..]. intros E2. by apply Hfg; apply ordered_eq.
  - intros x y. rewrite (ordered_opp (f x) (f y)), (ordered_opp (g x) (g y)).
    by destruct (c1 (f x) (f y)).
  - intros x y z. apply (lex_trans c1). apply ordered_trans.
Qed.

#[export] Instance lex_list_ordered {A} (cmp : A → A → comparison) `{!Ordered cmp} :
  Ordered (lex_list cmp).
Proof.
  split.
  - intros l1. induction l1 as [|x l1 IH]; intros [|y l2]; try done. cbn.
    destruct (cmp x y) eqn:E; [|done..]. intros E2. by rewrite (ordered_eq _ _ E), (IH _ E2).
  - intros l1. induction l1 as [|x l1 IH]; intros [|y l2]; try done. cbn.
    rewrite (ordered_opp x y), IH. by destruct (cmp x y).
  - intros l1. induction l1 as [|x l1 IH]; intros [|y l2] [|z l3]; try done. cbn.
    apply (lex_trans cmp), IH.
Qed.

#[export] Instance byte_ordered : Ordered byte_compare.
Proof.
  apply (ordered_inj byte.unsigned Z.compare).
  intros a b E. by rewrite <- (byte.of_Z_unsigned a), E, byte.of_Z_unsigned.
Qed.
#[export] Instance mac_ordered : Ordered mac_compare.
Proof.
  apply (ordered_inj mac_addr.raw (lex_list byte_compare)). by intros [] [] [= -> -> -> -> -> ->].
Qed.
#[export] Instance ipv4_ordered : Ordered ipv4_compare.
Proof. apply (ordered_inj raw Z.compare). by intros [] [] [= ->]. Qed.
#[export] Instance endpoint_ordered : Ordered endpoint_compare.
Proof. apply (lex_ordered addrv4 addrv4_port); [apply _..|]. by intros [] [] [= ->] [= ->]. Qed.
#[export] Instance two_ends_ordered : Ordered two_ends_compare.
Proof. apply (lex_ordered te_remote_ep te_local_ep); [apply _..|]. by intros [] [] [= ->] [= ->]. Qed.

Lemma be_split_byte b : be_split 1 (byte.unsigned b) = [b].
Proof. change ([byte.of_Z (byte.unsigned b)] = [b]). by rewrite byte.of_Z_unsigned. Qed.

Lemma mac_produce `{Host} m : mac_addr.produce_to_net m = mac_addr.raw m.
Proof.
  unfold mac_addr.produce_to_net, mac_addr.raw. cbn -[produce_to_net].
  by rewrite !produce_to_net_be, !be_split_byte.
Qed.

Lemma be_combine_1 b : be_combine [b] = byte.unsigned b.
Proof. apply le_combine_1. Qed.

Lemma mac_consume_byte `{Host} b rest : mac_addr.consume_byte (b :: rest) = Ok (b, rest).
Proof.
  unfold mac_addr.consume_byte. rewrite consume_from_net_be by (cbn; lia).
  cbn -[be_combine byte.of_Z]. by rewrite be_combine_1, byte.of_Z_unsigned.
Qed.

Lemma mac_consume `{Host} m rest :
  mac_addr.consume_from_net (mac_addr.raw m ++ rest) = Ok (m, rest).
Proof.
  destruct m. unfold mac_addr.consume_from_net, mac_addr.raw.
  cbn [app mac_0 mac_1 mac_2 mac_3 mac_4 mac_5].
  do 6 (erewrite parser_bind_Ok by apply mac_consume_byte). done.
Qed.

Lemma ipv4_consume `{Host} a rest :
  ipv4_ok a → ipv4_addr.consume_from_net (be_split 4 (raw a) ++ rest) = Ok (a, rest).
Proof.
  intros Ha. unfold ipv4_addr.consume_from_net.
  erewrite parser_bind_Ok by apply consume_produce.
  destruct a as [r]. cbn. unfold ipv4_ok in Ha. cbn in Ha.
  change (Z.of_nat 4 * 8) with 32. by rewrite Z.mod_small.
Qed.

Lemma mac_consume_byte_inv `{Host} ptr b rest :
  mac_addr.consume_byte ptr = Ok (b, rest) → ptr = b :: rest.
Proof.
  unfold mac_addr.consume_byte. destruct (consume_from_net 1 ptr) as [[z r]|f] eqn:E; [|done].
  cbn -[byte.of_Z]. intros [= <- <-]. apply consume_from_net_inv in E as [-> _]. done.
Qed.

Lemma mac_consume_inv `{Host} ptr m rest :
  mac_addr.consume_from_net ptr = Ok (m, rest) → ptr = mac_addr.raw m ++ rest.
Proof.
  unfold mac_addr.consume_from_net. intros E.
  do 6 (apply parser_bind_inv in E as (? & ? & ->%mac_consume_byte_inv & E)).
  by injection E as <- <-.
Qed.

Lemma ipv4_consume_inv `{Host} ptr a rest :
  ipv4_addr.consume_from_net ptr = Ok (a, rest) → ptr = be_split 4 (raw a) ++ rest ∧ ipv4_ok a.
Proof.
  unfold ipv4_addr.consume_from_net. intros E.
  apply parser_bind_inv in E as (z & ? & [-> ?]%consume_from_net_inv & E).
  by injection E as <- <-.
Qed.

(** A generated MAC address is a locally administered unicast address,
    whatever bytes were drawn: neither zero nor broadcast. *)
Theorem mac_generate_unicast_local hw :
  let m := mac_addr.generate hw in
  Z.testbit (byte.unsigned (mac_0 m)) 0 = false ∧
  Z.testbit (byte.unsigned (mac_0 m)) 1 = true ∧
  mac_addr.is_broadcast m = false ∧ mac_addr.is_zero m = false.
Proof.
  intros m. destruct hw as [b0 b1 b2 b3 b4 b5].
  assert (Z.testbit (byte.unsigned (mac_0 m)) 0 = false ∧
          Z.testbit (byte.unsigned (mac_0 m)) 1 = true) as [H0 H1].
  { subst m. cbn -[byte.of_Z byte.unsigned Z.testbit].
    rewrite byte.unsigned_of_Z. unfold byte.wrap.
    rewrite !Z.mod_pow2_bits_low, !Z.shiftl_spec by lia. split.
    - by rewrite Z.testbit_neg_r.
    - change (1 - 1) with 0. rewrite Z.lor_spec. apply orb_true_r. }
  split_and!; [done|done|..].
  - unfold mac_addr.is_broadcast, mac_addr.raw. cbn [forallb].
    rewrite bool_decide_eq_false_2; [done|]. intros E. by rewrite <- E in H0.
  - unfold mac_addr.is_zero, mac_addr.raw. cbn [forallb].
    rewrite bool_decide_eq_false_2; [done|]. intros E. by rewrite <- E in H1.
Qed.
