(* ===== verification/Headers.v ===== *)
(** * The wire formats: ethernet_header.hpp, arp_header.hpp, ipv4_header.hpp,
    icmp_header.hpp, tcp_header.hpp

    One record per header struct, its [size], its [consume_from_net] and the
    bytes its [produce_to_net] writes.  Bit fields are [Z] values of their
    width; assignment to one truncates, which the masks of the source make
    explicit. *)

From S2P Require Import Prelude Utils Addr.

(** ** Ethernet II *)

Record ethernetv2_header_t : Type := mk_eth_header {
  eth_dst_mac_addr : mac_addr_t;
  eth_src_mac_addr : mac_addr_t;
  eth_proto : Z;
}.

Module ethernetv2_header.
Definition size : Z := 2 * mac_addr.size + 2.
Section Codec.
Context `{Host}.
Definition consume_from_net : parser ethernetv2_header_t :=
  dst ← mac_addr.consume_from_net;
  src ← mac_addr.consume_from_net;
  proto ← consume_from_net 2;
  mret (mk_eth_header dst src proto).
Definition produce_to_net (h : ethernetv2_header_t) : list byte :=
  mac_addr.produce_to_net (eth_dst_mac_addr h) ++
  mac_addr.produce_to_net (eth_src_mac_addr h) ++
  produce_to_net 2 (eth_proto h).
End Codec.
End ethernetv2_header.

(** ** ARP for IPv4 over Ethernet *)

Record arpv4_header_t : Type := mk_arp_header {
  htype : Z; ptype : Z; hlen : Z; plen : Z; oper : Z;
  sha : mac_addr_t; spa : ipv4_addr_t; tha : mac_addr_t; tpa : ipv4_addr_t;
}.

Module arpv4_header.
Definition size : Z := 2 + 2 + 1 + 1 + 2 + mac_addr.size * 2 + ipv4_addr.size * 2.
Section Codec.
Context `{Host}.
Definition consume_from_net : parser arpv4_header_t :=
  htype ← consume_from_net 2;
  ptype ← consume_from_net 2;
  hlen ← consume_from_net 1;
  plen ← consume_from_net 1;
  oper ← consume_from_net 2;
  sha ← mac_addr.consume_from_net;
  spa ← ipv4_addr.consume_from_net;
  tha ← mac_addr.consume_from_net;
  tpa ← ipv4_addr.consume_from_net;
  mret (mk_arp_header htype ptype hlen plen oper sha spa tha tpa).
Definition produce_to_net (h : arpv4_header_t) : list byte :=
  produce_to_net 2 (htype h) ++
  produce_to_net 2 (ptype h) ++
  produce_to_net 1 (hlen h) ++
  produce_to_net 1 (plen h) ++
  produce_to_net 2 (oper h) ++
  mac_addr.produce_to_net (sha h) ++
  ipv4_addr.produce_to_net (spa h) ++
  mac_addr.produce_to_net (tha h) ++
  ipv4_addr.produce_to_net (tpa h).
End Codec.
End arpv4_header.

(** ** IPv4 *)

Record ipv4_header_t : Type := mk_ipv4_header {
  ip_version : Z; ip_header_length : Z; ip_tos : Z; ip_total_length : Z; ip_id : Z;
  ip_NOP : Z; ip_DF : Z; ip_MF : Z; ip_frag_offset : Z;
  ip_ttl : Z; ip_proto_type : Z; ip_header_chsum : Z;
  ip_src_addr : ipv4_addr_t; ip_dst_addr : ipv4_addr_t;
}.

Module ipv4_header.
Definition fixed_size : Z := 1 + 1 + 2 + 2 + 2 + 1 + 1 + 2 + ipv4_addr.size * 2.
(** [offsetof(ipv4_header_t, header_chsum)] *)
Definition offsetof_header_chsum : Z := 10.
Section Codec.
Context `{Host}.
Definition consume_from_net : parser ipv4_header_t :=
  version_header_length ← consume_from_net 1;
  let version := Z.shiftr version_header_length 4 in
  let header_length := Z.land version_header_length 15 in
  tos ← consume_from_net 1;
  total_length ← consume_from_net 2;
  id ← consume_from_net 2;
  flags_frag_offset ← consume_from_net 2;
  let NOP := Z.shiftr flags_frag_offset 15 in
  let DF := Z.land (Z.shiftr flags_frag_offset 14) 1 in
  let MF := Z.land (Z.shiftr flags_frag_offset 13) 1 in
  let frag_offset := Z.land flags_frag_offset (Z.shiftl 1 13 - 1) in
  ttl ← consume_from_net 1;
  proto_type ← consume_from_net 1;
  header_chsum ← consume_from_net 2;
  src_addr ← ipv4_addr.consume_from_net;
  dst_addr ← ipv4_addr.consume_from_net;
  mret (mk_ipv4_header version header_length tos total_length id NOP DF MF frag_offset
          ttl proto_type header_chsum src_addr dst_addr).
Definition version_header_length (h : ipv4_header_t) : Z :=
  u8 (Z.lor (Z.shiftl (ip_version h) 4) (ip_header_length h)).
Definition flags_frag_offset (h : ipv4_header_t) : Z :=
  u16 (Z.lor (Z.lor (Z.lor (Z.shiftl (ip_NOP h) 15) (Z.shiftl (ip_DF h) 14))
         (Z.shiftl (ip_MF h) 13)) (ip_frag_offset h)).
Definition produce_to_net (h : ipv4_header_t) : list byte :=
  produce_to_net 1 (version_header_length h) ++
  produce_to_net 1 (ip_tos h) ++
  produce_to_net 2 (ip_total_length h) ++
  produce_to_net 2 (ip_id h) ++
  produce_to_net 2 (flags_frag_offset h) ++
  produce_to_net 1 (ip_ttl h) ++
  produce_to_net 1 (ip_proto_type h) ++
  produce_to_net 2 (ip_header_chsum h) ++
  ipv4_addr.produce_to_net (ip_src_addr h) ++
  ipv4_addr.produce_to_net (ip_dst_addr h).
End Codec.
End ipv4_header.

(** ** ICMP echo *)

Record icmp_header_t : Type := mk_icmp_header {
  icmp_proto_type : Z; icmp_code : Z; icmp_chsum : Z; icmp_id : Z; icmp_seq : Z;
}.

Module icmp_header.
(** [sizeof(icmp_header_t)] and [offsetof(icmp_header_t, chsum)] *)
Definition size : Z := 8.
Definition offsetof_chsum : Z := 2.
Section Codec.
Context `{Host}.
Definition consume_from_net : parser icmp_header_t :=
  proto_type ← consume_from_net 1;
  code ← consume_from_net 1;
  chsum ← consume_from_net 2;
  id ← consume_from_net 2;
  seq ← consume_from_net 2;
  mret (mk_icmp_header proto_type code chsum id seq).
Definition produce_to_net (h : icmp_header_t) : list byte :=
  produce_to_net 1 (icmp_proto_type h) ++
  produce_to_net 1 (icmp_code h) ++
  produce_to_net 2 (icmp_chsum h) ++
  produce_to_net 2 (icmp_id h) ++
  produce_to_net 2 (icmp_seq h).
End Codec.
End icmp_header.

(** ** TCP *)

Record tcp_header_t : Type := mk_tcp_header {
  src_port : Z; dst_port : Z; seq_no : Z; ack_no : Z;
  data_offset : Z; reserved : Z;
  CWR : Z; ECE : Z; URG : Z; ACK : Z; PSH : Z; RST : Z; SYN : Z; FIN : Z;
  window : Z; chsum : Z; urgent_pointer : Z;
}.

Module tcp_header.
(** [sizeof(tcp_header_t)] and [offsetof(tcp_header_t, chsum)] *)
Definition fixed_size : Z := 20.
Definition offsetof_chsum : Z := 16.
Section Codec.
Context `{Host}.
Definition consume_from_net : parser tcp_header_t :=
  src_port ← consume_from_net 2;
  dst_port ← consume_from_net 2;
  seq_no ← consume_from_net 4;
  ack_no ← consume_from_net 4;
  header_length_flags ← consume_from_net 2;
  let field n w := Z.land (Z.shiftr header_length_flags n) w in
  window ← consume_from_net 2;
  chsum ← consume_from_net 2;
  urgent_pointer ← consume_from_net 2;
  mret (mk_tcp_header src_port dst_port seq_no ack_no
          (field 12 15) (field 8 15) (field 7 1) (field 6 1) (field 5 1) (field 4 1)
          (field 3 1) (field 2 1) (field 1 1) (field 0 1)
          window chsum urgent_pointer).
Definition header_length_flags (h : tcp_header_t) : Z :=
  u16 (Z.lor (Z.lor (Z.lor (Z.lor (Z.lor (Z.lor (Z.lor (Z.lor
    (Z.shiftl (data_offset h) 12) (Z.shiftl (CWR h) 7)) (Z.shiftl (ECE h) 6))
    (Z.shiftl (URG h) 5)) (Z.shiftl (ACK h) 4)) (Z.shiftl (PSH h) 3))
    (Z.shiftl (RST h) 2)) (Z.shiftl (SYN h) 1)) (FIN h)).
Definition produce_to_net (h : tcp_header_t) : list byte :=
  produce_to_net 2 (src_port h) ++
  produce_to_net 2 (dst_port h) ++
  produce_to_net 4 (seq_no h) ++
  produce_to_net 4 (ack_no h) ++
  produce_to_net 2 (header_length_flags h) ++
  produce_to_net 2 (window h) ++
  produce_to_net 2 (chsum h) ++
  produce_to_net 2 (urgent_pointer h).
End Codec.
End tcp_header.

(** ** Values of the C++ structs *)

Definition eth_header_ok (h : ethernetv2_header_t) : Prop := is_u 16 (eth_proto h).

Definition arp_header_ok (h : arpv4_header_t) : Prop :=
  is_u 16 (htype h) ∧ is_u 16 (ptype h) ∧ is_u 8 (hlen h) ∧ is_u 8 (plen h) ∧
  is_u 16 (oper h) ∧ ipv4_ok (spa h) ∧ ipv4_ok (tpa h).

Definition ipv4_header_ok (h : ipv4_header_t) : Prop :=
  (is_u 4 (ip_version h) ∧ is_u 4 (ip_header_length h)) ∧ is_u 8 (ip_tos h) ∧
  is_u 16 (ip_total_length h) ∧ is_u 16 (ip_id h) ∧
  (is_u 1 (ip_NOP h) ∧ is_u 1 (ip_DF h) ∧ is_u 1 (ip_MF h) ∧ is_u 13 (ip_frag_offset h)) ∧
  is_u 8 (ip_ttl h) ∧ is_u 8 (ip_proto_type h) ∧ is_u 16 (ip_header_chsum h) ∧
  ipv4_ok (ip_src_addr h) ∧ ipv4_ok (ip_dst_addr h).

Definition icmp_header_ok (h : icmp_header_t) : Prop :=
  is_u 8 (icmp_proto_type h) ∧ is_u 8 (icmp_code h) ∧ is_u 16 (icmp_chsum h) ∧
  is_u 16 (icmp_id h) ∧ is_u 16 (icmp_seq h).

(** [produce_to_net] does not emit the [reserved] bits. *)
Definition tcp_header_ok (h : tcp_header_t) : Prop :=
  is_u 16 (src_port h) ∧ is_u 16 (dst_port h) ∧ is_u 32 (seq_no h) ∧ is_u 32 (ack_no h) ∧
  (is_u 4 (data_offset h) ∧ reserved h = 0 ∧ is_u 1 (CWR h) ∧ is_u 1 (ECE h) ∧
   is_u 1 (URG h) ∧ is_u 1 (ACK h) ∧ is_u 1 (PSH h) ∧ is_u 1 (RST h) ∧ is_u 1 (SYN h) ∧
   is_u 1 (FIN h)) ∧
  is_u 16 (window h) ∧ is_u 16 (chsum h) ∧ is_u 16 (urgent_pointer h).

(** ** The interface of a wire format

    What a layer relies on when it writes or reads a header. *)

Class Wire `{Host} (T : Type) : Type := {
  wire_ok : T → Prop;
  wire_size : Z;
  wire_consume : parser T;
  wire_produce : T → list byte;
  wire_length h : len (wire_produce h) = wire_size;
  wire_roundtrip h rest :
    wire_ok h → wire_consume (wire_produce h ++ rest) = Ok (h, rest);
}.

(** ** Proofs *)

Create Rewrite HintDb wire.
#[export] Hint Rewrite @produce_to_net_be @mac_produce : wire.

(** Run one cursor read over memory that starts with a produced field. *)
Ltac parse_step :=
  first
    [ erewrite parser_bind_Ok by (apply consume_be; assumption)
    | erewrite parser_bind_Ok by apply mac_consume
    | erewrite parser_bind_Ok by (apply ipv4_consume; assumption) ]; cbv zeta.

Ltac parse :=
  unfold ipv4_addr.produce_to_net; autorewrite with wire;
  rewrite <- ?app_assoc; repeat parse_step.

Lemma mac_length m : length (mac_addr.raw m) = 6%nat.
Proof. done. Qed.

Ltac wire_len :=
  unfold ipv4_addr.produce_to_net; autorewrite with wire;
  rewrite ?length_app, ?length_be_split, ?mac_length; done.

Section Wires.
Context `{H : Host}.

#[export] Program Instance eth_wire : Wire ethernetv2_header_t := {
  wire_ok := eth_header_ok;
  wire_size := ethernetv2_header.size;
  wire_consume := ethernetv2_header.consume_from_net;
  wire_produce := ethernetv2_header.produce_to_net;
}.
Next Obligation. intros h. unfold ethernetv2_header.produce_to_net. wire_len. Qed.
Next Obligation.
  intros [d s p] rest Hp. unfold eth_header_ok in Hp. cbn in Hp.
  unfold ethernetv2_header.consume_from_net, ethernetv2_header.produce_to_net. cbn [eth_proto
    eth_dst_mac_addr eth_src_mac_addr]. by parse.
Qed.

#[export] Program Instance arp_wire : Wire arpv4_header_t := {
  wire_ok := arp_header_ok;
  wire_size := arpv4_header.size;
  wire_consume := arpv4_header.consume_from_net;
  wire_produce := arpv4_header.produce_to_net;
}.
Next Obligation. intros h. unfold arpv4_header.produce_to_net. wire_len. Qed.
Next Obligation.
  intros [] rest Hp. unfold arp_header_ok in Hp. cbn in Hp. destruct_and!.
  unfold arpv4_header.consume_from_net, arpv4_header.produce_to_net.
  cbn [htype ptype hlen plen oper sha spa tha tpa]. by parse.
Qed.

#[export] Program Instance icmp_wire : Wire icmp_header_t := {
  wire_ok := icmp_header_ok;
  wire_size := icmp_header.size;
  wire_consume := icmp_header.consume_from_net;
  wire_produce := icmp_header.produce_to_net;
}.
Next Obligation. intros h. unfold icmp_header.produce_to_net. wire_len. Qed.
Next Obligation.
  intros [] rest Hp. unfold icmp_header_ok in Hp. cbn in Hp. destruct_and!.
  unfold icmp_header.consume_from_net, icmp_header.produce_to_net.
  cbn [icmp_proto_type icmp_code icmp_chsum icmp_id icmp_seq]. by parse.
Qed.
End Wires.

(** Bit-field packing, decided for every value of the fields. *)
Section Packing.
Lemma pack_vhl v l :
  is_u 4 v → is_u 4 l →
  let w := u8 (Z.lor (Z.shiftl v 4) l) in
  is_u 8 w ∧ Z.shiftr w 4 = v ∧ Z.land w 15 = l.
Proof.
  intros Hv Hl w. split; [apply u8_is_u|].
  assert (all_u 4 (λ v, all_u 4 (λ l,
    let w := u8 (Z.lor (Z.shiftl v 4) l) in
    (Z.shiftr w 4 =? v) && (Z.land w 15 =? l))) = true) as Hall by (vm_compute; done).
  apply all_u_spec with (z := v) in Hall; [|done..].
  apply all_u_spec with (z := l) in Hall; [|done..]. cbv zeta in Hall. fold w in Hall. lia.
Qed.

Lemma pack_ipv4_flags n d m o :
  is_u 1 n → is_u 1 d → is_u 1 m → is_u 13 o →
  let w := u16 (Z.lor (Z.lor (Z.lor (Z.shiftl n 15) (Z.shiftl d 14)) (Z.shiftl m 13)) o) in
  is_u 16 w ∧ Z.shiftr w 15 = n ∧ Z.land (Z.shiftr w 14) 1 = d ∧
  Z.land (Z.shiftr w 13) 1 = m ∧ Z.land w (Z.shiftl 1 13 - 1) = o.
Proof.
  intros Hn Hd Hm Ho w. split; [apply u16_is_u|].
  assert (all_u 1 (λ n, all_u 1 (λ d, all_u 1 (λ m, all_u 13 (λ o,
    let w := u16 (Z.lor (Z.lor (Z.lor (Z.shiftl n 15) (Z.shiftl d 14)) (Z.shiftl m 13)) o) in
    (Z.shiftr w 15 =? n) && (Z.land (Z.shiftr w 14) 1 =? d) &&
    (Z.land (Z.shiftr w 13) 1 =? m) && (Z.land w (Z.shiftl 1 13 - 1) =? o))))) = true) as Hall
    by (vm_compute; done).
  apply all_u_spec with (z := n) in Hall; [|done..].
  apply all_u_spec with (z := d) in Hall; [|done..].
  apply all_u_spec with (z := m) in Hall; [|done..].
  apply all_u_spec with (z := o) in Hall; [|done..]. cbv zeta in Hall. fold w in Hall. lia.
Qed.

Lemma unpack_ipv4_flags w :
  is_u 16 w →
  u16 (Z.lor (Z.lor (Z.lor (Z.shiftl (Z.shiftr w 15) 15)
    (Z.shiftl (Z.land (Z.shiftr w 14) 1) 14)) (Z.shiftl (Z.land (Z.shiftr w 13) 1) 13))
    (Z.land w (Z.shiftl 1 13 - 1))) = w.
Proof.
  intros Hw.
  assert (all_u 16 (λ w, u16 (Z.lor (Z.lor (Z.lor (Z.shiftl (Z.shiftr w 15) 15)
    (Z.shiftl (Z.land (Z.shiftr w 14) 1) 14)) (Z.shiftl (Z.land (Z.shiftr w 13) 1) 13))
    (Z.land w (Z.shiftl 1 13 - 1))) =? w) = true) as Hall by (vm_compute; done).
  apply all_u_spec with (z := w) in Hall; [|done..]. lia.
Qed.

Lemma unpack_vhl w :
  is_u 8 w → u8 (Z.lor (Z.shiftl (Z.shiftr w 4) 4) (Z.land w 15)) = w.
Proof.
  intros Hw.
  assert (all_u 8 (λ w, u8 (Z.lor (Z.shiftl (Z.shiftr w 4) 4) (Z.land w 15)) =? w) = true)
    as Hall by (vm_compute; done).
  apply all_u_spec with (z := w) in Hall; [|done..]. lia.
Qed.
End Packing.

Lemma pack_tcp_flags d c e u a p r s f :
  is_u 4 d → is_u 1 c → is_u 1 e → is_u 1 u → is_u 1 a → is_u 1 p → is_u 1 r → is_u 1 s →
  is_u 1 f →
  let w := u16 (Z.lor (Z.lor (Z.lor (Z.lor (Z.lor (Z.lor (Z.lor (Z.lor
        (Z.shiftl d 12) (Z.shiftl c 7)) (Z.shiftl e 6)) (Z.shiftl u 5)) (Z.shiftl a 4))
        (Z.shiftl p 3)) (Z.shiftl r 2)) (Z.shiftl s 1)) f) in
  let field n m := Z.land (Z.shiftr w n) m in
  is_u 16 w ∧ field 12 15 = d ∧ field 8 15 = 0 ∧ field 7 1 = c ∧ field 6 1 = e ∧
  field 5 1 = u ∧ field 4 1 = a ∧ field 3 1 = p ∧ field 2 1 = r ∧ field 1 1 = s ∧
  field 0 1 = f.
Proof.
  intros Hd Hc He Hu Ha Hp Hr Hs Hf w field. split; [apply u16_is_u|].
  assert (all_u 4 (λ d, all_u 1 (λ c, all_u 1 (λ e, all_u 1 (λ u, all_u 1 (λ a,
    all_u 1 (λ p, all_u 1 (λ r, all_u 1 (λ s, all_u 1 (λ f,
    let w := u16 (Z.lor (Z.lor (Z.lor (Z.lor (Z.lor (Z.lor (Z.lor (Z.lor
        (Z.shiftl d 12) (Z.shiftl c 7)) (Z.shiftl e 6)) (Z.shiftl u 5)) (Z.shiftl a 4))
        (Z.shiftl p 3)) (Z.shiftl r 2)) (Z.shiftl s 1)) f) in
    let field n m := Z.land (Z.shiftr w n) m in
    bool_decide ([field 12 15; field 8 15; field 7 1; field 6 1; field 5 1; field 4 1;
      field 3 1; field 2 1; field 1 1; field 0 1] = [d; 0; c; e; u; a; p; r; s; f]))))))))))
    = true) as Hall by (vm_compute; done).
  apply all_u_spec with (z := d) in Hall; [|done..].
  apply all_u_spec with (z := c) in Hall; [|done..].
  apply all_u_spec with (z := e) in Hall; [|done..].
  apply all_u_spec with (z := u) in Hall; [|done..].
  apply all_u_spec with (z := a) in Hall; [|done..].
  apply all_u_spec with (z := p) in Hall; [|done..].
  apply all_u_spec with (z := r) in Hall; [|done..].
  apply all_u_spec with (z := s) in Hall; [|done..].
  apply all_u_spec with (z := f) in Hall; [|done..].
  cbv zeta in Hall. fold w in Hall. apply bool_decide_eq_true in Hall.
  injection Hall as ?????????. subst field. cbv beta. split_and!; done.
Qed.

Section Wires2.
Context `{H : Host}.

#[export] Program Instance ipv4_wire : Wire ipv4_header_t := {
  wire_ok := ipv4_header_ok;
  wire_size := ipv4_header.fixed_size;
  wire_consume := ipv4_header.consume_from_net;
  wire_produce := ipv4_header.produce_to_net;
}.
Next Obligation. intros h. unfold ipv4_header.produce_to_net. wire_len. Qed.
Next Obligation.
  intros [] rest Hp. unfold ipv4_header_ok in Hp. cbn -[is_u] in Hp. destruct_and!.
  unfold ipv4_header.consume_from_net, ipv4_header.produce_to_net,
    ipv4_header.version_header_length, ipv4_header.flags_frag_offset.
  cbn [ip_version ip_header_length ip_tos ip_total_length ip_id ip_NOP ip_DF ip_MF
    ip_frag_offset ip_ttl ip_proto_type ip_header_chsum ip_src_addr ip_dst_addr].
  destruct (pack_vhl ip_version0 ip_header_length0) as (Hv & Ev & El); [done..|].
  destruct (pack_ipv4_flags ip_NOP0 ip_DF0 ip_MF0 ip_frag_offset0) as (Hf & En & Ed & Em & Eo);
    [done..|].
  parse. by rewrite Ev, El, En, Ed, Em, Eo.
Qed.

#[export] Program Instance tcp_wire : Wire tcp_header_t := {
  wire_ok := tcp_header_ok;
  wire_size := tcp_header.fixed_size;
  wire_consume := tcp_header.consume_from_net;
  wire_produce := tcp_header.produce_to_net;
}.
Next Obligation. intros h. unfold tcp_header.produce_to_net. wire_len. Qed.
Next Obligation.
  intros [] rest Hp. unfold tcp_header_ok in Hp. cbn -[is_u] in Hp. destruct_and!. subst.
  unfold tcp_header.consume_from_net, tcp_header.produce_to_net,
    tcp_header.header_length_flags.
  cbn [src_port dst_port seq_no ack_no data_offset reserved CWR ECE URG ACK PSH RST SYN FIN
    window chsum urgent_pointer].
  destruct (pack_tcp_flags data_offset0 CWR0 ECE0 URG0 ACK0 PSH0 RST0 SYN0 FIN0)
    as (Hw & ?); [done..|]; cbv zeta in *; destruct_and!.
  parse. by repeat match goal with E : Z.land _ _ = _ |- _ => rewrite E; clear E end.
Qed.
End Wires2.

(** The laws of the instances, in terms of the codecs. *)
Section Consume.
Context `{Host}.
Lemma eth_consume h rest :
  eth_header_ok h →
  ethernetv2_header.consume_from_net (ethernetv2_header.produce_to_net h ++ rest) = Ok (h, rest).
Proof. exact (wire_roundtrip (Wire := eth_wire) h rest). Qed.
Lemma arp_consume h rest :
  arp_header_ok h →
  arpv4_header.consume_from_net (arpv4_header.produce_to_net h ++ rest) = Ok (h, rest).
Proof. exact (wire_roundtrip (Wire := arp_wire) h rest). Qed.
Lemma ipv4_consume_header h rest :
  ipv4_header_ok h →
  ipv4_header.consume_from_net (ipv4_header.produce_to_net h ++ rest) = Ok (h, rest).
Proof. exact (wire_roundtrip (Wire := ipv4_wire) h rest). Qed.
Lemma icmp_consume h rest :
  icmp_header_ok h →
  icmp_header.consume_from_net (icmp_header.produce_to_net h ++ rest) = Ok (h, rest).
Proof. exact (wire_roundtrip (Wire := icmp_wire) h rest). Qed.
Lemma tcp_consume h rest :
  tcp_header_ok h →
  tcp_header.consume_from_net (tcp_header.produce_to_net h ++ rest) = Ok (h, rest).
Proof. exact (wire_roundtrip (Wire := tcp_wire) h rest). Qed.

Lemma eth_length h : len (ethernetv2_header.produce_to_net h) = 14.
Proof. exact (wire_length (Wire := eth_wire) h). Qed.
Lemma arp_length h : len (arpv4_header.produce_to_net h) = 28.
Proof. exact (wire_length (Wire := arp_wire) h). Qed.
Lemma ipv4_length h : len (ipv4_header.produce_to_net h) = 20.
Proof. exact (wire_length (Wire := ipv4_wire) h). Qed.
Lemma icmp_length h : len (icmp_header.produce_to_net h) = 8.
Proof. exact (wire_length (Wire := icmp_wire) h). Qed.
Lemma tcp_length h : len (tcp_header.produce_to_net h) = 20.
Proof. exact (wire_length (Wire := tcp_wire) h). Qed.
End Consume.

(** ** Reading never faults on memory that is long enough *)

Definition reads {A} (n : nat) (p : parser A) : Prop :=
  ∀ ptr, (n ≤ length ptr)%nat → ∃ a, p ptr = Ok (a, drop n ptr).

Section Reads.
Context `{Host}.

Lemma reads_ret {A} (a : A) : reads 0 (mret a).
Proof. intros ptr _. by exists a. Qed.

Lemma reads_bind {A B} n m k (p : parser A) (q : A → parser B) :
  k = (n + m)%nat → reads n p → (∀ a, reads m (q a)) → reads k (p ≫= q).
Proof.
  intros -> Hp Hq ptr Hl. destruct (Hp ptr) as [a Ea]; [lia|].
  destruct (Hq a (drop n ptr)) as [b Eb]; [rewrite length_drop; lia|].
  exists b. rewrite (parser_bind_Ok _ _ _ _ _ Ea), Eb, drop_drop. do 2 f_equal.
Qed.

Lemma reads_consume n : reads n (consume_from_net n).
Proof. intros ptr Hl. eexists. by apply consume_from_net_be. Qed.

Lemma reads_mac : reads 6 mac_addr.consume_from_net.
Proof.
  intros ptr Hl. do 6 (destruct ptr as [|? ptr]; [cbn in Hl; lia|]).
  eexists. exact (mac_consume (Mac _ _ _ _ _ _) ptr).
Qed.

Lemma reads_ipv4 : reads 4 ipv4_addr.consume_from_net.
Proof.
  unfold ipv4_addr.consume_from_net.
  eapply reads_bind; [|apply reads_consume|intros; apply reads_ret]. done.
Qed.

Ltac reads :=
  cbv zeta;
  first [ eapply reads_bind; [|apply reads_consume|intros]; [reflexivity|reads]
        | eapply reads_bind; [|apply reads_mac|intros]; [reflexivity|reads]
        | eapply reads_bind; [|apply reads_ipv4|intros]; [reflexivity|reads]
        | apply reads_ret ].

Lemma reads_eth : reads 14 ethernetv2_header.consume_from_net.
Proof. unfold ethernetv2_header.consume_from_net. reads. Qed.
Lemma reads_arp : reads 28 arpv4_header.consume_from_net.
Proof. unfold arpv4_header.consume_from_net. reads. Qed.
Lemma reads_ipv4_header : reads 20 ipv4_header.consume_from_net.
Proof. unfold ipv4_header.consume_from_net. reads. Qed.
Lemma reads_tcp : reads 20 tcp_header.consume_from_net.
Proof. unfold tcp_header.consume_from_net. reads. Qed.
End Reads.

(** ** Round trips *)

(** Invert one read of a cursor function that returned. *)
Ltac unparse_step E :=
  let E1 := fresh "E1" in
  apply parser_bind_inv in E as (? & ? & E1 & E);
  first [ apply consume_from_net_inv in E1 as [-> ?]
        | apply mac_consume_inv in E1 as ->
        | apply ipv4_consume_inv in E1 as [-> ?] ]; cbv zeta in E.

Ltac reprint :=
  unfold ipv4_addr.produce_to_net; autorewrite with wire; rewrite <- ?app_assoc; done.

Lemma eth_consume_inv `{Host} ptr h rest :
  ethernetv2_header.consume_from_net ptr = Ok (h, rest) →
  ptr = ethernetv2_header.produce_to_net h ++ rest ∧ eth_header_ok h.
Proof.
  unfold ethernetv2_header.consume_from_net. intros E. repeat unparse_step E.
  injection E as <- <-. unfold ethernetv2_header.produce_to_net.
  cbn [eth_proto eth_dst_mac_addr eth_src_mac_addr]. split; [reprint|done].
Qed.

Lemma arp_consume_inv `{Host} ptr h rest :
  arpv4_header.consume_from_net ptr = Ok (h, rest) →
  ptr = arpv4_header.produce_to_net h ++ rest ∧ arp_header_ok h.
Proof.
  unfold arpv4_header.consume_from_net. intros E. repeat unparse_step E.
  injection E as <- <-. unfold arpv4_header.produce_to_net.
  cbn [htype ptype hlen plen oper sha spa tha tpa]. split; [reprint|].
  unfold arp_header_ok; cbn. by split_and!.
Qed.

Lemma icmp_consume_inv `{Host} ptr h rest :
  icmp_header.consume_from_net ptr = Ok (h, rest) →
  ptr = icmp_header.produce_to_net h ++ rest ∧ icmp_header_ok h.
Proof.
  unfold icmp_header.consume_from_net. intros E. repeat unparse_step E.
  injection E as <- <-. unfold icmp_header.produce_to_net.
  cbn [icmp_proto_type icmp_code icmp_chsum icmp_id icmp_seq]. split; [reprint|].
  unfold icmp_header_ok; cbn. by split_and!.
Qed.

Lemma shiftr_is_u w k z : 0 ≤ k → 0 ≤ w → is_u (w + k) z → is_u w (Z.shiftr z k).
Proof.
  unfold is_u. intros Hk Hw Hz. rewrite Z.shiftr_div_pow2 by done.
  rewrite Z.pow_add_r in Hz by done.
  split; [apply Z.div_pos; lia|]. apply Z.div_lt_upper_bound; lia.
Qed.

Lemma land_ones_is_u w z : 0 ≤ w → is_u w (Z.land z (Z.ones w)).
Proof. intros. rewrite Z.land_ones by done. apply Z.mod_pos_bound. lia. Qed.

Lemma ipv4_consume_header_inv `{Host} ptr h rest :
  ipv4_header.consume_from_net ptr = Ok (h, rest) →
  ptr = ipv4_header.produce_to_net h ++ rest ∧ ipv4_header_ok h.
Proof.
  unfold ipv4_header.consume_from_net. intros E. repeat unparse_step E.
  injection E as <- <-. unfold ipv4_header.produce_to_net,
    ipv4_header.version_header_length, ipv4_header.flags_frag_offset.
  cbn [ip_version ip_header_length ip_tos ip_total_length ip_id ip_NOP ip_DF ip_MF
      ip_frag_offset ip_ttl ip_proto_type ip_header_chsum ip_src_addr ip_dst_addr].
  rewrite unpack_vhl, unpack_ipv4_flags by done. split; [reprint|].
  unfold ipv4_header_ok; cbn -[Z.shiftl Z.shiftr is_u].
  split_and!; try done;
    first [apply shiftr_is_u; (done || lia)
          | apply (land_ones_is_u 4); lia | apply (land_ones_is_u 1); lia
          | apply (land_ones_is_u 13); lia].
Qed.

(** The twenty bytes of RFC 793: the seventh 16-bit word has the data offset,
    four reserved bits, and the flags. *)
Definition rfc793_header (word : Z) (h : tcp_header_t) : list byte :=
  be_split 2 (src_port h) ++ be_split 2 (dst_port h) ++ be_split 4 (seq_no h) ++
  be_split 4 (ack_no h) ++ be_split 2 word ++ be_split 2 (window h) ++
  be_split 2 (chsum h) ++ be_split 2 (urgent_pointer h).
Definition rfc793_word (h : tcp_header_t) : Z :=
  4096 * data_offset h + 256 * reserved h + 128 * CWR h + 64 * ECE h + 32 * URG h + 16 * ACK h +
  8 * PSH h + 4 * RST h + 2 * SYN h + FIN h.

Lemma tcp_produce_rfc793 `{Host} h :
  tcp_header.produce_to_net h = rfc793_header (tcp_header.header_length_flags h) h.
Proof. unfold tcp_header.produce_to_net, rfc793_header. by autorewrite with wire. Qed.

(** What the code packs, of the fields it reads from a word, is the word
    without the reserved bits; and the fields are those of the word. *)
Lemma unpack_tcp_flags z :
  is_u 16 z →
  let field n m := Z.land (Z.shiftr z n) m in
  let packed := u16 (Z.lor (Z.lor (Z.lor (Z.lor (Z.lor (Z.lor (Z.lor (Z.lor
      (Z.shiftl (field 12 15) 12) (Z.shiftl (field 7 1) 7)) (Z.shiftl (field 6 1) 6))
      (Z.shiftl (field 5 1) 5)) (Z.shiftl (field 4 1) 4)) (Z.shiftl (field 3 1) 3))
      (Z.shiftl (field 2 1) 2)) (Z.shiftl (field 1 1) 1)) (field 0 1)) in
  packed = z - 256 * field 8 15 ∧
  z = 4096 * field 12 15 + 256 * field 8 15 + 128 * field 7 1 + 64 * field 6 1 +
      32 * field 5 1 + 16 * field 4 1 + 8 * field 3 1 + 4 * field 2 1 + 2 * field 1 1 + field 0 1.
Proof.
  intros Hz.
  assert (all_u 16 (λ z,
    let field n m := Z.land (Z.shiftr z n) m in
    (u16 (Z.lor (Z.lor (Z.lor (Z.lor (Z.lor (Z.lor (Z.lor (Z.lor
      (Z.shiftl (field 12 15) 12) (Z.shiftl (field 7 1) 7)) (Z.shiftl (field 6 1) 6))
      (Z.shiftl (field 5 1) 5)) (Z.shiftl (field 4 1) 4)) (Z.shiftl (field 3 1) 3))
      (Z.shiftl (field 2 1) 2)) (Z.shiftl (field 1 1) 1)) (field 0 1)) =? z - 256 * field 8 15) &&
    (4096 * field 12 15 + 256 * field 8 15 + 128 * field 7 1 + 64 * field 6 1 + 32 * field 5 1 +
      16 * field 4 1 + 8 * field 3 1 + 4 * field 2 1 + 2 * field 1 1 + field 0 1 =? z)) = true)
    as Hall by (vm_compute; done).
  apply all_u_spec with (z := z) in Hall; [|done..]. cbv zeta beta in Hall |- *.
  apply andb_true_iff in Hall as [E1%Z.eqb_eq E2%Z.eqb_eq]. by split.
Qed.

Lemma tcp_consume_inv `{Host} ptr h rest :
  tcp_header.consume_from_net ptr = Ok (h, rest) →
  ptr = rfc793_header (rfc793_word h) h ++ rest ∧ is_u 16 (rfc793_word h) ∧
  tcp_header.header_length_flags h = rfc793_word h - 256 * reserved h.
Proof.
  unfold tcp_header.consume_from_net. intros E. repeat unparse_step E.
  injection E as <- <-. unfold tcp_header.header_length_flags, rfc793_word, rfc793_header.
  cbn [src_port dst_port seq_no ack_no data_offset reserved CWR ECE URG ACK PSH RST SYN FIN
    window chsum urgent_pointer].
  match goal with Hz : is_u _ ?z |- context [Z.shiftr ?z 12] =>
    destruct (unpack_tcp_flags z Hz) as [Ep Ez]; cbv zeta beta in Ep, Ez;
    rewrite Ep, <- Ez; split; [|split; [exact Hz|reflexivity]] end.
  by rewrite <- !app_assoc.
Qed.

Lemma rfc793_word_packed h :
  tcp_header_ok h → tcp_header.header_length_flags h = rfc793_word h.
Proof.
  intros (_ & _ & _ & _ & (Hd & Er & Hc & He & Hu & Ha & Hp & Hr & Hs & Hf) & _).
  pose proof (pack_tcp_flags _ _ _ _ _ _ _ _ _ Hd Hc He Hu Ha Hp Hr Hs Hf) as Hpack. cbv zeta in Hpack.
  unfold tcp_header.header_length_flags. revert Hpack. generalize (u16 (Z.lor (Z.lor (Z.lor (Z.lor (Z.lor
    (Z.lor (Z.lor (Z.lor (Z.shiftl (data_offset h) 12) (Z.shiftl (CWR h) 7)) (Z.shiftl (ECE h) 6))
    (Z.shiftl (URG h) 5)) (Z.shiftl (ACK h) 4)) (Z.shiftl (PSH h) 3)) (Z.shiftl (RST h) 2))
    (Z.shiftl (SYN h) 1)) (FIN h))). intros w (Hw & E1 & E2 & E3 & E4 & E5 & E6 & E7 & E8 & E9 & E10).
  destruct (unpack_tcp_flags w Hw) as [_ Ez]. cbv zeta beta in Ez.
  rewrite E1, E2, E3, E4, E5, E6, E7, E8, E9, E10 in Ez. unfold rfc793_word. lia.
Qed.

(** C37: the TCP header codec, on a host of either byte order.  A header of
    in-range fields without reserved bits is produced as the twenty bytes of
    RFC 793, and is read back from them whatever follows.  The other way
    round, bytes from which a header is read are those of RFC 793 for its
    fields, and producing it again gives them back but for the four reserved
    bits, which the code reads and does not emit. *)
Theorem tcp_header_roundtrip `{Host} :
  (∀ h rest, tcp_header_ok h →
    tcp_header.produce_to_net h = rfc793_header (rfc793_word h) h ∧
    len (tcp_header.produce_to_net h) = tcp_header.fixed_size ∧
    tcp_header.consume_from_net (tcp_header.produce_to_net h ++ rest) = Ok (h, rest)) ∧
  (∀ ptr h rest, tcp_header.consume_from_net ptr = Ok (h, rest) →
    ptr = rfc793_header (rfc793_word h) h ++ rest ∧ is_u 16 (rfc793_word h) ∧
    tcp_header.produce_to_net h = rfc793_header (rfc793_word h - 256 * reserved h) h).
Proof.
  split.
  - intros h rest Hh. rewrite <- (rfc793_word_packed h Hh), <- tcp_produce_rfc793.
    split; [done|]. split; [exact (tcp_length h)|exact (tcp_consume h rest Hh)].
  - intros ptr h rest E. destruct (tcp_consume_inv ptr h rest E) as (Ep & Hw & Ef).
    rewrite <- Ef, <- tcp_produce_rfc793. by split_and!.
Qed.

(** C38: the IPv4, Ethernet, ARP and ICMP header codecs are bijections between
    the strings of their length and the headers with in-range fields: printing
    then parsing, and parsing then printing, are both the identity, on a host
    of either byte order. *)
Theorem headers_bijection `{Host} :
  ((∀ h rest, ipv4_header_ok h →
     ipv4_header.consume_from_net (ipv4_header.produce_to_net h ++ rest) = Ok (h, rest)) ∧
   (∀ ptr h rest, ipv4_header.consume_from_net ptr = Ok (h, rest) →
     ptr = ipv4_header.produce_to_net h ++ rest ∧ ipv4_header_ok h)) ∧
  ((∀ h rest, eth_header_ok h →
     ethernetv2_header.consume_from_net (ethernetv2_header.produce_to_net h ++ rest)
       = Ok (h, rest)) ∧
   (∀ ptr h rest, ethernetv2_header.consume_from_net ptr = Ok (h, rest) →
     ptr = ethernetv2_header.produce_to_net h ++ rest ∧ eth_header_ok h)) ∧
  ((∀ h rest, arp_header_ok h →
     arpv4_header.consume_from_net (arpv4_header.produce_to_net h ++ rest) = Ok (h, rest)) ∧
   (∀ ptr h rest, arpv4_header.consume_from_net ptr = Ok (h, rest) →
     ptr = arpv4_header.produce_to_net h ++ rest ∧ arp_header_ok h)) ∧
  ((∀ h rest, icmp_header_ok h →
     icmp_header.consume_from_net (icmp_header.produce_to_net h ++ rest) = Ok (h, rest)) ∧
   (∀ ptr h rest, icmp_header.consume_from_net ptr = Ok (h, rest) →
     ptr = icmp_header.produce_to_net h ++ rest ∧ icmp_header_ok h)).
Proof.
  split_and!;
    auto using ipv4_consume_header, eth_consume, arp_consume, icmp_consume;
    [apply ipv4_consume_header_inv|apply eth_consume_inv|apply arp_consume_inv|apply icmp_consume_inv].
Qed.

(** A header with flags, and one whose reserved bits are all set. *)
Lemma tcp_header_roundtrip_witness :
  let H := test_host Big in
  let h := mk_tcp_header 80 4096 305419896 4294967295 5 0 0 0 0 1 1 0 0 0 64240 0 0 in
  let odd := mk_tcp_header 80 4096 305419896 4294967295 5 15 0 0 0 1 1 0 0 0 64240 0 0 in
  tcp_header.consume_from_net (tcp_header.produce_to_net h ++ [Byte.xff]) = Ok (h, [Byte.xff]) ∧
  tcp_header.produce_to_net odd = rfc793_header (rfc793_word odd - 3840) odd.
Proof.
  intros H h odd. split.
  - refine (proj2 (proj2 (proj1 (tcp_header_roundtrip (H := H)) h [Byte.xff] _))).
    unfold tcp_header_ok, is_u; cbn; lia.
  - refine (proj2 (proj2 (proj2 (tcp_header_roundtrip (H := H)) (rfc793_header 24344 odd) odd [] _))).
    vm_compute. reflexivity.
Defined.
