(* ===== verification/TcpOptions.v ===== *)
(** * tcb.cpp, anonymous namespace: TCP options

    [decode_options] reads the option bytes of a received header,
    [encode_options] writes the options of a SYN into a span. *)

From S2P Require Import Prelude Utils.

Definition kNOP : Z := 1.
Definition kMSS : Z := 2.
Definition kWS : Z := 3.
Definition kSACK : Z := 4.
Definition kTSO : Z := 8.

(** [std::variant<std::monostate, mss, sack, timestamp, nop, window_scale>] *)
Inductive tcp_option : Type :=
| monostate
| mss (value : Z)
| sack
| timestamp (ts_value ts_echo_reply : Z)
| nop
| window_scale (shift_cnt : Z).

#[export] Instance tcp_option_eq_dec : EqDecision tcp_option.
Proof. solve_decision. Defined.

Section Options.
Context `{Host}.

(** The common part of the cases with a length byte: the two assertions.
    [n] is the length the case expects. *)
Definition check_len (n : Z) (buf : list byte) : result Z :=
  _ ← assert_ (negb (len buf <? 2));
  b ← span_at 1 buf;
  let l := byte.unsigned b in
  _ ← assert_ ((n =? l) && negb (len buf <? l));
  Ok l.

(** The [while] loop; [fuel] bounds its iterations. *)
Fixpoint decode_loop (fuel : nat) (buf : list byte) : result (list tcp_option) :=
  match fuel, buf with
  | _, [] => Ok []
  | O, _ :: _ => Fault OutOfFuel
  | S fuel, b0 :: _ =>
      let type := byte.unsigned b0 in
      if type =? kNOP then
        buf ← subspan_from 1 buf;
        decode_loop fuel buf
      else if type =? kMSS then
        l ← check_len 4 buf;
        v ← subspan 2 2 buf;
        buf ← subspan_from l buf;
        opts ← decode_loop fuel buf;
        Ok (mss (ntoh 2 (native_load v)) :: opts)
      else if type =? kWS then
        l ← check_len 3 buf;
        v ← span_at 3 buf;
        buf ← subspan_from l buf;
        opts ← decode_loop fuel buf;
        Ok (window_scale (byte.unsigned v) :: opts)
      else if type =? kSACK then
        l ← check_len 2 buf;
        buf ← subspan_from l buf;
        decode_loop fuel buf
      else if type =? kTSO then
        l ← check_len 10 buf;
        buf ← subspan_from l buf;
        decode_loop fuel buf
      else Ok []
  end.

(** Every iteration consumes a byte. *)
Definition decode_options (buf : list byte) : result (list tcp_option) :=
  decode_loop (length buf) buf.

(** The bytes one option writes, after its assertions. *)
Definition encode_option (opt : tcp_option) (buf : list byte) : result (list byte) :=
  match opt with
  | nop => _ ← assert_ (negb (len buf =? 0)); Ok [byte.of_Z kNOP]
  | mss value =>
      _ ← assert_ (negb (len buf <? 4));
      Ok ([byte.of_Z kMSS; byte.of_Z 4] ++ native_store 2 (hton 2 value))
  | window_scale shift_cnt =>
      _ ← assert_ (negb (len buf <? 3));
      Ok [byte.of_Z kWS; byte.of_Z 3; byte.of_Z shift_cnt]
  | sack => _ ← assert_ (negb (len buf <? 2)); Ok [byte.of_Z kSACK; byte.of_Z 2]
  | timestamp _ _ => _ ← assert_ false; Ok []
  | monostate => Ok []
  end.

(** [buf] is the span; the result is what it holds afterwards. *)
Fixpoint encode_options (buf : list byte) (opts : list tcp_option) : result (list byte) :=
  match opts with
  | [] => Ok buf
  | opt :: opts =>
      bs ← encode_option opt buf;
      rest ← encode_options (drop (length bs) buf) opts;
      Ok (bs ++ rest)
  end.
End Options.

(** ** Lemmas *)

Lemma subspan_from_Ok {A} off (buf r : list A) :
  subspan_from off buf = Ok r → 0 ≤ off ≤ len buf ∧ r = drop (Z.to_nat off) buf.
Proof. unfold subspan_from. case_match eqn:E; [|done]. intros [= <-]. split; [lia|done]. Qed.

Lemma bind_Ok {A B} (m : result A) (k : A → result B) b :
  (m ≫= k) = Ok b → ∃ a, m = Ok a ∧ k a = Ok b.
Proof. destruct m; [|done]. cbn. eauto. Qed.

Lemma bind_not_fuel {A B} (m : result A) (k : A → result B) :
  m ≠ Fault OutOfFuel → (∀ a, m = Ok a → k a ≠ Fault OutOfFuel) → (m ≫= k) ≠ Fault OutOfFuel.
Proof. destruct m as [a|f]; cbn; [|congruence]. eauto. Qed.

Lemma check_len_not_fuel n buf : check_len n buf ≠ Fault OutOfFuel.
Proof.
  unfold check_len, assert_, span_at. repeat (case_match; cbn); congruence.
Qed.

Lemma check_len_Ok n buf l : check_len n buf = Ok l → l = n ∧ n ≤ len buf ∧ 2 ≤ len buf.
Proof.
  unfold check_len, assert_, span_at. cbn. repeat (case_match; cbn); try done.
  intros [= <-]. split_and!; lia.
Qed.

Lemma check_len_intro n buf b :
  buf !! 1%nat = Some b → byte.unsigned b = n → 2 ≤ n ≤ len buf → check_len n buf = Ok n.
Proof.
  intros Hb Hn Hl. unfold check_len, span_at, assert_.
  change (Z.to_nat 1) with 1%nat. rewrite Hb.
  replace (len buf <? 2) with false by lia. cbn.
  rewrite Hn, Z.eqb_refl. by replace (len buf <? n) with false by lia.
Qed.

Lemma span_at_not_fuel i buf : span_at i buf ≠ Fault OutOfFuel.
Proof. unfold span_at. repeat case_match; congruence. Qed.
Lemma subspan_not_fuel {A} i n (buf : list A) : subspan i n buf ≠ Fault OutOfFuel.
Proof. unfold subspan. case_match; congruence. Qed.
Lemma subspan_from_not_fuel {A} i (buf : list A) : subspan_from i buf ≠ Fault OutOfFuel.
Proof. unfold subspan_from. case_match; congruence. Qed.

#[export] Hint Resolve check_len_not_fuel span_at_not_fuel subspan_not_fuel
  subspan_from_not_fuel bind_not_fuel : mstack.

Section Facts.
Context `{H : Host}.

Lemma decode_loop_not_fuel fuel buf :
  (length buf ≤ fuel)%nat → decode_loop fuel buf ≠ Fault OutOfFuel.
Proof.
  revert buf. induction fuel as [|fuel IH]; intros [|b0 buf] Hl; cbn -[subspan span_at] in *;
    [done|lia|done|].
  assert (∀ off k, 1 ≤ off →
    (∀ r, length r ≤ fuel → k r ≠ Fault OutOfFuel)%nat →
    (subspan_from off (b0 :: buf) ≫= k) ≠ @Fault (list tcp_option) OutOfFuel) as Hk.
  { intros off k Ho Hr. apply bind_not_fuel; [auto with mstack|].
    intros r [? ->]%subspan_from_Ok. apply Hr. rewrite length_drop. cbn in *. lia. }
  repeat case_match; try done;
    repeat first
      [ match goal with E : check_len _ _ = Ok _ |- _ => apply check_len_Ok in E as [-> _] end
      | apply Hk; [lia|intros r Hr]
      | apply IH; assumption
      | apply bind_not_fuel; [by auto with mstack|intros ? ?]
      | done ].
Qed.

(** More fuel than bytes changes nothing. *)
Lemma decode_loop_fuel f1 f2 buf :
  (length buf ≤ f1)%nat → (length buf ≤ f2)%nat → decode_loop f1 buf = decode_loop f2 buf.
Proof.
  revert f2 buf. induction f1 as [|f1 IH]; intros [|f2] [|b0 buf] H1 H2;
    cbn -[subspan span_at] in *; try done; try lia.
  assert (∀ off, 1 ≤ off → ∀ r, subspan_from off (b0 :: buf) = Ok r →
    decode_loop f1 r = decode_loop f2 r) as Hk.
  { intros off Ho r [? ->]%subspan_from_Ok. apply IH; rewrite length_drop; cbn in *; lia. }
  repeat case_match; try done;
  repeat match goal with
    | |- (?m ≫= _) = (?m ≫= _) => let E := fresh "E" in destruct m eqn:E; [|done]; cbn [mbind result_bind]
    | E : check_len _ _ = Ok _ |- _ => apply check_len_Ok in E as [-> _]
    | E : subspan_from _ _ = Ok _ |- _ => apply Hk in E; [rewrite E; clear E|lia]
    end; done.
Qed.

(** *** Decoding what [encode_options] wrote *)

Lemma drop_encoded off (bs rest : list byte) :
  off = len bs → subspan_from off (bs ++ rest) = Ok rest.
Proof.
  intros ->. unfold subspan_from. rewrite Nat2Z.id, drop_app_length, length_app.
  by rewrite !(proj2 (Z.leb_le _ _)) by lia.
Qed.

Ltac drop_opt n bs rest :=
  let E := fresh in
  pose proof (drop_encoded n bs rest eq_refl) as E; cbn [app] in E; rewrite E; clear E.

Lemma decode_nop fuel rest :
  decode_loop (S fuel) ([Byte.x01] ++ rest) = decode_loop fuel rest.
Proof.
  cbn -[subspan_from]. drop_opt 1 [Byte.x01] rest. done.
Qed.

Lemma decode_sack fuel rest :
  decode_loop (S fuel) ([Byte.x04; Byte.x02] ++ rest) = decode_loop fuel rest.
Proof.
  cbn -[subspan_from check_len].
  rewrite (check_len_intro 2 _ Byte.x02) by (cbn [length]; (done || lia)).
  cbn -[subspan_from]. drop_opt 2 [Byte.x04; Byte.x02] rest. done.
Qed.

(** The window-scale case reads the byte after the option. *)
Lemma decode_window_scale fuel s b rest :
  decode_loop (S fuel) ([Byte.x03; Byte.x03; s] ++ b :: rest) =
  (opts ← decode_loop fuel (b :: rest); Ok (window_scale (byte.unsigned b) :: opts)).
Proof.
  cbn -[subspan_from check_len].
  rewrite (check_len_intro 3 _ Byte.x03) by (cbn [length]; (done || lia)).
  cbn -[subspan_from]. by drop_opt 3 [Byte.x03; Byte.x03; s] (b :: rest).
Qed.

Lemma decode_mss fuel v rest :
  is_u 16 v →
  decode_loop (S fuel) ([Byte.x02; Byte.x04] ++ be_split 2 v ++ rest) =
  (opts ← decode_loop fuel rest; Ok (mss v :: opts)).
Proof.
  intros Hv. pose proof (consume_be 2 v rest Hv) as Hc.
  rewrite be_split_2 in *.
  unfold consume_from_net in Hc. cbn in Hc. injection Hc as Hc.
  rewrite take_0 in Hc.
  cbn -[subspan_from check_len subspan]. set (b0 := byte.of_Z (Z.shiftr v 8)) in *.
  set (b1 := byte.of_Z v) in *.
  rewrite (check_len_intro 4 _ Byte.x04) by (cbn [length]; (done || lia)).
  cbn -[subspan_from subspan].
  assert (subspan 2 2 (Byte.x02 :: Byte.x04 :: b0 :: b1 :: rest) = Ok [b0; b1]) as ->.
  { unfold subspan. cbn [length]. by rewrite (proj2 (Z.leb_le (2 + 2) _)) by lia. }
  cbn -[subspan_from].
  drop_opt 4 [Byte.x02; Byte.x04; b0; b1] rest. cbn. by rewrite Hc.
Qed.
End Facts.

(** What is read does not depend on the host. *)
Lemma bind_ext {A B} (m : result A) (k1 k2 : A → result B) :
  (∀ x, m = Ok x → k1 x = k2 x) → m ≫= k1 = m ≫= k2.
Proof. destruct m; cbn; auto. Qed.

Lemma decode_options_host (H1 H2 : Host) buf : decode_options (H := H1) buf = decode_options (H := H2) buf.
Proof.
  unfold decode_options. generalize (length buf). intros fuel. revert buf.
  induction fuel as [|fuel IH]; intros [|b buf]; [done..|]. cbn [decode_loop].
  repeat case_match; try done; repeat (apply bind_ext; intros); try apply IH.
  - rewrite IH. apply bind_ext. intros opts _.
    match goal with E : subspan 2 2 _ = Ok _ |- _ => apply subspan_Ok in E as (_ & _ & _ & _ & Hl) end.
    by rewrite !(ntoh_load 2) by lia.
  - by rewrite IH.
Qed.

(** The options the encoder can be given in this program. *)
Definition plain (opt : tcp_option) : Prop :=
  match opt with nop | sack => True | mss v => is_u 16 v | _ => False end.

(** What the decoder keeps of an option. *)
Definition kept (opt : tcp_option) : bool :=
  match opt with mss _ | window_scale _ => true | _ => false end.

Definition opt_size (opt : tcp_option) : Z :=
  match opt with
  | nop => 1 | mss _ => 4 | sack => 2 | window_scale _ => 3 | timestamp _ _ | monostate => 0
  end.

Fixpoint opts_size (opts : list tcp_option) : Z :=
  match opts with [] => 0 | opt :: opts => opt_size opt + opts_size opts end.

Section Theorems.
Context `{H : Host}.

Lemma encode_mss v : native_store 2 (hton 2 v) = be_split 2 v.
Proof. rewrite <- produce_to_net_be. done. Qed.

Lemma encode_option_plain opt buf :
  plain opt → opt_size opt ≤ len buf →
  ∃ bs, encode_option opt buf = Ok bs ∧ len bs = opt_size opt ∧
    ∀ fuel rest, decode_loop (S fuel) (bs ++ rest) =
      if kept opt then opts ← decode_loop fuel rest; Ok (opt :: opts)
      else decode_loop fuel rest.
Proof.
  destruct opt; cbn [plain kept opt_size encode_option]; try done; intros Hp Hl.
  - replace (len buf <? 4) with false by lia. rewrite encode_mss.
    eexists. split_and!; [done|done|]. intros. rewrite <- app_assoc. by apply decode_mss.
  - replace (len buf <? 2) with false by lia.
    eexists. split_and!; [done|done|]. intros. apply decode_sack.
  - replace (len buf =? 0) with false by lia.
    eexists. split_and!; [done|done|]. intros. apply decode_nop.
Qed.

Lemma encode_decode_options opts buf :
  Forall plain opts → opts_size opts ≤ len buf →
  (∀ b, drop (Z.to_nat (opts_size opts)) buf !! 0%nat = Some b → b = Byte.x00) →
  ∃ out, encode_options buf opts = Ok out ∧ length out = length buf ∧
    drop (Z.to_nat (opts_size opts)) out = drop (Z.to_nat (opts_size opts)) buf ∧
    ∀ fuel, (length out ≤ fuel)%nat →
      decode_loop fuel out = Ok (filter (λ o, kept o = true) opts).
Proof.
  intros Hp Hl Hend.
  revert buf Hl Hend. induction Hp as [|opt opts Ho Hp IH]; intros buf Hl Hend.
  - exists buf. split_and!; [done..|]. intros fuel Hf.
    destruct buf as [|b buf]; [by destruct fuel|].
    rewrite (Hend b) by done. destruct fuel; [cbn in Hf; lia|done].
  - cbn [opts_size] in *.
    assert (Hs : ∀ os, 0 ≤ opts_size os).
    { induction os as [|o os IHos]; cbn; [lia|]. destruct o; cbn; lia. }
    pose proof (Hs opts) as Hsz.
    assert (0 < opt_size opt) as Hpos by (destruct opt; cbn in *; (done || lia)).
    destruct (encode_option_plain opt buf Ho) as (bs & Ebs & Lbs & Dbs); [lia|].
    assert (Z.to_nat (opt_size opt + opts_size opts) =
      length bs + Z.to_nat (opts_size opts))%nat as En by lia.
    rewrite En in *. rewrite <- drop_drop in *.
    destruct (IH (drop (length bs) buf)) as (out & Eout & Lout & Dout & Hd);
      [rewrite length_drop; lia|done|].
    exists (bs ++ out). rewrite length_drop in Lout. split_and!.
    + cbn. rewrite Ebs. cbn. by rewrite Eout.
    + rewrite length_app. lia.
    + rewrite <- drop_drop, drop_app_length. done.
    + intros fuel Hf. rewrite length_app in Hf.
      destruct fuel as [|fuel]; [lia|]. rewrite Dbs, Hd by lia.
      rewrite filter_cons. by destruct (kept opt); case_decide.
Qed.

(** C36: decoding what was encoded.  For any list of MSS, NOP and
    SACK-permitted options that fits its span, [encode_options] succeeds,
    leaves the rest of the span alone, and [decode_options] of the span,
    terminated by an end-of-options byte or its end, gives back the MSS
    options in order. *)
Theorem options_roundtrip opts buf :
  Forall plain opts → opts_size opts ≤ len buf →
  (∀ b, drop (Z.to_nat (opts_size opts)) buf !! 0%nat = Some b → b = Byte.x00) →
  ∃ out, encode_options buf opts = Ok out ∧ length out = length buf ∧
    drop (Z.to_nat (opts_size opts)) out = drop (Z.to_nat (opts_size opts)) buf ∧
    decode_options out = Ok (filter (λ o, kept o = true) opts).
Proof.
  intros Hp Hl Hend.
  destruct (encode_decode_options opts buf Hp Hl Hend) as (out & ? & ? & ? & Hd).
  exists out. split_and!; [done..|by apply Hd].
Qed.

(** The decoder never runs out of its fuel: the loop of
    [decode_options] ends for every input, valid or not. *)
Theorem decode_options_terminates buf : decode_options buf ≠ Fault OutOfFuel.
Proof. by apply decode_loop_not_fuel. Qed.

(** The window-scale option does not survive a round trip: the decoder
    takes the shift count from [buf[3]], the byte after the option, and
    reads out of bounds when the option ends the header. *)
Theorem window_scale_not_roundtrip shift b rest opts :
  is_u 8 shift →
  decode_options (b :: rest) = Ok opts →
  (∃ bs, encode_options [Byte.x00; Byte.x00; Byte.x00] [window_scale shift] = Ok bs ∧
    decode_options (bs ++ b :: rest) = Ok (window_scale (byte.unsigned b) :: opts) ∧
    decode_options bs = Fault OutOfBounds).
Proof.
  intros Hs Ho. set (s := byte.of_Z shift).
  exists [Byte.x03; Byte.x03; s]. split; [done|]. cbn [app].
  split; [|by vm_compute; destruct s].
  unfold decode_options in *. cbn [length].
  pose proof (decode_window_scale (S (S (S (length rest)))) s b rest) as E.
  cbn [app] in E. rewrite E, (decode_loop_fuel _ (length (b :: rest))) by (cbn; lia).
  by rewrite Ho.
Qed.
End Theorems.

Lemma options_roundtrip_witness :
  let H := test_host Little in
  let opts := [mss 1446; nop; nop; sack] in
  let buf := replicate 9 Byte.x00 in
  ∃ out, encode_options buf opts = Ok out ∧ length out = length buf ∧
    drop (Z.to_nat (opts_size opts)) out = drop (Z.to_nat (opts_size opts)) buf ∧
    decode_options out = Ok (filter (λ o, kept o = true) opts).
Proof.
  apply (options_roundtrip (H := test_host Little) [mss 1446; nop; nop; sack]
           (replicate 9 Byte.x00)).
  - repeat constructor; cbn; lia.
  - cbn; lia.
  - intros b Hb. vm_compute in Hb. by injection Hb.
Defined.

Lemma window_scale_not_roundtrip_witness :
  let H := test_host Little in
  ∃ bs, encode_options [Byte.x00; Byte.x00; Byte.x00] [window_scale 7] = Ok bs ∧
    decode_options (bs ++ [Byte.x00]) = Ok [window_scale 0] ∧
    decode_options bs = Fault OutOfBounds.
Proof.
  apply (window_scale_not_roundtrip (H := test_host Little) 7 Byte.x00 [] []).
  - unfold is_u; lia.
  - reflexivity.
Defined.
