(* ===== verification/CircularBuffer.v ===== *)
(** * The interface of [boost::circular_buffer<std::byte>]

    The container belongs to Boost, not to this repository.  The send and the
    receive queue of a connection rely on the operations below and on their
    documented behaviour, which [CircularBufferSpec] states; the connection is
    verified against the interface.  [reserve_buffer] shows that the interface
    can be met, and is the instance the examples compute with. *)

From S2P Require Import Prelude.

Class CircularBuffer (B : Type) : Type := {
  cb_make : Z → B;                         (** [circular_buffer(capacity)] *)
  cb_list : B → list byte;                 (** the elements from [begin()] to [end()] *)
  cb_capacity : B → Z;                     (** [capacity()] *)
  cb_insert_end : list byte → B → B;       (** [insert(end(), first, last)] *)
  cb_erase_begin : Z → B → B;              (** [erase_begin(n)] *)
  cb_resize : Z → B → B;                   (** [resize(n)] *)
  cb_copy_to : Z → list byte → B → B;      (** [copy(bytes, begin() + off)] *)
}.

(** [size()] and [empty()] *)
Definition cb_size `{CircularBuffer B} (b : B) : Z := len (cb_list b).
Definition cb_empty `{CircularBuffer B} (b : B) : bool := cb_size b =? 0.

Class CircularBufferSpec (B : Type) `{CircularBuffer B} : Prop := {
  cb_size_capacity b : cb_size b ≤ cb_capacity b;
  cb_make_list n : cb_list (cb_make n) = [];
  cb_make_capacity n : 0 ≤ n → cb_capacity (cb_make n) = n;
  cb_insert_end_list bs b :
    cb_size b + len bs ≤ cb_capacity b → cb_list (cb_insert_end bs b) = cb_list b ++ bs;
  cb_insert_end_capacity bs b : cb_capacity (cb_insert_end bs b) = cb_capacity b;
  cb_erase_begin_list n b :
    0 ≤ n ≤ cb_size b → cb_list (cb_erase_begin n b) = drop (Z.to_nat n) (cb_list b);
  cb_erase_begin_capacity n b : 0 ≤ n ≤ cb_size b → cb_capacity (cb_erase_begin n b) = cb_capacity b;
  cb_resize_list n b :
    0 ≤ n → cb_list (cb_resize n b) =
      take (Z.to_nat n) (cb_list b) ++ replicate (Z.to_nat (n - cb_size b)) Byte.x00;
  cb_resize_capacity n b : 0 ≤ n → cb_capacity (cb_resize n b) = Z.max n (cb_capacity b);
  cb_copy_to_list off bs b :
    0 ≤ off → off + len bs ≤ cb_size b →
    cb_list (cb_copy_to off bs b) =
      take (Z.to_nat off) (cb_list b) ++ bs ++ drop (Z.to_nat off + length bs) (cb_list b);
  cb_copy_to_capacity off bs b : cb_capacity (cb_copy_to off bs b) = cb_capacity b;
}.

(** ** An instance: the elements and the number of free places *)

Record reserve_buffer : Type := mk_reserve { rb_list : list byte; rb_reserve : nat }.

#[export] Instance reserve_buffer_ops : CircularBuffer reserve_buffer := {
  cb_make n := mk_reserve [] (Z.to_nat n);
  cb_list := rb_list;
  cb_capacity b := len (rb_list b) + Z.of_nat (rb_reserve b);
  cb_insert_end bs b :=
    let cap := (length (rb_list b) + rb_reserve b)%nat in
    let all := rb_list b ++ bs in
    let kept := drop (length all - cap) all in
    mk_reserve kept (cap - length kept);
  cb_erase_begin n b :=
    mk_reserve (drop (Z.to_nat n) (rb_list b))
      (rb_reserve b + (length (rb_list b) - length (drop (Z.to_nat n) (rb_list b))));
  cb_resize n b :=
    let cap := (length (rb_list b) + rb_reserve b)%nat in
    let l := take (Z.to_nat n) (rb_list b) ++
             replicate (Z.to_nat n - length (rb_list b)) Byte.x00 in
    mk_reserve l (cap - length l);
  cb_copy_to off bs b :=
    let l := take (Z.to_nat off) (rb_list b) ++ bs ++
             drop (Z.to_nat off + length bs) (rb_list b) in
    mk_reserve (take (length (rb_list b)) l)
      (rb_reserve b + (length (rb_list b) - length (take (length (rb_list b)) l)));
}.

#[export] Instance reserve_buffer_spec : CircularBufferSpec reserve_buffer.
Proof.
  split; unfold cb_size; cbn [cb_list cb_capacity cb_make cb_insert_end cb_erase_begin
    cb_resize cb_copy_to reserve_buffer_ops rb_list rb_reserve]; intros.
  - lia.
  - done.
  - cbn. lia.
  - rewrite length_app. replace (_ - _)%nat with 0%nat by lia. apply drop_0.
  - rewrite !length_drop, !length_app. lia.
  - done.
  - rewrite length_drop. lia.
  - do 2 f_equal. lia.
  - rewrite length_app, length_take, length_replicate. lia.
  - rewrite take_ge; [done|]. rewrite !length_app, length_take, length_drop. lia.
  - rewrite length_take, !length_app, length_take, length_drop. lia.
Qed.
