(* ===== verification/Tcb.v ===== *)
(** * tcb.hpp, tcb.cpp, defination.hpp: one TCP connection

    The state of a transmission control block, its operations and the segment
    handler [process], over any implementation of the circular buffers.  What
    a block does to the outside is its output: packets handed to the manager,
    closures posted to the [io_context], writes to the user's buffers and
    calls of the user's callbacks.  A posted closure is a value of [task],
    which [run_task] executes. *)

From S2P Require Import Prelude Utils Skbuff Addr Headers TcpOptions CircularBuffer.

(** ** defination.hpp *)

Inductive tcp_state : Type :=
| kTCPClosed | kTCPConnecting | kTCPListen | kTCPSynSent | kTCPSynReceived
| kTCPEstablished | kTCPFinWait_1 | kTCPFinWait_2 | kTCPCloseWait | kTCPClosing
| kTCPLastAck | kTCPTimeWait | kSocketDisconnected | kSocketConnecting | kSocketConnected.

#[export] Instance tcp_state_eq_dec : EqDecision tcp_state.
Proof. solve_decision. Defined.

(** ** Packets (tcp_packet.hpp) *)

Record tcp_packet : Type := mk_tcp_packet {
  tp_proto : Z; tp_remote_ep : endpoint; tp_local_ep : endpoint; tp_skb : skbuff;
}.

(** [tcb_manager::PROTO], and [tcp::PROTO]. *)
Definition PROTO : Z := 6.

(** A [std::span<std::byte>] into memory of the user: the buffer it points
    into, its offset there and its size. *)
Record span : Type := mk_span { sp_buf : nat; sp_off : Z; sp_size : Z }.

#[export] Instance tcp_packet_eq_dec : EqDecision tcp_packet.
Proof. solve_decision. Defined.
#[export] Instance span_eq_dec : EqDecision span.
Proof. solve_decision. Defined.

(** Closures a block posts to the [io_context].  Callbacks are identified by
    number: their code is the user's. *)
Inductive task : Type :=
| TaskReadDone (cb : nat) (nbytes : Z)   (** [cb({}, len); make_and_send_pkt();] *)
| TaskWriteDone (cb : nat) (nbytes : Z)  (** [cb({}, sz);] *)
| TaskDrain                              (** the sending loop of [enqueue_app_data] *)
| TaskEstablished.                       (** [on_connection_established_(...)] *)

Inductive tcb_event : Type :=
| EvEnqueue (pkt : tcp_packet)               (** [mngr_.enqueue(pkt)] *)
| EvPost (t : task)                          (** [io_ctx_.post(...)] *)
| EvFill (sp : span) (bs : list byte)        (** [bs] is copied to the user's span *)
| EvCallback (cb : nat) (nbytes : Z)         (** a read or write callback is called *)
| EvConnected (cb : nat) (remote local : endpoint). (** the connection callback is called *)

(** ** The state of a block

    Scalar members that the program never reads or writes ([cwnd],
    [ssthresh], the timers, the window scales, ...) are left out. *)

Record send_t (B : Type) : Type := mk_send {
  seq_nr_unack : Z; seq_nr_next : Z; send_window : Z; send_mss : Z;
  send_pq : option B;   (** a [unique_ptr], empty until the handshake *)
}.
Record receive_t (B : Type) : Type := mk_receive {
  rcv_next : Z; rcv_window : Z; rcv_mss : Z; rcv_pq : B;
}.
Record tcb_t (B : Type) : Type := mk_tcb {
  remote_ep_ : endpoint;
  local_ep_ : endpoint;
  state_ : tcp_state;
  next_state_ : tcp_state;
  on_connection_established_ : nat;
  on_data_receive_ : list (span * nat);
  send_ : send_t B;
  rcv_ : receive_t B;
}.
Arguments mk_send {B}. Arguments seq_nr_unack {B}. Arguments seq_nr_next {B}.
Arguments send_window {B}. Arguments send_mss {B}. Arguments send_pq {B}.
Arguments mk_receive {B}. Arguments rcv_next {B}. Arguments rcv_window {B}.
Arguments rcv_mss {B}. Arguments rcv_pq {B}.
Arguments mk_tcb {B}. Arguments remote_ep_ {B}. Arguments local_ep_ {B}.
Arguments state_ {B}. Arguments next_state_ {B}. Arguments on_connection_established_ {B}.
Arguments on_data_receive_ {B}. Arguments send_ {B}. Arguments rcv_ {B}.

(** The constructor leaves the scalar members indeterminate: their values are
    an argument of [tcb_new], and no result depends on them unless it says so. *)
Record indeterminate : Type := mk_indeterminate {
  ind_unack : Z; ind_next : Z; ind_window : Z; ind_mss : Z; ind_rcv_next : Z; ind_rcv_mss : Z;
}.

Section Setters.
Context {B : Type}.
Implicit Types s : tcb_t B.

Definition set_state (v : tcp_state) s : tcb_t B :=
  mk_tcb (remote_ep_ s) (local_ep_ s) v (next_state_ s) (on_connection_established_ s)
    (on_data_receive_ s) (send_ s) (rcv_ s).
Definition set_next_state (v : tcp_state) s : tcb_t B :=
  mk_tcb (remote_ep_ s) (local_ep_ s) (state_ s) v (on_connection_established_ s)
    (on_data_receive_ s) (send_ s) (rcv_ s).
Definition set_on_data_receive (v : list (span * nat)) s : tcb_t B :=
  mk_tcb (remote_ep_ s) (local_ep_ s) (state_ s) (next_state_ s) (on_connection_established_ s)
    v (send_ s) (rcv_ s).
Definition upd_send (f : send_t B → send_t B) s : tcb_t B :=
  mk_tcb (remote_ep_ s) (local_ep_ s) (state_ s) (next_state_ s) (on_connection_established_ s)
    (on_data_receive_ s) (f (send_ s)) (rcv_ s).
Definition upd_rcv (f : receive_t B → receive_t B) s : tcb_t B :=
  mk_tcb (remote_ep_ s) (local_ep_ s) (state_ s) (next_state_ s) (on_connection_established_ s)
    (on_data_receive_ s) (send_ s) (f (rcv_ s)).

Definition set_unack v (x : send_t B) : send_t B :=
  mk_send v (seq_nr_next x) (send_window x) (send_mss x) (send_pq x).
Definition set_next v (x : send_t B) : send_t B :=
  mk_send (seq_nr_unack x) v (send_window x) (send_mss x) (send_pq x).
Definition set_send_window v (x : send_t B) : send_t B :=
  mk_send (seq_nr_unack x) (seq_nr_next x) v (send_mss x) (send_pq x).
Definition set_send_mss v (x : send_t B) : send_t B :=
  mk_send (seq_nr_unack x) (seq_nr_next x) (send_window x) v (send_pq x).
Definition set_send_pq v (x : send_t B) : send_t B :=
  mk_send (seq_nr_unack x) (seq_nr_next x) (send_window x) (send_mss x) (Some v).

Definition set_rcv_next v (x : receive_t B) : receive_t B :=
  mk_receive v (rcv_window x) (rcv_mss x) (rcv_pq x).
Definition set_rcv_mss v (x : receive_t B) : receive_t B :=
  mk_receive (rcv_next x) (rcv_window x) v (rcv_pq x).
Definition set_rcv_pq v (x : receive_t B) : receive_t B :=
  mk_receive (rcv_next x) (rcv_window x) (rcv_mss x) v.
End Setters.

(** [std::clamp(v, lo, hi)], undefined when [hi < lo]. *)
Definition clamp (v lo hi : Z) : result Z :=
  if hi <? lo then Fault ClampInverted
  else Ok (if v <? lo then lo else if hi <? v then hi else v).

(** [*ptr] of a [unique_ptr] *)
Definition deref {A} (p : option A) : result A :=
  match p with Some a => Ok a | None => Fault NullDeref end.

Section Tcb.
Context `{Host} {B : Type} `{CircularBuffer B}.

Abbreviation TM := (M (tcb_t B) tcb_event).

(** ** Construction *)

(** [0xFAF0u] *)
Definition rcv_window_init : Z := 64240.

(** The constructor.  [on_connection_established] is [None] for an empty
    [std::function]. *)
Definition tcb_new (junk : indeterminate) (remote_ep local_ep : endpoint)
    (state next_state : tcp_state) (on_connection_established : option nat)
    : result (tcb_t B) :=
  match on_connection_established with
  | None => Fault AssertFail
  | Some cb =>
      Ok {|
        remote_ep_ := remote_ep;
        local_ep_ := local_ep;
        state_ := state;
        next_state_ := next_state;
        on_connection_established_ := cb;
        on_data_receive_ := [];
        send_ := mk_send (ind_unack junk) (ind_next junk) (ind_window junk) (ind_mss junk) None;
        rcv_ := mk_receive (ind_rcv_next junk) rcv_window_init (ind_rcv_mss junk)
                  (cb_make rcv_window_init);
      |}
  end.

(** ** Sending *)

Definition app_data_unacknowleged (s : tcb_t B) : result Z :=
  pq ← deref (send_pq (send_ s));
  Ok (Z.min (cb_size pq) (u32 (seq_nr_next (send_ s) - seq_nr_unack (send_ s)))).

Definition app_data_to_send_left (s : tcb_t B) : result Z :=
  pq ← deref (send_pq (send_ s));
  unacked ← app_data_unacknowleged s;
  Ok (Z.min (send_mss (send_ s)) (u64 (cb_size pq - unacked))).

Definition has_app_data_to_send (s : tcb_t B) : result bool :=
  n ← app_data_to_send_left s; Ok (negb (n =? 0)).

Definition additional_room : Z := ethernetv2_header.size + ipv4_header.fixed_size.

(** The header of an outgoing segment of [seg_len] bytes. *)
Definition out_header (s : tcb_t B) (seg_len : Z) : tcp_header_t := {|
  src_port := addrv4_port (local_ep_ s);
  dst_port := addrv4_port (remote_ep_ s);
  seq_no := if 0 =? seg_len then seq_nr_unack (send_ s) else seq_nr_next (send_ s);
  ack_no := rcv_next (rcv_ s);
  data_offset := Z.shiftr tcp_header.fixed_size 2;
  reserved := 0;
  CWR := 0; ECE := 0; URG := 0; ACK := 1;
  PSH := of_bool (0 <? seg_len);
  RST := 0;
  SYN := of_bool (bool_decide (kTCPSynReceived = next_state_ s));
  FIN := 0;
  window := rcv_window (rcv_ s);
  chsum := 0;
  urgent_pointer := 0;
|}.

Definition make_packet : TM tcp_packet :=
  s ← get;
  seg_len ← lift (app_data_to_send_left s);
  let room := additional_room + tcp_header.fixed_size + seg_len in
  skb_out ← lift (skb_new (make_unique_for_overwrite room) additional_room);
  _ ← lift (assert_ (0 =? Z.land tcp_header.fixed_size 3));
  let out_tcp := out_header s seg_len in
  pq ← lift (deref (send_pq (send_ s)));
  unacked ← lift (app_data_unacknowleged s);
  _ ← lift (assert_ (negb (cb_size pq <? unacked + seg_len)));
  skb_out ← lift (skb_write 0 (tcp_header.produce_to_net out_tcp) skb_out);
  data ← lift (subspan unacked seg_len (cb_list pq));
  skb_out ← lift (skb_write tcp_header.fixed_size data skb_out);
  _ ← modify (upd_send (λ x, set_next (u32 (seq_nr_next x + seg_len)) x));
  _ ← modify (λ s, if bool_decide (next_state_ s ≠ state_ s)
                   then set_state (next_state_ s) s else s);
  mret {| tp_proto := PROTO; tp_remote_ep := remote_ep_ s; tp_local_ep := local_ep_ s;
          tp_skb := skb_out |}.

Definition enqueue (out_pkt : tcp_packet) : TM unit := emit (EvEnqueue out_pkt).

Definition make_and_send_pkt : TM unit := pkt ← make_packet; enqueue pkt.

(** [while (has_app_data_to_send()) make_and_send_pkt();] *)
Fixpoint send_loop (fuel : nat) : TM unit :=
  s ← get;
  more ← lift (has_app_data_to_send s);
  if (more : bool) then
    match fuel with
    | O => fail OutOfFuel
    | S fuel => _ ← make_and_send_pkt; send_loop fuel
    end
  else mret ().

(** Every iteration sends at least one byte of the queue. *)
Definition send_fuel (s : tcb_t B) : nat :=
  match send_pq (send_ s) with Some pq => length (cb_list pq) | None => 0 end.

Definition enqueue_app_data (packet : list byte) : TM unit :=
  s ← get;
  pq ← lift (deref (send_pq (send_ s)));
  _ ← lift (assert_ (negb (cb_capacity pq <? cb_size pq + len packet)));
  _ ← modify (upd_send (set_send_pq (cb_insert_end packet pq)));
  emit (EvPost TaskDrain).

Definition async_write (buf : list byte) (cb : nat) : TM unit :=
  _ ← enqueue_app_data buf;
  emit (EvPost (TaskWriteDone cb (len buf))).

(** ** Receiving *)

(** [span.subspan(0, n)] of a user's span *)
Definition sp_take (n : Z) (sp : span) : span := mk_span (sp_buf sp) (sp_off sp) n.

Definition async_read_some (buf : span) (cb : nat) : TM unit :=
  s ← get;
  let pq := rcv_pq (rcv_ s) in
  if negb (cb_empty pq) then
    let buf := sp_take (Z.min (cb_size pq) (sp_size buf)) buf in
    _ ← emit (EvFill buf (take (Z.to_nat (sp_size buf)) (cb_list pq)));
    _ ← modify (upd_rcv (set_rcv_pq (cb_erase_begin (sp_size buf) pq)));
    _ ← modify (upd_rcv (λ x, set_rcv_next (u32 (rcv_next x + sp_size buf)) x));
    emit (EvPost (TaskReadDone cb (sp_size buf)))
  else
    modify (λ s, set_on_data_receive (on_data_receive_ s ++ [(buf, cb)]) s).

Definition listen_finish : TM unit := emit (EvPost TaskEstablished).

(** ** Segment arrival *)

(** The [std::visit] of both handshake handlers: only the MSS is kept. *)
Definition apply_options (opts : list tcp_option) : TM unit :=
  modify (upd_send (λ x, foldl (λ x opt,
    match opt with mss value => set_send_mss value x | _ => x end) x opts)).

Definition tcp_handle_close_state (tcph : tcp_header_t) : TM bool :=
  s ← get;
  _ ← lift (assert_ (bool_decide (kTCPClosed = state_ s)));
  if bit (RST tcph) then mret true
  else if negb (bit (ACK tcph)) then mret true
  else if bit (ACK tcph) then mret true
  else mret false.

(** [isn] is the value of [generate_isn()]. *)
Definition tcp_handle_listen_state (isn : Z) (tcph : tcp_header_t) (opts : list byte) : TM bool :=
  s ← get;
  _ ← lift (assert_ (bool_decide (kTCPListen = state_ s)));
  if bit (RST tcph) then mret true
  else if bit (ACK tcph) then mret true
  else if bit (SYN tcph) then
    os ← lift (decode_options opts);
    _ ← apply_options os;
    _ ← modify (upd_rcv (set_rcv_next (u32 (seq_no tcph + 1))));
    _ ← modify (upd_send (set_send_window (window tcph)));
    _ ← modify (upd_send (λ x, set_send_pq (cb_make (send_window x)) x));
    _ ← modify (upd_send (set_next (u32 (isn + 1))));
    _ ← modify (upd_send (set_unack isn));
    _ ← modify (set_next_state kTCPSynReceived);
    _ ← make_and_send_pkt;
    mret true
  else mret true.

Definition tcp_handle_syn_sent (tcph : tcp_header_t) (opts : list byte) : TM bool :=
  s ← get;
  _ ← lift (assert_ (bool_decide (kTCPSynSent = state_ s)));
  if bit (SYN tcph) && bit (ACK tcph) then
    if negb (ack_no tcph <? seq_nr_unack (send_ s)) &&
       negb (seq_nr_next (send_ s) <? ack_no tcph) then
      _ ← modify (upd_rcv (set_rcv_next (u32 (seq_no tcph + 1))));
      _ ← modify (upd_send (set_send_window (window tcph)));
      _ ← modify (upd_send (λ x, set_send_pq (cb_make (send_window x)) x));
      _ ← modify (upd_send (set_unack (ack_no tcph)));
      os ← lift (decode_options opts);
      _ ← apply_options os;
      _ ← modify (set_state kTCPEstablished);
      _ ← modify (set_next_state kTCPEstablished);
      _ ← make_and_send_pkt;
      _ ← listen_finish;
      mret true
    else mret true
  else mret true.

(** The arithmetic is that of [uint32_t]; a sum used as a condition is
    tested against zero. *)
Definition tcp_check_segment (s : tcb_t B) (tcph : tcp_header_t) (seglen : Z) : bool :=
  let next := rcv_next (rcv_ s) in
  let wnd := rcv_window (rcv_ s) in
  match state_ s with
  | kTCPSynReceived | kTCPEstablished | kTCPFinWait_1 | kTCPFinWait_2
  | kTCPCloseWait | kTCPClosing | kTCPLastAck | kTCPTimeWait =>
      if (seglen =? 0) && (wnd =? 0) then seq_no tcph =? next
      else if (seglen =? 0) && (0 <? wnd) then
        (next <=? seq_no tcph) && (seq_no tcph <? u32 (next + wnd))
      else if (0 <? seglen) && (wnd =? 0) then false
      else if (0 <? seglen) && (0 <? wnd) then
        ((next <=? seq_no tcph) && bit (u32 (next + wnd))) ||
        ((next <=? u32 (seq_no tcph + seglen - 1)) &&
         (u32 (seq_no tcph + seglen - 1) <? u32 (next + wnd)))
      else false
  | _ => false
  end.

(** *** The steps of [process] after the sequence check

    A step returns [true] when the handler returns in it. *)

(** Second, the RST bit. *)
Definition process_rst (tcph : tcp_header_t) (s : tcb_t B) : bool :=
  bit (RST tcph) &&
  match state_ s with
  | kTCPSynReceived => true
  | kTCPEstablished | kTCPFinWait_1 | kTCPFinWait_2 | kTCPCloseWait => true
  | kTCPClosing | kTCPLastAck | kTCPTimeWait => true
  | _ => false
  end.

(** Fourth, the SYN bit. *)
Definition process_syn (tcph : tcp_header_t) (s : tcb_t B) : bool :=
  bit (SYN tcph) &&
  match state_ s with
  | kTCPSynReceived | kTCPEstablished | kTCPFinWait_1 | kTCPFinWait_2
  | kTCPCloseWait | kTCPClosing | kTCPLastAck | kTCPTimeWait => true
  | _ => false
  end.

(** Fifth, the ACK field: in SYN-RECEIVED, *)
Definition process_ack_syn_received (tcph : tcp_header_t) : TM bool :=
  s ← get;
  let una := seq_nr_unack (send_ s) in
  let nxt := seq_nr_next (send_ s) in
  if (una <=? ack_no tcph) && (ack_no tcph <=? nxt) then
    v ← lift (clamp (ack_no tcph) una nxt);
    _ ← modify (upd_send (set_unack v));
    _ ← modify (set_state kTCPEstablished);
    _ ← modify (set_next_state kTCPEstablished);
    _ ← listen_finish;
    mret false
  else mret true.

(** and in ESTABLISHED and the states that process like it. *)
Definition process_ack_established (tcph : tcp_header_t) : TM bool :=
  s ← get;
  pq ← lift (deref (send_pq (send_ s)));
  let una := seq_nr_unack (send_ s) in
  let nxt := seq_nr_next (send_ s) in
  _ ← modify (upd_send (set_send_pq
        (cb_erase_begin (Z.min (cb_size pq) (u32 (ack_no tcph - una))) pq)));
  v ← lift (clamp (ack_no tcph) una nxt);
  _ ← modify (upd_send (set_unack v));
  if nxt <? ack_no tcph then
    _ ← make_and_send_pkt;
    mret true
  else
    _ ← modify (λ s, if bool_decide (state_ s = kTCPFinWait_1)
                     then set_next_state kTCPFinWait_2 s else s);
    _ ← modify (λ s, if bool_decide (state_ s = kTCPClosing)
                     then set_next_state kTCPTimeWait s else s);
    mret false.

Definition process_ack (tcph : tcp_header_t) : TM bool :=
  s ← get;
  if bit (ACK tcph) then
    match state_ s with
    | kTCPSynReceived => process_ack_syn_received tcph
    | kTCPEstablished | kTCPFinWait_1 | kTCPFinWait_2 | kTCPCloseWait | kTCPClosing =>
        process_ack_established tcph
    | kTCPLastAck => _ ← modify (set_next_state kTCPClosed); mret true
    | kTCPTimeWait => _ ← make_and_send_pkt; mret false
    | _ => mret false
    end
  else mret false.

(** Seventh, the segment text, in a state that accepts it: *)
Definition receive_text (tcph : tcp_header_t) (segment : list byte) : TM unit :=
  s ← get;
  let pq := rcv_pq (rcv_ s) in
  if negb (seq_no tcph <? rcv_next (rcv_ s) + cb_size pq) then
    match on_data_receive_ s with
    | (buf, cb) :: waiting =>
        _ ← lift (assert_ (cb_empty pq));
        _ ← modify (set_on_data_receive waiting);
        let buf := sp_take (Z.min (len segment) (sp_size buf)) buf in
        part ← lift (subspan 0 (sp_size buf) segment);
        _ ← emit (EvFill buf part);
        _ ← modify (upd_rcv (λ x, set_rcv_next (u32 (rcv_next x + sp_size buf)) x));
        let pq := cb_resize (len segment - sp_size buf) pq in
        part ← lift (subspan_from (sp_size buf) segment);
        _ ← modify (upd_rcv (set_rcv_pq (cb_copy_to 0 part pq)));
        emit (EvPost (TaskReadDone cb (sp_size buf)))
    | [] =>
        _ ← lift (assert_ (negb (cb_capacity pq <? cb_size pq + len segment)));
        let pq := cb_resize (cb_size pq + len segment) pq in
        modify (upd_rcv (set_rcv_pq (cb_copy_to (cb_size pq - len segment) segment pq)))
    end
  else mret ().

Definition process_text (tcph : tcp_header_t) (segment : list byte) : TM unit :=
  s ← get;
  if 0 <? len segment then
    match state_ s with
    | kTCPEstablished | kTCPFinWait_1 | kTCPFinWait_2 => receive_text tcph segment
    | _ => mret ()
    end
  else mret ().

(** Eighth, the FIN bit; the cases fall through. *)
Definition fin_wait_2 : TM unit := modify (set_next_state kTCPTimeWait).
Definition fin_wait_1 : TM unit :=
  _ ← modify (λ s, if bool_decide (next_state_ s = kTCPFinWait_2)
                   then set_next_state kTCPTimeWait s else set_next_state kTCPClosing s);
  fin_wait_2.
Definition fin_established : TM unit :=
  _ ← modify (upd_rcv (λ x, set_rcv_next (u32 (rcv_next x + 1)) x));
  _ ← modify (set_next_state kTCPCloseWait);
  _ ← make_and_send_pkt;
  fin_wait_1.

Definition process_fin (tcph : tcp_header_t) : TM unit :=
  s ← get;
  if bit (FIN tcph) then
    match state_ s with
    | kTCPSynReceived | kTCPEstablished => fin_established
    | kTCPFinWait_1 => fin_wait_1
    | kTCPFinWait_2 => fin_wait_2
    | _ => mret ()
    end
  else mret ().

(** The URG step of [process]: the comments of its two groups of states say
    what is to be done, the code does nothing in any of them. *)
Definition process_urg (tcph : tcp_header_t) : TM unit :=
  s ← get;
  if bit (URG tcph) then
    match state_ s with
    | kTCPEstablished | kTCPFinWait_1 | kTCPFinWait_2
    | kTCPCloseWait | kTCPClosing | kTCPLastAck | kTCPTimeWait => mret ()
    | _ => mret ()
    end
  else mret ().

(** The part of [process] that follows the handlers of CLOSED, LISTEN and
    SYN-SENT.  The security check is a comment in the source. *)
Definition process_segment (tcph : tcp_header_t) (segment : list byte) : TM unit :=
  s ← get;
  if negb (tcp_check_segment s tcph (u16 (len segment))) then mret ()
  else if process_rst tcph s then mret ()
  else if process_syn tcph s then mret ()
  else
    done ← process_ack tcph;
    if (done : bool) then mret ()
    else
      _ ← process_urg tcph;
      _ ← process_text tcph segment;
      process_fin tcph.

(** The dispatch on the state, given the parsed segment. *)
Definition process_parsed (isn : Z) (tcph : tcp_header_t) (opts segment : list byte) : TM unit :=
  s ← get;
  done ← (if bool_decide (state_ s = kTCPClosed) then tcp_handle_close_state tcph
          else mret false);
  if (done : bool) then mret () else
  s ← get;
  done ← (if bool_decide (state_ s = kTCPListen) then tcp_handle_listen_state isn tcph opts
          else mret false);
  if (done : bool) then mret () else
  s ← get;
  done ← (if bool_decide (state_ s = kTCPSynSent) then tcp_handle_syn_sent tcph opts
          else mret false);
  if (done : bool) then mret () else
  process_segment tcph segment.

(** Header, options and text of a packet.  [optlen] is a [size_t]: it wraps
    when the data offset is less than five words. *)
Definition parse_segment (skb : skbuff) : result (tcp_header_t * list byte * list byte) :=
  _ ← assert_ (negb (len (payload skb) <? tcp_header.fixed_size));
  '(tcph, _) ← tcp_header.consume_from_net (head skb);
  let hlen := Z.shiftl (data_offset tcph) 2 in
  let optlen := u64 (hlen - tcp_header.fixed_size) in
  skb ← pop_front (u64 (hlen - optlen)) skb;
  opts ← subspan 0 optlen (payload skb);
  skb ← pop_front optlen skb;
  Ok (tcph, opts, payload skb).

Definition process (isn : Z) (pkt_in : tcp_packet) : TM unit :=
  '(tcph, opts, segment) ← lift (parse_segment (tp_skb pkt_in));
  process_parsed isn tcph opts segment.

(** ** Active open *)

(** The header and the options of the SYN; [isn] is [generate_isn()]. *)
Definition syn_header (s : tcb_t B) (isn : Z) (payload_size : Z) : tcp_header_t := {|
  src_port := addrv4_port (local_ep_ s);
  dst_port := addrv4_port (remote_ep_ s);
  seq_no := isn;
  ack_no := 0;
  data_offset := u16 (Z.shiftr payload_size 2);
  reserved := 0;
  CWR := 0; ECE := 0; URG := 0; ACK := 0; PSH := 0; RST := 0; SYN := 1; FIN := 0;
  window := rcv_window (rcv_ s);
  chsum := 0;
  urgent_pointer := 0;
|}.

Definition start_connecting (isn : Z) : TM unit :=
  _ ← modify (upd_rcv (set_rcv_mss 1446));
  s ← get;
  let opts := [mss (rcv_mss (rcv_ s)); nop; nop; sack] in
  let room := additional_room + tcp_header.fixed_size + 8 in
  skb_out ← lift (skb_new (make_unique_for_overwrite room) additional_room);
  _ ← lift (assert_ (0 =? Z.land tcp_header.fixed_size 3));
  let out_tcp := syn_header s isn (len (payload skb_out)) in
  _ ← modify (upd_send (set_unack (seq_no out_tcp)));
  _ ← modify (upd_send (set_next (u32 (seq_no out_tcp + 1))));
  skb_out ← lift (skb_write 0 (tcp_header.produce_to_net out_tcp) skb_out);
  room8 ← lift (subspan tcp_header.fixed_size 8 (payload skb_out));
  bytes ← lift (encode_options room8 opts);
  skb_out ← lift (skb_write tcp_header.fixed_size bytes skb_out);
  _ ← modify (set_state kTCPSynSent);
  _ ← modify (set_next_state kTCPEstablished);
  enqueue {| tp_proto := 6; tp_remote_ep := remote_ep_ s; tp_local_ep := local_ep_ s;
             tp_skb := skb_out |}.

(** ** Posted closures

    A callback may call back into the block before it returns: [calls] are
    the calls it makes. *)

Inductive api_call : Type :=
| ApiRead (buf : span) (cb : nat)
| ApiWrite (buf : list byte) (cb : nat).

Definition run_call (c : api_call) : TM unit :=
  match c with
  | ApiRead buf cb => async_read_some buf cb
  | ApiWrite buf cb => async_write buf cb
  end.

Fixpoint run_calls (calls : list api_call) : TM unit :=
  match calls with
  | [] => mret ()
  | c :: calls => _ ← run_call c; run_calls calls
  end.

Definition run_task (t : task) (calls : list api_call) : TM unit :=
  match t with
  | TaskReadDone cb nbytes =>
      _ ← emit (EvCallback cb nbytes);
      _ ← run_calls calls;
      make_and_send_pkt
  | TaskWriteDone cb nbytes => _ ← emit (EvCallback cb nbytes); run_calls calls
  | TaskDrain => s ← get; send_loop (send_fuel s)
  | TaskEstablished =>
      s ← get;
      _ ← emit (EvConnected (on_connection_established_ s) (remote_ep_ s) (local_ep_ s));
      run_calls calls
  end.
End Tcb.
