(* ===== verification/TcbFacts.v ===== *)
(** * Facts about the operations of a connection

    The ranges of the state's fields, and for each building block of [Tcb] an
    equation that says what it computes when it returns.  The properties of
    the other [Tcb*] files rest on these. *)

From S2P Require Import Prelude Utils Skbuff Addr Headers TcpOptions CircularBuffer Tcb.

(** ** Ranges *)

Definition send_ok {B} `{CircularBuffer B} (x : send_t B) : Prop :=
  is_u 32 (seq_nr_unack x) ∧ is_u 32 (seq_nr_next x) ∧ is_u 16 (send_window x) ∧
  is_u 16 (send_mss x) ∧
  match send_pq x with Some pq => cb_capacity pq = send_window x | None => True end.

Definition rcv_ok {B} (x : receive_t B) : Prop :=
  is_u 32 (rcv_next x) ∧ rcv_window x = rcv_window_init ∧ is_u 16 (rcv_mss x).

Definition tcb_ok {B} `{CircularBuffer B} (s : tcb_t B) : Prop :=
  endpoint_ok (remote_ep_ s) ∧ endpoint_ok (local_ep_ s) ∧ send_ok (send_ s) ∧ rcv_ok (rcv_ s).

(** ** The monad, on known results *)

Section Run.
Context {S E : Type}.

Lemma bind_run {A A'} (m : M S E A) (k : A → M S E A') s a s1 e1 :
  m s = Ok (a, s1, e1) →
  (m ≫= k) s = match k a s1 with
               | Ok (b, s2, e2) => Ok (b, s2, e1 ++ e2)
               | Fault f => Fault f
               end.
Proof. unfold mbind, M_bind. by intros ->. Qed.

Lemma bind_run_Ok {A A'} (m : M S E A) (k : A → M S E A') s a s1 e1 b s2 e2 :
  m s = Ok (a, s1, e1) → k a s1 = Ok (b, s2, e2) → (m ≫= k) s = Ok (b, s2, e1 ++ e2).
Proof. intros Hm Hk. by rewrite (bind_run _ _ _ _ _ _ Hm), Hk. Qed.

(** Steps without output. *)
Lemma bind_silent {A A'} (m : M S E A) (k : A → M S E A') s a s1 :
  m s = Ok (a, s1, []) → (m ≫= k) s = k a s1.
Proof.
  intros Hm. rewrite (bind_run _ _ _ _ _ _ Hm). by destruct (k a s1) as [[[? ?] ?]|].
Qed.
Lemma bind_get {A} (k : S → M S E A) s : (get ≫= k) s = k s s.
Proof. by apply bind_silent. Qed.
Lemma bind_modify {A} f (k : unit → M S E A) s : (modify f ≫= k) s = k () (f s).
Proof. by apply bind_silent. Qed.
Lemma bind_ret {A A'} (a : A) (k : A → M S E A') s : (mret a ≫= k) s = k a s.
Proof. by apply bind_silent. Qed.
Lemma bind_lift_Ok {A A'} r (a : A) (k : A → M S E A') s :
  r = Ok a → (lift r ≫= k) s = k a s.
Proof. intros ->. by apply bind_silent. Qed.
Lemma bind_lift_Fault {A A'} (r : result A) f (k : A → M S E A') s :
  r = Fault f → (lift r ≫= k) s = Fault f.
Proof. by intros ->. Qed.
Lemma bind_emit {A} e (k : unit → M S E A) s a s' es :
  k () s = Ok (a, s', es) → (emit e ≫= k) s = Ok (a, s', e :: es).
Proof. intros Hk. by apply (bind_run_Ok _ _ _ () s [e]). Qed.
Lemma bind_fault {A A'} (m : M S E A) (k : A → M S E A') s f :
  m s = Fault f → (m ≫= k) s = Fault f.
Proof. unfold mbind, M_bind. by intros ->. Qed.
Lemma bind_assert {A} b (k : unit → M S E A) s : b = true → (lift (assert_ b) ≫= k) s = k () s.
Proof. intros ->. by apply bind_silent. Qed.
End Run.

(** Run the silent steps at the head of a computation. *)
Ltac run1 :=
  first
    [ rewrite bind_get | rewrite bind_modify | rewrite bind_ret
    | rewrite bind_assert by done
    | erewrite bind_lift_Ok by done
    | erewrite bind_lift_Ok by eassumption ]; cbv beta.
Ltac run := repeat run1.

Lemma clamp_Ok v lo hi :
  lo ≤ hi → clamp v lo hi = Ok (if v <? lo then lo else if hi <? v then hi else v).
Proof. intros. unfold clamp. by replace (hi <? lo) with false by lia. Qed.

Section Facts.
Context `{Hh : Host} {B : Type} `{Hc : CircularBuffer B} `{!CircularBufferSpec B}.
Implicit Types s : tcb_t B.

(** The URG step leaves no trace, in any state. *)
Lemma process_urg_run hdr s : process_urg hdr s = Ok ((), s, []).
Proof. unfold process_urg. run. destruct (bit (URG hdr)); [by destruct (state_ s)|done]. Qed.

Lemma deref_Some {A} (a : A) : deref (Some a) = Ok a.
Proof. done. Qed.

(** *** The state of the send queue

    [unacked]: the bytes at the front of the queue that were sent and not
    acknowledged; the rest is [unsent]. *)

Definition unacked (s : tcb_t B) (pq : B) : Z :=
  Z.min (cb_size pq) (u32 (seq_nr_next (send_ s) - seq_nr_unack (send_ s))).
Definition unsent (s : tcb_t B) (pq : B) : list byte :=
  drop (Z.to_nat (unacked s pq)) (cb_list pq).
(** The length of the next segment. *)
Definition next_len (s : tcb_t B) (pq : B) : Z := Z.min (send_mss (send_ s)) (len (unsent s pq)).

Lemma unacked_range s pq : 0 ≤ unacked s pq ≤ cb_size pq.
Proof.
  unfold unacked. pose proof (u32_is_u (seq_nr_next (send_ s) - seq_nr_unack (send_ s))) as Hu.
  unfold is_u, cb_size in *. lia.
Qed.

Lemma length_unsent s pq : len (unsent s pq) = cb_size pq - unacked s pq.
Proof.
  pose proof (unacked_range s pq). unfold unsent, cb_size in *.
  rewrite length_drop. lia.
Qed.

Lemma send_capacity s pq :
  tcb_ok s → send_pq (send_ s) = Some pq → cb_size pq ≤ cb_capacity pq ≤ 65535.
Proof.
  intros (_ & _ & (_ & _ & Hw & _ & Hcap) & _) Hpq. rewrite Hpq in Hcap.
  pose proof (cb_size_capacity pq). unfold is_u in Hw. lia.
Qed.

Lemma app_data_unacknowleged_eq s pq :
  send_pq (send_ s) = Some pq → app_data_unacknowleged s = Ok (unacked s pq).
Proof. intros Hpq. unfold app_data_unacknowleged. by rewrite Hpq. Qed.

Lemma app_data_to_send_left_eq s pq :
  tcb_ok s → send_pq (send_ s) = Some pq → app_data_to_send_left s = Ok (next_len s pq).
Proof.
  intros Hs Hpq. unfold app_data_to_send_left.
  rewrite (app_data_unacknowleged_eq _ _ Hpq), Hpq. cbn.
  unfold next_len. rewrite length_unsent.
  pose proof (unacked_range s pq). pose proof (send_capacity _ _ Hs Hpq).
  do 2 f_equal. ulia.
Qed.

Lemma next_len_range s pq :
  tcb_ok s → 0 ≤ next_len s pq ≤ len (unsent s pq).
Proof.
  intros (_ & _ & (_ & _ & _ & Hm & _) & _). unfold next_len, is_u in *. lia.
Qed.

(** *** Outgoing segments *)

Lemma out_header_ok s n : tcb_ok s → tcp_header_ok (out_header s n).
Proof.
  intros ([_ ?] & [_ ?] & (? & ? & _) & (? & Hw & _)).
  unfold tcp_header_ok, out_header; cbn [src_port dst_port seq_no ack_no data_offset reserved
    CWR ECE URG ACK PSH RST SYN FIN window chsum urgent_pointer].
  split_and!; try done; try (unfold is_u; lia).
  - by case_match.
  - unfold of_bool. case_match; unfold is_u; lia.
  - unfold of_bool. case_match; unfold is_u; lia.
  - rewrite Hw. unfold is_u, rcv_window_init. lia.
Qed.

(** An outgoing packet of the block: its addressing and the contents of its
    buffer, which has room for the lower layers' headers. *)
Definition packet_of (s : tcb_t B) (hdr : tcp_header_t) (bytes : list byte) (p : tcp_packet) : Prop :=
  tp_proto p = PROTO ∧ tp_remote_ep p = remote_ep_ s ∧ tp_local_ep p = local_ep_ s ∧
  skb_wf (tp_skb p) ∧ headroom (tp_skb p) = additional_room ∧
  payload (tp_skb p) = tcp_header.produce_to_net hdr ++ bytes.

(** The buffer of an outgoing segment: allocated, then filled with the
    header and the data. *)
Lemma fill_skb hdr (data : list byte) :
  ∃ skb0 skb1 skb2,
    skb_new (make_unique_for_overwrite (additional_room + tcp_header.fixed_size + len data))
      additional_room = Ok skb0 ∧
    len (payload skb0) = tcp_header.fixed_size + len data ∧
    skb_write 0 (tcp_header.produce_to_net hdr) skb0 = Ok skb1 ∧
    (∃ rest, payload skb1 = tcp_header.produce_to_net hdr ++ rest ∧ len rest = len data) ∧
    skb_write tcp_header.fixed_size data skb1 = Ok skb2 ∧
    skb_wf skb2 ∧ headroom skb2 = additional_room ∧
    payload skb2 = tcp_header.produce_to_net hdr ++ data.
Proof.
  set (buf := make_unique_for_overwrite _).
  assert (len buf = 34 + 20 + len data) as Lbuf.
  { subst buf. rewrite length_make_unique; [done|]. change additional_room with 34. change tcp_header.fixed_size with 20. lia. }
  destruct (skb_new_Ok buf additional_room) as (skb0 & E0 & W0 & P0 & H0 & _);
    [change additional_room with 34; lia|].
  assert (len (payload skb0) = 20 + len data) as L0.
  { rewrite P0, length_drop. change additional_room with 34. lia. }
  assert (len (tcp_header.produce_to_net hdr) = 20) as Lh by apply (wire_length (Wire := tcp_wire)).
  destruct (skb_write_Ok 0 (tcp_header.produce_to_net hdr) skb0 W0) as (skb1 & E1 & W1 & P1 & H1 & _);
    [lia|lia|].
  cbn [Z.to_nat take app] in P1. rewrite take_0, app_nil_l in P1.
  assert (len (payload skb1) = 20 + len data) as L1.
  { rewrite P1, length_app, length_drop. lia. }
  destruct (skb_write_Ok tcp_header.fixed_size data skb1 W1) as (skb2 & E2 & W2 & P2 & H2 & _);
    [done|change tcp_header.fixed_size with 20; lia|].
  exists skb0, skb1, skb2. split_and!; try done; try congruence.
  - exists (drop (Z.to_nat 0 + length (tcp_header.produce_to_net hdr)) (payload skb0)).
    split; [done|]. rewrite length_drop. lia.
  - rewrite P2, P1. change (Z.to_nat tcp_header.fixed_size) with 20%nat.
    rewrite take_app_length' by lia. f_equal.
    rewrite drop_ge; [by rewrite app_nil_r|]. rewrite length_app, length_drop. lia.
Qed.

(** The state after a packet was made. *)
Definition after_packet (s : tcb_t B) (n : Z) : tcb_t B :=
  set_state (next_state_ s) (upd_send (λ x, set_next (u32 (seq_nr_next x + n)) x) s).

(** [make_packet] always returns: it sends the next bytes of the queue. *)
Lemma make_packet_run s pq :
  tcb_ok s → send_pq (send_ s) = Some pq →
  let n := next_len s pq in
  ∃ p, make_packet s = Ok (p, after_packet s n, []) ∧
    packet_of s (out_header s n) (take (Z.to_nat n) (unsent s pq)) p.
Proof.
  intros Hs Hpq n.
  pose proof (unacked_range s pq) as Hun. pose proof (next_len_range s pq Hs) as Hn.
  pose proof (length_unsent s pq) as Hl.
  set (data := take (Z.to_nat n) (unsent s pq)).
  assert (len data = n) as Ld by (subst data; rewrite length_take; lia).
  destruct (fill_skb (out_header s n) data)
    as (skb0 & skb1 & skb2 & E0 & _ & E1 & _ & E2 & W2 & H2 & P2).
  rewrite Ld in E0.
  assert (subspan (unacked s pq) n (cb_list pq) = Ok data) as Ed.
  { unfold subspan. unfold cb_size in *.
    by replace ((0 <=? unacked s pq) && (0 <=? n) && (unacked s pq + n <=? len (cb_list pq)))
      with true by lia. }
  exists {| tp_proto := PROTO; tp_remote_ep := remote_ep_ s; tp_local_ep := local_ep_ s;
            tp_skb := skb2 |}.
  split; [|done].
  unfold make_packet. run. rewrite (bind_lift_Ok _ n) by (by apply app_data_to_send_left_eq).
  cbv zeta. run. rewrite (bind_lift_Ok _ pq) by (by rewrite Hpq).
  rewrite (bind_lift_Ok _ (unacked s pq)) by (by apply app_data_unacknowleged_eq).
  rewrite bind_assert by (unfold cb_size in *; lia).
  run. unfold mret, M_ret. do 3 f_equal. unfold after_packet.
  case_bool_decide as Hst; [done|].
  assert (next_state_ s = state_ s) as -> by (cbn in Hst; by destruct (decide (next_state_ s = state_ s))).
  done.
Qed.

Lemma make_and_send_pkt_run s pq :
  tcb_ok s → send_pq (send_ s) = Some pq →
  let n := next_len s pq in
  ∃ p, make_and_send_pkt s = Ok ((), after_packet s n, [EvEnqueue p]) ∧
    packet_of s (out_header s n) (take (Z.to_nat n) (unsent s pq)) p.
Proof.
  intros Hs Hpq n. destruct (make_packet_run s pq Hs Hpq) as (p & E & Hp).
  exists p. split; [|done]. unfold make_and_send_pkt. by rewrite (bind_silent _ _ _ _ _ E).
Qed.
End Facts.
