(* ===== verification/TcbSend.v ===== *)
(** * The sending side of a connection

    The send queue holds the bytes the application wrote and the peer has not
    acknowledged.  The properties: the sending loop ends and puts every unsent
    byte on the wire once, in order, in segments of at most the peer's MSS; a
    valid acknowledgment removes exactly what it acknowledges; and what other
    acknowledgments do. *)

From S2P Require Import Prelude Utils Skbuff Addr Headers TcpOptions CircularBuffer Tcb TcbFacts.

Section Send.
Context `{Hh : Host} {B : Type} `{Hc : CircularBuffer B} `{Hs : !CircularBufferSpec B}.
Implicit Types s : tcb_t B.

(** What the sending loop must put on the wire for [bytes], the next
    sequence number being [nxt]: data segments of at most the MSS, all but
    the last of exactly the MSS, numbered consecutively. *)
Inductive sent (s : tcb_t B) : Z → list byte → list tcb_event → Prop :=
| sent_nil nxt : sent s nxt [] []
| sent_segment nxt seg rest p evs :
    seg ≠ [] → len seg ≤ send_mss (send_ s) →
    (rest = [] ∨ len seg = send_mss (send_ s)) →
    packet_of s (out_header (upd_send (set_next nxt) s) (len seg)) seg p →
    sent s (u32 (nxt + len seg)) rest evs →
    sent s nxt (seg ++ rest) (EvEnqueue p :: evs).

(** No more is outstanding than the queue holds: no SYN in flight. *)
Definition no_syn_in_flight s (pq : B) : Prop :=
  u32 (seq_nr_next (send_ s) - seq_nr_unack (send_ s)) ≤ cb_size pq.

Definition after_loop s (pq : B) : tcb_t B :=
  if decide (unsent s pq = []) then s
  else set_state (next_state_ s)
         (upd_send (λ x, set_next (u32 (seq_nr_next x + len (unsent s pq))) x) s).

Lemma after_packet_ok s n : tcb_ok s → tcb_ok (after_packet s n).
Proof.
  intros (? & ? & (? & ? & ? & ? & ?) & ?). unfold tcb_ok, send_ok; cbn.
  split_and!; auto using u32_is_u.
Qed.

Lemma unsent_after_packet s pq n :
  tcb_ok s → send_pq (send_ s) = Some pq → no_syn_in_flight s pq →
  0 ≤ n ≤ len (unsent s pq) →
  unsent (after_packet s n) pq = drop (Z.to_nat n) (unsent s pq) ∧
  no_syn_in_flight (after_packet s n) pq.
Proof.
  intros Hok Hpq Hf Hn. pose proof (send_capacity _ _ Hok Hpq).
  rewrite length_unsent in Hn. unfold unsent, unacked, no_syn_in_flight in *. cbn in *.
  assert (u32 (u32 (seq_nr_next (send_ s) + n) - seq_nr_unack (send_ s)) =
    u32 (seq_nr_next (send_ s) - seq_nr_unack (send_ s)) + n) as -> by ulia.
  split; [|lia]. rewrite drop_drop. f_equal. ulia.
Qed.

Lemma sent_ext s s' nxt bytes evs :
  sent s nxt bytes evs →
  remote_ep_ s' = remote_ep_ s → local_ep_ s' = local_ep_ s →
  next_state_ s' = next_state_ s → rcv_ s' = rcv_ s →
  seq_nr_unack (send_ s') = seq_nr_unack (send_ s) →
  send_mss (send_ s') = send_mss (send_ s) →
  sent s' nxt bytes evs.
Proof.
  intros Hsent E1 E2 E3 E4 E5 E6.
  induction Hsent as [|nxt seg rest p evs Hne Hle Hfull Hp Hsent IH]; econstructor; eauto;
    rewrite ?E6; try done.
  unfold packet_of, out_header in *. cbn in *. by rewrite E1, E2, E3, E4, E5.
Qed.

(** A SYN in flight leaves nothing unsent. *)
Lemma unsent_no_syn s pq : unsent s pq ≠ [] → no_syn_in_flight s pq.
Proof.
  intros Hne. unfold no_syn_in_flight. destruct (Z.le_gt_cases
    (u32 (seq_nr_next (send_ s) - seq_nr_unack (send_ s))) (cb_size pq)) as [|Hgt]; [done|].
  destruct Hne. unfold unsent, unacked. rewrite Z.min_l by lia.
  apply drop_ge. unfold cb_size. lia.
Qed.

Lemma send_loop_run fuel s pq :
  tcb_ok s → send_pq (send_ s) = Some pq →
  0 < send_mss (send_ s) → (length (unsent s pq) ≤ fuel)%nat →
  ∃ evs, send_loop fuel s = Ok ((), after_loop s pq, evs) ∧
         sent s (seq_nr_next (send_ s)) (unsent s pq) evs.
Proof.
  revert s. induction fuel as [|fuel IH]; intros s Hok Hpq Hm Hfuel.
  all: pose proof (next_len_range s pq Hok) as Hn.
  all: assert (has_app_data_to_send s = Ok (negb (next_len s pq =? 0))) as Hmore
    by (unfold has_app_data_to_send; by rewrite (app_data_to_send_left_eq s pq)).
  all: cbn [send_loop]; rewrite bind_get, (bind_lift_Ok _ _ _ _ Hmore); cbv beta.
  - replace (next_len s pq =? 0) with true by lia. cbn [negb].
    exists []. unfold after_loop. destruct (unsent s pq) eqn:Hu; [|cbn in Hfuel; lia].
    rewrite decide_True by done. split; [done|constructor].
  - destruct (Z.eqb_spec (next_len s pq) 0) as [E0|Hn0]; cbn [negb].
    + exists []. unfold after_loop. unfold next_len in E0.
      destruct (unsent s pq) eqn:Hu; [|cbn [length] in E0; lia].
      rewrite decide_True by done. split; [done|constructor].
    + set (n := next_len s pq) in *.
      destruct (make_and_send_pkt_run s pq Hok Hpq) as (p & Ep & Hp). fold n in Ep, Hp.
      assert (no_syn_in_flight s pq) as Hf.
      { apply unsent_no_syn. intros E. rewrite E in Hn. cbn in Hn. lia. }
      destruct (unsent_after_packet s pq n Hok Hpq Hf) as [Hu' _]; [lia|].
      destruct (IH (after_packet s n)) as (evs & Eloop & Hsent);
        [by apply after_packet_ok|done|done|rewrite Hu', length_drop; lia|].
      exists (EvEnqueue p :: evs). split.
      * rewrite (bind_run_Ok _ _ _ _ _ _ _ _ _ Ep Eloop). cbn [app]. do 3 f_equal.
        unfold after_loop. rewrite Hu'. cbn [next_state_ after_packet set_state upd_send].
        rewrite (decide_False (P := unsent s pq = [])) by (intros E; rewrite E in Hn; cbn in Hn; lia).
        assert (∀ k, u32 (u32 (seq_nr_next (send_ s) + n) + k) =
          u32 (seq_nr_next (send_ s) + (n + k))) as Ek by (intros; ulia).
        case_decide as Hd.
        -- assert (n = len (unsent s pq)) as En.
           { apply (f_equal length) in Hd. rewrite length_drop in Hd. cbn [length] in Hd. lia. }
           unfold after_packet. by rewrite <- En.
        -- unfold after_packet, set_state, upd_send. cbn. rewrite Ek.
           assert (n + len (drop (Z.to_nat n) (unsent s pq)) = len (unsent s pq)) as ->
             by (rewrite length_drop; lia).
           done.
      * rewrite <- (take_drop (Z.to_nat n) (unsent s pq)).
        assert (len (take (Z.to_nat n) (unsent s pq)) = n) as Ln by (rewrite length_take; lia).
        apply sent_segment.
        -- intros E. rewrite E in Ln. cbn in Ln. lia.
        -- rewrite Ln. unfold n, next_len. lia.
        -- rewrite Ln. unfold n, next_len.
           destruct (decide (send_mss (send_ s) ≤ len (unsent s pq))); [right; lia|left].
           apply drop_ge. lia.
        -- rewrite Ln. by destruct s as [? ? ? ? ? ? [] []].
        -- rewrite Ln, <- Hu'. eapply sent_ext; [exact Hsent|done..].
Qed.

(** *** Acknowledgments *)

(** The queue and [seq_nr_unack] after an acknowledgment. *)
Definition after_ack s (pq : B) (ack : Z) : tcb_t B :=
  let una := seq_nr_unack (send_ s) in
  let nxt := seq_nr_next (send_ s) in
  upd_send (set_unack (if ack <? una then una else if nxt <? ack then nxt else ack))
    (upd_send (set_send_pq (cb_erase_begin (Z.min (cb_size pq) (u32 (ack - una))) pq)) s).

(** The state changes of FIN-WAIT-1 and CLOSING. *)
Definition ack_next_state s : tcb_t B :=
  match state_ s with
  | kTCPFinWait_1 => set_next_state kTCPFinWait_2 s
  | kTCPClosing => set_next_state kTCPTimeWait s
  | _ => s
  end.

Lemma ack_next_state_eq s :
  (let s1 := if bool_decide (state_ s = kTCPFinWait_1) then set_next_state kTCPFinWait_2 s else s in
   if bool_decide (state_ s1 = kTCPClosing) then set_next_state kTCPTimeWait s1 else s1) =
  ack_next_state s.
Proof. destruct s as [? ? st ? ? ? ? ?]. by destruct st. Qed.

Lemma process_ack_established_run s pq tcph :
  send_pq (send_ s) = Some pq →
  seq_nr_unack (send_ s) ≤ seq_nr_next (send_ s) →
  ack_no tcph ≤ seq_nr_next (send_ s) →
  process_ack_established tcph s = Ok (false, ack_next_state (after_ack s pq (ack_no tcph)), []).
Proof.
  intros Hpq Hle Hack. unfold process_ack_established. run.
  rewrite (bind_lift_Ok _ pq) by (by rewrite Hpq). cbv zeta. run.
  set (s1 := upd_send _ s).
  rewrite (bind_lift_Ok _ _ _ _ (clamp_Ok _ _ _ Hle)).
  run. replace (seq_nr_next (send_ s) <? ack_no tcph) with false by lia. run.
  unfold mret, M_ret, after_ack. do 3 f_equal.
  replace (seq_nr_next (send_ s) <? ack_no tcph) with false by lia.
  apply ack_next_state_eq.
Qed.
Lemma process_ack_run s pq tcph :
  state_ s = kTCPEstablished → ACK tcph = 1 → send_pq (send_ s) = Some pq →
  seq_nr_unack (send_ s) ≤ seq_nr_next (send_ s) → ack_no tcph ≤ seq_nr_next (send_ s) →
  process_ack tcph s = Ok (false, after_ack s pq (ack_no tcph), []).
Proof.
  intros Hst HA Hpq Hle Hack. unfold process_ack. run. rewrite HA, Hst. cbn [bit Z.eqb negb].
  rewrite (process_ack_established_run s pq) by done.
  unfold ack_next_state. cbn [after_ack upd_send state_]. by rewrite Hst.
Qed.

Lemma process_ack_established_future s pq tcph :
  tcb_ok s → send_pq (send_ s) = Some pq →
  seq_nr_unack (send_ s) ≤ seq_nr_next (send_ s) →
  seq_nr_next (send_ s) < ack_no tcph →
  process_ack_established tcph s =
    match make_and_send_pkt (after_ack s pq (ack_no tcph)) with
    | Ok (_, s', es) => Ok (true, s', es)
    | Fault f => Fault f
    end.
Proof.
  intros Hok Hpq Hle Hack. unfold process_ack_established. run.
  rewrite (bind_lift_Ok _ pq) by (by rewrite Hpq). cbv zeta. run.
  rewrite (bind_lift_Ok _ _ _ _ (clamp_Ok _ _ _ Hle)).
  run. replace (seq_nr_next (send_ s) <? ack_no tcph) with true by lia.
  unfold after_ack. replace (seq_nr_next (send_ s) <? ack_no tcph) with true by lia.
  unfold mbind, M_bind. destruct (make_and_send_pkt _) as [[[[] s'] es]|f]; [|done].
  unfold mret, M_ret. by rewrite app_nil_r.
Qed.

Lemma erase_range s pq ack : 0 ≤ Z.min (cb_size pq) (u32 (ack - seq_nr_unack (send_ s))) ≤ cb_size pq.
Proof.
  pose proof (u32_is_u (ack - seq_nr_unack (send_ s))). unfold is_u, cb_size in *. lia.
Qed.

Lemma after_ack_ok s pq ack :
  tcb_ok s → send_pq (send_ s) = Some pq → is_u 32 ack → tcb_ok (after_ack s pq ack).
Proof.
  intros (Hr & Hl & (Hu & Hn & Hw & Hm & Hcap) & Hrcv) Hpq Ha. rewrite Hpq in Hcap.
  unfold tcb_ok, send_ok; cbn -[is_u]. split_and!; try done.
  - by repeat case_match.
  - rewrite cb_erase_begin_capacity; [done|apply erase_range].
Qed.

(** C17: the sending loop posted by [enqueue_app_data] terminates, sends the
    whole unsent part of the queue and nothing else: the segments it emits
    concatenate to it, each is at most the peer's MSS (all but the last
    exactly), and they carry consecutive sequence numbers from
    [seq_nr_next], which ends past the last byte. *)
Theorem drain_sends_unsent s pq calls :
  tcb_ok s → send_pq (send_ s) = Some pq → 0 < send_mss (send_ s) →
  ∃ evs, run_task TaskDrain calls s = Ok ((), after_loop s pq, evs) ∧
         sent s (seq_nr_next (send_ s)) (unsent s pq) evs ∧
         has_app_data_to_send (after_loop s pq) = Ok false.
Proof.
  intros Hok Hpq Hm. cbn [run_task]. rewrite bind_get.
  destruct (send_loop_run (send_fuel s) s pq Hok Hpq Hm) as (evs & E & Hsent).
  { unfold send_fuel. rewrite Hpq. unfold unsent. rewrite length_drop. lia. }
  exists evs. split_and!; [done|done|].
  pose proof (next_len_range s pq Hok).
  assert (∀ s', tcb_ok s' → send_pq (send_ s') = Some pq → unsent s' pq = [] →
    has_app_data_to_send s' = Ok false) as Hdone.
  { intros s' Hok' Hpq' Hu. unfold has_app_data_to_send.
    rewrite (app_data_to_send_left_eq s' pq) by done. cbn. unfold next_len. rewrite Hu.
    destruct Hok' as (_ & _ & (_ & _ & _ & Hm' & _) & _). unfold is_u in Hm'.
    by rewrite Z.min_r by (cbn; lia). }
  unfold after_loop. case_decide as Hu; [by apply Hdone|].
  destruct (unsent_after_packet s pq (len (unsent s pq)) Hok Hpq (unsent_no_syn _ _ Hu))
    as [Hu' _]; [lia|].
  apply Hdone; [by apply after_packet_ok|done|].
  change (unsent (after_packet s (len (unsent s pq))) pq = []).
  rewrite Hu'. apply drop_ge. lia.
Qed.

(** A valid acknowledgment, on the state. *)
Lemma after_ack_valid s pq ack :
  tcb_ok s → send_pq (send_ s) = Some pq → no_syn_in_flight s pq →
  seq_nr_unack (send_ s) ≤ ack ≤ seq_nr_next (send_ s) →
  ∃ pq', let s' := after_ack s pq ack in
    send_pq (send_ s') = Some pq' ∧
    cb_list pq' = drop (Z.to_nat (ack - seq_nr_unack (send_ s))) (cb_list pq) ∧
    seq_nr_unack (send_ s') = ack ∧ unsent s' pq' = unsent s pq ∧ no_syn_in_flight s' pq'.
Proof.
  intros Hok Hpq Hf [H1 H2].
  destruct Hok as (_ & _ & (Hu & Hn & _) & _).
  exists (cb_erase_begin (Z.min (cb_size pq) (u32 (ack - seq_nr_unack (send_ s)))) pq).
  unfold no_syn_in_flight in Hf. cbv zeta.
  assert (u32 (ack - seq_nr_unack (send_ s)) = ack - seq_nr_unack (send_ s)) as E by ulia.
  assert (u32 (seq_nr_next (send_ s) - seq_nr_unack (send_ s)) =
    seq_nr_next (send_ s) - seq_nr_unack (send_ s)) as E' by ulia.
  pose proof (erase_range s pq ack) as Hr.
  pose proof (cb_erase_begin_list _ _ Hr) as El. rewrite E in *.
  rewrite Z.min_r in * by lia.
  assert (seq_nr_unack (send_ (after_ack s pq ack)) = ack) as Eu.
  { cbn. replace (ack <? seq_nr_unack (send_ s)) with false by lia.
    by replace (seq_nr_next (send_ s) <? ack) with false by lia. }
  split_and!; [|done|done|..].
  - cbn. by rewrite E, Z.min_r by lia.
  - unfold unsent, unacked, cb_size in *. rewrite El, Eu, length_drop, drop_drop.
    change (seq_nr_next (send_ (after_ack s pq ack))) with (seq_nr_next (send_ s)).
    replace (u32 (seq_nr_next (send_ s) - ack)) with (seq_nr_next (send_ s) - ack) by ulia.
    rewrite E'. f_equal. lia.
  - unfold no_syn_in_flight, cb_size in *. rewrite El, Eu, length_drop.
    change (seq_nr_next (send_ (after_ack s pq ack))) with (seq_nr_next (send_ s)). ulia.
Qed.

(** C20: an acknowledgment in [SND.UNA, SND.NXT] (away from the wrap of
    sequence numbers) removes exactly the acknowledged bytes from the front
    of the queue, advances [seq_nr_unack] to it, and leaves the unsent bytes
    as they were. *)
Theorem valid_ack_removes_acked s pq tcph :
  tcb_ok s → send_pq (send_ s) = Some pq → no_syn_in_flight s pq →
  state_ s = kTCPEstablished ∨ state_ s = kTCPCloseWait →
  bit (ACK tcph) = true →
  seq_nr_unack (send_ s) ≤ ack_no tcph ≤ seq_nr_next (send_ s) →
  ∃ s' pq', process_ack tcph s = Ok (false, s', []) ∧ send_pq (send_ s') = Some pq' ∧
    cb_list pq' = drop (Z.to_nat (ack_no tcph - seq_nr_unack (send_ s))) (cb_list pq) ∧
    seq_nr_unack (send_ s') = ack_no tcph ∧
    seq_nr_next (send_ s') = seq_nr_next (send_ s) ∧
    unsent s' pq' = unsent s pq ∧ no_syn_in_flight s' pq' ∧
    state_ s' = state_ s ∧ next_state_ s' = next_state_ s ∧ rcv_ s' = rcv_ s.
Proof.
  intros Hok Hpq Hf Hst Hbit Hack.
  destruct (after_ack_valid s pq (ack_no tcph) Hok Hpq Hf Hack) as (pq' & Hpq' & El & Eu & Es & Hf').
  exists (after_ack s pq (ack_no tcph)), pq'. split_and!; try done.
  unfold process_ack. run. rewrite Hbit.
  destruct Hst as [Hst|Hst]; rewrite Hst;
    rewrite (process_ack_established_run s pq) by (done || lia);
    do 3 f_equal; unfold ack_next_state; cbn [after_ack upd_send state_]; by rewrite Hst.
Qed.

(** An old duplicate acknowledgment, which the comment in the source
    says can be ignored, empties the send queue: [ack_no - seq_nr_unack]
    wraps to a huge count, and every byte that was not yet acknowledged, or
    not even sent, is dropped. *)
Theorem stale_ack_flushes_queue s pq tcph :
  tcb_ok s → send_pq (send_ s) = Some pq → state_ s = kTCPEstablished →
  bit (ACK tcph) = true → 0 ≤ ack_no tcph < seq_nr_unack (send_ s) →
  seq_nr_unack (send_ s) - ack_no tcph ≤ 2 ^ 32 - 65535 →
  seq_nr_unack (send_ s) ≤ seq_nr_next (send_ s) →
  ∃ s' pq', process_ack tcph s = Ok (false, s', []) ∧ send_pq (send_ s') = Some pq' ∧
    cb_list pq' = [] ∧ seq_nr_unack (send_ s') = seq_nr_unack (send_ s) ∧
    seq_nr_next (send_ s') = seq_nr_next (send_ s).
Proof.
  intros Hok Hpq Hst Hbit Hack Hold Hle.
  pose proof (send_capacity _ _ Hok Hpq) as Hcap.
  destruct Hok as (_ & _ & (Hu & Hn & _) & _).
  assert (Z.min (cb_size pq) (u32 (ack_no tcph - seq_nr_unack (send_ s))) = cb_size pq) as E by ulia.
  pose proof (erase_range s pq (ack_no tcph)) as Hr.
  exists (after_ack s pq (ack_no tcph)), (cb_erase_begin (cb_size pq) pq). split_and!.
  - unfold process_ack. run. rewrite Hbit, Hst.
    rewrite (process_ack_established_run s pq) by (done || lia).
    unfold ack_next_state. cbn [after_ack upd_send state_]. by rewrite Hst.
  - cbn. by rewrite E.
  - rewrite E in Hr. rewrite cb_erase_begin_list by done. apply drop_ge. unfold cb_size. lia.
  - cbn. by replace (ack_no tcph <? seq_nr_unack (send_ s)) with true by lia.
  - done.
Qed.

(** An acknowledgment of data that was never sent, for which the comment
    in the source asks only that an ACK be sent and the segment dropped, also
    erases the queue before the check: when it lies beyond the end of the
    queue, all unsent bytes are lost.  The ACK is sent, with the unchanged
    [SND.NXT], and the handler returns. *)
Theorem future_ack_discards_unsent s pq tcph :
  tcb_ok s → send_pq (send_ s) = Some pq → state_ s = kTCPEstablished →
  bit (ACK tcph) = true → is_u 32 (ack_no tcph) →
  seq_nr_unack (send_ s) ≤ seq_nr_next (send_ s) < ack_no tcph →
  cb_size pq ≤ ack_no tcph - seq_nr_unack (send_ s) →
  ∃ s' pq' p, process_ack tcph s = Ok (true, s', [EvEnqueue p]) ∧
    send_pq (send_ s') = Some pq' ∧ cb_list pq' = [] ∧
    seq_nr_unack (send_ s') = seq_nr_next (send_ s) ∧
    seq_nr_next (send_ s') = seq_nr_next (send_ s) ∧
    payload (tp_skb p) = tcp_header.produce_to_net
      (out_header (upd_send (set_unack (seq_nr_next (send_ s))) s) 0).
Proof.
  intros Hok Hpq Hst Hbit Hack [Hle Hfut] Hbeyond.
  pose proof (send_capacity _ _ Hok Hpq) as Hcap.
  pose proof (after_ack_ok s pq (ack_no tcph) Hok Hpq Hack) as Hok'.
  pose proof (erase_range s pq (ack_no tcph)) as Hr.
  assert (Z.min (cb_size pq) (u32 (ack_no tcph - seq_nr_unack (send_ s))) = cb_size pq) as E.
  { destruct Hok as (_ & _ & (Hu & Hn & _) & _). ulia. }
  rewrite E in Hr.
  set (pq' := cb_erase_begin (cb_size pq) pq).
  assert (cb_list pq' = []) as El.
  { subst pq'. rewrite cb_erase_begin_list by done. apply drop_ge. unfold cb_size. lia. }
  set (s1 := after_ack s pq (ack_no tcph)).
  assert (send_pq (send_ s1) = Some pq') as Hpq' by (cbn; by rewrite E).
  assert (unsent s1 pq' = []) as Hu by (unfold unsent; by rewrite El, drop_nil).
  assert (next_len s1 pq' = 0) as Hn0.
  { pose proof (next_len_range s1 pq' Hok') as Hn. rewrite Hu in Hn. cbn in Hn. lia. }
  destruct (make_and_send_pkt_run s1 pq' Hok' Hpq') as (p & Ep & Hp).
  rewrite Hn0, Hu in *.
  exists (after_packet s1 0), pq', p. split_and!; [| |done| | |].
  - unfold process_ack. run. rewrite Hbit, Hst.
    rewrite (process_ack_established_future s pq) by (done || lia).
    fold s1. by rewrite Ep.
  - done.
  - cbn. replace (ack_no tcph <? seq_nr_unack (send_ s)) with false by lia.
    by replace (seq_nr_next (send_ s) <? ack_no tcph) with true by lia.
  - cbn. destruct Hok as (_ & _ & (_ & Hn & _) & _). rewrite Z.add_0_r. by apply u32_small.
  - destruct Hp as (_ & _ & _ & _ & _ & ->). rewrite take_nil, app_nil_r. f_equal.
    unfold out_header. cbn.
    replace (ack_no tcph <? seq_nr_unack (send_ s)) with false by lia.
    by replace (seq_nr_next (send_ s) <? ack_no tcph) with true by lia.
Qed.

(** Once [seq_nr_next] has wrapped past zero and [seq_nr_unack] has not,
    any acknowledgment in ESTABLISHED calls [std::clamp] with its bounds in
    the wrong order, which is undefined. *)
Theorem wrapped_next_inverts_clamp s pq tcph :
  send_pq (send_ s) = Some pq → state_ s = kTCPEstablished →
  bit (ACK tcph) = true → seq_nr_next (send_ s) < seq_nr_unack (send_ s) →
  process_ack tcph s = Fault ClampInverted.
Proof.
  intros Hpq Hst Hbit Hinv. unfold process_ack. run. rewrite Hbit, Hst.
  unfold process_ack_established. run.
  rewrite (bind_lift_Ok _ pq) by (by rewrite Hpq). cbv zeta. run.
  apply bind_lift_Fault. unfold clamp.
  by replace (seq_nr_next (send_ s) <? seq_nr_unack (send_ s)) with true by lia.
Qed.

(** A write that fits. *)
Lemma async_write_run s pq buf cb :
  tcb_ok s → send_pq (send_ s) = Some pq → cb_size pq + len buf ≤ cb_capacity pq →
  let pq' := cb_insert_end buf pq in
  let s' := upd_send (set_send_pq pq') s in
  async_write buf cb s = Ok ((), s', [EvPost TaskDrain; EvPost (TaskWriteDone cb (len buf))]) ∧
  cb_list pq' = cb_list pq ++ buf ∧ tcb_ok s' ∧
  (no_syn_in_flight s pq → unsent s' pq' = unsent s pq ++ buf ∧ no_syn_in_flight s' pq').
Proof.
  intros (Hr & Hl & (Hu & Hn & Hw & Hm & Hcap) & Hrcv) Hpq Hfit. rewrite Hpq in Hcap.
  split_and!.
  - apply (bind_run_Ok _ _ _ () (upd_send (set_send_pq (cb_insert_end buf pq)) s)
      [EvPost TaskDrain]); [|done].
    unfold enqueue_app_data. run. rewrite (bind_lift_Ok _ pq) by (by rewrite Hpq).
    rewrite bind_assert by lia. by run.
  - by apply cb_insert_end_list.
  - unfold tcb_ok, send_ok; cbn -[is_u]. split_and!; try done.
    by rewrite cb_insert_end_capacity.
  - intros Hf. unfold unsent, unacked, no_syn_in_flight, cb_size in *. cbn.
    rewrite cb_insert_end_list, length_app by done. split; [|lia].
    rewrite drop_app_le by lia. do 2 f_equal. lia.
Qed.

(** C33: [async_write] either queues the whole buffer behind what is already
    unsent and posts the sending loop and the completion, in this order, or,
    when it does not fit the capacity (the window the peer announced in its
    SYN), aborts; before the handshake there is no queue to write to. *)
Theorem async_write_spec s buf cb :
  tcb_ok s →
  match send_pq (send_ s) with
  | None => async_write buf cb s = Fault NullDeref
  | Some pq =>
      if decide (cb_size pq + len buf ≤ send_window (send_ s)) then
        ∃ s' pq', async_write buf cb s =
            Ok ((), s', [EvPost TaskDrain; EvPost (TaskWriteDone cb (len buf))]) ∧
          s' = upd_send (set_send_pq pq') s ∧ cb_list pq' = cb_list pq ++ buf ∧ tcb_ok s' ∧
          (no_syn_in_flight s pq → unsent s' pq' = unsent s pq ++ buf ∧ no_syn_in_flight s' pq')
      else async_write buf cb s = Fault AssertFail
  end.
Proof.
  intros Hok. pose proof Hok as (_ & _ & (_ & _ & _ & _ & Hcap) & _).
  destruct (send_pq (send_ s)) as [pq|] eqn:Hpq.
  2: { unfold async_write, enqueue_app_data. apply bind_fault. run. apply bind_lift_Fault.
       by rewrite Hpq. }
  case_decide as Hfit; rewrite <- Hcap in Hfit.
  - destruct (async_write_run s pq buf cb Hok Hpq Hfit) as (E & El & Hok' & Hun).
    do 2 eexists. by split_and!.
  - unfold async_write, enqueue_app_data. apply bind_fault. run.
    rewrite (bind_lift_Ok _ pq) by (by rewrite Hpq). apply bind_lift_Fault.
    by replace (cb_capacity pq <? cb_size pq + len buf) with true by lia.
Qed.
End Send.

(** ** A concrete connection *)

Definition test_ep (a p : Z) : endpoint := mk_endpoint (Ipv4 a) p.

(** An established connection with the given numbers and send queue. *)
Definition test_tcb (una nxt mss_ : Z) (queue : list byte) : tcb_t reserve_buffer :=
  mk_tcb (test_ep 167772161 4096) (test_ep 167772162 80) kTCPEstablished kTCPEstablished 0 []
    (mk_send una nxt 100 mss_ (Some (mk_reserve queue (100 - length queue))))
    (mk_receive 5000 rcv_window_init 1446 (cb_make rcv_window_init)).

Definition test_header (seq ack_ : Z) (flags : list Z) : tcp_header_t :=
  let f i := default 0 (flags !! i) in
  mk_tcp_header 4096 80 seq ack_ 5 0 0 0 0 (f 0%nat) 0 (f 1%nat) (f 2%nat) (f 3%nat) 1000 0 0.

Ltac test_ok :=
  unfold tcb_ok, send_ok, rcv_ok, endpoint_ok, ipv4_ok, is_u, rcv_window_init; split_and!;
  first [reflexivity | (cbn; lia) | (vm_compute; done)].

Lemma drain_sends_unsent_witness :
  let H := test_host Little in
  let s := test_tcb 100 101 2 [Byte.x01; Byte.x02; Byte.x03; Byte.x04] in
  let pq := mk_reserve [Byte.x01; Byte.x02; Byte.x03; Byte.x04] 96 in
  ∃ evs, run_task TaskDrain [] s = Ok ((), after_loop s pq, evs) ∧
         sent s 101 (unsent s pq) evs ∧ has_app_data_to_send (after_loop s pq) = Ok false.
Proof.
  apply (drain_sends_unsent (Hh := test_host Little)
    (test_tcb 100 101 2 [Byte.x01; Byte.x02; Byte.x03; Byte.x04])
    (mk_reserve [Byte.x01; Byte.x02; Byte.x03; Byte.x04] 96) []).
  - test_ok.
  - reflexivity.
  - reflexivity.
Defined.

Lemma valid_ack_removes_acked_witness :
  let H := test_host Little in
  let s := test_tcb 100 103 2 [Byte.x01; Byte.x02; Byte.x03; Byte.x04] in
  let pq := mk_reserve [Byte.x01; Byte.x02; Byte.x03; Byte.x04] 96 in
  ∃ s' pq', process_ack (test_header 5000 102 [1]) s = Ok (false, s', []) ∧
    send_pq (send_ s') = Some pq' ∧
    cb_list pq' = drop (Z.to_nat (102 - 100)) (cb_list pq) ∧
    seq_nr_unack (send_ s') = 102 ∧ seq_nr_next (send_ s') = 103 ∧
    unsent s' pq' = unsent s pq ∧ no_syn_in_flight s' pq' ∧
    state_ s' = kTCPEstablished ∧ next_state_ s' = kTCPEstablished ∧ rcv_ s' = rcv_ s.
Proof.
  apply (valid_ack_removes_acked (Hh := test_host Little)
    (test_tcb 100 103 2 [Byte.x01; Byte.x02; Byte.x03; Byte.x04])
    (mk_reserve [Byte.x01; Byte.x02; Byte.x03; Byte.x04] 96) (test_header 5000 102 [1])).
  - test_ok.
  - reflexivity.
  - unfold no_syn_in_flight. vm_compute. discriminate.
  - left; reflexivity.
  - reflexivity.
  - cbn; lia.
Defined.

Lemma stale_ack_flushes_queue_witness :
  let H := test_host Little in
  let s := test_tcb 100000 100001 2 [Byte.x01; Byte.x02; Byte.x03] in
  ∃ s' pq', process_ack (test_header 5000 99999 [1]) s = Ok (false, s', []) ∧
    send_pq (send_ s') = Some pq' ∧ cb_list pq' = [] ∧
    seq_nr_unack (send_ s') = 100000 ∧ seq_nr_next (send_ s') = 100001.
Proof.
  apply (stale_ack_flushes_queue (Hh := test_host Little)
    (test_tcb 100000 100001 2 [Byte.x01; Byte.x02; Byte.x03])
    (mk_reserve [Byte.x01; Byte.x02; Byte.x03] 97) (test_header 5000 99999 [1])).
  - test_ok.
  - reflexivity.
  - reflexivity.
  - reflexivity.
  - cbn; lia.
  - cbn; lia.
  - cbn; lia.
Defined.

Lemma future_ack_discards_unsent_witness :
  let H := test_host Little in
  let s := test_tcb 100 101 2 [Byte.x01; Byte.x02; Byte.x03] in
  ∃ s' pq' p, process_ack (test_header 5000 500 [1]) s = Ok (true, s', [EvEnqueue p]) ∧
    send_pq (send_ s') = Some pq' ∧ cb_list pq' = [] ∧
    seq_nr_unack (send_ s') = 101 ∧ seq_nr_next (send_ s') = 101 ∧
    payload (tp_skb p) = tcp_header.produce_to_net (out_header (upd_send (set_unack 101) s) 0).
Proof.
  apply (future_ack_discards_unsent (Hh := test_host Little)
    (test_tcb 100 101 2 [Byte.x01; Byte.x02; Byte.x03])
    (mk_reserve [Byte.x01; Byte.x02; Byte.x03] 97) (test_header 5000 500 [1])).
  - test_ok.
  - reflexivity.
  - reflexivity.
  - reflexivity.
  - unfold is_u; cbn; lia.
  - cbn; lia.
  - vm_compute; discriminate.
Defined.

Lemma wrapped_next_inverts_clamp_witness :
  let H := test_host Little in
  process_ack (test_header 5000 3 [1]) (test_tcb 4294967295 2 2 []) = Fault ClampInverted.
Proof.
  apply (wrapped_next_inverts_clamp (Hh := test_host Little)
    (test_tcb 4294967295 2 2 []) (mk_reserve [] 100) (test_header 5000 3 [1]));
    [reflexivity|reflexivity|reflexivity|cbn; lia].
Defined.

Lemma async_write_spec_witness :
  let H := test_host Little in
  let s := test_tcb 100 101 2 (replicate 60 Byte.x07) in
  async_write (replicate 41 Byte.x00) 3 s = Fault AssertFail.
Proof.
  assert (tcb_ok (test_tcb 100 101 2 (replicate 60 Byte.x07))) as Hok by test_ok.
  pose proof (async_write_spec (test_tcb 100 101 2 (replicate 60 Byte.x07))
    (replicate 41 Byte.x00) 3 Hok) as P.
  cbn [test_tcb send_ send_pq] in P.
  rewrite decide_False in P by (vm_compute; intros E; by apply E). exact P.
Defined.
