(* ===== verification/TcbRecv.v ===== *)
(** * The receiving side of a connection

    [rcv_next] is the sequence number of the first byte the application has
    not read; the bytes behind it that have arrived are in the receive queue.
    The properties: how a segment's bytes are parsed, which sequence numbers
    are accepted, that in-sequence text reaches the application unchanged and
    in order, and an end-to-end transfer between two blocks. *)

From S2P Require Import Prelude Utils Skbuff Addr Headers TcpOptions CircularBuffer Tcb TcbFacts.
From S2P Require Import TcbSend.

(** ** Parsing *)

Section Parse.
Context `{Hh : Host}.

(** Any twenty bytes are a TCP header. *)
Lemma tcp_consume_total ptr :
  tcp_header.fixed_size ≤ len ptr →
  ∃ h, tcp_header.consume_from_net ptr = Ok (h, drop 20 ptr) ∧ is_u 4 (data_offset h).
Proof.
  change tcp_header.fixed_size with 20. intros Hl. unfold tcp_header.consume_from_net.
  do 8 (erewrite parser_bind_Ok by (apply consume_from_net_be; rewrite ?length_drop; lia)).
  cbv zeta. unfold mret, parser_ret.
  eexists. split; [rewrite !drop_drop; reflexivity|]. cbn [data_offset].
  unfold is_u. change 15 with (Z.ones 4). rewrite Z.land_ones by lia.
  apply Z.mod_pos_bound. lia.
Qed.

(** Parsing in terms of the payload and the data offset. *)
Lemma parse_segment_run skb h rest :
  skb_wf skb → len (payload skb) < 2 ^ 63 →
  tcp_header.consume_from_net (head skb) = Ok (h, rest) → is_u 4 (data_offset h) →
  let hlen := 4 * data_offset h in
  parse_segment skb =
    (if len (payload skb) <? tcp_header.fixed_size then Fault AssertFail
     else if (hlen <? 20) || (len (payload skb) <? hlen) then Fault OutOfBounds
     else Ok (h, take (Z.to_nat (hlen - 20)) (drop 20 (payload skb)),
              drop (Z.to_nat hlen) (payload skb))).
Proof.
  intros Hw Hmem Hc Hd hlen. unfold parse_segment. change tcp_header.fixed_size with 20.
  destruct (Z.ltb_spec (len (payload skb)) 20) as [|Hl]; [done|].
  cbn [negb assert_ mbind result_bind]. rewrite Hc. cbn [mbind result_bind].
  rewrite Z.shiftl_mul_pow2 by lia. change (2 ^ 2) with 4.
  assert (data_offset h * 4 = hlen) as -> by lia.
  assert (u64 (hlen - u64 (hlen - 20)) = 20) as -> by (unfold is_u in Hd; ulia).
  destruct (pop_front_total 20 skb Hw) as [skb1 E1]; [lia|].
  destruct (pop_front_Ok 20 skb skb1 Hw ltac:(lia) E1) as (Hw1 & Hp1 & _).
  rewrite E1. cbn [mbind result_bind].
  assert (len (payload skb1) = len (payload skb) - 20) as L1 by (rewrite Hp1, length_drop; lia).
  pose proof (Z.mod_pos_bound (hlen - 20) (2 ^ 64) ltac:(lia)) as Hopt. fold (u64 (hlen - 20)) in Hopt.
  unfold subspan. rewrite L1. unfold is_u in Hd.
  destruct (Z.ltb_spec hlen 20) as [Hsmall|Hok]; cbn [orb].
  - replace ((0 <=? 0) && (0 <=? u64 (hlen - 20)) &&
      (0 + u64 (hlen - 20) <=? len (payload skb) - 20)) with false; [done|].
    assert (u64 (hlen - 20) = hlen - 20 + 2 ^ 64) as -> by (clear - Hsmall Hd; subst hlen; ulia).
    lia.
  - assert (u64 (hlen - 20) = hlen - 20) as -> by (clear - Hok Hd; subst hlen; ulia).
    destruct (Z.ltb_spec (len (payload skb)) hlen) as [Hshort|Hfit].
    + replace ((0 <=? 0) && (0 <=? hlen - 20) &&
        (0 + (hlen - 20) <=? len (payload skb) - 20)) with false by lia. done.
    + replace ((0 <=? 0) && (0 <=? hlen - 20) &&
        (0 + (hlen - 20) <=? len (payload skb) - 20)) with true by lia.
      destruct (pop_front_total (hlen - 20) skb1 Hw1) as [skb2 E2]; [lia|].
      destruct (pop_front_Ok (hlen - 20) skb1 skb2 Hw1 ltac:(lia) E2) as (_ & Hp2 & _).
      cbn [mbind result_bind]. rewrite E2. cbn [mbind result_bind].
      rewrite Hp2, Hp1, !drop_drop.
      by replace (Z.to_nat 20 + Z.to_nat (hlen - 20))%nat with (Z.to_nat hlen) by lia.
Qed.

(** C30: [process] takes a packet apart exactly when it is well formed: a
    packet shorter than a TCP header aborts; a data offset below five words
    or beyond the end of the packet is an out-of-range [subspan]; any other
    packet is split into header, options and text, which together are the
    whole payload. *)
Theorem parse_segment_spec skb :
  skb_wf skb → len (payload skb) < 2 ^ 63 →
  (len (payload skb) < 20 → parse_segment skb = Fault AssertFail) ∧
  (20 ≤ len (payload skb) →
   ∃ h, tcp_header.consume_from_net (head skb) = Ok (h, drop 20 (head skb)) ∧
     let hlen := 4 * data_offset h in
     if decide (20 ≤ hlen ≤ len (payload skb)) then
       ∃ opts text, parse_segment skb = Ok (h, opts, text) ∧ len opts = hlen - 20 ∧
         payload skb = take 20 (payload skb) ++ opts ++ text
     else parse_segment skb = Fault OutOfBounds).
Proof.
  intros Hw Hmem. split.
  - intros Hl. unfold parse_segment. change tcp_header.fixed_size with 20.
    by replace (len (payload skb) <? 20) with true by lia.
  - intros Hl. destruct (tcp_consume_total (head skb)) as (h & Ec & Hd).
    { rewrite head_payload, length_app by done. change tcp_header.fixed_size with 20. lia. }
    exists h. split; [done|]. intros hlen. fold hlen.
    rewrite (parse_segment_run skb h _ Hw Hmem Ec Hd). fold hlen.
    change tcp_header.fixed_size with 20.
    replace (len (payload skb) <? 20) with false by lia. case_decide as Hdec.
    + replace ((hlen <? 20) || (len (payload skb) <? hlen)) with false by lia.
      do 2 eexists. split; [done|]. split; [rewrite length_take, length_drop; lia|].
      rewrite <- (take_drop 20 (payload skb)) at 1. f_equal.
      rewrite <- (take_drop (Z.to_nat (hlen - 20)) (drop 20 (payload skb))) at 1.
      f_equal. rewrite drop_drop. f_equal. lia.
    + by replace ((hlen <? 20) || (len (payload skb) <? hlen)) with true by lia.
Qed.

(** A packet the block builds is parsed into what it was built from. *)
Lemma parse_payload skb hdr opts text :
  skb_wf skb → payload skb = tcp_header.produce_to_net hdr ++ opts ++ text → tcp_header_ok hdr →
  4 * data_offset hdr = 20 + len opts → len opts + len text < 2 ^ 62 →
  parse_segment skb = Ok (hdr, opts, text).
Proof.
  intros Hw Hp Hok Hd Ht.
  assert (len (tcp_header.produce_to_net hdr) = 20) as Lh by apply (wire_length (Wire := tcp_wire)).
  assert (len (payload skb) = 20 + len opts + len text) as Lp
    by (rewrite Hp, !length_app; lia).
  erewrite parse_segment_run; [| done | lia | | ].
  2: { rewrite head_payload, Hp, <- app_assoc by done.
       exact (wire_roundtrip (Wire := tcp_wire) hdr _ Hok). }
  2: { destruct Hok as (_ & _ & _ & _ & (? & _) & _). done. }
  cbv zeta. rewrite Hd, Lp. change tcp_header.fixed_size with 20.
  replace (20 + len opts + len text <? 20) with false by lia.
  replace ((20 + len opts <? 20) || (20 + len opts + len text <? 20 + len opts)) with false by lia.
  rewrite Hp, drop_app_length' by lia. rewrite take_app_length' by lia. do 2 f_equal.
  rewrite app_assoc. rewrite drop_app_length'; [done|]. rewrite length_app. lia.
Qed.
Lemma parse_packet_opts {B} (s : tcb_t B) hdr opts text p :
  packet_of s hdr (opts ++ text) p → tcp_header_ok hdr → 4 * data_offset hdr = 20 + len opts →
  len opts + len text < 2 ^ 62 →
  parse_segment (tp_skb p) = Ok (hdr, opts, text).
Proof. intros (_ & _ & _ & Hw & _ & Hp). by apply parse_payload. Qed.

Lemma parse_packet {B} (s : tcb_t B) hdr text p :
  packet_of s hdr text p → tcp_header_ok hdr → data_offset hdr = 5 → len text < 2 ^ 62 →
  parse_segment (tp_skb p) = Ok (hdr, [], text).
Proof.
  intros Hp Hok Hd Ht. apply (parse_packet_opts s); [done|done|rewrite Hd; done|cbn [length]; lia].
Qed.
End Parse.

(** ** The sequence check *)

Section Check.
Context {B : Type} `{Hc : CircularBuffer B} `{!CircularBufferSpec B}.
Implicit Types s : tcb_t B.

(** The test of RFC 793 that the comment in [tcp_check_segment] quotes, for
    a window that is not zero, in arithmetic modulo [2^32]. *)
Definition rfc_acceptable (next wnd seq_ seglen : Z) : bool :=
  if seglen =? 0 then u32 (seq_ - next) <? wnd
  else (u32 (seq_ - next) <? wnd) || (u32 (seq_ + seglen - 1 - next) <? wnd).

Definition synchronized (st : tcp_state) : bool :=
  match st with
  | kTCPSynReceived | kTCPEstablished | kTCPFinWait_1 | kTCPFinWait_2
  | kTCPCloseWait | kTCPClosing | kTCPLastAck | kTCPTimeWait => true
  | _ => false
  end.

Lemma check_synchronized s tcph n :
  tcb_ok s → synchronized (state_ s) = true → 0 ≤ n →
  let next := rcv_next (rcv_ s) in
  tcp_check_segment s tcph n =
    (if n =? 0 then (next <=? seq_no tcph) && (seq_no tcph <? u32 (next + 64240))
     else ((next <=? seq_no tcph) && bit (u32 (next + 64240))) ||
          ((next <=? u32 (seq_no tcph + n - 1)) &&
           (u32 (seq_no tcph + n - 1) <? u32 (next + 64240)))).
Proof.
  intros (_ & _ & _ & (_ & Hw & _)) Hst Hn next. unfold tcp_check_segment.
  rewrite Hw. unfold rcv_window_init. fold next.
  assert ((0 <? n) = negb (n =? 0)) as -> by lia.
  destruct (n =? 0); destruct (state_ s); done.
Qed.

(** C32: away from the wrap of sequence numbers the check is the one of
    RFC 793 for segments without text; for segments with text it accepts
    all that the RFC accepts but, the comparison with the end of the window
    being incomplete, every segment that starts at or after [RCV.NXT] too,
    however far beyond the window. *)
Theorem check_segment_vs_rfc s tcph seglen :
  tcb_ok s → synchronized (state_ s) = true → tcp_header_ok tcph → is_u 16 seglen →
  rcv_next (rcv_ s) + 64240 < 2 ^ 32 →
  tcp_check_segment s tcph seglen =
    (if seglen =? 0 then rfc_acceptable (rcv_next (rcv_ s)) 64240 (seq_no tcph) seglen
     else (rcv_next (rcv_ s) <=? seq_no tcph) ||
          rfc_acceptable (rcv_next (rcv_ s)) 64240 (seq_no tcph) seglen).
Proof.
  intros Hok Hst Hh Hn Hwrap.
  pose proof Hok as (_ & _ & _ & (Hnext & _)). destruct Hh as (_ & _ & Hseq & _).
  rewrite check_synchronized by (done || unfold is_u in Hn; lia). cbv zeta.
  unfold rfc_acceptable. set (next := rcv_next (rcv_ s)) in *. set (q := seq_no tcph) in *.
  assert (u32 (next + 64240) = next + 64240) as -> by ulia.
  assert (bit (next + 64240) = true) as -> by (unfold bit; uwords; lia).
  destruct (Z.eqb_spec seglen 0) as [->|Hne]; [ulia|]. ulia.
Qed.

(** When the window reaches past [2^32], no segment without text is
    accepted whatever its sequence number: [RCV.NXT + RCV.WND] has wrapped
    below [RCV.NXT].  The block then ignores every pure acknowledgment. *)
Theorem wrapped_window_rejects_acks `{Hh : Host} s tcph :
  tcb_ok s → synchronized (state_ s) = true → tcp_header_ok tcph →
  2 ^ 32 ≤ rcv_next (rcv_ s) + 64240 →
  process_segment tcph [] s = Ok ((), s, []).
Proof.
  intros Hok Hst Hhd Hwrap. unfold process_segment. run. change (u16 (len [])) with 0.
  rewrite check_synchronized by done. cbv zeta.
  pose proof Hok as (_ & _ & _ & (Hnext & _)). destruct Hhd as (_ & _ & Hseq & _).
  assert (u32 (rcv_next (rcv_ s) + 64240) = rcv_next (rcv_ s) + 64240 - 2 ^ 32) as -> by ulia.
  replace (_ && _) with false by ulia. done.
Qed.
End Check.

(** ** Segment text *)

Section Receive.
Context `{Hh : Host} {B : Type} `{Hc : CircularBuffer B} `{Hs : !CircularBufferSpec B}.
Implicit Types s : tcb_t B.

(** In a synchronized state [process] comes straight to the sequence check. *)
Lemma process_parsed_synchronized isn tcph opts seg s :
  synchronized (state_ s) = true →
  process_parsed isn tcph opts seg s = process_segment tcph seg s.
Proof.
  intros Hst. unfold process_parsed.
  do 3 (run; rewrite bool_decide_eq_false_2 by (intros E; by rewrite E in Hst)).
  by run.
Qed.

(** The bytes that arrived and were not read. *)
Definition buffered s : list byte := cb_list (rcv_pq (rcv_ s)).

(** The queue of a block is never smaller than the window it announces. *)
Definition rcv_room s : Prop := rcv_window_init ≤ cb_capacity (rcv_pq (rcv_ s)).

Definition accepts_text (st : tcp_state) : bool :=
  match st with kTCPEstablished | kTCPFinWait_1 | kTCPFinWait_2 => true | _ => false end.

(** The queue with [seg] copied behind its elements, and the queue that
    holds just [rest]. *)
Definition append_text (seg : list byte) (pq : B) : B :=
  let pq := cb_resize (cb_size pq + len seg) pq in cb_copy_to (cb_size pq - len seg) seg pq.
Definition leftover (rest : list byte) (pq : B) : B :=
  cb_copy_to 0 rest (cb_resize (len rest) pq).

Lemma append_text_list seg pq : cb_list (append_text seg pq) = cb_list pq ++ seg.
Proof.
  unfold append_text. cbv zeta.
  assert (cb_list (cb_resize (cb_size pq + len seg) pq) =
    cb_list pq ++ replicate (length seg) Byte.x00) as El.
  { rewrite cb_resize_list by (unfold cb_size; lia). f_equal.
    - apply take_ge. unfold cb_size. lia.
    - f_equal. unfold cb_size. lia. }
  assert (cb_size (cb_resize (cb_size pq + len seg) pq) = cb_size pq + len seg) as Es.
  { unfold cb_size at 1. rewrite El, length_app, length_replicate. unfold cb_size. lia. }
  rewrite cb_copy_to_list by (rewrite ?Es; unfold cb_size; lia). rewrite Es, El.
  rewrite take_app_length' by (unfold cb_size; lia). f_equal.
  rewrite drop_ge; [apply app_nil_r|].
  rewrite length_app, length_replicate. unfold cb_size. lia.
Qed.

Lemma append_text_capacity seg pq : cb_capacity pq ≤ cb_capacity (append_text seg pq).
Proof.
  unfold append_text. rewrite cb_copy_to_capacity, cb_resize_capacity; unfold cb_size; lia.
Qed.

Lemma leftover_list rest pq : cb_list pq = [] → cb_list (leftover rest pq) = rest.
Proof.
  intros Hnil. unfold leftover.
  assert (cb_list (cb_resize (len rest) pq) = replicate (length rest) Byte.x00) as El.
  { rewrite cb_resize_list, Hnil by lia. rewrite take_nil. cbn [app]. f_equal.
    unfold cb_size. rewrite Hnil. cbn [length]. lia. }
  rewrite cb_copy_to_list; [|lia|unfold cb_size; rewrite El, length_replicate; lia].
  rewrite El. change (Z.to_nat 0) with 0%nat. rewrite take_0. cbn [app].
  rewrite drop_ge; [apply app_nil_r|]. rewrite length_replicate. lia.
Qed.

Lemma leftover_capacity rest pq : cb_capacity pq ≤ cb_capacity (leftover rest pq).
Proof. unfold leftover. rewrite cb_copy_to_capacity, cb_resize_capacity; lia. Qed.

Lemma cb_empty_nil (pq : B) : cb_empty pq = true → cb_list pq = [].
Proof.
  unfold cb_empty, cb_size. intros E%Z.eqb_eq. apply nil_length_inv. lia.
Qed.

(** The three outcomes of [receive_text] on text that is not old. *)
Lemma receive_text_old s tcph seg :
  seq_no tcph < rcv_next (rcv_ s) + cb_size (rcv_pq (rcv_ s)) →
  receive_text tcph seg s = Ok ((), s, []).
Proof.
  intros Hold. unfold receive_text. run.
  by replace (seq_no tcph <? rcv_next (rcv_ s) + cb_size (rcv_pq (rcv_ s))) with true by lia.
Qed.

Lemma receive_text_buffer s tcph seg :
  rcv_next (rcv_ s) + cb_size (rcv_pq (rcv_ s)) ≤ seq_no tcph →
  on_data_receive_ s = [] →
  cb_size (rcv_pq (rcv_ s)) + len seg ≤ cb_capacity (rcv_pq (rcv_ s)) →
  receive_text tcph seg s =
    Ok ((), upd_rcv (set_rcv_pq (append_text seg (rcv_pq (rcv_ s)))) s, []).
Proof.
  intros Hseq Hnone Hfit. unfold receive_text. run.
  replace (seq_no tcph <? rcv_next (rcv_ s) + cb_size (rcv_pq (rcv_ s))) with false by lia.
  cbn [negb]. rewrite Hnone, bind_assert by lia. done.
Qed.

(** The user's part of a segment, when a read of [sp] is waiting. *)
Definition filled (sp : span) (seg : list byte) : list byte := take (Z.to_nat (sp_size sp)) seg.

Lemma receive_text_deliver s tcph seg sp cb waiting :
  rcv_next (rcv_ s) ≤ seq_no tcph → cb_list (rcv_pq (rcv_ s)) = [] →
  on_data_receive_ s = (sp, cb) :: waiting → 0 ≤ sp_size sp →
  let part := filled sp seg in
  let rest := drop (Z.to_nat (sp_size sp)) seg in
  receive_text tcph seg s =
    Ok ((), upd_rcv (set_rcv_pq (leftover rest (rcv_pq (rcv_ s))))
              (upd_rcv (λ x, set_rcv_next (u32 (rcv_next x + len part)) x)
                 (set_on_data_receive waiting s)),
        [EvFill (sp_take (len part) sp) part; EvPost (TaskReadDone cb (len part))]).
Proof.
  intros Hseq Hnil Hwait Hsp part rest. unfold receive_text. run.
  unfold cb_empty, cb_size. rewrite Hnil. cbn [length]. change (Z.of_nat 0) with 0.
  replace (seq_no tcph <? rcv_next (rcv_ s) + 0) with false by lia.
  cbn [negb]. rewrite Hwait. run. cbn [sp_size sp_take].
  assert (len part = Z.min (len seg) (sp_size sp)) as Lp
    by (unfold part, filled; rewrite length_take; lia).
  assert (take (Z.to_nat (Z.min (len seg) (sp_size sp))) seg = part) as Et.
  { unfold part, filled. destruct (Z.min_spec (len seg) (sp_size sp)) as [[? ->]|[? ->]];
      [|done]. rewrite !take_ge by lia. done. }
  assert (drop (Z.to_nat (Z.min (len seg) (sp_size sp))) seg = rest) as Ed.
  { unfold rest. destruct (Z.min_spec (len seg) (sp_size sp)) as [[? ->]|[? ->]]; [|done].
    rewrite !drop_ge by lia. done. }
  rewrite (bind_lift_Ok _ part).
  2: { unfold subspan. replace (_ && _) with true by lia. change (Z.to_nat 0) with 0%nat.
       by rewrite drop_0, Et. }
  rewrite <- Lp. apply bind_emit. cbv beta zeta. run. cbv zeta. cbn [set_on_data_receive rcv_ upd_rcv set_rcv_next rcv_pq].
  rewrite (bind_lift_Ok _ rest).
  2: { unfold subspan_from. rewrite Lp.
       replace (_ && _) with true by lia. by rewrite Ed. }
  run. assert (len seg - len part = len rest) as ->
    by (unfold rest; rewrite length_drop; lia).
  done.
Qed.
Lemma async_read_some_run s sp cb :
  0 ≤ sp_size sp → cb_list (rcv_pq (rcv_ s)) ≠ [] →
  let part := filled sp (buffered s) in
  async_read_some sp cb s =
    Ok ((), upd_rcv (λ x, set_rcv_next (u32 (rcv_next x + len part)) x)
              (upd_rcv (set_rcv_pq (cb_erase_begin (len part) (rcv_pq (rcv_ s)))) s),
        [EvFill (sp_take (len part) sp) part; EvPost (TaskReadDone cb (len part))]).
Proof.
  intros Hsp Hne part. unfold async_read_some. run. cbv zeta.
  assert (cb_empty (rcv_pq (rcv_ s)) = false) as ->.
  { apply not_true_iff_false. by intros ?%cb_empty_nil. }
  cbn [negb sp_take sp_size].
  assert (len part = Z.min (cb_size (rcv_pq (rcv_ s))) (sp_size sp)) as Lp
    by (unfold part, filled, buffered, cb_size; rewrite length_take; lia).
  rewrite <- Lp.
  assert (take (Z.to_nat (len part)) (cb_list (rcv_pq (rcv_ s))) = part) as ->.
  { rewrite Nat2Z.id. unfold part, filled, buffered. rewrite length_take.
    destruct (Nat.min_spec (Z.to_nat (sp_size sp)) (length (cb_list (rcv_pq (rcv_ s)))))
      as [[? ->]|[? ->]]; [done|]. rewrite !take_ge by lia. done. }
  apply bind_emit. by run.
Qed.

(** *** The stream of bytes

    What a connection does when reads and in-sequence segments arrive in any
    order, as long as the application has at most one read outstanding and
    the peer stays within the queue. *)

Inductive rop : Type :=
| RRead (sp : span) (cb : nat)
| RSegment (tcph : tcp_header_t) (seg : list byte).

Definition run_rop (o : rop) : M (tcb_t B) tcb_event unit :=
  match o with
  | RRead sp cb => async_read_some sp cb
  | RSegment tcph seg => process_text tcph seg
  end.
Fixpoint run_rops (ops : list rop) : M (tcb_t B) tcb_event unit :=
  match ops with
  | [] => mret ()
  | o :: ops => _ ← run_rop o; run_rops ops
  end.

(** The text of the segments, and that they are numbered consecutively. *)
Fixpoint received (ops : list rop) : list byte :=
  match ops with
  | [] => []
  | RRead _ _ :: ops => received ops
  | RSegment _ seg :: ops => seg ++ received ops
  end.
Fixpoint in_sequence (nxt : Z) (ops : list rop) : Prop :=
  match ops with
  | [] => True
  | RRead sp _ :: ops => 0 ≤ sp_size sp ∧ in_sequence nxt ops
  | RSegment tcph seg :: ops => seq_no tcph = nxt ∧ in_sequence (nxt + len seg) ops
  end.
(** A read is issued only when no other is outstanding. *)
Fixpoint one_read_at_a_time s (ops : list rop) : Prop :=
  match ops with
  | [] => True
  | o :: ops =>
      (match o with RRead _ _ => on_data_receive_ s = [] | RSegment _ _ => True end) ∧
      match run_rop o s with Ok (_, s', _) => one_read_at_a_time s' ops | Fault _ => True end
  end.

(** The bytes written into the application's buffers. *)
Fixpoint delivered (evs : list tcb_event) : list byte :=
  match evs with
  | [] => []
  | EvFill _ bs :: evs => bs ++ delivered evs
  | _ :: evs => delivered evs
  end.

Lemma delivered_app evs evs' : delivered (evs ++ evs') = delivered evs ++ delivered evs'.
Proof. induction evs as [|[] evs IH]; cbn; rewrite ?IH, ?app_assoc; done. Qed.

(** A waiting read means an empty queue. *)
Definition rcv_inv s : Prop :=
  rcv_room s ∧ accepts_text (state_ s) = true ∧ is_u 32 (rcv_next (rcv_ s)) ∧
  (on_data_receive_ s = [] ∨
   ∃ sp cb, on_data_receive_ s = [(sp, cb)] ∧ 0 ≤ sp_size sp ∧ buffered s = []).

(** What one operation does to the stream. *)
Definition rop_post s (text : list byte) s' (evs : list tcb_event) : Prop :=
  delivered evs ++ buffered s' = buffered s ++ text ∧
  rcv_next (rcv_ s') = rcv_next (rcv_ s) + len (delivered evs) ∧
  send_ s' = send_ s ∧ state_ s' = state_ s ∧ next_state_ s' = next_state_ s ∧
  remote_ep_ s' = remote_ep_ s ∧ local_ep_ s' = local_ep_ s ∧ rcv_inv s'.

Lemma read_step s sp cb :
  rcv_inv s → on_data_receive_ s = [] → 0 ≤ sp_size sp →
  rcv_next (rcv_ s) + len (buffered s) < 2 ^ 32 →
  ∃ s' evs, async_read_some sp cb s = Ok ((), s', evs) ∧ rop_post s [] s' evs.
Proof.
  intros (Hroom & Hacc & Hnx & _) Hnone Hsp Hwrap.
  destruct (decide (cb_list (rcv_pq (rcv_ s)) = [])) as [Hnil|Hne].
  - eexists _, []. split.
    { unfold async_read_some. run. cbv zeta. unfold cb_empty, cb_size. by rewrite Hnil. }
    unfold rop_post, rcv_inv, rcv_room, buffered. cbn. rewrite Hnil, Hnone.
    split_and!; try done; [lia|]. right. by exists sp, cb.
  - eexists _, _. split; [by apply async_read_some_run|].
    set (part := filled sp (buffered s)).
    assert (len part ≤ cb_size (rcv_pq (rcv_ s))) as Hp
      by (unfold part, filled, buffered, cb_size; rewrite length_take; lia).
    unfold buffered in Hwrap. unfold cb_size in Hp.
    assert (u32 (rcv_next (rcv_ s) + len part) = rcv_next (rcv_ s) + len part) as Hu by ulia.
    unfold rop_post, rcv_inv, rcv_room, buffered. cbn [delivered upd_rcv set_rcv_next rcv_
      set_rcv_pq rcv_pq rcv_next send_ state_ next_state_ remote_ep_ local_ep_ on_data_receive_].
    rewrite cb_erase_begin_list, cb_erase_begin_capacity by (unfold cb_size; lia).
    rewrite Hu, !app_nil_r. split_and!; try done; [| |by left].
    + rewrite Nat2Z.id. unfold part, filled, buffered. rewrite length_take.
      set (l := cb_list _). destruct (Nat.min_spec (Z.to_nat (sp_size sp)) (length l))
        as [[? ->]|[? ->]]; [apply take_drop|].
      rewrite take_ge, drop_ge by lia. apply app_nil_r.
    + unfold is_u in *. lia.
Qed.

Lemma segment_step s tcph seg :
  rcv_inv s → seq_no tcph = rcv_next (rcv_ s) + len (buffered s) →
  rcv_next (rcv_ s) + len (buffered s) + len seg < 2 ^ 32 →
  len (buffered s) + len seg ≤ rcv_window_init →
  ∃ s' evs, process_text tcph seg s = Ok ((), s', evs) ∧ rop_post s seg s' evs.
Proof.
  intros (Hroom & Hacc & Hnx & Hwait) Hseq Hwrap Hfit. unfold process_text.
  destruct (Z.ltb_spec 0 (len seg)) as [Hpos|Hzero].
  2: { assert (seg = []) as -> by (apply nil_length_inv; lia).
       exists s, []. split; [done|].
       unfold rop_post. rewrite app_nil_r. cbn. split_and!; try done. lia. }
  assert ((get ≫= λ s0, match state_ s0 with
    | kTCPEstablished | kTCPFinWait_1 | kTCPFinWait_2 => receive_text tcph seg
    | _ => mret () end) s = receive_text tcph seg s) as Hd.
  { run. by destruct (state_ s). }
  replace (0 <? len seg) with true by lia. rewrite Hd. clear Hd.
  unfold rcv_room in Hroom. unfold buffered in *.
  destruct Hwait as [Hnone|(sp & cb & Hwait & Hsp & Hnil)].
  - eexists _, []. split.
    { apply receive_text_buffer; [unfold cb_size; lia|done|unfold cb_size; lia]. }
    unfold rop_post, rcv_inv, rcv_room, buffered. cbn.
    pose proof (append_text_capacity seg (rcv_pq (rcv_ s))).
    rewrite append_text_list. split_and!; try done; try lia. by left.
  - eexists _, _. split; [apply receive_text_deliver; [lia|done..]|].
    unfold rop_post, rcv_inv, rcv_room, buffered. cbn [delivered upd_rcv set_rcv_next rcv_
      set_rcv_pq rcv_pq rcv_next send_ state_ next_state_ remote_ep_ local_ep_ on_data_receive_
      set_on_data_receive].
    rewrite leftover_list by done. rewrite Hnil, app_nil_r. cbn [app].
    set (part := filled sp seg).
    assert (len part ≤ len seg) as Hp by (unfold part, filled; rewrite length_take; lia).
    rewrite Hnil in Hwrap. cbn [length] in Hwrap.
    assert (u32 (rcv_next (rcv_ s) + len part) = rcv_next (rcv_ s) + len part) as -> by ulia.
    pose proof (leftover_capacity (drop (Z.to_nat (sp_size sp)) seg) (rcv_pq (rcv_ s))).
    split_and!; try done; [apply take_drop|lia| |by left]. unfold is_u in *. lia.
Qed.
Lemma run_rops_stream ops s :
  rcv_inv s → one_read_at_a_time s ops →
  in_sequence (rcv_next (rcv_ s) + len (buffered s)) ops →
  rcv_next (rcv_ s) + len (buffered s) + len (received ops) < 2 ^ 32 →
  len (buffered s) + len (received ops) ≤ rcv_window_init →
  ∃ s' evs, run_rops ops s = Ok ((), s', evs) ∧ rop_post s (received ops) s' evs.
Proof.
  revert s. induction ops as [|o ops IH]; intros s Hinv Hone Hseq Hwrap Hfit.
  { exists s, []. unfold rop_post. cbn. rewrite app_nil_r. split_and!; try done. lia. }
  destruct Hone as [Hread Hone].
  assert (∃ text s1 evs1, run_rop o s = Ok ((), s1, evs1) ∧ rop_post s text s1 evs1 ∧
    received (o :: ops) = text ++ received ops ∧
    in_sequence (rcv_next (rcv_ s) + len (buffered s) + len text) ops) as
    (text & s1 & evs1 & E1 & Hpost & Htext & Hseq1).
  { destruct o as [sp cb|tcph seg].
    - destruct Hseq as [Hsp Hseq]. exists [].
      destruct (read_step s sp cb Hinv Hread Hsp) as (s1 & evs1 & E1 & Hpost); [lia|].
      exists s1, evs1. rewrite Z.add_0_r. done.
    - destruct Hseq as [Hq Hseq]. exists seg. cbn [received] in *.
      rewrite length_app in Hwrap, Hfit.
      destruct (segment_step s tcph seg Hinv Hq) as (s1 & evs1 & E1 & Hpost); [lia|lia|].
      exists s1, evs1. done. }
  rewrite E1 in Hone. rewrite Htext in *. rewrite length_app in *.
  destruct Hpost as (Hbytes & Hnext & Hsend & Hst & Hnst & Hre & Hle & Hinv1).
  pose proof (f_equal length Hbytes) as Hlen. rewrite !length_app in Hlen.
  assert (rcv_next (rcv_ s1) + len (buffered s1) =
    rcv_next (rcv_ s) + len (buffered s) + len text) as Hpos by lia.
  destruct (IH s1 Hinv1 Hone) as (s2 & evs2 & E2 & Hb2 & Hn2 & Hse2 & Hs2 & Hns2 & Hr2 & Hl2 & Hinv2);
    [by rewrite Hpos|lia|lia|].
  exists s2, (evs1 ++ evs2). split; [by apply (bind_run_Ok _ _ _ () s1 evs1)|].
  unfold rop_post. rewrite delivered_app.
  split_and!; try congruence; try done.
  - rewrite <- app_assoc, Hb2, app_assoc, Hbytes. by rewrite app_assoc.
  - rewrite length_app. lia.
Qed.

(** C3: whatever the interleaving of reads and in-sequence segments, and
    whatever the sizes of the application's buffers, the bytes written to
    these buffers, in order, followed by the bytes still in the queue, are
    exactly the bytes that arrived; [rcv_next] counts the delivered ones.
    No assertion fails as long as the application has at most one read
    outstanding and the peer respects the window. *)
Theorem receive_stream ops s :
  rcv_inv s → one_read_at_a_time s ops →
  in_sequence (rcv_next (rcv_ s) + len (buffered s)) ops →
  rcv_next (rcv_ s) + len (buffered s) + len (received ops) < 2 ^ 32 →
  len (buffered s) + len (received ops) ≤ rcv_window_init →
  ∃ s' evs, run_rops ops s = Ok ((), s', evs) ∧
    delivered evs ++ buffered s' = buffered s ++ received ops ∧
    rcv_next (rcv_ s') = rcv_next (rcv_ s) + len (delivered evs).
Proof.
  intros Hinv Hone Hseq Hwrap Hfit.
  destruct (run_rops_stream ops s Hinv Hone Hseq Hwrap Hfit) as (s' & evs & E & Hb & Hn & _).
  exists s', evs. done.
Qed.

(** *** The next text of the stream

    [pkt] carries the bytes that follow what [s] has received, acknowledges
    what [s] has sent, and fits the window. *)
Definition next_segment s (pkt : tcp_packet) (hdr : tcp_header_t) (text : list byte) : Prop :=
  (∃ opts, parse_segment (tp_skb pkt) = Ok (hdr, opts, text)) ∧
  ACK hdr = 1 ∧ RST hdr = 0 ∧ SYN hdr = 0 ∧ FIN hdr = 0 ∧ 0 < len text ∧
  seq_no hdr = rcv_next (rcv_ s) + len (buffered s) ∧
  seq_nr_unack (send_ s) ≤ ack_no hdr ≤ seq_nr_next (send_ s) ∧
  rcv_next (rcv_ s) + rcv_window_init < 2 ^ 32 ∧
  len (buffered s) + len text ≤ rcv_window_init.

(** An acknowledgment without text inside the window. *)
Lemma process_pure_ack isn pkt hdr opts s pq :
  tcb_ok s → state_ s = kTCPEstablished → send_pq (send_ s) = Some pq →
  parse_segment (tp_skb pkt) = Ok (hdr, opts, []) →
  ACK hdr = 1 → RST hdr = 0 → SYN hdr = 0 → FIN hdr = 0 →
  rcv_next (rcv_ s) ≤ seq_no hdr < rcv_next (rcv_ s) + 64240 → rcv_next (rcv_ s) + 64240 < 2 ^ 32 →
  seq_nr_unack (send_ s) ≤ ack_no hdr ≤ seq_nr_next (send_ s) →
  process isn pkt s = Ok ((), after_ack s pq (ack_no hdr), []).
Proof.
  intros Hok Hst Hpq Hparse HA HR HS HF Hseq Hwrap Hack.
  unfold process. rewrite (bind_lift_Ok _ _ _ _ Hparse). cbv beta iota.
  rewrite process_parsed_synchronized by (by rewrite Hst). unfold process_segment. run.
  rewrite check_synchronized by (done || by rewrite Hst). cbv zeta.
  change (u16 (len [])) with 0. cbn [Z.eqb]. pose proof Hok as (_ & _ & _ & (Hn & _)).
  assert (u32 (rcv_next (rcv_ s) + 64240) = rcv_next (rcv_ s) + 64240) as -> by ulia.
  replace (_ && _) with true by lia. unfold process_rst, process_syn. rewrite HR, HS.
  cbn [negb bit Z.eqb andb]. set (s1 := after_ack s pq (ack_no hdr)).
  assert (process_ack hdr s = Ok (false, s1, [])) as Eack by (apply process_ack_run; done || lia).
  rewrite (bind_silent _ _ _ _ _ Eack), (bind_silent _ _ _ _ _ (process_urg_run hdr s1)).
  rewrite (bind_silent _ _ s1 () s1) by done. unfold process_fin. by rewrite bind_get, HF.
Qed.

(** A segment outside the window. *)
Lemma process_outside isn pkt hdr opts text s :
  synchronized (state_ s) = true → parse_segment (tp_skb pkt) = Ok (hdr, opts, text) →
  tcp_check_segment s hdr (u16 (len text)) = false → process isn pkt s = Ok ((), s, []).
Proof.
  intros Hst Hparse Hchk. unfold process. rewrite (bind_lift_Ok _ _ _ _ Hparse). cbv beta iota.
  rewrite process_parsed_synchronized by done. unfold process_segment. run. by rewrite Hchk.
Qed.

Lemma process_next_text isn pkt hdr text s pq :
  tcb_ok s → state_ s = kTCPEstablished → send_pq (send_ s) = Some pq →
  next_segment s pkt hdr text →
  process isn pkt s = receive_text hdr text (after_ack s pq (ack_no hdr)).
Proof.
  intros Hok Hst Hpq ([opts Hparse] & HA & HR & HS & HF & Hpos & Hseq & Hack & Hwrap & Hfit).
  unfold rcv_window_init in *. unfold process. rewrite (bind_lift_Ok _ _ _ _ Hparse).
  cbv beta iota. rewrite process_parsed_synchronized by (by rewrite Hst).
  unfold process_segment. run.
  rewrite check_synchronized by (done || (by rewrite Hst) || unfold u16; ulia). cbv zeta.
  assert (u16 (len text) = len text) as -> by ulia.
  replace (len text =? 0) with false by lia.
  replace (rcv_next (rcv_ s) <=? seq_no hdr) with true by lia.
  pose proof Hok as (_ & _ & _ & (Hnx & _)).
  assert (u32 (rcv_next (rcv_ s) + 64240) = rcv_next (rcv_ s) + 64240) as -> by ulia.
  assert (bit (rcv_next (rcv_ s) + 64240) = true) as -> by (unfold bit; uwords; lia).
  unfold process_rst, process_syn. rewrite HR, HS. cbn [andb orb negb bit Z.eqb].
  set (s1 := after_ack s pq (ack_no hdr)).
  assert (process_ack hdr s = Ok (false, s1, [])) as Eack by (apply process_ack_run; done || lia).
  rewrite (bind_silent _ _ _ _ _ Eack), (bind_silent _ _ _ _ _ (process_urg_run hdr s1)).
  assert (process_text hdr text s1 = receive_text hdr text s1) as Etext.
  { unfold process_text. run. replace (0 <? len text) with true by lia.
    by replace (state_ s1) with kTCPEstablished by (by rewrite <- Hst). }
  unfold mbind at 1, M_bind at 1. rewrite Etext.
  destruct (receive_text hdr text s1) as [[[[] s2] es]|f]; [|done].
  unfold process_fin. rewrite bind_get, HF. cbn. by rewrite app_nil_r.
Qed.

(** A segment is taken as the next text of the stream whenever it does
    not start before the end of what has arrived, even when a segment
    before it is missing: its bytes are appended as if they were contiguous.
    A later arrival of the missing segment is dropped as old. *)
Theorem lost_segment_closes_gap s h1 h2 seg1 seg2 :
  rcv_room s → state_ s = kTCPEstablished → on_data_receive_ s = [] → seg2 ≠ [] →
  let nxt := rcv_next (rcv_ s) + len (buffered s) in
  seq_no h1 = nxt → seq_no h2 = nxt + len seg1 →
  len (buffered s) + len seg2 ≤ rcv_window_init → len seg1 < len seg2 →
  ∃ s1, process_text h2 seg2 s = Ok ((), s1, []) ∧
    buffered s1 = buffered s ++ seg2 ∧
    process_text h1 seg1 s1 = Ok ((), s1, []).
Proof.
  intros Hroom Hst Hnone Hne nxt Hq1 Hq2 Hfit Hlt. unfold rcv_room in Hroom.
  unfold buffered in *.
  exists (upd_rcv (set_rcv_pq (append_text seg2 (rcv_pq (rcv_ s)))) s).
  split_and!.
  - unfold process_text. run. replace (0 <? len seg2) with true by lia. rewrite Hst.
    apply receive_text_buffer; [unfold cb_size; lia|done|unfold cb_size; lia].
  - cbn. apply append_text_list.
  - unfold process_text. run. destruct (Z.ltb_spec 0 (len seg1)); [|done].
    cbn [state_ upd_rcv]. rewrite Hst. apply receive_text_old.
    cbn [rcv_ upd_rcv set_rcv_pq rcv_next rcv_pq]. unfold cb_size.
    rewrite append_text_list, length_app. lia.
Qed.

(** With two reads outstanding, a segment longer than the buffer of the
    first leaves its rest in the queue while the second read still waits;
    the next new segment then fails [assert(rcv_.pq->empty())]: the program
    aborts. *)
Theorem two_reads_abort s h1 h2 seg1 seg2 sp1 cb1 sp2 cb2 :
  state_ s = kTCPEstablished → is_u 32 (rcv_next (rcv_ s)) → buffered s = [] →
  on_data_receive_ s = [(sp1, cb1); (sp2, cb2)] →
  0 ≤ sp_size sp1 < len seg1 → seg2 ≠ [] →
  seq_no h1 = rcv_next (rcv_ s) → seq_no h2 = rcv_next (rcv_ s) + len seg1 →
  rcv_next (rcv_ s) + len seg1 < 2 ^ 32 →
  ∃ s1 evs, process_text h1 seg1 s = Ok ((), s1, evs) ∧
    process_text h2 seg2 s1 = Fault AssertFail.
Proof.
  intros Hst Hnx Hnil Hwait Hsz Hne Hq1 Hq2 Hwrap.
  assert (seg2 = [] ∨ 0 < len seg2) as [|Hpos2]
    by (destruct seg2; [by left|right; cbn [length]; lia]); [done|].
  do 2 eexists. split.
  { unfold process_text. run. replace (0 <? len seg1) with true by lia. rewrite Hst.
    apply (receive_text_deliver s h1 seg1 sp1 cb1); [lia|done..|lia]. }
  unfold process_text. run. replace (0 <? len seg2) with true by lia.
  cbn [state_ upd_rcv set_on_data_receive]. rewrite Hst.
  unfold receive_text. run. cbv zeta.
  cbn [rcv_ upd_rcv set_rcv_pq set_rcv_next rcv_pq rcv_next on_data_receive_ set_on_data_receive].
  set (rest := drop (Z.to_nat (sp_size sp1)) seg1).
  set (part := filled sp1 seg1).
  assert (len part = sp_size sp1) as Lp by (unfold part, filled; rewrite length_take; lia).
  assert (len rest = len seg1 - sp_size sp1) as Lr by (unfold rest; rewrite length_drop; lia).
  unfold cb_empty, cb_size. rewrite leftover_list by done.
  replace (seq_no h2 <? u32 (rcv_next (rcv_ s) + len part) + len rest) with false
    by (unfold is_u in Hnx; ulia).
  cbn [negb]. apply bind_lift_Fault. by replace (len rest =? 0) with false by lia.
Qed.
End Receive.

(** ** From one block to another

    The packets one block enqueues are processed by the block at the other
    end, on hosts whose byte order may differ. *)

Section Transfer.
Context (Hsnd Hrcv : Host) {B1 : Type} `{Hc1 : CircularBuffer B1} `{!CircularBufferSpec B1}
  {B2 : Type} `{Hc2 : CircularBuffer B2} `{!CircularBufferSpec B2}.

(** The bytes of a header do not depend on the host. *)
Lemma produce_host_independent hdr :
  tcp_header.produce_to_net (H := Hsnd) hdr = tcp_header.produce_to_net (H := Hrcv) hdr.
Proof. unfold tcp_header.produce_to_net. by autorewrite with wire. Qed.

(** The receiver processes what the sender enqueued, in order. *)
Fixpoint deliver (isn : Z) (evs : list tcb_event) : M (tcb_t B2) tcb_event unit :=
  match evs with
  | [] => mret ()
  | EvEnqueue p :: evs => _ ← process (H := Hrcv) isn p; deliver isn evs
  | _ :: evs => deliver isn evs
  end.

(** The receiver is ready for text at [nxt], and takes [ack] as a valid
    acknowledgment. *)
Definition ready (r : tcb_t B2) (nxt ack room : Z) : Prop :=
  tcb_ok r ∧ rcv_room r ∧ state_ r = kTCPEstablished ∧ on_data_receive_ r = [] ∧
  (∃ pq, send_pq (send_ r) = Some pq) ∧
  seq_nr_unack (send_ r) ≤ ack ≤ seq_nr_next (send_ r) ∧
  nxt = rcv_next (rcv_ r) + len (buffered r) ∧ rcv_next (rcv_ r) + 64240 < 2 ^ 32 ∧
  len (buffered r) + room ≤ rcv_window_init.

Lemma process_data isn r hdr seg room p (s : tcb_t B1) :
  ready r (seq_no hdr) (ack_no hdr) room → len seg ≤ room →
  packet_of (Hh := Hsnd) s hdr seg p → tcp_header_ok hdr → data_offset hdr = 5 →
  ACK hdr = 1 → RST hdr = 0 → SYN hdr = 0 → FIN hdr = 0 → 0 < len seg →
  ∃ r', process (H := Hrcv) isn p r = Ok ((), r', []) ∧ buffered r' = buffered r ++ seg ∧
    ready r' (seq_no hdr + len seg) (ack_no hdr) (room - len seg).
Proof.
  intros (Hok & Hroom & Hst & Hnone & [pq Hpq] & Hack & Hseq & Hwrap & Hfit) Hlen Hp Hh Hd
    HA HR HS HF Hpos.
  unfold rcv_window_init, rcv_room in *. unfold rcv_window_init in Hroom.
  assert (packet_of (Hh := Hrcv) s hdr seg p) as Hp'.
  { unfold packet_of in *. by rewrite <- produce_host_independent. }
  set (r1 := after_ack r pq (ack_no hdr)).
  exists (upd_rcv (set_rcv_pq (append_text seg (rcv_pq (rcv_ r)))) r1).
  split_and!.
  - rewrite (process_next_text (Hh := Hrcv) isn p hdr seg r pq); [|done..|].
    + fold r1. apply (receive_text_buffer r1); cbn; unfold buffered, cb_size in *; [lia|done|lia].
    + unfold next_segment, rcv_window_init. split_and!; try done; try lia. exists [].
      apply (parse_packet (Hh := Hrcv) s); [done..|lia].
  - unfold buffered. cbn. apply append_text_list.
  - pose proof (append_text_capacity seg (rcv_pq (rcv_ r))) as Hcap.
    assert (tcb_ok r1) as Hok1.
    { apply after_ack_ok; [done|done|]. destruct Hok as (_ & _ & (_ & Hn & _) & _).
      destruct Hh as (_ & _ & _ & Ha & _). done. }
    unfold ready. split; [exact Hok1|].
    unfold rcv_room, buffered, rcv_window_init in *. cbn.
    rewrite append_text_list, length_app. split_and!; try done; try lia; [by eexists|..].
    all: replace (ack_no hdr <? seq_nr_unack (send_ r)) with false by lia;
      replace (seq_nr_next (send_ r) <? ack_no hdr) with false by lia; lia.
Qed.
Lemma deliver_sent isn (s : tcb_t B1) nxt bytes evs r :
  tcb_ok s → next_state_ s ≠ kTCPSynReceived → is_u 32 nxt →
  sent (Hh := Hsnd) s nxt bytes evs → ready r nxt (rcv_next (rcv_ s)) (len bytes) →
  nxt + len bytes < 2 ^ 32 →
  ∃ r', deliver isn evs r = Ok ((), r', []) ∧ buffered r' = buffered r ++ bytes ∧
    state_ r' = kTCPEstablished.
Proof.
  intros Hok Hns Hnxt Hsent. revert r Hnxt.
  induction Hsent as [nxt|nxt seg rest p evs Hne Hle Hfull Hp Hsent IH];
    intros r Hnxt Hready Hwrap.
  { exists r. rewrite app_nil_r. split_and!; try done. apply Hready. }
  rewrite length_app in Hready, Hwrap.
  assert (0 < len seg) as Hpos by (destruct seg; [done|cbn [length]; lia]).
  assert (tcb_ok (upd_send (set_next nxt) s)) as Hok'.
  { destruct Hok as (? & ? & (? & ? & ? & ? & ?) & ?). unfold tcb_ok, send_ok; cbn -[is_u].
    by split_and!. }
  set (hdr := out_header (upd_send (set_next nxt) s) (len seg)) in *.
  assert (seq_no hdr = nxt) as Hseq.
  { subst hdr. cbn [seq_no out_header]. by replace (0 =? len seg) with false by lia. }
  assert (ack_no hdr = rcv_next (rcv_ s)) as Hack by done.
  destruct (process_data isn r hdr seg (len seg + len rest) p s)
    as (r1 & E1 & Hb1 & Hready1); try done.
  - rewrite Hseq, Hack. replace (len seg + len rest) with (Z.of_nat (length seg + length rest)) by lia.
    done.
  - lia.
  - by apply out_header_ok.
  - subst hdr. cbn. by rewrite bool_decide_eq_false_2.
  - destruct (IH r1) as (r2 & E2 & Hb2 & Hst2).
    + apply u32_is_u.
    + assert (u32 (nxt + len seg) = nxt + len seg) as -> by (unfold is_u in Hnxt; ulia).
      rewrite Hseq, Hack in Hready1.
      by replace (len rest) with (len seg + len rest - len seg) by lia.
    + unfold is_u in Hnxt. ulia.
    + exists r2. split; [|by rewrite Hb2, Hb1, app_assoc].
      cbn [deliver]. by rewrite (bind_silent _ _ _ _ _ E1).
Qed.

(** C2: end to end.  What one block has queued and not sent is put on the
    wire by its sending loop, and when the block at the other end, which
    expects exactly these sequence numbers and has no read waiting,
    processes the packets, its receive queue grows by exactly these bytes,
    in order; nothing else is output, and no assertion fails on either
    side. *)
Theorem data_transfer isn calls (s : tcb_t B1) pq r :
  tcb_ok s → send_pq (send_ s) = Some pq → 0 < send_mss (send_ s) →
  next_state_ s ≠ kTCPSynReceived →
  ready r (seq_nr_next (send_ s)) (rcv_next (rcv_ s)) (len (unsent s pq)) →
  seq_nr_next (send_ s) + len (unsent s pq) < 2 ^ 32 →
  ∃ evs r', run_task (H := Hsnd) TaskDrain calls s = Ok ((), after_loop s pq, evs) ∧
    deliver isn evs r = Ok ((), r', []) ∧
    buffered r' = buffered r ++ unsent s pq ∧ unsent (after_loop s pq) pq = [].
Proof.
  intros Hok Hpq Hm Hns Hready Hwrap.
  destruct (send_loop_run (Hh := Hsnd) (send_fuel s) s pq Hok Hpq Hm) as (evs & E & Hsent).
  { unfold send_fuel. rewrite Hpq. unfold unsent. rewrite length_drop. lia. }
  assert (is_u 32 (seq_nr_next (send_ s))) as Hn by (destruct Hok as (_ & _ & (_ & ? & _) & _); done).
  destruct (deliver_sent isn s _ _ evs r Hok Hns Hn Hsent Hready Hwrap) as (r' & Ed & Hb & _).
  exists evs, r'. split_and!; [|done|done|].
  - cbn [run_task]. by rewrite bind_get.
  - unfold after_loop. case_decide as Hu; [done|].
    destruct (unsent_after_packet s pq (len (unsent s pq)) Hok Hpq (unsent_no_syn _ _ Hu))
      as [Hu' _]; [lia|].
    change (unsent (after_packet s (len (unsent s pq))) pq = []).
    rewrite Hu'. apply drop_ge. lia.
Qed.
End Transfer.

(** ** Examples *)

(** The other end of [test_tcb]: expects [next_], acknowledged up to [una]. *)
Definition test_peer (next_ una : Z) (queue : list byte) (waiting : list (span * nat))
    : tcb_t reserve_buffer :=
  mk_tcb (test_ep 167772162 80) (test_ep 167772161 4096) kTCPEstablished kTCPEstablished 0 waiting
    (mk_send una 5000 100 1446 (Some (mk_reserve [] 100)))
    (mk_receive next_ rcv_window_init 1446 (mk_reserve queue (Z.to_nat (64240 - len queue)))).

Lemma parse_segment_spec_witness :
  let H := test_host Big in
  let skb := mk_skb (replicate 30 Byte.x00) 0 30 in
  ∃ h, tcp_header.consume_from_net (head skb) = Ok (h, drop 20 (head skb)) ∧
    parse_segment skb = Fault OutOfBounds.
Proof.
  assert (skb_wf (mk_skb (replicate 30 Byte.x00) 0 30)) as Hw
    by (unfold skb_wf, capacity; cbn; lia).
  destruct (parse_segment_spec (Hh := test_host Big) (mk_skb (replicate 30 Byte.x00) 0 30) Hw)
    as [_ (h & E & P)]; [vm_compute; reflexivity|vm_compute; discriminate|].
  exists h. split; [exact E|].
  assert (data_offset h = 0) as Hd by (vm_compute in E; injection E as <-; reflexivity).
  rewrite Hd in P. rewrite decide_False in P by (cbn; lia). exact P.
Defined.

Lemma check_segment_vs_rfc_witness :
  tcp_check_segment (test_peer 5000 5000 [] []) (test_header 4000000000 1 [1]) 10 =
    (5000 <=? 4000000000) || rfc_acceptable 5000 64240 4000000000 10.
Proof.
  apply (check_segment_vs_rfc (test_peer 5000 5000 [] []) (test_header 4000000000 1 [1]) 10);
    [test_ok|reflexivity|unfold tcp_header_ok, is_u; cbn; lia|unfold is_u; lia|cbn; lia].
Defined.

Lemma wrapped_window_rejects_acks_witness :
  let H := test_host Little in
  let s := test_peer 4294967000 5000 [] [] in
  process_segment (test_header 4294967000 5000 [1]) [] s = Ok ((), s, []).
Proof.
  apply (wrapped_window_rejects_acks (Hh := test_host Little) (test_peer 4294967000 5000 [] []));
    [test_ok|reflexivity|unfold tcp_header_ok, is_u; cbn; lia|cbn; lia].
Defined.

Lemma receive_stream_witness :
  let ops := [RSegment (test_header 5000 1 [1]) [Byte.x01; Byte.x02; Byte.x03];
              RRead (mk_span 0 0 2) 7; RRead (mk_span 0 2 4) 8; RRead (mk_span 1 0 9) 9;
              RSegment (test_header 5003 1 [1]) [Byte.x04]] in
  let s := test_peer 5000 5000 [] [] in
  ∃ s' evs, run_rops ops s = Ok ((), s', evs) ∧
    delivered evs ++ buffered s' = [Byte.x01; Byte.x02; Byte.x03; Byte.x04] ∧
    rcv_next (rcv_ s') = 5000 + len (delivered evs).
Proof.
  intros ops s. refine (receive_stream ops s _ _ _ _ _).
  - unfold rcv_inv, rcv_room, is_u. split_and!; [vm_compute; discriminate|reflexivity|cbn; lia|cbn; lia|].
    left; reflexivity.
  - vm_compute. repeat split.
  - cbn. repeat split; lia.
  - cbn; lia.
  - vm_compute; discriminate.
Defined.

Lemma lost_segment_closes_gap_witness :
  let s := test_peer 5000 5000 [] [] in
  ∃ s1, process_text (test_header 5001 1 [1]) [Byte.xbb; Byte.xcc] s = Ok ((), s1, []) ∧
    buffered s1 = buffered s ++ [Byte.xbb; Byte.xcc] ∧
    process_text (test_header 5000 1 [1]) [Byte.xaa] s1 = Ok ((), s1, []).
Proof.
  apply (lost_segment_closes_gap (test_peer 5000 5000 [] []) (test_header 5000 1 [1])
    (test_header 5001 1 [1]) [Byte.xaa] [Byte.xbb; Byte.xcc]);
    [vm_compute; discriminate|reflexivity|reflexivity|discriminate|reflexivity|reflexivity
    |vm_compute; discriminate|cbn; lia].
Defined.

Lemma two_reads_abort_witness :
  let s := test_peer 5000 5000 [] [(mk_span 0 0 1, 1%nat); (mk_span 0 1 1, 2%nat)] in
  ∃ s1 evs, process_text (test_header 5000 1 [1]) [Byte.x01; Byte.x02] s = Ok ((), s1, evs) ∧
    process_text (test_header 5002 1 [1]) [Byte.x03] s1 = Fault AssertFail.
Proof.
  apply (two_reads_abort
    (test_peer 5000 5000 [] [(mk_span 0 0 1, 1%nat); (mk_span 0 1 1, 2%nat)])
    (test_header 5000 1 [1]) (test_header 5002 1 [1]) [Byte.x01; Byte.x02] [Byte.x03]
    (mk_span 0 0 1) 1 (mk_span 0 1 1) 2);
    [reflexivity|unfold is_u; cbn; lia|reflexivity|reflexivity|cbn; lia|discriminate
    |reflexivity|reflexivity|cbn; lia].
Defined.

Lemma data_transfer_witness :
  let s := test_tcb 100 100 2 [Byte.x01; Byte.x02; Byte.x03] in
  let pq := mk_reserve [Byte.x01; Byte.x02; Byte.x03] 97 in
  let r := test_peer 100 5000 [] [] in
  ∃ evs r', run_task (H := test_host Little) TaskDrain [] s = Ok ((), after_loop s pq, evs) ∧
    deliver (test_host Big) 0 evs r = Ok ((), r', []) ∧
    buffered r' = [Byte.x01; Byte.x02; Byte.x03] ∧ unsent (after_loop s pq) pq = [].
Proof.
  intros s pq r.
  refine (data_transfer (test_host Little) (test_host Big) 0 [] s pq r _ _ _ _ _ _).
  - test_ok.
  - reflexivity.
  - reflexivity.
  - discriminate.
  - unfold ready, rcv_room. split_and!;
      first [test_ok | reflexivity | (vm_compute; discriminate) | (cbn; lia) | (eexists; reflexivity)
            | done].
  - vm_compute. reflexivity.
Defined.
