(* ===== verification/TcbState.v ===== *)
(** * The states of a connection

    A block as a transition system: packets arrive, the application reads and
    writes, and the closures the block posted run.  The invariant of its
    reachable states, proved by induction on the steps; the handshakes; and
    what the FIN, RST and SYN bits do. *)

From S2P Require Import Prelude Utils Skbuff Addr Headers TcpOptions CircularBuffer Tcb TcbFacts.
From S2P Require Import TcbSend TcbRecv.

(** ** Ranges of what a packet holds *)

Section Ranges.
Context `{Hh : Host}.

Lemma tcp_consume_ranges ptr h rest :
  tcp_header.consume_from_net ptr = Ok (h, rest) →
  is_u 32 (seq_no h) ∧ is_u 32 (ack_no h) ∧ is_u 16 (window h).
Proof.
  unfold tcp_header.consume_from_net. intros E. repeat unparse_step E.
  injection E as <- <-. done.
Qed.

Lemma parse_segment_ranges skb h opts seg :
  parse_segment skb = Ok (h, opts, seg) →
  is_u 32 (seq_no h) ∧ is_u 32 (ack_no h) ∧ is_u 16 (window h).
Proof.
  unfold parse_segment. intros E.
  apply bind_Ok in E as (? & _ & E). apply bind_Ok in E as ([h' rest] & Ec & E).
  repeat (apply bind_Ok in E as (? & _ & E)). injection E as -> <- <-.
  by eapply tcp_consume_ranges.
Qed.

Definition option_ok (opt : tcp_option) : Prop :=
  match opt with mss value => is_u 16 value | _ => True end.

Lemma native_load_bound bs : is_u (8 * len bs) (native_load bs).
Proof.
  unfold is_u, native_load. case_match; [apply le_combine_bound|].
  rewrite <- (length_rev bs). apply le_combine_bound.
Qed.

Lemma ntoh_bound bs : is_u (8 * len bs) (ntoh (length bs) (native_load bs)).
Proof.
  unfold ntoh, big_to_native. case_match; [|apply native_load_bound]. unfold byteswap.
  pose proof (native_load_bound (rev (native_store (length bs) (native_load bs)))) as Hb.
  rewrite length_rev in Hb.
  assert (length (native_store (length bs) (native_load bs)) = length bs) as El.
  { unfold native_store. case_match; rewrite ?length_rev; apply length_le_split. }
  by rewrite El in Hb.
Qed.

Lemma decode_options_ranges buf opts : decode_options buf = Ok opts → Forall option_ok opts.
Proof.
  unfold decode_options. generalize (length buf) as fuel. intros fuel.
  revert buf opts. induction fuel as [|fuel IH]; intros [|b buf] opts; cbn -[span_at subspan].
  1-3: (by intros [= <-]) || done.
  intros E. repeat case_match;
    repeat (apply bind_Ok in E as (? & ? & E)); try (by eapply IH); injection E as <-;
    first [by constructor | apply Forall_cons; split; [|by eapply IH]]; [|done].
  match goal with Hs : subspan 2 2 _ = Ok ?v |- _ =>
    apply subspan_Ok in Hs as (_ & _ & _ & _ & Hl); pose proof (ntoh_bound v) as Hb end.
  assert (length x0 = 2%nat) as E2 by lia. rewrite E2 in Hb. exact Hb.
Qed.
End Ranges.

(** ** Faults of parsing *)

(** The faults the network can provoke in [process]. *)
Definition remote_fault (f : fault) : Prop :=
  f = AssertFail ∨ f = OutOfBounds ∨ f = ClampInverted.

Lemma bind_Fault {A A'} (m : result A) (k : A → result A') f :
  (m ≫= k) = Fault f → m = Fault f ∨ ∃ a, m = Ok a ∧ k a = Fault f.
Proof. destruct m; cbn; [eauto|]. intros [= <-]. by left. Qed.

Lemma assert_eq b f : assert_ b = Fault f → AssertFail = f.
Proof. destruct b; [done|]. by intros [= <-]. Qed.
Lemma assert_fault b f : assert_ b = Fault f → remote_fault f.
Proof. destruct b; [done|]. intros [= <-]. by left. Qed.
Lemma subspan_fault {A} i n (l : list A) f : subspan i n l = Fault f → remote_fault f.
Proof. unfold subspan. case_match; [done|]. intros [= <-]. right; by left. Qed.
Lemma subspan_from_fault {A} i (l : list A) f : subspan_from i l = Fault f → remote_fault f.
Proof. unfold subspan_from. case_match; [done|]. intros [= <-]. right; by left. Qed.
Lemma span_at_fault i l f : span_at i l = Fault f → remote_fault f.
Proof. unfold span_at. repeat case_match; try done; intros [= <-]; right; by left. Qed.
Lemma clamp_fault v lo hi f : clamp v lo hi = Fault f → remote_fault f.
Proof. unfold clamp. case_match; [|done]. intros [= <-]. right; by right. Qed.

Create HintDb faults discriminated.
#[export] Hint Resolve assert_fault subspan_fault subspan_from_fault span_at_fault clamp_fault : faults.

(** Follow a fault to the step that raised it. *)
Ltac chase_fault E :=
  repeat (apply bind_Fault in E as [E|(? & ? & E)]; [by eauto with faults|]).

Lemma check_len_fault n buf f : check_len n buf = Fault f → remote_fault f.
Proof. unfold check_len. intros E. chase_fault E. done. Qed.
#[export] Hint Resolve check_len_fault : faults.

Section Faults.
Context `{Hh : Host}.

Lemma decode_options_fault buf f : decode_options buf = Fault f → remote_fault f.
Proof.
  unfold decode_options. assert (length buf ≤ length buf)%nat as Hl by done.
  revert Hl. generalize (length buf) at 2 3 as fuel. intros fuel. revert buf f.
  induction fuel as [|fuel IH]; intros [|b buf] f Hl; cbn -[span_at subspan subspan_from] in *;
    [done|lia|done|].
  assert (∀ off r, 1 ≤ off → subspan_from off (b :: buf) = Ok r → (length r ≤ fuel)%nat) as Hr.
  { intros off r Ho [? ->]%subspan_from_Ok. rewrite length_drop. cbn [length]. lia. }
  intros E. repeat case_match; try done; chase_fault E;
    repeat match goal with H : check_len _ _ = Ok _ |- _ => apply check_len_Ok in H as [-> _] end;
    try (by eapply IH; [eapply Hr; [|eassumption]; lia|]);
    apply bind_Fault in E as [E|(? & ? & E)]; try done;
    (by eapply IH; [eapply Hr; [|eassumption]; lia|]).
Qed.

Lemma consume_fault n ptr f : consume_from_net n ptr = Fault f → remote_fault f.
Proof. unfold consume_from_net. case_decide; [done|]. intros [= <-]. right; by left. Qed.

Lemma parser_bind_Fault {A A'} (m : parser A) (k : A → parser A') ptr f :
  (m ≫= k) ptr = Fault f → m ptr = Fault f ∨ ∃ a r, m ptr = Ok (a, r) ∧ k a r = Fault f.
Proof.
  unfold mbind, parser_bind. destruct (m ptr) as [[a r]|f']; [eauto|]. intros [= <-]. by left.
Qed.

Lemma tcp_consume_fault ptr f : tcp_header.consume_from_net ptr = Fault f → remote_fault f.
Proof.
  unfold tcp_header.consume_from_net. intros E.
  repeat (apply parser_bind_Fault in E as [E|(? & ? & ? & E)]; [by eapply consume_fault|]).
  done.
Qed.

Lemma pop_front_fault n skb f : pop_front n skb = Fault f → remote_fault f.
Proof. unfold pop_front. intros E. chase_fault E. done. Qed.
Hint Resolve decode_options_fault tcp_consume_fault pop_front_fault : faults.

Lemma parse_segment_fault skb f : parse_segment skb = Fault f → remote_fault f.
Proof.
  unfold parse_segment. intros E. apply bind_Fault in E as [E|(? & ? & E)]; [eauto with faults|].
  apply bind_Fault in E as [E|([h r] & ? & E)]; [eauto with faults|]. chase_fault E. done.
Qed.
End Faults.
#[export] Hint Resolve decode_options_fault parse_segment_fault : faults.

(** The options of the SYN fill the eight bytes reserved for them, and are
    decoded to the MSS. *)
Lemma encode_syn_options `{Host} room8 v :
  len room8 = 8 → is_u 16 v →
  ∃ bytes, encode_options room8 [mss v; nop; nop; sack] = Ok bytes ∧ len bytes = 8 ∧
    decode_options bytes = Ok [mss v].
Proof.
  intros L Hv.
  destruct (encode_decode_options [mss v; nop; nop; sack] room8) as (bytes & E & El & _ & Ed).
  - by repeat (apply Forall_cons; split; [done|]).
  - cbn. lia.
  - intros b. change (Z.to_nat _) with 8%nat. rewrite drop_ge by lia. done.
  - exists bytes. split_and!; [done|lia|]. by apply Ed.
Qed.

(** ** The invariant *)

Section Invariant.
Context `{Hh : Host} {B : Type} `{Hc : CircularBuffer B} `{Hs : !CircularBufferSpec B}.
Implicit Types s : tcb_t B.

(** Before the handshake there is no send queue. *)
Definition opening (st : tcp_state) : bool :=
  match st with kTCPConnecting | kTCPListen | kTCPSynSent => true | _ => false end.

(** The pairs ([state_], [next_state_]) between two calls. *)
Definition states_ok (st nst : tcp_state) : bool :=
  match st, nst with
  | kTCPConnecting, kTCPConnecting | kTCPListen, kTCPListen
  | kTCPSynSent, kTCPEstablished | kTCPSynReceived, kTCPSynReceived
  | kTCPEstablished, kTCPEstablished | kTCPCloseWait, kTCPTimeWait
  | kTCPTimeWait, kTCPTimeWait => true
  | _, _ => false
  end.

Record tcb_inv s : Prop := {
  inv_ok : tcb_ok s;
  inv_states : states_ok (state_ s) (next_state_ s) = true;
  inv_room : rcv_room s;
  inv_pq : if opening (state_ s) then send_pq (send_ s) = None ∧ buffered s = []
           else ∃ pq, send_pq (send_ s) = Some pq;
}.

Fixpoint posted (evs : list tcb_event) : list task :=
  match evs with
  | [] => []
  | EvPost t :: evs => t :: posted evs
  | _ :: evs => posted evs
  end.

Lemma posted_app evs evs' : posted (evs ++ evs') = posted evs ++ posted evs'.
Proof. induction evs as [|[] evs IH]; cbn; by rewrite ?IH. Qed.

(** What the layer below relies on: an outgoing packet is addressed from one
    end of the connection to the other, holds at least a header, and has
    room in front for the headers still to come. *)
Definition outgoing (remote_ep local_ep : endpoint) (p : tcp_packet) : Prop :=
  tp_proto p = PROTO ∧ tp_remote_ep p = remote_ep ∧ tp_local_ep p = local_ep ∧
  skb_wf (tp_skb p) ∧ headroom (tp_skb p) = additional_room ∧
  tcp_header.fixed_size ≤ len (payload (tp_skb p)) ≤ tcp_header.fixed_size + 65535.
Definition sendable s (ev : tcb_event) : Prop :=
  match ev with EvEnqueue p => outgoing (remote_ep_ s) (local_ep_ s) p | _ => True end.

Lemma packet_of_outgoing s hdr bytes p :
  packet_of s hdr bytes p → len bytes ≤ 65535 → outgoing (remote_ep_ s) (local_ep_ s) p.
Proof.
  intros (? & ? & ? & ? & ? & Hp) Hl. unfold outgoing. split_and!; try done; rewrite Hp, length_app;
    pose proof (wire_length (Wire := tcp_wire) hdr) as L; cbn [wire_produce wire_size tcp_wire] in L;
    lia.
Qed.

(** What every operation guarantees: the invariant, that nothing is posted
    before the handshake, that the handshake is not undone, that the ends
    stay, and that what is sent is fit to be sent. *)
Definition keeps s s' (evs : list tcb_event) : Prop :=
  tcb_inv s' ∧ (posted evs ≠ [] → opening (state_ s') = false) ∧
  (opening (state_ s) = false → opening (state_ s') = false) ∧
  (remote_ep_ s' = remote_ep_ s ∧ local_ep_ s' = local_ep_ s) ∧ Forall (sendable s) evs.

(** Leave the invariant, when the rest is by computation. *)
Ltac keeping :=
  unfold keeps; split_and!;
  [ | try done | try done | done | done
    | cbn [app]; repeat (apply Forall_cons; split; [first [exact I | assumption]|]);
      by apply List.Forall_nil ].

Lemma keeps_refl s : tcb_inv s → keeps s s [].
Proof. intros. by keeping. Qed.

Lemma keeps_trans s1 s2 s3 e1 e2 : keeps s1 s2 e1 → keeps s2 s3 e2 → keeps s1 s3 (e1 ++ e2).
Proof.
  intros (_ & P1 & H1 & [R1 L1] & F1) (Hi & P2 & H2 & [R2 L2] & F2). unfold keeps.
  split_and!; [done| |auto|congruence|congruence|].
  - rewrite posted_app. intros Hne. destruct (posted e1) eqn:E; [by apply P2|].
    apply H2, P1. done.
  - apply Forall_app. split; [done|]. eapply Forall_impl; [exact F2|].
    intros [] Hp; try done. cbn in *. by rewrite <- R1, <- L1.
Qed.

Lemma clamp_range v lo hi r :
  clamp v lo hi = Ok r → lo ≤ hi ∧ r = (if v <? lo then lo else if hi <? v then hi else v).
Proof. unfold clamp. destruct (Z.ltb_spec hi lo); [done|]. by intros [= <-]. Qed.

Lemma make_and_send_wp s F (Q : unit → tcb_t B → list tcb_event → Prop) :
  tcb_ok s → (∃ pq, send_pq (send_ s) = Some pq) →
  (∀ n p, tcb_ok (after_packet s n) → sendable s (EvEnqueue p) →
     Q () (after_packet s n) [EvEnqueue p]) →
  wp make_and_send_pkt Q F s.
Proof.
  intros Hok [pq Hpq] HQ. destruct (make_and_send_pkt_run s pq Hok Hpq) as (p & E & Hp).
  unfold wp. rewrite E. apply HQ; [by apply after_packet_ok|].
  eapply packet_of_outgoing; [exact Hp|].
  destruct Hok as (_ & _ & (_ & _ & _ & Hm & _) & _). unfold is_u in Hm.
  rewrite length_take. unfold next_len. lia.
Qed.

(** A block past the handshake whose two states agree, or that is between
    the two states of a FIN. *)
Lemma keeps_packet s n p :
  tcb_inv s → opening (state_ s) = false → sendable s (EvEnqueue p) →
  keeps s (after_packet s n) [EvEnqueue p].
Proof.
  intros [Hok Hst Hroom Hpq] Hop Hsend. rewrite Hop in Hpq. destruct Hpq as [pq Hpq].
  assert (opening (next_state_ s) = false) as Hop'
    by (destruct (state_ s), (next_state_ s); done).
  keeping; [split|done..].
  - by apply after_packet_ok.
  - cbn. by destruct (state_ s), (next_state_ s).
  - done.
  - cbn. rewrite Hop'. by exists pq.
Qed.

Lemma upd_rcv_inv s next pq :
  tcb_inv s → is_u 32 next → rcv_window_init ≤ cb_capacity pq →
  (opening (state_ s) = true → cb_list pq = []) →
  tcb_inv (upd_rcv (set_rcv_pq pq) (upd_rcv (set_rcv_next next) s)).
Proof.
  intros [Hok Hst Hroom Hpq] Hn Hcap Hnil. split; [|done|done|].
  - destruct Hok as (? & ? & ? & (? & ? & ?)). by unfold tcb_ok, rcv_ok; split_and!.
  - cbn. unfold buffered. cbn. destruct (opening (state_ s)); [|done]. split; [|auto]. apply Hpq.
Qed.

(** *** The handlers *)

(** The MSS a list of options leaves: that of the last MSS option. *)
Definition options_mss (opts : list tcp_option) (d : Z) : Z :=
  foldl (λ m opt, match opt with mss value => value | _ => m end) d opts.

Lemma apply_options_fold opts (x : send_t B) :
  foldl (λ x opt, match opt with mss value => set_send_mss value x | _ => x end) x opts =
  set_send_mss (options_mss opts (send_mss x)) x.
Proof.
  revert x. induction opts as [|opt opts IH]; intros x; [by destruct x|].
  unfold options_mss in *. cbn. rewrite IH. by destruct opt.
Qed.

Lemma options_mss_ok opts d : Forall option_ok opts → is_u 16 d → is_u 16 (options_mss opts d).
Proof.
  intros Ho. revert d. unfold options_mss.
  induction Ho as [|opt opts Hopt _ IH]; intros d Hd; [done|]. cbn. apply IH. by destruct opt.
Qed.

Lemma apply_options_wp opts s F Q :
  Q () (upd_send (λ x, set_send_mss (options_mss opts (send_mss x)) x) s) [] →
  wp (apply_options opts) Q F s.
Proof.
  intros HQ. unfold apply_options. apply wp_modify. unfold upd_send in *.
  by rewrite apply_options_fold.
Qed.

(** A header whose fields are in range. *)
Definition ranges_ok (tcph : tcp_header_t) : Prop :=
  is_u 32 (seq_no tcph) ∧ is_u 32 (ack_no tcph) ∧ is_u 16 (window tcph).

Lemma listen_wp isn tcph opts s :
  tcb_inv s → state_ s = kTCPListen → ranges_ok tcph → is_u 32 isn →
  wp (tcp_handle_listen_state isn tcph opts) (λ done s' es, done = true ∧ keeps s s' es)
    remote_fault s.
Proof.
  intros Hinv Hst (Hq & Ha & Hw) Hisn. unfold tcp_handle_listen_state. wp_steps.
  apply wp_lift; [intros _ _|by eauto with faults]. cbv beta.
  pose proof (keeps_refl s Hinv) as Hkeep.
  destruct (bit (RST tcph)); [by wp_steps|]. destruct (bit (ACK tcph)); [by wp_steps|].
  destruct (bit (SYN tcph)); [|by wp_steps]. wp_steps.
  apply wp_lift; [|by eauto with faults]. intros os Hos%decode_options_ranges. cbv beta.
  wp_step. apply apply_options_wp. wp_steps.
  destruct Hinv as [(Hre & Hle & (_ & _ & _ & Hm & _) & (_ & ? & ?)) Hsts Hroom Hpq].
  apply make_and_send_wp.
  - unfold tcb_ok, send_ok, rcv_ok. cbn -[is_u cb_make].
    split_and!; try done; try apply u32_is_u; [by apply options_mss_ok|].
    apply cb_make_capacity. unfold is_u in Hw. lia.
  - by eexists.
  - intros n p Hok Hsend. wp_steps. cbn [app]. split; [done|]. keeping.
    split; [done..|by eexists].
Qed.

Lemma syn_sent_wp tcph opts s :
  tcb_inv s → state_ s = kTCPSynSent → ranges_ok tcph →
  wp (tcp_handle_syn_sent tcph opts) (λ done s' es, done = true ∧ keeps s s' es)
    remote_fault s.
Proof.
  intros Hinv Hst (Hq & Ha & Hw). unfold tcp_handle_syn_sent. wp_steps.
  apply wp_lift; [intros _ _|by eauto with faults]. cbv beta.
  pose proof (keeps_refl s Hinv) as Hkeep.
  destruct (bit (SYN tcph) && bit (ACK tcph)); [|by wp_steps].
  destruct (negb _ && negb _); [|by wp_steps]. wp_steps.
  apply wp_lift; [|by eauto with faults]. intros os Hos%decode_options_ranges. cbv beta.
  wp_step. apply apply_options_wp. wp_steps.
  destruct Hinv as [(Hre & Hle & (? & Hn & _ & Hm & _) & (_ & ? & ?)) Hsts Hroom Hpq].
  apply make_and_send_wp.
  - unfold tcb_ok, send_ok, rcv_ok. cbn -[is_u cb_make].
    split_and!; try done; try apply u32_is_u; [by apply options_mss_ok|].
    apply cb_make_capacity. unfold is_u in Hw. lia.
  - by eexists.
  - intros n p Hok Hsend. unfold listen_finish. wp_steps. cbn [app]. split; [done|].
    keeping. split; [done..|by eexists].
Qed.

(** *** In the synchronized states *)

Lemma synchronized_opening s : tcb_inv s → synchronized (state_ s) = negb (opening (state_ s)).
Proof. intros [_ Hst _ _]. by destruct (state_ s), (next_state_ s). Qed.

Lemma process_ack_established_wp tcph s :
  tcb_inv s → state_ s = kTCPEstablished ∨ state_ s = kTCPCloseWait → is_u 32 (ack_no tcph) →
  wp (process_ack_established tcph) (λ _ s' es, keeps s s' es) remote_fault s.
Proof.
  intros Hinv Hst Ha. pose proof Hinv as [Hok Hsts Hroom Hpq].
  assert (opening (state_ s) = false) as Hop by (by destruct Hst as [-> | ->]).
  rewrite Hop in Hpq. destruct Hpq as [pq Hpq].
  unfold process_ack_established. wp_steps. rewrite Hpq.
  apply wp_lift; [intros ? [= <-]|done]. wp_steps.
  apply wp_lift; [|by eauto with faults]. intros v Hv. wp_steps.
  destruct (clamp_range _ _ _ _ Hv) as (Hle & Ev).
  assert (tcb_ok (after_ack s pq (ack_no tcph))) as Hok1 by (by apply after_ack_ok).
  match goal with |- wp _ _ _ ?x => assert (x = after_ack s pq (ack_no tcph)) as -> end.
  { unfold after_ack. by rewrite Ev. }
  set (s1 := after_ack s pq (ack_no tcph)) in *.
  assert (keeps s s1 []) as Hkeep.
  { keeping. split; [done..|]. cbn. rewrite Hop. by eexists. }
  destruct (seq_nr_next (send_ s) <? ack_no tcph).
  - wp_steps. apply make_and_send_wp; [done|by eexists|]. intros n p _ Hsend. wp_steps. cbn [app].
    apply (keeps_trans s s1 _ [] [EvEnqueue p] Hkeep). by apply keeps_packet; [apply Hkeep|..].
  - wp_steps. pose proof (ack_next_state_eq s1) as Heq. cbv zeta in Heq. rewrite Heq.
    unfold ack_next_state. change (state_ s1) with (state_ s).
    destruct Hst as [-> | ->]; done.
Qed.

Lemma process_ack_wp tcph s :
  tcb_inv s → opening (state_ s) = false → ranges_ok tcph →
  wp (process_ack tcph) (λ _ s' es, keeps s s' es) remote_fault s.
Proof.
  intros Hinv Hop (Hq & Ha & Hw). pose proof (keeps_refl s Hinv) as Hkeep.
  unfold process_ack. wp_steps. destruct (bit (ACK tcph)); [|by wp_steps].
  pose proof Hinv as [Hok Hst Hroom Hpq]. rewrite Hop in Hpq.
  assert (∀ m : M (tcb_t B) tcb_event bool, wp m (λ _ s' es, keeps s s' es) remote_fault s →
    wp m (λ _ s' es, keeps s s' ([] ++ es)) remote_fault s) as Happ by done.
  destruct (state_ s) eqn:Es; try done; try (by destruct (next_state_ s)); apply Happ.
  - (* SYN-RECEIVED *)
    unfold process_ack_syn_received. wp_steps.
    destruct (_ && _) eqn:Hin; [|by wp_steps]. wp_steps.
    apply wp_lift; [|by eauto with faults]. intros v Hv. unfold listen_finish. wp_steps.
    cbn [app]. keeping. split; [|done..].
    destruct Hok as (? & ? & (? & ? & ? & ? & ?) & ?). unfold tcb_ok, send_ok; cbn -[is_u].
    split_and!; try done. apply clamp_range in Hv as (_ & ->). by repeat case_match.
  - apply process_ack_established_wp; auto.
  - apply process_ack_established_wp; auto.
  - (* TIME-WAIT *)
    wp_steps. apply make_and_send_wp; [done|done|]. intros n p _ Hsend. wp_steps. cbn [app].
    apply keeps_packet; [done| |done]. by rewrite Es.
Qed.

Lemma process_text_wp tcph seg s :
  tcb_inv s → opening (state_ s) = false → is_u 32 (seq_no tcph) →
  wp (process_text tcph seg) (λ _ s' es, keeps s s' es ∧ state_ s' = state_ s) remote_fault s.
Proof.
  intros Hinv Hop Hq. pose proof (keeps_refl s Hinv) as Hkeep.
  pose proof Hinv as [Hok _ Hroom _]. destruct Hok as (_ & _ & _ & (Hn & _)).
  unfold rcv_room in Hroom.
  unfold process_text. wp_steps. destruct (0 <? len seg); [|by wp_steps].
  assert (wp (receive_text tcph seg) (λ _ s' es, keeps s s' es ∧ state_ s' = state_ s)
    remote_fault s) as Hrec;
    [|revert Hrec; destruct (state_ s) eqn:Es; intros Hrec; try exact Hrec; by wp_steps].
  unfold receive_text. wp_steps. destruct (negb _) eqn:Hnew; [|by wp_steps].
  destruct (on_data_receive_ s) as [|[sp cb] waiting] eqn:Hwait.
  - wp_steps. apply wp_lift; [intros _ _|by eauto with faults]. wp_steps. cbn [app].
    split; [|done]. keeping.
    pose proof (append_text_capacity seg (rcv_pq (rcv_ s))) as Hcap.
    apply (upd_rcv_inv s (rcv_next (rcv_ s)) (append_text seg (rcv_pq (rcv_ s)))) in Hinv;
      [|done|lia|by rewrite Hop]. by destruct s as [? ? ? ? ? ? ? []].
  - wp_steps. apply wp_lift; [intros _ _|by eauto with faults]. wp_steps.
    apply wp_lift; [intros part _|by eauto with faults]. wp_steps.
    apply wp_lift; [intros rest Hrest|by eauto with faults]. wp_steps. cbn [app].
    split; [|done]. keeping.
    apply subspan_from_Ok in Hrest as [Hr _].
    set (s1 := set_on_data_receive waiting s).
    assert (tcb_inv s1) as Hinv1 by (by destruct Hinv).
    apply (upd_rcv_inv s1); [done|apply u32_is_u| |by cbn; rewrite Hop].
    rewrite cb_copy_to_capacity, cb_resize_capacity; cbn; lia.
Qed.

Lemma process_fin_wp tcph s :
  tcb_inv s → opening (state_ s) = false →
  wp (process_fin tcph) (λ _ s' es, keeps s s' es) remote_fault s.
Proof.
  intros Hinv Hop. pose proof (keeps_refl s Hinv) as Hkeep.
  pose proof Hinv as [Hok Hst Hroom Hpq]. rewrite Hop in Hpq.
  unfold process_fin. wp_steps. destruct (bit (FIN tcph)); [|by wp_steps].
  assert (wp fin_established (λ _ s' es, keeps s s' es) remote_fault s) as Hfin.
  { unfold fin_established. wp_steps.
    set (s1 := set_next_state kTCPCloseWait _).
    assert (tcb_ok s1) as Hok1.
    { destruct Hok as (? & ? & ? & (? & ? & ?)). unfold tcb_ok, rcv_ok; cbn -[is_u].
      split_and!; try done. apply u32_is_u. }
    apply make_and_send_wp; [done|done|]. intros n p Hok2 Hsend. wp_steps.
    unfold fin_wait_1, fin_wait_2. wp_steps. by keeping. }
  destruct (state_ s) eqn:Es; try exact Hfin; try (by wp_steps).
Qed.

Lemma process_segment_wp tcph seg s :
  tcb_inv s → ranges_ok tcph →
  wp (process_segment tcph seg) (λ _ s' es, keeps s s' es) remote_fault s.
Proof.
  intros Hinv Hr. pose proof (keeps_refl s Hinv) as Hkeep. pose proof Hr as (Hq & _).
  unfold process_segment. wp_steps.
  destruct (tcp_check_segment s tcph (u16 (len seg))) eqn:Hchk; cbn [negb]; [|by wp_steps].
  assert (opening (state_ s) = false) as Hop.
  { unfold tcp_check_segment in Hchk. by destruct (state_ s). }
  destruct (process_rst tcph s); [by wp_steps|]. destruct (process_syn tcph s); [by wp_steps|].
  wp_step. eapply wp_mono; [by apply process_ack_wp| |done]. intros done_ s1 e1 H1. cbn [app].
  destruct done_; [wp_steps; by rewrite app_nil_r|].
  pose proof H1 as (Hinv1 & _ & Hop1 & _).
  wp_step. unfold wp at 1. rewrite process_urg_run. cbn [app].
  wp_step. eapply wp_mono; [apply process_text_wp; auto| |done]. intros u2 s2 e2 [H2 _].
  pose proof H2 as (Hinv2 & _ & Hop2 & _).
  eapply wp_mono; [apply process_fin_wp; auto| |done]. intros u3 s3 e3 H3.
  eapply keeps_trans; [exact H1|]. by eapply keeps_trans.
Qed.

Lemma process_parsed_wp isn tcph opts seg s :
  tcb_inv s → ranges_ok tcph → is_u 32 isn →
  wp (process_parsed isn tcph opts seg) (λ _ s' es, keeps s s' es) remote_fault s.
Proof.
  intros Hinv Hr Hisn. pose proof Hinv as [_ Hst _ _].
  destruct (decide (synchronized (state_ s) = true)) as [Hsync|Hns].
  { unfold wp. rewrite process_parsed_synchronized by done.
    exact (process_segment_wp tcph seg s Hinv Hr). }
  assert (state_ s = kTCPConnecting ∨ state_ s = kTCPListen ∨ state_ s = kTCPSynSent) as Hcases
    by (destruct (state_ s), (next_state_ s); auto; done).
  unfold process_parsed. destruct Hcases as [Es|[Es|Es]];
    repeat (wp_steps; first [rewrite bool_decide_eq_false_2 by (by rewrite Es)
                            |rewrite bool_decide_eq_true_2 by (by rewrite Es)]).
  - wp_steps. eapply wp_mono; [by apply process_segment_wp| |done]. intros u s' es Hk. exact Hk.
  - eapply wp_mono; [by apply listen_wp| |done]. intros d s' es [-> Hk]. wp_steps.
    cbn [app]. by rewrite app_nil_r.
  - eapply wp_mono; [by apply syn_sent_wp| |done]. intros d s' es [-> Hk]. wp_steps.
    cbn [app]. by rewrite app_nil_r.
Qed.

Lemma process_wp isn pkt s :
  tcb_inv s → is_u 32 isn →
  wp (process isn pkt) (λ _ s' es, keeps s s' es) remote_fault s.
Proof.
  intros Hinv Hisn. unfold process. wp_steps. apply wp_lift; [|by eauto with faults].
  intros [[h opts] seg] Hp%parse_segment_ranges. cbv beta iota.
  by apply process_parsed_wp.
Qed.
(** *** The application's side *)

(** The state after the SYN was sent. *)
Definition connecting (isn : Z) s : tcb_t B :=
  set_next_state kTCPEstablished (set_state kTCPSynSent
    (upd_send (set_next (u32 (isn + 1))) (upd_send (set_unack isn)
      (upd_rcv (set_rcv_mss 1446) s)))).

Lemma start_connecting_run isn s :
  ∃ p opts, start_connecting isn s = Ok ((), connecting isn s, [EvEnqueue p]) ∧
    packet_of s (syn_header s isn 28) opts p ∧ len opts = 8 ∧
    decode_options opts = Ok [mss 1446].
Proof.
  unfold start_connecting. set (room := make_unique_for_overwrite _).
  assert (len room = 62) as Lroom by (subst room; by rewrite length_make_unique).
  destruct (skb_new_Ok room additional_room) as (k0 & E0 & W0 & P0 & H0 & _); [by rewrite Lroom|].
  assert (len (payload k0) = 28) as L0.
  { rewrite P0, length_drop. change (Z.to_nat additional_room) with 34%nat. lia. }
  set (hdr := syn_header s isn 28).
  assert (len (tcp_header.produce_to_net hdr) = 20) as Lh by apply (wire_length (Wire := tcp_wire)).
  destruct (skb_write_Ok 0 (tcp_header.produce_to_net hdr) k0 W0) as (k1 & E1 & W1 & P1 & H1 & _);
    [lia|lia|].
  change (Z.to_nat 0) with 0%nat in P1. rewrite take_0, app_nil_l in P1. cbn [Nat.add] in P1.
  assert (len (payload k1) = 28) as L1 by (rewrite P1, length_app, length_drop; lia).
  set (room8 := take (Z.to_nat 8) (drop (Z.to_nat 20) (payload k1))).
  destruct (encode_syn_options room8 1446) as (opts & E2 & L2 & D2);
    [unfold room8; rewrite length_take, length_drop; lia|unfold is_u; lia|].
  destruct (skb_write_Ok 20 opts k1 W1) as (k2 & E3 & W2 & P2 & H2 & _); [lia|lia|].
  exists {| tp_proto := 6; tp_remote_ep := remote_ep_ s; tp_local_ep := local_ep_ s;
            tp_skb := k2 |}, opts.
  split_and!; [|split_and!; try done|done|done].
  - run. cbv zeta. rewrite L0.
    change (syn_header (upd_rcv (set_rcv_mss 1446) s) isn 28) with hdr.
    assert (subspan tcp_header.fixed_size 8 (payload k1) = Ok room8) as E8
      by (unfold subspan; by rewrite L1).
    by run.
  - cbn [tp_skb]. congruence.
  - cbn [tp_skb]. rewrite P2, P1. change (Z.to_nat 20) with 20%nat.
    rewrite take_app_length' by lia. f_equal.
    rewrite drop_ge; [apply app_nil_r|]. rewrite length_app, length_drop. lia.
Qed.

Lemma start_connecting_wp isn s :
  tcb_inv s → state_ s = kTCPConnecting → is_u 32 isn →
  wp (start_connecting isn) (λ _ s' es, keeps s s' es) (λ _, False) s.
Proof.
  intros [Hok Hst Hroom Hpq] Es Hisn.
  destruct (start_connecting_run isn s) as (p & opts & E & Hp & Lo & _). unfold wp. rewrite E.
  assert (sendable s (EvEnqueue p)) as Hsend by (eapply packet_of_outgoing; [exact Hp|lia]).
  keeping; [|by rewrite Es].
  destruct Hok as (? & ? & (? & ? & ? & ? & ?) & (? & ? & ?)).
  rewrite Es in Hpq. split; [|done..].
  unfold tcb_ok, send_ok, rcv_ok; cbn -[is_u]. split_and!; try done. apply u32_is_u.
Qed.

Lemma async_read_wp sp cb s :
  tcb_inv s → 0 ≤ sp_size sp →
  wp (async_read_some sp cb) (λ _ s' es, keeps s s' es) (λ _, False) s.
Proof.
  intros Hinv Hsp. unfold async_read_some. wp_steps. pose proof Hinv as [Hok _ Hroom Hpq].
  destruct Hok as (_ & _ & _ & (Hn & _)).
  destruct (cb_empty (rcv_pq (rcv_ s))) eqn:Hem; cbn [negb]; wp_steps; cbn [app].
  - keeping. by destruct Hinv.
  - assert (opening (state_ s) = false) as Hop.
    { apply not_true_iff_false. intros E. rewrite E in Hpq. destruct Hpq as [_ Hnil].
      unfold buffered in Hnil. unfold cb_empty, cb_size in Hem. by rewrite Hnil in Hem. }
    keeping. cbn [sp_size sp_take].
    set (k := Z.min _ _).
    assert (0 ≤ k ≤ cb_size (rcv_pq (rcv_ s))) as Hk by (unfold k, cb_size; lia).
    apply (upd_rcv_inv s (u32 (rcv_next (rcv_ s) + k)) (cb_erase_begin k (rcv_pq (rcv_ s))));
      [done|apply u32_is_u| |by rewrite Hop].
    by rewrite cb_erase_begin_capacity.
Qed.

(** What the application can provoke: the send queue overflows, or it writes
    before the connection is established. *)
Definition write_fault s (f : fault) : Prop :=
  f = AssertFail ∨ (f = NullDeref ∧ opening (state_ s) = true).

Lemma async_write_wp buf cb s :
  tcb_inv s → wp (async_write buf cb) (λ _ s' es, keeps s s' es) (write_fault s) s.
Proof.
  intros [Hok Hst Hroom Hpq]. unfold async_write, enqueue_app_data. wp_steps.
  destruct (send_pq (send_ s)) as [pq|] eqn:Epq.
  2: { apply wp_lift; [done|]. intros f [= <-]. right. split; [done|].
       apply not_false_iff_true. intros E. rewrite E in Hpq. by destruct Hpq. }
  assert (opening (state_ s) = false) as Hop.
  { apply not_true_iff_false. intros E. rewrite E in Hpq. by destruct Hpq. }
  apply wp_lift; [intros ? [= <-]|done]. wp_steps.
  apply wp_lift; [intros _ _|intros f [= <-]%assert_eq; by left]. wp_steps. cbn [app].
  keeping. split; [|done..|cbn; rewrite Hop; by eexists].
  destruct Hok as (? & ? & (? & ? & ? & ? & Hcap) & ?). rewrite Epq in Hcap.
  unfold tcb_ok, send_ok; cbn -[is_u]. split_and!; try done. by rewrite cb_insert_end_capacity.
Qed.

Lemma sent_events s nxt bytes evs :
  tcb_ok s → sent s nxt bytes evs → posted evs = [] ∧ Forall (sendable s) evs.
Proof.
  intros (_ & _ & (_ & _ & _ & Hm & _) & _). unfold is_u in Hm.
  induction 1 as [|nxt seg rest p evs Hne Hle _ Hp _ [IH1 IH2]]; [by split|].
  split; [done|]. apply Forall_cons. split; [|done].
  eapply (packet_of_outgoing (upd_send (set_next nxt) s)); [exact Hp|lia].
Qed.

(** With an MSS of zero there is never anything to send. *)
Lemma send_loop_no_mss s pq :
  tcb_ok s → send_pq (send_ s) = Some pq → send_mss (send_ s) = 0 →
  send_loop (send_fuel s) s = Ok ((), s, []).
Proof.
  intros Hok Hpq H0. assert (has_app_data_to_send s = Ok false) as Hno.
  { unfold has_app_data_to_send. rewrite (app_data_to_send_left_eq s pq Hok Hpq). cbn.
    unfold next_len. rewrite H0, Z.min_l by lia. done. }
  by destruct (send_fuel s); cbn [send_loop]; rewrite bind_get, (bind_lift_Ok _ _ _ _ Hno).
Qed.

Lemma send_loop_wp s :
  tcb_inv s → opening (state_ s) = false →
  wp (send_loop (send_fuel s)) (λ _ s' es, keeps s s' es) (λ _, False) s.
Proof.
  intros Hinv Hop. pose proof (keeps_refl s Hinv) as Hkeep.
  pose proof Hinv as [Hok _ _ Hpq]. rewrite Hop in Hpq. destruct Hpq as [pq Hpq].
  pose proof Hok as (_ & _ & (_ & _ & _ & Hm & _) & _).
  assert (len (unsent s pq) ≤ Z.of_nat (send_fuel s)) as Hfuel.
  { unfold send_fuel. rewrite Hpq. unfold unsent. rewrite length_drop. lia. }
  destruct (decide (send_mss (send_ s) = 0)) as [H0|Hpos].
  - unfold wp. by rewrite (send_loop_no_mss s pq Hok Hpq H0).
  - destruct (send_loop_run (send_fuel s) s pq Hok Hpq) as (evs & E & Hsent).
    { unfold is_u in Hm. lia. } { lia. }
    unfold wp. rewrite E. apply sent_events in Hsent as [Hpost Hsend]; [|done].
    assert (tcb_inv (after_loop s pq)) as Hinv'.
    { unfold after_loop. case_decide; [done|].
      assert (∃ p, sendable s (EvEnqueue p)) as [p Hp].
      { destruct (make_and_send_pkt_run s pq Hok Hpq) as (p & _ & Hp). exists p.
        eapply packet_of_outgoing; [exact Hp|]. rewrite length_take. unfold next_len, is_u in *. lia. }
      by apply (keeps_packet s (len (unsent s pq)) p). }
    unfold keeps. rewrite Hpost. split_and!; try done; unfold after_loop; case_decide; try done.
    intros _. destruct Hinv as [_ Hst _ _]. cbn. by destruct (state_ s), (next_state_ s).
Qed.

Definition call_ok (c : api_call) : Prop :=
  match c with ApiRead sp _ => 0 ≤ sp_size sp | ApiWrite _ _ => True end.

Lemma run_calls_wp calls s :
  tcb_inv s → opening (state_ s) = false → Forall call_ok calls →
  wp (run_calls calls) (λ _ s' es, keeps s s' es) (λ f, calls ≠ [] ∧ f = AssertFail) s.
Proof.
  intros Hinv Hop Hcalls. revert s Hinv Hop.
  induction Hcalls as [|c calls Hc' _ IH]; intros s Hinv Hop; cbn [run_calls].
  { wp_steps. by apply keeps_refl. }
  wp_step. eapply wp_mono with (Q := λ _ s' es, keeps s s' es) (F := λ f, f = AssertFail);
    [| |by auto].
  - destruct c as [sp cb|buf cb]; cbn [run_call].
    + eapply wp_mono; [by apply async_read_wp|done..].
    + eapply wp_mono; [by apply async_write_wp|done|]. intros f [|[_ E]]; [done|congruence].
  - intros u s1 e1 H1. pose proof H1 as (Hinv1 & _ & Hop1 & _).
    eapply wp_mono; [apply IH; auto| |by intros f [_ ->]].
    intros u2 s2 e2 H2. by eapply keeps_trans.
Qed.

Lemma run_task_wp t calls s :
  tcb_inv s → opening (state_ s) = false → Forall call_ok calls →
  wp (run_task t calls) (λ _ s' es, keeps s s' es) (λ f, calls ≠ [] ∧ f = AssertFail) s.
Proof.
  intros Hinv Hop Hcalls.
  assert (∀ es e s', (∀ t, e ≠ EvPost t) → sendable s e → keeps s s' es → keeps s s' (e :: es)) as Hcons.
  { intros es e s' He Hse (? & Hp & ? & [? ?] & ?). unfold keeps. split_and!; try done.
    - destruct e; try exact Hp. by destruct (He t0).
    - by apply Forall_cons. }
  destruct t as [cb n|cb n| |]; cbn [run_task]; wp_steps.
  - eapply wp_mono; [by apply run_calls_wp| |done]. intros u s1 e1 H1.
    pose proof H1 as (Hinv1 & _ & Hop1 & _). pose proof Hinv1 as [Hok1 _ _ Hpq1].
    rewrite (Hop1 Hop) in Hpq1. apply make_and_send_wp; [done..|]. intros k p _ Hsend. cbn [app].
    apply Hcons; [done|done|]. eapply keeps_trans; [exact H1|]. apply keeps_packet; auto.
  - eapply wp_mono; [by apply run_calls_wp| |done]. intros u s1 e1 H1. by apply Hcons.
  - eapply wp_mono; [by apply send_loop_wp| |done]. intros u s1 e1 H1. done.
  - eapply wp_mono; [by apply run_calls_wp| |done]. intros u s1 e1 H1. by apply Hcons.
Qed.
(** A closure whose callback makes no call posts nothing. *)
Lemma run_task_quiet t s :
  tcb_inv s → opening (state_ s) = false →
  wp (run_task t []) (λ _ _ es, posted es = []) (λ _, False) s.
Proof.
  intros Hinv Hop. pose proof Hinv as [Hok _ _ Hpq]. rewrite Hop in Hpq.
  destruct t as [cb n|cb n| |]; cbn [run_task run_calls]; wp_steps.
  - by apply make_and_send_wp.
  - done.
  - destruct Hpq as [pq Hpq]. pose proof Hok as (_ & _ & (_ & _ & _ & Hm & _) & _).
    assert (len (unsent s pq) ≤ Z.of_nat (send_fuel s)) as Hfuel.
    { unfold send_fuel. rewrite Hpq. unfold unsent. rewrite length_drop. lia. }
    destruct (decide (send_mss (send_ s) = 0)) as [H0|Hpos].
    + unfold wp. by rewrite (send_loop_no_mss s pq Hok Hpq H0).
    + destruct (send_loop_run (send_fuel s) s pq Hok Hpq) as (evs & E & Hsent); [|lia|].
      { unfold is_u in Hm. lia. }
      unfold wp. rewrite E. by apply sent_events in Hsent as [Hpost _].
  - done.
Qed.
End Invariant.

(** ** The transition system *)

Section Reach.
Context `{Hh : Host} {B : Type} `{Hc : CircularBuffer B} `{Hs : !CircularBufferSpec B}.

(** A block, and the closures it has posted that did not run yet. *)
Definition conn : Type := tcb_t B * list task.

Definition ind_ok (junk : indeterminate) : Prop :=
  is_u 32 (ind_unack junk) ∧ is_u 32 (ind_next junk) ∧ is_u 16 (ind_window junk) ∧
  is_u 16 (ind_mss junk) ∧ is_u 32 (ind_rcv_next junk) ∧ is_u 16 (ind_rcv_mss junk).

(** The manager creates a block in LISTEN for a packet that matches a rule,
    and in CONNECTING for [async_connect]. *)
Inductive initial : conn → Prop :=
| initial_block junk remote_ep local_ep st cb s :
    ind_ok junk → endpoint_ok remote_ep → endpoint_ok local_ep →
    st = kTCPListen ∨ st = kTCPConnecting →
    tcb_new junk remote_ep local_ep st st (Some cb) = Ok s →
    initial (s, []).

(** What can happen to it.  Posted closures may run in any order; the
    callbacks they call may read and write. *)
Inductive cstep : conn → list tcb_event → conn → Prop :=
| cstep_packet isn pkt s q s' es :
    is_u 32 isn → process isn pkt s = Ok ((), s', es) →
    cstep (s, q) es (s', q ++ posted es)
| cstep_connect isn s q s' es :
    is_u 32 isn → state_ s = kTCPConnecting → start_connecting isn s = Ok ((), s', es) →
    cstep (s, q) es (s', q ++ posted es)
| cstep_call c s q s' es :
    call_ok c → run_call c s = Ok ((), s', es) → cstep (s, q) es (s', q ++ posted es)
| cstep_task t calls s q1 q2 s' es :
    Forall call_ok calls → run_task t calls s = Ok ((), s', es) →
    cstep (s, q1 ++ t :: q2) es (s', (q1 ++ q2) ++ posted es).

Inductive reachable : conn → Prop :=
| reachable_initial c : initial c → reachable c
| reachable_step c es c' : reachable c → cstep c es c' → reachable c'.

Definition conn_inv (c : conn) : Prop :=
  tcb_inv c.1 ∧ (c.2 ≠ [] → opening (state_ c.1) = false).

Lemma initial_inv c : initial c → conn_inv c.
Proof.
  intros [junk r l st cb s (? & ? & ? & ? & ? & ?) Hr Hl Hst [= <-]].
  split; [|done]. unfold buffered. cbn. split.
  - unfold tcb_ok, send_ok, rcv_ok; cbn -[is_u]. by split_and!.
  - by destruct Hst as [-> | ->].
  - unfold rcv_room. cbn. rewrite cb_make_capacity; done.
  - unfold buffered. cbn. rewrite cb_make_list. by destruct Hst as [-> | ->].
Qed.

Lemma keeps_conn (s : tcb_t B) (q q' : list task) s' es :
  keeps s s' es → (q' ≠ [] → q ≠ []) → (q ≠ [] → opening (state_ s) = false) →
  conn_inv (s', q' ++ posted es).
Proof.
  intros (Hinv & Hp & Hop & _) Hsub Hq. split; [done|]. cbn. intros Hne.
  destruct q' as [|t q']; [by apply Hp|]. by apply Hop, Hq, Hsub.
Qed.

Lemma cstep_inv c es c' : conn_inv c → cstep c es c' → conn_inv c'.
Proof.
  intros [Hinv Hq] Hstep. destruct Hstep as
    [isn pkt s q s' es Hisn E|isn s q s' es Hisn Hst E|c s q s' es Hcall E
    |t calls s q1 q2 s' es Hcalls E]; cbn [fst snd] in *.
  - eapply keeps_conn; [|done|done]. by eapply (wp_run _ _ _ _ _ _ _ (process_wp isn pkt s Hinv Hisn)).
  - eapply keeps_conn; [|done|done].
    by eapply (wp_run _ _ _ _ _ _ _ (start_connecting_wp isn s Hinv Hst Hisn)).
  - eapply keeps_conn; [|done|done]. destruct c as [sp cb|buf cb]; cbn [run_call] in E.
    + by eapply (wp_run _ _ _ _ _ _ _ (async_read_wp sp cb s Hinv Hcall)).
    + by eapply (wp_run _ _ _ _ _ _ _ (async_write_wp buf cb s Hinv)).
  - assert (opening (state_ s) = false) as Hop by (apply Hq; by destruct q1).
    eapply (keeps_conn s (q1 ++ t :: q2)); [|by destruct q1|done].
    by eapply (wp_run _ _ _ _ _ _ _ (run_task_wp t calls s Hinv Hop Hcalls)).
Qed.

Lemma reachable_conn_inv c : reachable c → conn_inv c.
Proof. induction 1; [by apply initial_inv|by eapply cstep_inv]. Qed.

(** C4: the states of a connection.  However packets, calls and posted
    closures interleave, a block is in one of seven states, with the
    [next_state_] shown; the states of an active close (FIN-WAIT-1 and -2,
    CLOSING, LAST-ACK) and CLOSED are never reached, so a connection can
    never be closed from this side nor released.  Sequence numbers and
    windows stay in the ranges of their types, the capacity of the send
    queue is the window of the peer's SYN, and the queue exists exactly
    from the handshake on. *)
Theorem reachable_states s q :
  reachable (s, q) →
  tcb_ok s ∧
  (state_ s, next_state_ s) ∈
    [(kTCPConnecting, kTCPConnecting); (kTCPListen, kTCPListen);
     (kTCPSynSent, kTCPEstablished); (kTCPSynReceived, kTCPSynReceived);
     (kTCPEstablished, kTCPEstablished); (kTCPCloseWait, kTCPTimeWait);
     (kTCPTimeWait, kTCPTimeWait)] ∧
  (send_pq (send_ s) = None ↔
     state_ s = kTCPConnecting ∨ state_ s = kTCPListen ∨ state_ s = kTCPSynSent) ∧
  rcv_window_init ≤ cb_capacity (rcv_pq (rcv_ s)).
Proof.
  intros [[Hok Hst Hroom Hpq] _]%reachable_conn_inv. cbn [fst] in *.
  split_and!; [done| | |done].
  - destruct (state_ s), (next_state_ s); done || (rewrite !elem_of_cons; tauto).
  - destruct (state_ s); cbn in Hpq; try (by destruct (next_state_ s));
      revert Hpq; intros [x Hx]; split; try (rewrite Hx; done); try tauto;
      intros [|[|]]; done.
Qed.

(** C16: no packet, however malformed, makes a reachable block dereference a
    null pointer or loop: the only ways a peer can stop the program are an
    assertion, an out-of-range access of the parser, and the inverted clamp
    of a wrapped sequence number. *)
Theorem process_remote_faults s q isn pkt f :
  reachable (s, q) → is_u 32 isn → process isn pkt s = Fault f →
  f = AssertFail ∨ f = OutOfBounds ∨ f = ClampInverted.
Proof.
  intros [Hinv _]%reachable_conn_inv Hisn E.
  pose proof (process_wp isn pkt s Hinv Hisn) as Hwp. unfold wp in Hwp. by rewrite E in Hwp.
Qed.

(** C18: every closure a block posts runs to completion whenever it runs, in
    whatever state the block is by then, if the callback it calls makes no
    call of its own: nothing faults, and the sending loop ends. *)
Theorem posted_tasks_complete s q t :
  reachable (s, q) → t ∈ q → ∃ s' es, run_task t [] s = Ok ((), s', es).
Proof.
  intros [Hinv Hq]%reachable_conn_inv Ht. cbn [fst snd] in *.
  assert (opening (state_ s) = false) as Hop by (apply Hq; by intros ->; apply elem_of_nil in Ht).
  pose proof (run_task_wp t [] s Hinv Hop (List.Forall_nil call_ok)) as Hwp. unfold wp in Hwp.
  destruct (run_task t [] s) as [[[[] s'] es]|f]; [by eauto|]. by destruct Hwp.
Qed.
End Reach.

(** ** A reachable connection *)

(** A packet for the listening block that consists of [hdr] and [bytes]. *)
Definition test_packet (hdr : tcp_header_t) (bytes : list byte) : tcp_packet :=
  let data := tcp_header.produce_to_net (H := test_host Little) hdr ++ bytes in
  mk_tcp_packet PROTO (test_ep 167772162 4096) (test_ep 167772161 80)
    (mk_skb data 0 (len data)).

Definition test_listening : tcb_t reserve_buffer :=
  mk_tcb (test_ep 167772162 4096) (test_ep 167772161 80) kTCPListen kTCPListen 0 []
    (mk_send 0 0 0 0 None)
    (mk_receive 0 rcv_window_init 0 (cb_make rcv_window_init)).

(** A SYN with an MSS option, and the acknowledgment of the answer. *)
Definition test_syn : tcp_packet :=
  test_packet (mk_tcp_header 4096 80 999 0 6 0 0 0 0 0 0 0 1 0 1000 0 0)
    [Byte.x02; Byte.x04; Byte.x05; Byte.xa6].
Definition test_ack : tcp_packet :=
  test_packet (mk_tcp_header 4096 80 1000 2001 5 0 0 0 0 1 0 0 0 0 1000 0 0) [].

Definition outcome {S E} (d : S) (r : result (unit * S * list E)) : S * list E :=
  match r with Ok (_, s, es) => (s, es) | Fault _ => (d, []) end.

Lemma outcome_eq {S E} (d : S) (r : result (unit * S * list E)) :
  match r with Ok _ => true | Fault _ => false end = true →
  r = Ok ((), (outcome d r).1, (outcome d r).2).
Proof. destruct r as [[[[] s] es]|]; done. Qed.

Definition test_received : tcb_t reserve_buffer * list tcb_event :=
  outcome test_listening (process (H := test_host Little) 2000 test_syn test_listening).
Definition test_open : tcb_t reserve_buffer * list tcb_event :=
  outcome test_received.1 (process (H := test_host Little) 0 test_ack test_received.1).

Lemma reachable_packet `{Hh : Host} `{Hc : CircularBuffer B} isn pkt (s : tcb_t B) q q' r :
  reachable (s, q) → is_u 32 isn → r = outcome s (process isn pkt s) →
  match process isn pkt s with Ok _ => true | Fault _ => false end = true →
  q ++ posted r.2 = q' → reachable (r.1, q').
Proof.
  intros Hr Hisn -> Hok <-. eapply reachable_step; [exact Hr|].
  apply (cstep_packet isn pkt); [done|]. by apply outcome_eq.
Qed.

Lemma test_open_reachable :
  reachable (Hh := test_host Little) (test_open.1, [TaskEstablished]).
Proof.
  apply (reachable_packet (Hh := test_host Little) 0 test_ack test_received.1 [] [TaskEstablished]
    test_open); [|done|reflexivity|vm_compute; reflexivity|vm_compute; reflexivity].
  apply (reachable_packet (Hh := test_host Little) 2000 test_syn test_listening [] []
    test_received); [|done|reflexivity|vm_compute; reflexivity|vm_compute; reflexivity].
  apply reachable_initial, (initial_block (mk_indeterminate 0 0 0 0 0 0)
    (test_ep 167772162 4096) (test_ep 167772161 80) kTCPListen 0); try done.
  by left.
Qed.

Lemma reachable_states_witness :
  tcb_ok test_open.1 ∧
  (state_ test_open.1, next_state_ test_open.1) ∈
    [(kTCPConnecting, kTCPConnecting); (kTCPListen, kTCPListen);
     (kTCPSynSent, kTCPEstablished); (kTCPSynReceived, kTCPSynReceived);
     (kTCPEstablished, kTCPEstablished); (kTCPCloseWait, kTCPTimeWait);
     (kTCPTimeWait, kTCPTimeWait)] ∧
  (send_pq (send_ test_open.1) = None ↔
     state_ test_open.1 = kTCPConnecting ∨ state_ test_open.1 = kTCPListen ∨
     state_ test_open.1 = kTCPSynSent) ∧
  rcv_window_init ≤ cb_capacity (rcv_pq (rcv_ test_open.1)).
Proof.
  exact (reachable_states (Hh := test_host Little) test_open.1 [TaskEstablished] test_open_reachable).
Defined.

(** A packet of three bytes. *)
Lemma process_remote_faults_witness :
  let pkt := mk_tcp_packet PROTO (test_ep 167772162 4096) (test_ep 167772161 80)
    (mk_skb [Byte.x01; Byte.x02; Byte.x03] 0 3) in
  process (H := test_host Little) 0 pkt test_open.1 = Fault AssertFail ∧
  (AssertFail = AssertFail ∨ AssertFail = OutOfBounds ∨ AssertFail = ClampInverted).
Proof.
  intros pkt.
  assert (process (H := test_host Little) 0 pkt test_open.1 = Fault AssertFail) as E
    by (vm_compute; reflexivity).
  split; [exact E|].
  exact (process_remote_faults (Hh := test_host Little) test_open.1 [TaskEstablished] 0 pkt
    AssertFail test_open_reachable ltac:(unfold is_u; lia) E).
Defined.

Lemma posted_tasks_complete_witness :
  ∃ s' es, run_task (H := test_host Little) TaskEstablished [] test_open.1 = Ok ((), s', es).
Proof.
  apply (posted_tasks_complete (Hh := test_host Little) test_open.1 [TaskEstablished]
    TaskEstablished test_open_reachable). apply list_elem_of_here.
Defined.
