(* ===== verification/TcbHandshake.v ===== *)
(** * Opening a connection, and the control bits

    The three steps of the handshake, an end-to-end run of it between two
    blocks, and what the FIN, RST and SYN bits and early acknowledgments do to
    an open connection. *)

From S2P Require Import Prelude Utils Skbuff Addr Headers TcpOptions CircularBuffer Tcb TcbFacts.
From S2P Require Import TcbSend TcbRecv TcbState.

Section Steps.
Context `{Hh : Host} {B : Type} `{Hc : CircularBuffer B} `{Hs : !CircularBufferSpec B}.
Implicit Types s : tcb_t B.

(** The dispatch of [process] on the states before the handshake. *)
Lemma process_parsed_listen isn hdr opts seg s s' es :
  state_ s = kTCPListen → tcp_handle_listen_state isn hdr opts s = Ok (true, s', es) →
  process_parsed isn hdr opts seg s = Ok ((), s', es).
Proof.
  intros Hst E. unfold process_parsed. run.
  rewrite bool_decide_eq_false_2 by (by rewrite Hst). run.
  rewrite bool_decide_eq_true_2 by done. rewrite (bind_run _ _ _ _ _ _ E).
  unfold mret, M_ret. by rewrite app_nil_r.
Qed.

Lemma process_parsed_syn_sent isn hdr opts seg s s' es :
  state_ s = kTCPSynSent → tcp_handle_syn_sent hdr opts s = Ok (true, s', es) →
  process_parsed isn hdr opts seg s = Ok ((), s', es).
Proof.
  intros Hst E. unfold process_parsed. run.
  rewrite bool_decide_eq_false_2 by (by rewrite Hst). run.
  rewrite bool_decide_eq_false_2 by (by rewrite Hst). run.
  rewrite bool_decide_eq_true_2 by done. rewrite (bind_run _ _ _ _ _ _ E).
  unfold mret, M_ret. by rewrite app_nil_r.
Qed.

Lemma apply_options_run opts s :
  apply_options opts s = Ok ((), upd_send (λ x, set_send_mss (options_mss opts (send_mss x)) x) s, []).
Proof. unfold apply_options, modify. unfold upd_send at 1. by rewrite apply_options_fold. Qed.

(** The block in SYN-RECEIVED, just before it answers. *)
Definition accepting (isn : Z) (hdr : tcp_header_t) (os : list tcp_option) s : tcb_t B :=
  set_next_state kTCPSynReceived
    (mk_tcb (remote_ep_ s) (local_ep_ s) (state_ s) (next_state_ s) (on_connection_established_ s)
      (on_data_receive_ s)
      (mk_send isn (u32 (isn + 1)) (window hdr) (options_mss os (send_mss (send_ s)))
        (Some (cb_make (window hdr))))
      (set_rcv_next (u32 (seq_no hdr + 1)) (rcv_ s))).

(** The active side after the SYN,ACK. *)
Definition connected (hdr : tcp_header_t) (os : list tcp_option) s : tcb_t B :=
  mk_tcb (remote_ep_ s) (local_ep_ s) kTCPEstablished kTCPEstablished (on_connection_established_ s)
    (on_data_receive_ s)
    (mk_send (ack_no hdr) (seq_nr_next (send_ s)) (window hdr)
      (options_mss os (send_mss (send_ s))) (Some (cb_make (window hdr))))
    (set_rcv_next (u32 (seq_no hdr + 1)) (rcv_ s)).

(** A segment sent while the queue is empty. *)
Lemma empty_packet_run s pq :
  tcb_ok s → send_pq (send_ s) = Some pq → cb_list pq = [] →
  ∃ p, make_and_send_pkt s = Ok ((), after_packet s 0, [EvEnqueue p]) ∧
    packet_of s (out_header s 0) [] p.
Proof.
  intros Hok Hpq Hnil. destruct (make_and_send_pkt_run s pq Hok Hpq) as (p & E & Hp).
  pose proof (next_len_range s pq Hok) as Hn.
  assert (unsent s pq = []) as Hu by (unfold unsent; by rewrite Hnil, drop_nil).
  rewrite Hu in Hn. cbn [length] in Hn. assert (next_len s pq = 0) as H0 by lia.
  rewrite H0 in *. rewrite take_0 in Hp. eauto.
Qed.

Lemma accepting_ok isn hdr os s :
  tcb_ok s → ranges_ok hdr → is_u 32 isn → Forall option_ok os → tcb_ok (accepting isn hdr os s).
Proof.
  intros (? & ? & (_ & _ & _ & ? & _) & (_ & ? & ?)) (? & ? & Hw) ? ?.
  unfold tcb_ok, send_ok, rcv_ok; cbn -[is_u cb_make].
  split_and!; try done; try apply u32_is_u; [by apply options_mss_ok|].
  apply cb_make_capacity. unfold is_u in Hw. lia.
Qed.

Lemma connected_ok hdr os s :
  tcb_ok s → ranges_ok hdr → Forall option_ok os → tcb_ok (connected hdr os s).
Proof.
  intros (? & ? & (_ & ? & _ & ? & _) & (_ & ? & ?)) (? & ? & Hw) ?.
  unfold tcb_ok, send_ok, rcv_ok; cbn -[is_u cb_make].
  split_and!; try done; try apply u32_is_u; [by apply options_mss_ok|].
  apply cb_make_capacity. unfold is_u in Hw. lia.
Qed.

Lemma process_text_nil hdr s : process_text hdr [] s = Ok ((), s, []).
Proof. done. Qed.

(** LISTEN: a SYN is answered with a SYN,ACK. *)
Lemma listen_run isn hdr opts os s :
  tcb_ok s → state_ s = kTCPListen → ranges_ok hdr → is_u 32 isn →
  RST hdr = 0 → ACK hdr = 0 → SYN hdr = 1 → decode_options opts = Ok os →
  let s1 := accepting isn hdr os s in
  ∃ p, tcp_handle_listen_state isn hdr opts s = Ok (true, after_packet s1 0, [EvEnqueue p]) ∧
    packet_of s1 (out_header s1 0) [] p.
Proof.
  intros Hok Hst Hr Hisn HR HA HS Hd s1.
  destruct (empty_packet_run s1 (cb_make (window hdr))) as (p & E & Hp).
  { apply accepting_ok; try done. by eapply decode_options_ranges. }
  { done. } { apply cb_make_list. }
  exists p. split; [|done]. unfold tcp_handle_listen_state. run. rewrite Hst. run.
  rewrite HR, HA, HS. cbn [bit negb Z.eqb]. run.
  rewrite (bind_silent _ _ _ _ _ (apply_options_run os s)). run.
  by rewrite (bind_run _ _ _ _ _ _ E).
Qed.

(** SYN-SENT: an acceptable SYN,ACK is acknowledged, and the connection is
    announced to the application. *)
Lemma syn_sent_run hdr opts os s :
  tcb_ok s → state_ s = kTCPSynSent → ranges_ok hdr →
  SYN hdr = 1 → ACK hdr = 1 → decode_options opts = Ok os →
  seq_nr_unack (send_ s) ≤ ack_no hdr ≤ seq_nr_next (send_ s) →
  let s1 := connected hdr os s in
  ∃ p, tcp_handle_syn_sent hdr opts s =
      Ok (true, after_packet s1 0, [EvEnqueue p; EvPost TaskEstablished]) ∧
    packet_of s1 (out_header s1 0) [] p.
Proof.
  intros Hok Hst Hr HS HA Hd Hack s1.
  destruct (empty_packet_run s1 (cb_make (window hdr))) as (p & E & Hp).
  { apply connected_ok; try done. by eapply decode_options_ranges. }
  { done. } { apply cb_make_list. }
  exists p. split; [|done]. unfold tcp_handle_syn_sent. run. rewrite Hst. run.
  rewrite HS, HA. cbn [bit negb Z.eqb andb].
  replace (ack_no hdr <? seq_nr_unack (send_ s)) with false by lia.
  replace (seq_nr_next (send_ s) <? ack_no hdr) with false by lia. cbn [negb andb]. run.
  match goal with |- context [apply_options os ≫= _] =>
    erewrite bind_silent by apply apply_options_run end. run.
  apply (bind_run_Ok _ _ _ () (after_packet s1 0) [EvEnqueue p] true); [exact E|].
  unfold listen_finish. by apply bind_emit.
Qed.

(** SYN-RECEIVED: an acceptable acknowledgment. *)
Lemma syn_received_run hdr s :
  tcb_ok s → state_ s = kTCPSynReceived → ranges_ok hdr →
  ACK hdr = 1 → RST hdr = 0 → SYN hdr = 0 → FIN hdr = 0 →
  seq_nr_unack (send_ s) ≤ ack_no hdr ≤ seq_nr_next (send_ s) →
  rcv_next (rcv_ s) ≤ seq_no hdr < rcv_next (rcv_ s) + 64240 →
  rcv_next (rcv_ s) + 64240 < 2 ^ 32 →
  process_segment hdr [] s =
    Ok ((), set_next_state kTCPEstablished (set_state kTCPEstablished
              (upd_send (set_unack (ack_no hdr)) s)), [EvPost TaskEstablished]).
Proof.
  intros Hok Hst _ HA HR HS HF Hack Hseq Hwrap. unfold process_segment. run.
  rewrite check_synchronized by (done || by rewrite Hst). cbv zeta.
  change (u16 (len [])) with 0. cbn [Z.eqb].
  destruct Hok as (_ & _ & _ & (Hn & _)).
  assert (u32 (rcv_next (rcv_ s) + 64240) = rcv_next (rcv_ s) + 64240) as -> by ulia.
  replace (_ && _) with true by lia. unfold process_rst, process_syn. rewrite HR, HS.
  cbn [negb bit Z.eqb andb].
  apply (bind_run_Ok _ _ _ false (set_next_state kTCPEstablished (set_state kTCPEstablished
           (upd_send (set_unack (ack_no hdr)) s))) [EvPost TaskEstablished] () _ []).
  - unfold process_ack. run. rewrite HA, Hst. cbn [bit negb Z.eqb].
    unfold process_ack_syn_received. run.
    replace (_ && _) with true by lia.
    rewrite (bind_lift_Ok _ (ack_no hdr)).
    2: { rewrite clamp_Ok by lia.
         replace (ack_no hdr <? seq_nr_unack (send_ s)) with false by lia.
         by replace (seq_nr_next (send_ s) <? ack_no hdr) with false by lia. }
    run. unfold listen_finish. by apply bind_emit.
  - rewrite (bind_silent _ _ _ _ _ (process_urg_run hdr _)).
    unfold process_text. run. unfold process_fin. run. by rewrite HF.
Qed.
End Steps.

Section Handshake.
Context `{Hh : Host} {B : Type} `{Hc : CircularBuffer B} `{Hs : !CircularBufferSpec B}.
Implicit Types s c : tcb_t B.

Lemma syn_header_ok s isn : tcb_ok s → is_u 32 isn → tcp_header_ok (syn_header s isn 28).
Proof.
  intros ([_ ?] & [_ ?] & _ & (_ & Hw & _)) ?. unfold tcp_header_ok.
  cbn [src_port dst_port seq_no ack_no data_offset reserved CWR ECE URG ACK PSH RST SYN FIN window
    chsum urgent_pointer syn_header]. rewrite Hw.
  split_and!; try done.
Qed.

Lemma header_ranges hdr : tcp_header_ok hdr → ranges_ok hdr.
Proof. intros (_ & _ & ? & ? & _ & ? & _). done. Qed.

Lemma process_run isn p hdr opts seg s r :
  parse_segment (tp_skb p) = Ok (hdr, opts, seg) → process_parsed isn hdr opts seg s = r →
  process isn p s = r.
Proof. intros E <-. unfold process. by rewrite (bind_lift_Ok _ _ _ _ E). Qed.

(** The first half of the handshake: the SYN, with an MSS of 1446, and the
    answer to it. *)
Lemma handshake_syn isn_c isn_s c s :
  tcb_ok c → tcb_ok s → state_ s = kTCPListen →
  is_u 32 isn_c → is_u 32 isn_s →
  let s1 := accepting isn_s (syn_header c isn_c 28) [mss 1446] s in
  ∃ p1 p2, start_connecting isn_c c = Ok ((), connecting isn_c c, [EvEnqueue p1]) ∧
    process isn_s p1 s = Ok ((), after_packet s1 0, [EvEnqueue p2]) ∧
    packet_of s1 (out_header s1 0) [] p2 ∧ tcb_ok s1.
Proof.
  intros Hokc Hoks Hsts Hic His s1.
  destruct (start_connecting_run isn_c c) as (p1 & opts & E1 & Hp1 & Lopts & Dopts).
  set (hdr1 := syn_header c isn_c 28) in *.
  assert (tcp_header_ok hdr1) as Hok1 by (by apply syn_header_ok).
  rewrite <- (app_nil_r opts) in Hp1.
  pose proof (parse_packet_opts c hdr1 opts [] p1 Hp1 Hok1) as P1.
  rewrite Lopts in P1. specialize (P1 eq_refl eq_refl).
  destruct (listen_run isn_s hdr1 opts [mss 1446] s) as (p2 & E2 & Hp2);
    [done|done|by apply header_ranges|done|done|done|done|done|]. fold s1 in E2, Hp2.
  exists p1, p2. split_and!; [exact E1| |exact Hp2|].
  - eapply process_run; [exact P1|]. by apply process_parsed_listen.
  - apply accepting_ok; [done|by apply header_ranges|done|by repeat constructor].
Qed.

(** C5: the three-way handshake.  A block that connects and a block that
    listens, exchanging their packets, end in ESTABLISHED with matching
    sequence numbers, and each posts its connection callback exactly once.
    The listening side has learned the MSS of the SYN; the SYN,ACK carries
    no options, so the MSS of the connecting side is whatever its memory
    held before. *)
Theorem three_way_handshake isn_c isn_s c s :
  tcb_ok c → tcb_ok s → state_ c = kTCPConnecting → state_ s = kTCPListen →
  is_u 32 isn_c → is_u 32 isn_s → isn_c + 64241 < 2 ^ 32 → isn_s + 64241 < 2 ^ 32 →
  ∃ p1 p2 p3 c1 s1 c2 s2,
    start_connecting isn_c c = Ok ((), c1, [EvEnqueue p1]) ∧
    process isn_s p1 s = Ok ((), s1, [EvEnqueue p2]) ∧
    process 0 p2 c1 = Ok ((), c2, [EvEnqueue p3; EvPost TaskEstablished]) ∧
    process 0 p3 s1 = Ok ((), s2, [EvPost TaskEstablished]) ∧
    (state_ c2, next_state_ c2) = (kTCPEstablished, kTCPEstablished) ∧
    (state_ s2, next_state_ s2) = (kTCPEstablished, kTCPEstablished) ∧
    rcv_next (rcv_ c2) = seq_nr_next (send_ s2) ∧ seq_nr_unack (send_ s2) = seq_nr_next (send_ s2) ∧
    rcv_next (rcv_ s2) = seq_nr_next (send_ c2) ∧ seq_nr_unack (send_ c2) = seq_nr_next (send_ c2) ∧
    send_mss (send_ s2) = 1446 ∧ send_mss (send_ c2) = send_mss (send_ c).
Proof.
  intros Hokc Hoks Hstc Hsts Hic His Hwc Hws.
  assert (u32 (isn_c + 1) = isn_c + 1) as Ec by (unfold is_u in *; ulia).
  assert (u32 (isn_s + 1) = isn_s + 1) as Es by (unfold is_u in *; ulia).
  destruct (handshake_syn isn_c isn_s c s Hokc Hoks Hsts Hic His)
    as (p1 & p2 & E1 & E2 & Hp2 & Hoks1).
  set (s1 := accepting isn_s (syn_header c isn_c 28) [mss 1446] s) in *.
  set (hdr2 := out_header s1 0) in *.
  assert (tcp_header_ok hdr2) as Hok2 by (by apply out_header_ok).
  pose proof (parse_packet s1 hdr2 [] p2 Hp2 Hok2 eq_refl eq_refl) as P2.
  assert (tcb_ok (connecting isn_c c)) as Hokc1.
  { destruct Hokc as (? & ? & (? & ? & ? & ? & ?) & (? & ? & ?)).
    unfold tcb_ok, send_ok, rcv_ok; cbn -[is_u]. split_and!; try done. apply u32_is_u. }
  destruct (syn_sent_run hdr2 [] [] (connecting isn_c c)) as (p3 & E3 & Hp3);
    [done|done|by apply header_ranges|done|done|done|cbn; rewrite Ec; lia|].
  set (c2 := connected hdr2 [] (connecting isn_c c)) in *.
  assert (tcb_ok c2) as Hokc2 by (apply connected_ok; [done|by apply header_ranges|done]).
  set (hdr3 := out_header c2 0) in *.
  assert (tcp_header_ok hdr3) as Hok3 by (by apply out_header_ok).
  pose proof (parse_packet c2 hdr3 [] p3 Hp3 Hok3 eq_refl eq_refl) as P3.
  assert (seq_no hdr3 = isn_c + 1) as Q3 by exact Ec.
  assert (ack_no hdr3 = isn_s + 1) as A3 by exact Es.
  assert (rcv_next (rcv_ (after_packet s1 0)) = isn_c + 1) as N1 by exact Ec.
  assert (seq_nr_next (send_ (after_packet s1 0)) = isn_s + 1) as X1.
  { cbn. rewrite Z.add_0_r, Es. by rewrite Es. }
  opose proof (syn_received_run hdr3 (after_packet s1 0) _ _ _ _ _ _ _ _ _ _) as E4;
    [by apply after_packet_ok|done|by apply header_ranges|done|done|done|done| | | |].
  { rewrite A3, X1. cbn. lia. } { rewrite N1, Q3. lia. } { rewrite N1. lia. }
  do 7 eexists. split_and!.
  - exact E1.
  - exact E2.
  - eapply process_run; [exact P2|]. by apply process_parsed_syn_sent.
  - eapply process_run; [exact P3|]. rewrite process_parsed_synchronized by done. exact E4.
  - done.
  - done.
  - cbn. by rewrite Z.add_0_r, !Es.
  - cbn. by rewrite Z.add_0_r, !Es.
  - cbn. by rewrite Z.add_0_r, !Ec.
  - cbn. by rewrite Z.add_0_r, !Ec.
  - done.
  - done.
Qed.
End Handshake.

(** ** Control bits on an open connection *)

Section Control.
Context `{Hh : Host} {B : Type} `{Hc : CircularBuffer B} `{Hs : !CircularBufferSpec B}.
Implicit Types s : tcb_t B.

(** A segment with the RST bit changes nothing, in any state, although
    the comments ask for the CLOSED state and for the flushing of the
    queues: the application is never told.  The one exception is SYN-SENT,
    where RST is not looked at and a SYN,ACK,RST opens the connection. *)
Theorem reset_ignored isn hdr opts seg s :
  tcb_inv s → RST hdr = 1 →
  (state_ s = kTCPSynSent → SYN hdr = 0 ∨ ACK hdr = 0) →
  process_parsed isn hdr opts seg s = Ok ((), s, []).
Proof.
  intros [Hok Hst _ _] HR Hsyn.
  destruct (decide (synchronized (state_ s) = true)) as [Hsync|Hns].
  { rewrite process_parsed_synchronized by done. unfold process_segment. run.
    case_match; [done|]. unfold process_rst. rewrite HR. cbn [bit negb Z.eqb andb].
    by destruct (state_ s). }
  assert (state_ s = kTCPConnecting ∨ state_ s = kTCPListen ∨ state_ s = kTCPSynSent) as Hcases
    by (destruct (state_ s), (next_state_ s); auto; done).
  destruct Hcases as [Es|[Es|Es]].
  - unfold process_parsed.
    do 3 (run; rewrite bool_decide_eq_false_2 by (by rewrite Es)). run.
    unfold process_segment. run. unfold tcp_check_segment. by rewrite Es.
  - apply process_parsed_listen; [done|]. unfold tcp_handle_listen_state. run. rewrite Es. run.
    by rewrite HR.
  - apply process_parsed_syn_sent; [done|]. unfold tcp_handle_syn_sent. run. rewrite Es. run.
    assert (bit (SYN hdr) && bit (ACK hdr) = false) as ->; [|done].
    by destruct (Hsyn Es) as [-> | ->]; [|rewrite andb_false_r].
Qed.

(** A FIN at the end of the received text is acknowledged (the ACK
    covers it), and the block is left in CLOSE-WAIT with [next_state_]
    already TIME-WAIT: the cases of the switch fall through, where the
    comment says to enter CLOSE-WAIT.  Whatever is sent next moves it on to
    TIME-WAIT, without a FIN of its own. *)
Theorem fin_leaves_close_wait hdr pq s :
  tcb_ok s → state_ s = kTCPEstablished → send_pq (send_ s) = Some pq → ranges_ok hdr →
  ACK hdr = 1 → RST hdr = 0 → SYN hdr = 0 → FIN hdr = 1 →
  seq_nr_unack (send_ s) ≤ ack_no hdr ≤ seq_nr_next (send_ s) →
  rcv_next (rcv_ s) ≤ seq_no hdr < rcv_next (rcv_ s) + 64240 →
  rcv_next (rcv_ s) + 64240 < 2 ^ 32 →
  ∃ s1 p1 h1 data, process_segment hdr [] s = Ok ((), s1, [EvEnqueue p1]) ∧
    state_ s1 = kTCPCloseWait ∧ next_state_ s1 = kTCPTimeWait ∧
    tcp_header.consume_from_net (payload (tp_skb p1)) = Ok (h1, data) ∧
    ack_no h1 = rcv_next (rcv_ s) + 1 ∧ FIN h1 = 0 ∧
    ∃ s2 p2, make_and_send_pkt s1 = Ok ((), s2, [EvEnqueue p2]) ∧ state_ s2 = kTCPTimeWait.
Proof.
  intros Hok Hst Hpq (_ & Ha & _) HA HR HS HF Hack Hseq Hwrap.
  set (s0 := after_ack s pq (ack_no hdr)).
  assert (tcb_ok s0) as Hok0 by (by apply after_ack_ok).
  set (sf := set_next_state kTCPCloseWait
    (upd_rcv (λ x, set_rcv_next (u32 (rcv_next x + 1)) x) s0)).
  assert (tcb_ok sf) as Hokf.
  { destruct Hok0 as (? & ? & ? & (? & ? & ?)). unfold tcb_ok, rcv_ok; cbn -[is_u].
    split_and!; try done. apply u32_is_u. }
  destruct (make_and_send_pkt_run sf _ Hokf (eq_refl : send_pq (send_ sf) = Some _))
    as (p1 & E1 & Hp1).
  set (n := next_len sf _) in *. set (data := take _ _) in Hp1.
  set (s1 := set_next_state kTCPTimeWait (after_packet sf n)).
  assert (tcb_ok s1) as Hok1.
  { pose proof (after_packet_ok sf n Hokf) as (? & ? & ? & ?). done. }
  destruct (make_and_send_pkt_run s1 _ Hok1 (eq_refl : send_pq (send_ s1) = Some _))
    as (p2 & E2 & _).
  exists s1, p1, (out_header sf n), data. split_and!; try done.
  - unfold process_segment. run. rewrite check_synchronized by (done || by rewrite Hst).
    cbv zeta. change (u16 (len [])) with 0. cbn [Z.eqb].
    destruct Hok as (_ & _ & _ & (Hn & _)).
    assert (u32 (rcv_next (rcv_ s) + 64240) = rcv_next (rcv_ s) + 64240) as -> by ulia.
    replace (_ && _) with true by lia. unfold process_rst, process_syn. rewrite HR, HS.
    cbn [negb bit Z.eqb andb].
    assert (process_ack hdr s = Ok (false, s0, [])) as Eack by (apply process_ack_run; done || lia).
    rewrite (bind_silent _ _ _ _ _ Eack), (bind_silent _ _ _ _ _ (process_urg_run hdr s0)),
      (bind_silent _ _ _ _ _ (process_text_nil hdr s0)).
    unfold process_fin. run.
    rewrite HF. cbn [bit negb Z.eqb]. replace (state_ s0) with kTCPEstablished by done.
    unfold fin_established. run. fold sf. rewrite (bind_run _ _ _ _ _ _ E1).
    unfold fin_wait_1, fin_wait_2. by run.
  - destruct Hp1 as (_ & _ & _ & _ & _ & ->).
    exact (wire_roundtrip (Wire := tcp_wire) _ data (out_header_ok sf n Hokf)).
  - cbn. destruct Hok as (_ & _ & _ & (Hn & _)). unfold is_u in Hn. ulia.
  - eauto.
Qed.

(** In SYN-RECEIVED an acknowledgment of the ISN itself, which does not
    acknowledge the SYN, opens the connection.  The SYN then stays counted
    as outstanding, and the first byte the application writes takes its
    place: it counts as sent, and the sending loop starts with the second. *)
Theorem isn_ack_loses_first_byte hdr pq s buf cb :
  tcb_ok s → state_ s = kTCPSynReceived → send_pq (send_ s) = Some pq → cb_list pq = [] →
  ranges_ok hdr → ACK hdr = 1 → RST hdr = 0 → SYN hdr = 0 → FIN hdr = 0 →
  seq_nr_next (send_ s) = seq_nr_unack (send_ s) + 1 → ack_no hdr = seq_nr_unack (send_ s) →
  rcv_next (rcv_ s) ≤ seq_no hdr < rcv_next (rcv_ s) + 64240 →
  rcv_next (rcv_ s) + 64240 < 2 ^ 32 → 0 < len buf ≤ send_window (send_ s) →
  ∃ s1 s2 pq2, process_segment hdr [] s = Ok ((), s1, [EvPost TaskEstablished]) ∧
    state_ s1 = kTCPEstablished ∧
    async_write buf cb s1 = Ok ((), s2, [EvPost TaskDrain; EvPost (TaskWriteDone cb (len buf))]) ∧
    send_pq (send_ s2) = Some pq2 ∧ cb_list pq2 = buf ∧ unsent s2 pq2 = drop 1 buf.
Proof.
  intros Hok Hst Hpq Hnil Hr HA HR HS HF Hnx Hack Hseq Hwrap Hlen.
  pose proof (syn_received_run hdr s Hok Hst Hr HA HR HS HF) as E.
  set (s1 := set_next_state _ _) in E.
  pose proof Hok as (? & ? & (Hu & Hn & ? & ? & Hcap) & ?). rewrite Hpq in Hcap.
  exists s1, (upd_send (set_send_pq (cb_insert_end buf pq)) s1), (cb_insert_end buf pq).
  assert (cb_list (cb_insert_end buf pq) = buf) as El.
  { rewrite cb_insert_end_list, Hnil; [done|]. unfold cb_size. rewrite Hnil. cbn [length]. lia. }
  split_and!; [apply E; lia|done| |done|done|].
  - unfold async_write, enqueue_app_data.
    apply (bind_run_Ok _ _ _ () (upd_send (set_send_pq (cb_insert_end buf pq)) s1)
      [EvPost TaskDrain]); [|done].
    run. rewrite (bind_lift_Ok _ pq) by (cbn; by rewrite Hpq).
    rewrite bind_assert; [by run|]. unfold cb_size. rewrite Hnil. cbn [length].
    change (Z.of_nat 0) with 0. by replace (cb_capacity pq <? 0 + len buf) with false by lia.
  - unfold unsent, unacked. cbn. unfold cb_size. rewrite El, Hack, Hnx. f_equal.
    replace (seq_nr_unack (send_ s) + 1 - seq_nr_unack (send_ s)) with 1 by lia.
    change (u32 1) with 1. lia.
Qed.

(** When the peer's SYN carries no MSS option, the block sends with
    whatever its uninitialised member held; when that is zero, nothing the
    application writes is ever sent: the posted sending loop does nothing. *)
Theorem syn_without_mss isn hdr opts os s :
  tcb_ok s → state_ s = kTCPListen → ranges_ok hdr → is_u 32 isn →
  RST hdr = 0 → ACK hdr = 0 → SYN hdr = 1 → decode_options opts = Ok os →
  (∀ v, mss v ∉ os) →
  ∃ s' es, process_parsed isn hdr opts [] s = Ok ((), s', es) ∧
    send_mss (send_ s') = send_mss (send_ s) ∧
    (send_mss (send_ s') = 0 → ∀ s2 pq calls, tcb_ok s2 → send_pq (send_ s2) = Some pq →
       send_mss (send_ s2) = send_mss (send_ s') → run_task TaskDrain calls s2 = Ok ((), s2, [])).
Proof.
  intros Hok Hst Hr Hisn HR HA HS Hd Hno.
  destruct (listen_run isn hdr opts os s Hok Hst Hr Hisn HR HA HS Hd) as (p & E & _).
  exists (after_packet (accepting isn hdr os s) 0), [EvEnqueue p].
  split_and!; [by apply process_parsed_listen| |].
  - cbn. clear - Hno. generalize (send_mss (send_ s)). unfold options_mss.
    induction os as [|o os IH]; intros d; [done|]. cbn. destruct o; try (apply IH; set_solver).
    destruct (Hno value). left.
  - intros H0 s2 pq calls Hok2 Hpq2 Hm. cbn [run_task]. rewrite bind_get.
    assert (has_app_data_to_send s2 = Ok false) as Hf.
    { unfold has_app_data_to_send. rewrite (app_data_to_send_left_eq s2 pq Hok2 Hpq2). cbn.
      unfold next_len. rewrite Hm, H0, Z.min_l by lia. done. }
    destruct (send_fuel s2); cbn [send_loop]; by rewrite bind_get, (bind_lift_Ok _ _ _ _ Hf).
Qed.
End Control.

(** ** Examples *)

Definition test_connecting : tcb_t reserve_buffer :=
  mk_tcb (test_ep 167772161 80) (test_ep 167772162 4096) kTCPConnecting kTCPConnecting 0 []
    (mk_send 0 0 0 77 None) (mk_receive 0 rcv_window_init 0 (cb_make rcv_window_init)).

Lemma three_way_handshake_witness :
  ∃ p1 p2 p3 c1 s1 c2 s2,
    start_connecting (H := test_host Big) 500 test_connecting = Ok ((), c1, [EvEnqueue p1]) ∧
    process (H := test_host Big) 7000 p1 test_listening = Ok ((), s1, [EvEnqueue p2]) ∧
    process (H := test_host Big) 0 p2 c1 = Ok ((), c2, [EvEnqueue p3; EvPost TaskEstablished]) ∧
    process (H := test_host Big) 0 p3 s1 = Ok ((), s2, [EvPost TaskEstablished]) ∧
    (state_ c2, next_state_ c2) = (kTCPEstablished, kTCPEstablished) ∧
    (state_ s2, next_state_ s2) = (kTCPEstablished, kTCPEstablished) ∧
    rcv_next (rcv_ c2) = seq_nr_next (send_ s2) ∧ seq_nr_unack (send_ s2) = seq_nr_next (send_ s2) ∧
    rcv_next (rcv_ s2) = seq_nr_next (send_ c2) ∧ seq_nr_unack (send_ c2) = seq_nr_next (send_ c2) ∧
    send_mss (send_ s2) = 1446 ∧ send_mss (send_ c2) = 77.
Proof.
  apply (three_way_handshake (Hh := test_host Big) 500 7000 test_connecting test_listening);
    [test_ok|test_ok|reflexivity|reflexivity|unfold is_u; lia|unfold is_u; lia|lia|lia].
Defined.

Lemma test_peer_inv : tcb_inv (test_peer 5000 5000 [] []).
Proof.
  split; [test_ok|reflexivity|unfold rcv_room; vm_compute; discriminate|].
  eexists. reflexivity.
Qed.

(** In the middle of the window, with text. *)
Lemma reset_ignored_witness :
  process_parsed (H := test_host Little) 0 (test_header 5000 5000 [1; 1]) [] [Byte.x01]
    (test_peer 5000 5000 [] []) = Ok ((), test_peer 5000 5000 [] [], []).
Proof.
  apply (reset_ignored (Hh := test_host Little) 0 (test_header 5000 5000 [1; 1]) [] [Byte.x01]
    (test_peer 5000 5000 [] [])); [exact test_peer_inv|reflexivity|intros E; discriminate E].
Defined.

Lemma fin_leaves_close_wait_witness :
  let H := test_host Little in
  ∃ s1 p1 h1 data,
    process_segment (test_header 5000 5000 [1; 0; 0; 1]) [] (test_peer 5000 5000 [] []) =
      Ok ((), s1, [EvEnqueue p1]) ∧
    state_ s1 = kTCPCloseWait ∧ next_state_ s1 = kTCPTimeWait ∧
    tcp_header.consume_from_net (payload (tp_skb p1)) = Ok (h1, data) ∧
    ack_no h1 = 5001 ∧ FIN h1 = 0 ∧
    ∃ s2 p2, make_and_send_pkt s1 = Ok ((), s2, [EvEnqueue p2]) ∧ state_ s2 = kTCPTimeWait.
Proof.
  apply (fin_leaves_close_wait (Hh := test_host Little) (test_header 5000 5000 [1; 0; 0; 1])
    (mk_reserve [] 100) (test_peer 5000 5000 [] []));
    first [test_ok | reflexivity | (unfold ranges_ok, is_u; cbn; lia) | (cbn; lia)].
Defined.

(** A block in SYN-RECEIVED whose ISN is 700. *)
Definition test_syn_received : tcb_t reserve_buffer :=
  mk_tcb (test_ep 167772162 4096) (test_ep 167772161 80) kTCPSynReceived kTCPSynReceived 0 []
    (mk_send 700 701 100 1446 (Some (mk_reserve [] 100)))
    (mk_receive 5000 rcv_window_init 0 (cb_make rcv_window_init)).

Lemma isn_ack_loses_first_byte_witness :
  let H := test_host Little in
  ∃ s1 s2 pq2,
    process_segment (test_header 5000 700 [1]) [] test_syn_received =
      Ok ((), s1, [EvPost TaskEstablished]) ∧
    state_ s1 = kTCPEstablished ∧
    async_write [Byte.x61; Byte.x62] 4 s1 =
      Ok ((), s2, [EvPost TaskDrain; EvPost (TaskWriteDone 4 2)]) ∧
    send_pq (send_ s2) = Some pq2 ∧ cb_list pq2 = [Byte.x61; Byte.x62] ∧
    unsent s2 pq2 = [Byte.x62].
Proof.
  apply (isn_ack_loses_first_byte (Hh := test_host Little) (test_header 5000 700 [1])
    (mk_reserve [] 100) test_syn_received [Byte.x61; Byte.x62] 4);
    first [test_ok | reflexivity | (unfold ranges_ok, is_u; cbn; lia) | (cbn; lia)].
Defined.

Lemma syn_without_mss_witness :
  let H := test_host Little in
  ∃ s' es, process_parsed 7000 (mk_tcp_header 4096 80 999 0 5 0 0 0 0 0 0 0 1 0 1000 0 0) [] []
      test_listening = Ok ((), s', es) ∧
    send_mss (send_ s') = 0 ∧
    (send_mss (send_ s') = 0 → ∀ s2 pq calls, tcb_ok s2 → send_pq (send_ s2) = Some pq →
       send_mss (send_ s2) = send_mss (send_ s') → run_task TaskDrain calls s2 = Ok ((), s2, [])).
Proof.
  apply (syn_without_mss (Hh := test_host Little) 7000
    (mk_tcp_header 4096 80 999 0 5 0 0 0 0 0 0 0 1 0 1000 0 0) [] [] test_listening);
    first [test_ok | reflexivity | (unfold ranges_ok, is_u; cbn; lia) | (cbn; lia) | idtac].
  intros v Hv. inversion Hv.
Defined.
