(* ===== verification/BaseProtocol.v ===== *)
(** * base_protocol.hpp: the plumbing between two layers

    A layer keeps a queue of outgoing packets.  [enqueue] appends to it and
    posts a closure to the [io_context]; the closure hands the packet at the
    front to the layer below, whichever packet it was posted for.  Incoming
    packets are turned into packets of the layer above and dispatched on their
    protocol number.  The primary template and its two specialisations differ
    only in which of the two sides they have; the queue of the Ethernet layer
    holds pairs of a buffer and a device. *)

From S2P Require Import Prelude.

Section BaseProtocol.
Context {U : Type}.

(** [under_proto_] is the layer below, or an empty [std::function]. *)
Record base : Type := mk_base { under_proto_ : bool; packet_queue_ : list U }.

Inductive base_event : Type :=
| BasePost              (** the closure of [enqueue] is posted *)
| BaseUnder (pkt : U).  (** [under_proto_(pkt)] *)

Definition set_queue (q : list U) (b : base) : base := mk_base (under_proto_ b) q.

(** The constructor, and [under_proto_update] (or [under_handler_update]). *)
Definition base_new : base := mk_base false [].
Definition under_proto_update (b : base) : base := mk_base true (packet_queue_ b).

Definition enqueue (pkt : U) : M base base_event unit :=
  _ ← modify (λ b, set_queue (packet_queue_ b ++ [pkt]) b);
  emit BasePost.

(** The posted closure.  [front] of an empty queue is undefined. *)
Definition run_posted : M base base_event unit :=
  b ← get;
  if under_proto_ b then
    match packet_queue_ b with
    | [] => fail EmptyQueue
    | pkt :: _ =>
        _ ← emit (BaseUnder pkt);
        modify (λ b, set_queue (tail (packet_queue_ b)) b)
    end
  else mret ().
End BaseProtocol.
Arguments base : clear implicits.
Arguments base_event : clear implicits.

(** ** Dispatching on the protocol number *)

Section Dispatch.
(** [H]: what identifies a layer above; [P]: the packets it takes. *)
Context {H P : Type}.

Definition uppers : Type := gmap Z H.

Definition upper_proto_update (id : Z) (proto : H) (u : uppers) : uppers := <[id := proto]> u.

(** [dispatch]: the layer the packet goes to, if any. *)
Definition dispatch (u : uppers) (proto : P → Z) (pkt : P) : option (H * P) :=
  h ← u !! proto pkt; Some (h, pkt).

(** [receive] from below: [make_packet], then [dispatch]. *)
Definition receive {S E} (make_packet : M S E (option P)) (u : uppers) (proto : P → Z)
    : M S E (option (H * P)) :=
  out ← make_packet;
  mret (out ≫= dispatch u proto).
End Dispatch.
Arguments uppers : clear implicits.

(** ** The other two instances *)

(** [base_protocol<void, UpperPacketType>], the layer above the devices: what
    it queues and receives is a buffer and a device. *)
Module bottom.
Section Bottom.
Context {Skb Dev : Type}.
Abbreviation bottom_base := (base (Skb * Dev)).

Definition upper_proto_update {H} (id : Z) (proto : H) (u : uppers H) : uppers H :=
  <[id := proto]> u.
Definition under_handler_update (b : bottom_base) : bottom_base :=
  mk_base true (packet_queue_ b).
Definition enqueue (skb_out : Skb) (dev : Dev) : M bottom_base (base_event (Skb * Dev)) unit :=
  _ ← modify (λ b, set_queue (packet_queue_ b ++ [(skb_out, dev)]) b);
  emit BasePost.

Definition dispatch {H P} (u : uppers H) (proto : P → Z) (in_packet : P) : option (H * P) :=
  h ← u !! proto in_packet; Some (h, in_packet).
Definition receive {H P S E} (make_packet : Skb → Dev → M S E (option P)) (u : uppers H)
    (proto : P → Z) (skb_in : Skb) (dev : Dev) : M S E (option (H * P)) :=
  out ← make_packet skb_in dev;
  mret (out ≫= dispatch u proto).
End Bottom.
End bottom.

(** [base_protocol<UnderPacketType, void>], a layer without a layer above it. *)
Module top.
Section Top.
Context {U : Type}.

Definition under_proto_update (b : base U) : base U := mk_base true (packet_queue_ b).
Definition enqueue (pkt : U) : M (base U) (base_event U) unit :=
  _ ← modify (λ b, set_queue (packet_queue_ b ++ [pkt]) b);
  emit BasePost.
End Top.
End top.

(** The three are one: what holds of the first holds of the others. *)
Section Same.
Context {U : Type}.
Lemma top_enqueue (pkt : U) : top.enqueue pkt = enqueue pkt.
Proof. done. Qed.
Lemma bottom_enqueue {V} (x : U) (y : V) : bottom.enqueue x y = enqueue (x, y).
Proof. done. Qed.
Lemma bottom_receive {V H P S E} (mk : U → V → M S E (option P)) (u : uppers H) proto x y :
  bottom.receive mk u proto x y = receive (mk x y) u proto.
Proof. done. Qed.
End Same.

(** ** The queue and the posted closures *)

Section Fifo.
Context {U : Type}.

(** What happens to a layer: a packet is enqueued, the [io_context] runs one
    of its posted closures, or the layer below is set.  The number counts
    the closures posted and not yet run. *)
Inductive action : Type := Enqueue (pkt : U) | RunPosted | Bind.

Definition act (a : action) : M (base U * nat) U unit := λ '(b, n),
  match a with
  | Enqueue pkt =>
      match enqueue pkt b with
      | Ok (_, b', _) => Ok ((), (b', S n), [])
      | Fault f => Fault f
      end
  | RunPosted =>
      match n with
      | O => Ok ((), (b, n), [])
      | S n' =>
          match run_posted b with
          | Ok (_, b', es) => Ok ((), (b', n'), omap (λ e, match e with
              BaseUnder pkt => Some pkt | BasePost => None end) es)
          | Fault f => Fault f
          end
      end
  | Bind => Ok ((), (under_proto_update b, n), [])
  end.

Fixpoint run_actions (acts : list action) : M (base U * nat) U unit :=
  match acts with
  | [] => mret ()
  | a :: acts => _ ← act a; run_actions acts
  end.

Definition enqueued (acts : list action) : list U :=
  omap (λ a, match a with Enqueue pkt => Some pkt | _ => None end) acts.

Lemma act_spec a b n :
  (n ≤ length (packet_queue_ b))%nat →
  ∃ b' n' out, act a (b, n) = Ok ((), (b', n'), out) ∧
    out ++ packet_queue_ b' = packet_queue_ b ++ enqueued [a] ∧
    (n' ≤ length (packet_queue_ b'))%nat ∧
    (under_proto_ b = true → n = length (packet_queue_ b) →
       under_proto_ b' = true ∧ n' = length (packet_queue_ b')).
Proof.
  destruct b as [u q]. cbn. intros Hn. destruct a as [pkt| |]; cbn.
  - do 3 eexists. split_and!; [done|done|..]; cbn [packet_queue_ set_queue under_proto_];
      rewrite length_app; cbn [length]; [lia|]. intros -> ->. split; [done|lia].
  - destruct n as [|n]; [do 3 eexists; by rewrite app_nil_r|].
    destruct q as [|pkt q]; [cbn in Hn; lia|]. cbn in Hn. destruct u; cbn.
    + do 3 eexists. split_and!; [done|cbn; by rewrite app_nil_r|cbn; lia|].
      intros _ [= ->]. done.
    + do 3 eexists. split_and!; [done|cbn; by rewrite app_nil_r|cbn; lia|done].
  - do 3 eexists. split_and!; [done|by rewrite app_nil_r|done|done].
Qed.

(** C24: the queue is first in, first out, whatever the order in which
    packets are enqueued and posted closures run.  What reached the layer
    below, followed by what is still queued, is exactly what was enqueued,
    in order; a closure never finds the queue empty; and once the layer
    below is set from the start, there is one closure pending per queued
    packet, so that nothing is left behind when all have run. *)
Theorem posted_closures_fifo bound acts :
  ∃ b n out, run_actions acts (mk_base bound [], 0%nat) = Ok ((), (b, n), out) ∧
    out ++ packet_queue_ b = enqueued acts ∧ (n ≤ length (packet_queue_ b))%nat ∧
    (bound = true → n = length (packet_queue_ b)).
Proof.
  enough (∀ b0 n0, (n0 ≤ length (packet_queue_ b0))%nat →
    ∃ b n out, run_actions acts (b0, n0) = Ok ((), (b, n), out) ∧
      out ++ packet_queue_ b = packet_queue_ b0 ++ enqueued acts ∧
      (n ≤ length (packet_queue_ b))%nat ∧
      (under_proto_ b0 = true → n0 = length (packet_queue_ b0) → n = length (packet_queue_ b)))
    as Hgen.
  { destruct (Hgen (mk_base bound []) 0%nat) as (b & n & out & ? & ? & ? & Hb); [cbn; lia|].
    exists b, n, out. split_and!; [done..|]. intros ->. by apply Hb. }
  induction acts as [|a acts IH]; intros b0 n0 Hn.
  - exists b0, n0, []. rewrite app_nil_r. by split_and!.
  - destruct (act_spec a b0 n0 Hn) as (b1 & n1 & out1 & E1 & Hq1 & Hn1 & Hb1).
    destruct (IH b1 n1 Hn1) as (b2 & n2 & out2 & E2 & Hq2 & Hn2 & Hb2).
    exists b2, n2, (out1 ++ out2). split_and!; [| |done|].
    + cbn [run_actions]. unfold mbind, M_bind. by rewrite E1, E2.
    + assert (enqueued (a :: acts) = enqueued [a] ++ enqueued acts) as -> by (by destruct a).
      by rewrite <- app_assoc, Hq2, app_assoc, Hq1, <- app_assoc.
    + intros Hu Hl. destruct (Hb1 Hu Hl) as [Hu1 Hl1]. by apply Hb2.
Qed.
End Fifo.
Arguments action : clear implicits.
