(* ===== verification/Packets.v ===== *)
(** * ipv4_packet.hpp, ethernetv2_frame.hpp, and the rules of two layers

    The packets the layers hand to each other, and the rules by which the
    connection table and the TCP layer decide what to do with a new pair of
    ends. *)

From S2P Require Import Prelude Skbuff Addr.

Record ipv4_packet : Type := mk_ipv4_packet {
  src_addrv4 : ipv4_addr_t; dst_addrv4 : ipv4_addr_t; ipp_proto : Z; ipp_skb : skbuff;
}.

(** A [std::shared_ptr<device>]: the number of a device, or null. *)
Record ethernetv2_frame : Type := mk_frame {
  src_mac_addr : mac_addr_t; dst_mac_addr : mac_addr_t; frame_proto : Z; frame_skb : skbuff;
  frame_dev : option nat;
}.

#[export] Instance ipv4_packet_eq_dec : EqDecision ipv4_packet.
Proof. solve_decision. Defined.
#[export] Instance ethernetv2_frame_eq_dec : EqDecision ethernetv2_frame.
Proof. solve_decision. Defined.

(** The [rule] of [tcb_manager] and of [tcp].  A callback is known by its
    number: its code is that of the user. *)
Record rule : Type := mk_rule { matcher : endpoint → endpoint → bool; rule_cb : nat }.

Definition rule_matches (r : rule) (two_end : two_ends_t) : bool :=
  matcher r (te_remote_ep two_end) (te_local_ep two_end).
