(* ===== verification/Text.v ===== *)
(** * Text: what is printed, what is read from text, and the literals

    The [operator<<] of addresses, headers, packets and blocks, with
    [state_to_string] (defination.hpp); [endpoint::make_from] and the argument
    of main.cpp, which read an endpoint back; size_literals.hpp.  A text is a
    list of characters. *)

From Stdlib Require Import Ascii String.
From S2P Require Import Prelude Utils Skbuff Addr Headers CircularBuffer Tcb Packets.

Abbreviation text := (list ascii).
Definition str (s : string) : text := list_ascii_of_string s.

(** ** Numbers

    [std::format], [fmt::format] and the streams print an unsigned number
    without leading zeros; twenty digits hold [2 ^ 64]. *)

Fixpoint digits (b : Z) (fuel : nat) (n : Z) : list Z :=
  match fuel with
  | O => []
  | S fuel => (if n <? b then [] else digits b fuel (n / b)) ++ [n mod b]
  end.

Definition digit (d : Z) : ascii := ascii_of_N (Z.to_N (if d <? 10 then 48 + d else 87 + d)).
Definition upper_digit (d : Z) : ascii := ascii_of_N (Z.to_N (if d <? 10 then 48 + d else 55 + d)).

(** [{}], [{:x}] and [{:X}]; [{:0w...}] fills with zeros. *)
Definition dec (n : Z) : text := digit <$> digits 10 20 n.
Definition hex (n : Z) : text := digit <$> digits 16 16 n.
Definition upper_hex (n : Z) : text := upper_digit <$> digits 16 16 n.
Definition zeros (w : nat) (s : text) : text := replicate (w - length s) "0"%char ++ s.
(** [{:#0wx}]: the width counts the prefix. *)
Definition alt_hex (w : nat) (n : Z) : text := str "0x" ++ zeros (w - 2) (hex n).

(** [std::from_chars] for an unsigned type of [w] bits, base ten: the longest
    prefix of digits, if there is one and its value fits; otherwise the value
    is left as it is. *)
Definition char_digit (c : ascii) : option Z :=
  let z := Z.of_N (N_of_ascii c) in
  if (48 <=? z) && (z <=? 57) then Some (z - 48) else None.
Fixpoint digit_prefix (s : text) : list Z :=
  match s with
  | [] => []
  | c :: s => match char_digit c with Some d => d :: digit_prefix s | None => [] end
  end.
Definition number (ds : list Z) : Z := foldl (λ n d, 10 * n + d) 0 ds.
Definition from_chars (w : Z) (s : text) (value : Z) : Z :=
  let ds := digit_prefix s in
  if bool_decide (ds = []) then value
  else if number ds <? 2 ^ w then number ds else value.

(** ** Addresses *)

Definition dotted (a b c d : Z) : text :=
  dec a ++ str "." ++ dec b ++ str "." ++ dec c ++ str "." ++ dec d.

(** [ipv4_addr_t]: [operator<<] and [to_string] *)
Definition ipv4_to_string (a : ipv4_addr_t) : text :=
  let octet k := Z.land (Z.shiftr (raw a) k) 255 in
  dotted (octet 24) (octet 16) (octet 8) (octet 0).

Definition mac_to_string (m : mac_addr_t) : text :=
  let two b := zeros 2 (hex (byte.unsigned b)) in
  two (mac_0 m) ++ str ":" ++ two (mac_1 m) ++ str ":" ++ two (mac_2 m) ++ str ":" ++
  two (mac_3 m) ++ str ":" ++ two (mac_4 m) ++ str ":" ++ two (mac_5 m).

Definition endpoint_to_string (p : endpoint) : text :=
  ipv4_to_string (addrv4 p) ++ str ":" ++ dec (addrv4_port p).

(** ** Headers, packets and blocks *)

Definition eth_header_to_string (m : ethernetv2_header_t) : text :=
  str "[ETH PACKET] DST: " ++ mac_to_string (eth_dst_mac_addr m) ++
  str " SRC: " ++ mac_to_string (eth_src_mac_addr m) ++
  str " TYPE: " ++ zeros 4 (upper_hex (eth_proto m)).

Definition arp_header_to_string (m : arpv4_header_t) : text :=
  str "op=" ++ dec (oper m) ++
  str ", { sha=" ++ mac_to_string (sha m) ++ str ", spa=" ++ ipv4_to_string (spa m) ++ str " }" ++
  str " -> " ++
  str "{ tha=" ++ mac_to_string (tha m) ++ str ", tpa=" ++ ipv4_to_string (tpa m) ++ str " }".

Definition ipv4_header_to_string (m : ipv4_header_t) : text :=
  str "[IPV4 HEADER]: v " ++ dec (ip_version m) ++ str " hl " ++ dec (ip_header_length m) ++
  str " tos " ++ dec (ip_tos m) ++ str " len " ++ dec (ip_total_length m) ++
  str " id " ++ dec (ip_id m) ++ str " NOP " ++ dec (ip_NOP m) ++ str " DF " ++ dec (ip_DF m) ++
  str " MF " ++ dec (ip_MF m) ++ str " frag_offset " ++ dec (ip_frag_offset m) ++
  str " ttl " ++ dec (ip_ttl m) ++ str " proto " ++ alt_hex 2 (ip_proto_type m) ++
  str " header_chsum " ++ alt_hex 4 (ip_header_chsum m) ++
  str " src_addr " ++ ipv4_to_string (ip_src_addr m) ++
  str " dst_addr " ++ ipv4_to_string (ip_dst_addr m).

Definition icmp_header_to_string (m : icmp_header_t) : text :=
  str "[ICMP PACKET] " ++ dec (icmp_proto_type m) ++ str " " ++ dec (icmp_code m) ++
  str " " ++ dec (icmp_id m) ++ str " " ++ dec (icmp_seq m).

Definition tcp_header_to_string (m : tcp_header_t) : text :=
  let flag f name := if f m =? 1 then str name else [] in
  str "[TCP PACKET] " ++ dec (src_port m) ++ str " -> " ++ dec (dst_port m) ++
  str " SEQ_NO: " ++ dec (seq_no m) ++ str " ACK_NO: " ++ dec (ack_no m) ++ str " [ " ++
  flag ACK "ACK "%string ++ flag SYN "SYN "%string ++ flag PSH "PSH "%string ++
  flag RST "RST "%string ++ flag FIN "FIN "%string ++ str " ]".

Definition tcp_packet_to_string (p : tcp_packet) : text :=
  endpoint_to_string (tp_remote_ep p) ++ str " -> " ++ endpoint_to_string (tp_local_ep p).
Definition ipv4_packet_to_string (p : ipv4_packet) : text :=
  ipv4_to_string (src_addrv4 p) ++ str " -> " ++ ipv4_to_string (dst_addrv4 p).
Definition frame_to_string (p : ethernetv2_frame) : text :=
  mac_to_string (src_mac_addr p) ++ str " -> " ++ mac_to_string (dst_mac_addr p).

Definition state_to_string (state : tcp_state) : text :=
  match state with
  | kTCPClosed => str "TCP_CLOSED"
  | kTCPConnecting => str "TCP_CONNECTING"
  | kTCPListen => str "TCP_LISTEN"
  | kTCPSynSent => str "TCP_SYN_SENT"
  | kTCPSynReceived => str "TCP_SYN_RECEIVED"
  | kTCPEstablished => str "TCP_ESTABLISHED"
  | kTCPFinWait_1 => str "TCP_FIN_WAIT_1"
  | kTCPFinWait_2 => str "TCP_FIN_WAIT_2"
  | kTCPCloseWait => str "TCP_CLOSE_WAIT"
  | kTCPClosing => str "TCP_CLOSING"
  | kTCPLastAck => str "TCP_LAST_ACK"
  | kTCPTimeWait => str "TCP_TIME_WAIT"
  | _ => str "UNKNOWN"
  end.

Definition tcb_to_string {B} (m : tcb_t B) : text :=
  endpoint_to_string (remote_ep_ m) ++ str " -> " ++ endpoint_to_string (local_ep_ m) ++
  str " " ++ state_to_string (state_ m).

(** ** From text *)

Section Parse.
(** [boost::asio::ip::make_address_v4(source).to_uint()] *)
Context (make_address_v4 : text → result Z).

Definition ipv4_make_from (source : text) : result ipv4_addr_t :=
  r ← make_address_v4 source; Ok (Ipv4 r).

Definition endpoint_make_from (host port : text) : result endpoint :=
  let port_u := from_chars 16 port 0 in
  a ← ipv4_make_from host;
  Ok (mk_endpoint a port_u).
End Parse.

(** [s.substr(0, s.find(c))] *)
Fixpoint until (c : ascii) (s : text) : text :=
  match s with
  | [] => []
  | x :: s => if bool_decide (x = c) then [] else x :: until c s
  end.

(** [s.remove_prefix(std::min(s.size(), part.size() + 1))] *)
Definition behind (part s : text) : text := drop (Nat.min (length s) (length part + 1)) s.

Definition kBindIPv4AddrDefault : text := str "192.168.0.1".

(** The argument [device:address:port] of [main]: the name of the device, the
    address to bind, and the port. *)
Definition main_bind (bind_devipv4port : text) : text * text * Z :=
  let dev_name := until ":"%char bind_devipv4port in
  let bind_devipv4port := behind dev_name bind_devipv4port in
  let bind_ipv4 := until ":"%char bind_devipv4port in
  let bind_port := behind bind_ipv4 bind_devipv4port in
  let bind_ipv4 := if bool_decide (bind_ipv4 = []) then kBindIPv4AddrDefault else bind_ipv4 in
  (dev_name, bind_ipv4, from_chars 16 bind_port 0).

(** ** Literals (size_literals.hpp), of an [unsigned long long] *)

Definition kKiBShift : Z := 10.
Definition lit_KiB (x : Z) : Z := u64 (Z.shiftl x kKiBShift).
Definition kMiBShift : Z := 20.
Definition lit_MiB (x : Z) : Z := u64 (Z.shiftl x kMiBShift).
Definition kGiBShift : Z := 30.
Definition lit_GiB (x : Z) : Z := u64 (Z.shiftl x kGiBShift).
Definition kTiBShift : Z := 40.
Definition lit_TiB (x : Z) : Z := u64 (Z.shiftl x kTiBShift).
Definition kPiBShift : Z := 50.
Definition lit_PiB (x : Z) : Z := u64 (Z.shiftl x kPiBShift).
Definition kEiBShift : Z := 60.
Definition lit_EiB (x : Z) : Z := u64 (Z.shiftl x kEiBShift).
Definition lit_KB (x : Z) : Z := u64 (x * 1000).
Definition lit_MB (x : Z) : Z := u64 (x * 1000000).
Definition lit_GB (x : Z) : Z := u64 (x * 1000000000).
Definition lit_TB (x : Z) : Z := u64 (x * 1000000000000).
Definition lit_PB (x : Z) : Z := u64 (x * 1000000000000000).
Definition lit_EB (x : Z) : Z := u64 (x * 1000000000000000000).
Definition lit_b (x : Z) : byte := byte.of_Z (u8 x).

(** ** Numbers there and back *)

Lemma length_digits b fuel n : (length (digits b fuel n) ≤ fuel)%nat.
Proof.
  revert n. induction fuel as [|fuel IH]; intros n; cbn [digits]; [done|].
  rewrite length_app. cbn [length]. case_match; [cbn; lia|]. specialize (IH (n / b)). lia.
Qed.

Lemma digits_range b fuel n : 0 < b → Forall (λ d, 0 ≤ d < b) (digits b fuel n).
Proof.
  intros Hb. revert n. induction fuel as [|fuel IH]; intros n; cbn [digits]; [done|].
  apply Forall_app. split; [case_match; [done|apply IH]|].
  apply Forall_singleton. by apply Z.mod_pos_bound.
Qed.

Lemma number_app ds d : number (ds ++ [d]) = 10 * number ds + d.
Proof. unfold number. by rewrite foldl_app. Qed.

Lemma number_digits fuel n : 0 ≤ n < 10 ^ Z.of_nat fuel → number (digits 10 fuel n) = n.
Proof.
  revert n. induction fuel as [|fuel IH]; intros n Hn; cbn [digits].
  { change (10 ^ Z.of_nat 0) with 1 in Hn. cbn. lia. }
  rewrite number_app. rewrite Nat2Z.inj_succ, Z.pow_succ_r in Hn by lia.
  destruct (Z.ltb_spec n 10).
  - cbn. rewrite Z.mod_small by lia. lia.
  - rewrite IH; [|split; [apply Z.div_pos; lia|apply Z.div_lt_upper_bound; lia]].
    pose proof (Z.div_mod n 10). lia.
Qed.

(** The characters of digits, and where a number ends. *)
Definition no_digit (s : text) : Prop :=
  match s with c :: _ => char_digit c = None | [] => True end.

Lemma char_digit_digit d : 0 ≤ d < 10 → char_digit (digit d) = Some d.
Proof.
  intros Hd. assert (d ∈ [0; 1; 2; 3; 4; 5; 6; 7; 8; 9]) as Hin
    by (rewrite !elem_of_cons; lia).
  repeat (apply elem_of_cons in Hin as [->|Hin]; [reflexivity|]). by apply elem_of_nil in Hin.
Qed.

Lemma digit_prefix_app ds s :
  Forall (λ d, 0 ≤ d < 10) ds → no_digit s → digit_prefix ((digit <$> ds) ++ s) = ds.
Proof.
  intros Hd Hs. induction Hd as [|d ds Hd _ IH]; cbn.
  - destruct s as [|c s]; [done|]. cbn in *. by rewrite Hs.
  - by rewrite char_digit_digit, IH.
Qed.

Lemma digits_nonempty b fuel n : (0 < fuel)%nat → digits b fuel n ≠ [].
Proof. destruct fuel; [lia|]. cbn [digits]. intros _ E. by apply app_nil in E as [_ ?]. Qed.

Lemma dec_nonempty n : digits 10 20 n ≠ [].
Proof. apply digits_nonempty. lia. Qed.

(** Every value of 64 bits. *)
Lemma digit_prefix_dec n s :
  is_u 64 n → no_digit s →
  digit_prefix (dec n ++ s) = digits 10 20 n ∧ number (digits 10 20 n) = n.
Proof.
  intros Hn Hs. split.
  - apply digit_prefix_app; [|done]. by apply digits_range.
  - apply number_digits. unfold is_u in Hn. split; [lia|]. etrans; [apply Hn|]. done.
Qed.

Lemma from_chars_dec w n s v :
  is_u 64 n → no_digit s → from_chars w (dec n ++ s) v = if n <? 2 ^ w then n else v.
Proof.
  intros Hn Hs. unfold from_chars. destruct (digit_prefix_dec n s Hn Hs) as [-> E].
  rewrite bool_decide_eq_false_2 by apply dec_nonempty. by rewrite E.
Qed.

Lemma from_chars_no_digit w s v : no_digit s → from_chars w s v = v.
Proof.
  intros Hs. unfold from_chars. destruct s as [|c s]; [done|]. cbn in *. by rewrite Hs.
Qed.

(** ** Addresses there and back *)

(** An octet and a dot, read back: what a parser of dotted text has to do. *)
Definition octet (s : text) : result (Z * text) :=
  let ds := digit_prefix s in
  if bool_decide (ds = []) || (255 <? number ds) then Fault (Thrown "invalid address")
  else Ok (number ds, drop (length ds) s).
Definition skip (c : ascii) (s : text) : result text :=
  match s with
  | x :: s => if bool_decide (x = c) then Ok s else Fault (Thrown "invalid address")
  | [] => Fault (Thrown "invalid address")
  end.
Definition parse_dotted (s : text) : result (Z * text) :=
  '(a, s) ← octet s; s ← skip "." s;
  '(b, s) ← octet s; s ← skip "." s;
  '(c, s) ← octet s; s ← skip "." s;
  '(d, s) ← octet s;
  Ok (a * 2 ^ 24 + b * 2 ^ 16 + c * 2 ^ 8 + d, s).

Lemma octet_dec n s : is_u 8 n → no_digit s → octet (dec n ++ s) = Ok (n, s).
Proof.
  intros Hn Hs. unfold octet.
  destruct (digit_prefix_dec n s) as [-> E]; [unfold is_u in *; lia|done|].
  rewrite bool_decide_eq_false_2 by apply dec_nonempty.
  rewrite E. unfold is_u in Hn. rewrite (proj2 (Z.ltb_ge _ _)) by lia. cbn [orb].
  rewrite drop_app_length'; [done|]. unfold dec. by rewrite length_fmap.
Qed.

Lemma parse_dotted_app a b c d s :
  is_u 8 a → is_u 8 b → is_u 8 c → is_u 8 d → no_digit s →
  parse_dotted (dotted a b c d ++ s) = Ok (a * 2 ^ 24 + b * 2 ^ 16 + c * 2 ^ 8 + d, s).
Proof.
  intros Ha Hb Hc Hd Hs. unfold parse_dotted, dotted, str. cbn [list_ascii_of_string].
  rewrite <- !app_assoc.
  unfold mbind, result_bind.
  do 3 (rewrite octet_dec by done; cbn [skip app]; rewrite bool_decide_eq_true_2 by done).
  by rewrite octet_dec by done.
Qed.

(** The octets of an address. *)
Lemma octet_is_u z k : is_u 8 (Z.land (Z.shiftr z k) 255).
Proof. change 255 with (Z.ones 8). rewrite Z.land_ones by done. by apply Z.mod_pos_bound. Qed.

Lemma octets_combine r :
  is_u 32 r →
  Z.land (Z.shiftr r 24) 255 * 2 ^ 24 + Z.land (Z.shiftr r 16) 255 * 2 ^ 16 +
  Z.land (Z.shiftr r 8) 255 * 2 ^ 8 + Z.land (Z.shiftr r 0) 255 = r.
Proof.
  intros Hr. change 255 with (Z.ones 8). rewrite !Z.land_ones, !Z.shiftr_div_pow2 by done.
  change (2 ^ 24) with 16777216. change (2 ^ 0) with 1. ulia.
Qed.

Lemma parse_ipv4 a s :
  ipv4_ok a → no_digit s → parse_dotted (ipv4_to_string a ++ s) = Ok (raw a, s).
Proof.
  intros Ha Hs. unfold ipv4_to_string.
  rewrite parse_dotted_app by first [apply octet_is_u|done]. by rewrite octets_combine.
Qed.

Lemma ipv4_text_inj a a' s s' :
  ipv4_ok a → ipv4_ok a' → no_digit s → no_digit s' →
  ipv4_to_string a ++ s = ipv4_to_string a' ++ s' → a = a' ∧ s = s'.
Proof.
  intros Ha Ha' Hs Hs' E. pose proof (parse_ipv4 a s Ha Hs) as P.
  rewrite E, parse_ipv4 in P by done. destruct a, a'. cbn in P. by injection P as -> ->.
Qed.

Lemma dec_inj n n' s s' :
  is_u 64 n → is_u 64 n' → no_digit s → no_digit s' → dec n ++ s = dec n' ++ s' → n = n' ∧ s = s'.
Proof.
  intros Hn Hn' Hs Hs' E.
  destruct (digit_prefix_dec n s Hn Hs) as [P N], (digit_prefix_dec n' s' Hn' Hs') as [P' N'].
  rewrite E, P' in P. split; [by rewrite <- N, <- N', P|].
  unfold dec in E. rewrite P in E. by apply app_inv_head in E.
Qed.

Lemma endpoint_text_inj p p' s s' :
  endpoint_ok p → endpoint_ok p' → no_digit s → no_digit s' →
  endpoint_to_string p ++ s = endpoint_to_string p' ++ s' → p = p' ∧ s = s'.
Proof.
  intros [Ha Hp] [Ha' Hp'] Hs Hs'. unfold endpoint_to_string. rewrite <- !app_assoc. intros E.
  apply ipv4_text_inj in E as [Ea E]; [|assumption..|reflexivity|reflexivity].
  apply (app_inv_head (str ":")) in E.
  apply dec_inj in E as [Ep E]; [|unfold is_u in *; lia..|done|done].
  destruct p, p'. cbn in *. by subst.
Qed.

(** Every state of a connection has a name of its own. *)
Lemma state_to_string_inj x y :
  state_to_string x = state_to_string y → state_to_string x ≠ str "UNKNOWN" → x = y.
Proof.
  intros E Hu. apply (bool_decide_eq_true_1 (x = y)).
  apply (bool_decide_eq_true_2 (_ = _)) in E. apply (bool_decide_eq_false_2 (_ = _)) in Hu.
  destruct x, y; vm_compute in E, Hu |- *; congruence.
Qed.

(** The log line of a connection tells it from every other: blocks that
    print the same have the same ends and, unless they are in a state of a
    socket, the same state. *)
Theorem tcb_text_identifies {B} (m m' : tcb_t B) :
  endpoint_ok (remote_ep_ m) → endpoint_ok (local_ep_ m) →
  endpoint_ok (remote_ep_ m') → endpoint_ok (local_ep_ m') →
  tcb_to_string m = tcb_to_string m' →
  remote_ep_ m = remote_ep_ m' ∧ local_ep_ m = local_ep_ m' ∧
  (state_to_string (state_ m) ≠ str "UNKNOWN" → state_ m = state_ m').
Proof.
  intros Hr Hl Hr' Hl' E. unfold tcb_to_string in E.
  apply endpoint_text_inj in E as [Er E]; [|assumption..|reflexivity|reflexivity].
  apply (app_inv_head (str " -> ")) in E.
  apply endpoint_text_inj in E as [El E]; [|assumption..|reflexivity|reflexivity].
  apply (app_inv_head (str " ")) in E.
  split; [exact Er|]. split; [exact El|]. by apply state_to_string_inj.
Qed.

Lemma until_app c s t : Forall (λ x, x ≠ c) s → until c (s ++ c :: t) = s.
Proof.
  induction 1 as [|x s Hx _ IH]; cbn; [by rewrite bool_decide_eq_true_2|].
  by rewrite bool_decide_eq_false_2, IH.
Qed.

Lemma behind_app c s t : behind s (s ++ c :: t) = t.
Proof.
  unfold behind. rewrite length_app. cbn [length].
  rewrite (Nat.min_r _ _) by lia. change (c :: t) with ([c] ++ t). rewrite app_assoc.
  apply drop_app_length'. by rewrite length_app.
Qed.

Lemma dec_no_colon n : Forall (λ x, x ≠ ":"%char) (dec n).
Proof.
  apply Forall_fmap. eapply Forall_impl; [by apply digits_range|]. cbn. intros d Hd E.
  pose proof (char_digit_digit d Hd) as Hc. by rewrite E in Hc.
Qed.

Lemma ipv4_no_colon a : Forall (λ x, x ≠ ":"%char) (ipv4_to_string a).
Proof.
  unfold ipv4_to_string, dotted. rewrite !Forall_app.
  split_and!; first [apply dec_no_colon|by repeat constructor].
Qed.

Lemma ipv4_nonempty a : ipv4_to_string a ≠ [].
Proof.
  unfold ipv4_to_string, dotted, dec. intros E. apply app_nil in E as [E _].
  apply fmap_nil_inv in E. by apply dec_nonempty in E.
Qed.

Section Endpoint.
Context (make_address_v4 : text → result Z).

(** What Boost documents of an address in dotted decimal form. *)
Definition reads_dotted : Prop := ∀ a b c d,
  is_u 8 a → is_u 8 b → is_u 8 c → is_u 8 d →
  make_address_v4 (dotted a b c d) = Ok (a * 2 ^ 24 + b * 2 ^ 16 + c * 2 ^ 8 + d).

Lemma ipv4_text_roundtrip a :
  reads_dotted → ipv4_ok a → ipv4_make_from make_address_v4 (ipv4_to_string a) = Ok a.
Proof.
  intros Hlaw Ha. unfold ipv4_make_from, ipv4_to_string.
  rewrite Hlaw by apply octet_is_u. rewrite octets_combine by done. by destruct a.
Qed.

(** C39: an endpoint is read back from the text it prints: [main], given it
    behind the name of a device and a colon, binds its address and its port
    on that device, and [make_from] gives it back from its two halves. *)
Theorem endpoint_text_roundtrip dev ep :
  reads_dotted → endpoint_ok ep → Forall (λ x, x ≠ ":"%char) dev →
  let shown := endpoint_to_string ep in
  let host := until ":"%char shown in
  main_bind (dev ++ str ":" ++ shown) = (dev, host, addrv4_port ep) ∧
  ipv4_make_from make_address_v4 host = Ok (addrv4 ep) ∧
  endpoint_make_from make_address_v4 host (behind host shown) = Ok ep.
Proof.
  intros Hlaw [Ha Hp] Hdev shown host.
  pose proof (ipv4_no_colon (addrv4 ep)) as Hc.
  assert (host = ipv4_to_string (addrv4 ep)) as Eh by by apply until_app.
  assert (behind host shown = dec (addrv4_port ep)) as Eb by (rewrite Eh; apply behind_app).
  assert (from_chars 16 (dec (addrv4_port ep)) 0 = addrv4_port ep) as Ep.
  { rewrite <- (app_nil_r (dec _)), from_chars_dec by (try done; unfold is_u in *; lia).
    unfold is_u in Hp. by rewrite (proj2 (Z.ltb_lt _ _)) by lia. }
  split_and!.
  - unfold main_bind. change (str ":" ++ shown) with (":"%char :: shown).
    rewrite until_app, behind_app by done. fold host. rewrite Eb, Ep, Eh.
    by rewrite bool_decide_eq_false_2 by apply ipv4_nonempty.
  - rewrite Eh. by apply ipv4_text_roundtrip.
  - unfold endpoint_make_from. rewrite Eb, Ep, Eh, ipv4_text_roundtrip by done. by destruct ep.
Qed.

(** [make_from] rejects no port.  With an address Boost accepts, a number
    above 65535, a sign, a blank or no text at all give the port 0, and what
    follows a number that fits is ignored: the result of [std::from_chars] is
    not looked at.  An address Boost rejects throws. *)
Theorem make_from_accepts_any_port host n junk :
  is_u 64 n → no_digit junk →
  match make_address_v4 host with
  | Ok r =>
      endpoint_make_from make_address_v4 host (dec n ++ junk) =
        Ok (mk_endpoint (Ipv4 r) (if n <? 65536 then n else 0)) ∧
      endpoint_make_from make_address_v4 host junk = Ok (mk_endpoint (Ipv4 r) 0)
  | Fault e =>
      ∀ port, endpoint_make_from make_address_v4 host port = Fault e
  end.
Proof.
  intros Hn Hj. unfold endpoint_make_from, ipv4_make_from, mbind, result_bind.
  destruct (make_address_v4 host) as [r|e]; [|done].
  rewrite from_chars_dec, from_chars_no_digit by done. done.
Qed.
End Endpoint.

(** A reader of dotted text, in the place of Boost's. *)
Definition test_make_address_v4 (s : text) : result Z :=
  '(r, s) ← parse_dotted s; if bool_decide (s = []) then Ok r else Fault (Thrown "invalid address").

Lemma test_reads_dotted : reads_dotted test_make_address_v4.
Proof.
  intros a b c d Ha Hb Hc Hd. unfold test_make_address_v4.
  rewrite <- (app_nil_r (dotted a b c d)). by rewrite parse_dotted_app.
Qed.

Lemma endpoint_text_roundtrip_witness :
  let ep := mk_endpoint (Ipv4 3232235521) 8080 in
  main_bind (str "tap0:192.168.0.1:8080") = (str "tap0", str "192.168.0.1", 8080) ∧
  ipv4_make_from test_make_address_v4 (str "192.168.0.1") = Ok (Ipv4 3232235521) ∧
  endpoint_make_from test_make_address_v4 (str "192.168.0.1") (str "8080") = Ok ep.
Proof.
  intros ep.
  refine (endpoint_text_roundtrip test_make_address_v4 (str "tap0") ep test_reads_dotted _ _).
  - split; split; vm_compute; congruence.
  - repeat constructor; discriminate.
Defined.

Lemma make_from_accepts_any_port_witness :
  endpoint_make_from test_make_address_v4 (str "10.0.0.1") (str "65536x") =
    Ok (mk_endpoint (Ipv4 167772161) 0) ∧
  endpoint_make_from test_make_address_v4 (str "10.0.0.1") (str "x") =
    Ok (mk_endpoint (Ipv4 167772161) 0).
Proof.
  refine (make_from_accepts_any_port test_make_address_v4 (str "10.0.0.1") 65536 (str "x") _ _).
  - split; vm_compute; congruence.
  - reflexivity.
Defined.

(** Without an address the default is bound, and without a port the port 0. *)
Example main_defaults :
  main_bind (str "tap0") = (str "tap0", str "192.168.0.1", 0) ∧
  main_bind (str "tap0::7") = (str "tap0", str "192.168.0.1", 7).
Proof. split; vm_compute; reflexivity. Qed.

Example tcp_header_text :
  tcp_header_to_string (mk_tcp_header 80 4096 1 2 5 0 0 0 0 1 1 0 1 0 1000 7 0) =
    str "[TCP PACKET] 80 -> 4096 SEQ_NO: 1 ACK_NO: 2 [ ACK SYN PSH  ]".
Proof. reflexivity. Qed.

Example mac_text :
  mac_to_string (Mac Byte.x02 Byte.xab Byte.x00 Byte.x1f Byte.xff Byte.x09) = str "02:ab:00:1f:ff:09".
Proof. reflexivity. Qed.

(** The literals of a size are exact where the product fits 64 bits, and wrap
    otherwise: [16_EiB] is 0. *)
Lemma lit_exact x k : 0 ≤ x < 2 ^ (64 - k) → 0 ≤ k ≤ 64 → u64 (Z.shiftl x k) = x * 2 ^ k.
Proof.
  intros Hx Hk. rewrite Z.shiftl_mul_pow2 by lia. unfold u64. apply Z.mod_small.
  split; [nia|]. replace (2 ^ 64) with (2 ^ (64 - k) * 2 ^ k) by (rewrite <- Z.pow_add_r by lia; f_equal; lia).
  apply Z.mul_lt_mono_pos_r; lia.
Qed.
Example lit_sizes :
  lit_KiB 64 = 65536 ∧ lit_EiB 15 = 15 * 2 ^ 60 ∧ lit_EiB 16 = 0 ∧ lit_EB 19 ≠ 19 * lit_EB 1 ∧
  lit_b 256 = Byte.x00.
Proof. split_and!; first [reflexivity|vm_compute; congruence]. Qed.
