(* ===== verification/TcbManager.v ===== *)
(** * tcb_manager.hpp, tcb_manager.cpp: the table of connections

    The manager owns the blocks, one for each pair of ends, creates one for a
    packet that matches a rule of an acceptor and for [async_connect], and
    hands incoming packets to the block of their ends.  Its own queue is that
    of [BaseProtocol]. *)

From S2P Require Import Prelude Utils Skbuff Addr Headers TcpOptions CircularBuffer Tcb TcbFacts.
From S2P Require Import TcbSend TcbRecv TcbState TcbHandshake BaseProtocol Packets.

Record tcb_manager (B : Type) : Type := mk_manager {
  mgr_base : base tcp_packet;
  rules_ : list rule;
  tcbs_ : gmap two_ends_t (tcb_t B);
}.
Arguments mk_manager {B}. Arguments mgr_base {B}. Arguments rules_ {B}. Arguments tcbs_ {B}.

(** What the manager does: its own events, and those of its blocks. *)
Inductive mgr_event : Type :=
| MgrBase (ev : base_event tcp_packet)
| MgrTcb (two_end : two_ends_t) (ev : tcb_event).

Section TcbManager.
Context `{Hh : Host} {B : Type} `{Hc : CircularBuffer B}.

Abbreviation MM := (M (tcb_manager B) mgr_event).

Definition set_base (b : base tcp_packet) (m : tcb_manager B) : tcb_manager B :=
  mk_manager b (rules_ m) (tcbs_ m).
Definition set_rules (l : list rule) (m : tcb_manager B) : tcb_manager B :=
  mk_manager (mgr_base m) l (tcbs_ m).
Definition set_tcbs (t : gmap two_ends_t (tcb_t B)) (m : tcb_manager B) : tcb_manager B :=
  mk_manager (mgr_base m) (rules_ m) t.

Definition manager_new : tcb_manager B := mk_manager base_new [] ∅.

Definition rule_insert_front (mt : endpoint → endpoint → bool) (cb : nat) : MM unit :=
  modify (λ m, set_rules (mk_rule mt cb :: rules_ m) m).
Definition rule_insert_back (mt : endpoint → endpoint → bool) (cb : nat) : MM unit :=
  modify (λ m, set_rules (rules_ m ++ [mk_rule mt cb]) m).

Definition mgr_enqueue (pkt : tcp_packet) : MM unit :=
  zoom mgr_base set_base MgrBase (top.enqueue pkt).

(** [mngr_.enqueue] of a block is the manager's; what else the block does is
    passed on. *)
Fixpoint forward (two_end : two_ends_t) (evs : list tcb_event) : MM unit :=
  match evs with
  | [] => mret ()
  | EvEnqueue pkt :: evs => _ ← mgr_enqueue pkt; forward two_end evs
  | ev :: evs => _ ← emit (MgrTcb two_end ev); forward two_end evs
  end.

(** A method of the block of [two_end]. *)
Definition on_tcb (two_end : two_ends_t) (op : M (tcb_t B) tcb_event unit) : MM unit :=
  m ← get;
  match tcbs_ m !! two_end with
  | None => fail NullDeref
  | Some t =>
      '(_, t', evs) ← lift (op t);
      _ ← modify (λ m, set_tcbs (<[two_end := t']> (tcbs_ m)) m);
      forward two_end evs
  end.

Definition two_end_of (pkt_in : tcp_packet) : two_ends_t :=
  mk_two_ends (tp_remote_ep pkt_in) (tp_local_ep pkt_in).

(** The first rule that matches. *)
Definition find_rule (m : tcb_manager B) (two_end : two_ends_t) : option rule :=
  List.find (λ r, rule_matches r two_end) (rules_ m).

(** [junk]: the memory of a block that is created; [isn]: [generate_isn()]. *)
Definition mgr_process (junk : indeterminate) (isn : Z) (pkt_in : tcp_packet) : MM unit :=
  m ← get;
  let two_end := two_end_of pkt_in in
  match tcbs_ m !! two_end with
  | Some _ => on_tcb two_end (process isn pkt_in)
  | None =>
      match find_rule m two_end with
      | Some r =>
          t ← lift (tcb_new junk (te_remote_ep two_end) (te_local_ep two_end)
                      kTCPListen kTCPListen (Some (rule_cb r)));
          _ ← modify (λ m, set_tcbs (<[two_end := t]> (tcbs_ m)) m);
          on_tcb two_end (process isn pkt_in)
      | None => mret ()
      end
  end.

(** [ports]: what [port_gen_ctx_] generates; [moved]: what [std::move]
    leaves in a [std::function], empty in libstdc++, unspecified in
    general.  The block is created before [emplace] looks for the key. *)
Fixpoint mgr_async_connect (junk : indeterminate) (isn : Z) (ports : list Z)
    (moved : option nat → option nat) (remote_ep : endpoint) (local_addr : ipv4_addr_t)
    (cb : option nat) : MM unit :=
  match ports with
  | [] => fail OutOfFuel
  | port :: ports =>
      let two_end := mk_two_ends remote_ep (mk_endpoint local_addr port) in
      t ← lift (tcb_new junk (te_remote_ep two_end) (te_local_ep two_end)
                  kTCPConnecting kTCPConnecting cb);
      m ← get;
      match tcbs_ m !! two_end with
      | Some _ => mgr_async_connect junk isn ports moved remote_ep local_addr (moved cb)
      | None =>
          _ ← modify (λ m, set_tcbs (<[two_end := t]> (tcbs_ m)) m);
          on_tcb two_end (start_connecting isn)
      end
  end.
End TcbManager.

(** ** Properties *)

Section Properties.
Context `{Hh : Host} {B : Type} `{Hc : CircularBuffer B} `{Hs : !CircularBufferSpec B}.
Implicit Types m : tcb_manager B.

(** Every block is well formed and has the ends it is filed under. *)
Definition mgr_inv m : Prop :=
  map_Forall (λ te t, tcb_inv t ∧ remote_ep_ t = te_remote_ep te ∧ local_ep_ t = te_local_ep te)
    (tcbs_ m).

(** The packets a block enqueues, and the closures the manager posts. *)
Fixpoint packets (evs : list tcb_event) : list tcp_packet :=
  match evs with
  | [] => []
  | EvEnqueue p :: evs => p :: packets evs
  | _ :: evs => packets evs
  end.
Fixpoint base_posts (es : list mgr_event) : nat :=
  match es with
  | [] => 0
  | MgrBase BasePost :: es => S (base_posts es)
  | _ :: es => base_posts es
  end.

(** An event of the manager itself, or of the block of [te]. *)
Definition event_of (te : two_ends_t) (ev : mgr_event) : Prop :=
  match ev with
  | MgrBase BasePost => True
  | MgrBase (BaseUnder _) => False
  | MgrTcb te' _ => te' = te
  end.

(** What an operation on the block of [te] may change: that block, and the
    queue, by packets from one of its ends to the other. *)
Definition only_touches (te : two_ends_t) m m' (es : list mgr_event) : Prop :=
  rules_ m' = rules_ m ∧ (∀ te', te' ≠ te → tcbs_ m' !! te' = tcbs_ m !! te') ∧
  under_proto_ (mgr_base m') = under_proto_ (mgr_base m) ∧
  (∃ ps, packet_queue_ (mgr_base m') = packet_queue_ (mgr_base m) ++ ps ∧
     Forall (outgoing (te_remote_ep te) (te_local_ep te)) ps ∧ base_posts es = length ps) ∧
  Forall (event_of te) es.

(** An event of the block of [te], as the manager passes it on. *)
Definition as_mgr (te : two_ends_t) (ev : tcb_event) : mgr_event :=
  match ev with EvEnqueue _ => MgrBase BasePost | ev => MgrTcb te ev end.

Lemma forward_run te evs m :
  forward te evs m =
    Ok ((), set_base (set_queue (packet_queue_ (mgr_base m) ++ packets evs) (mgr_base m)) m,
        as_mgr te <$> evs).
Proof.
  revert m. induction evs as [|ev evs IH]; intros m.
  { destruct m as [[u q] r t]. cbn. by rewrite app_nil_r. }
  destruct ev as [p|t|sp bs|cb n|cb re le]; cbn [forward packets].
  2-5: (rewrite (bind_run _ _ _ _ _ _ (eq_refl : emit (MgrTcb te _) m = _)); by rewrite IH).
  set (m1 := set_base (set_queue (packet_queue_ (mgr_base m) ++ [p]) (mgr_base m)) m).
  rewrite (bind_run _ _ m () m1 [MgrBase BasePost]) by done. rewrite IH. cbn.
  by rewrite <- app_assoc.
Qed.

Lemma as_mgr_posts te evs : base_posts (as_mgr te <$> evs) = length (packets evs).
Proof. induction evs as [|ev evs IH]; [done|]. destruct ev; cbn; by rewrite ?IH. Qed.

Lemma as_mgr_of te evs : Forall (event_of te) (as_mgr te <$> evs).
Proof. apply Forall_fmap, Forall_true. by intros []. Qed.

Lemma sendable_packets (t : tcb_t B) evs :
  Forall (sendable t) evs → Forall (outgoing (remote_ep_ t) (local_ep_ t)) (packets evs).
Proof.
  induction 1 as [|ev evs Hev _ IH]; [by apply List.Forall_nil|].
  destruct ev; try exact IH. by apply Forall_cons.
Qed.

(** An operation of a block that keeps its invariant, run by the manager. *)
Lemma on_tcb_wp te t op F m :
  mgr_inv m → tcbs_ m !! te = Some t →
  wp op (λ _ t' evs, keeps t t' evs) F t →
  wp (on_tcb te op) (λ _ m' es, mgr_inv m' ∧ only_touches te m m' es ∧
    is_Some (tcbs_ m' !! te)) F m.
Proof.
  intros Hinv Ht Hop. unfold on_tcb. wp_steps. rewrite Ht. wp_step.
  destruct (Hinv te t Ht) as (Hti & Hr & Hl).
  unfold wp in Hop. destruct (op t) as [[[[] t'] evs]|f] eqn:E; [|exact Hop].
  destruct Hop as (Hti' & _ & _ & [Hr' Hl'] & Hsend).
  unfold wp at 1. cbn [lift]. wp_steps.
  set (m1 := set_tcbs _ m). unfold wp. rewrite forward_run. cbn [app]. split.
  - unfold mgr_inv, set_base. cbn. apply map_Forall_insert_2; [|done]. by rewrite Hr', Hl'.
  - split; [|cbn; rewrite lookup_insert_eq; by eexists]. split_and!; try done.
    + intros te' Hne. cbn. by rewrite lookup_insert_ne.
    + exists (packets evs). split_and!; [done| |apply as_mgr_posts]. rewrite <- Hr, <- Hl.
      by apply sendable_packets.
    + apply as_mgr_of.
Qed.

(** A connection is settled when it has left the handshake that may fail to
    have a send queue. *)
Definition settled m (te : two_ends_t) : Prop :=
  ∃ t, tcbs_ m !! te = Some t ∧ opening (state_ t) = false.

(** What the namespace relies on: closures are posted for settled
    connections, which stay settled. *)
Definition settles m m' (es : list mgr_event) : Prop :=
  (∀ te, settled m te → settled m' te) ∧
  (∀ te t, MgrTcb te (EvPost t) ∈ es → settled m' te).

Lemma posted_elem t evs : EvPost t ∈ evs → posted evs ≠ [].
Proof.
  induction evs as [|ev evs IH]; intros Hin; [by apply elem_of_nil in Hin|].
  apply elem_of_cons in Hin as [<-|Hin]; [done|]. destruct ev; cbn; auto.
Qed.

Lemma on_tcb_settles te t op F m :
  mgr_inv m → tcbs_ m !! te = Some t → wp op (λ _ t' evs, keeps t t' evs) F t →
  wp (on_tcb te op) (λ _ m' es, settles m m' es) F m.
Proof.
  intros Hinv Ht Hop. unfold on_tcb. wp_steps. rewrite Ht. wp_step.
  unfold wp in Hop. destruct (op t) as [[[[] t'] evs]|f] eqn:E; [|exact Hop].
  destruct Hop as (_ & Hpost & Hop' & _ & _).
  unfold wp at 1. cbn [lift]. wp_steps. unfold wp. rewrite forward_run. cbn [app]. split.
  - intros te' (t0 & Ht0 & Hs0). unfold settled. cbn. destruct (decide (te' = te)) as [->|Hne].
    + rewrite lookup_insert_eq. exists t'. split; [done|]. apply Hop'. congruence.
    + rewrite lookup_insert_ne by done. eauto.
  - intros te' t0 Hin. apply list_elem_of_fmap in Hin as (ev & Eev & Hin).
    assert (te' = te ∧ ev = EvPost t0) as [-> ->] by (destruct ev; by simplify_eq/=).
    exists t'. cbn. rewrite lookup_insert_eq. split; [done|]. apply Hpost. by eapply posted_elem.
Qed.
Lemma tcb_new_inv junk re le st cb :
  ind_ok junk → endpoint_ok re → endpoint_ok le → st = kTCPListen ∨ st = kTCPConnecting →
  ∃ t, tcb_new junk re le st st (Some cb) = Ok (t : tcb_t B) ∧ tcb_inv t ∧
    remote_ep_ t = re ∧ local_ep_ t = le ∧ state_ t = st.
Proof.
  intros Hj Hr Hl Hst. eexists. split; [done|]. split; [|done].
  by apply (initial_inv (_, [])), (initial_block junk re le st cb).
Qed.

Lemma only_touches_new te t m m' es :
  only_touches te (set_tcbs (<[te := t]> (tcbs_ m)) m) m' es → only_touches te m m' es.
Proof.
  intros (? & Ht & ? & ? & ?). split_and!; try done. intros te' Hne. rewrite Ht by done. cbn.
  by rewrite lookup_insert_ne.
Qed.

Lemma only_touches_refl te m : only_touches te m m [].
Proof.
  unfold only_touches. split; [done|]. split; [done|]. split; [done|].
  split; [|by apply List.Forall_nil]. exists []. rewrite app_nil_r.
  split_and!; [done|by apply List.Forall_nil|done].
Qed.

(** No closure of a connection is posted. *)
Definition quiet (es : list mgr_event) : Prop := ∀ te t, MgrTcb te (EvPost t) ∉ es.

Lemma posted_nil t evs : posted evs = [] → EvPost t ∉ evs.
Proof. intros E Hin. by apply (posted_elem t evs Hin). Qed.

Lemma on_tcb_quiet te t op F m :
  tcbs_ m !! te = Some t → wp op (λ _ _ evs, posted evs = []) F t →
  wp (on_tcb te op) (λ _ _ es, quiet es) F m.
Proof.
  intros Ht Hop. unfold on_tcb. wp_steps. rewrite Ht. wp_step.
  unfold wp in Hop. destruct (op t) as [[[[] t'] evs]|f] eqn:E; [|exact Hop].
  unfold wp at 1. cbn [lift]. wp_steps. unfold wp. rewrite forward_run. cbn [app].
  intros te' t0 (ev & Eev & Hin)%list_elem_of_fmap.
  apply (posted_nil t0) in Hop. destruct ev; by simplify_eq/=.
Qed.

(** What every operation of the manager guarantees; [te]: the connection
    it is for. *)
Definition mgr_keeps m m' (es : list mgr_event) : Prop :=
  mgr_inv m' ∧ (∃ te, only_touches te m m' es) ∧ settles m m' es.

Lemma on_tcb_keeps te t op F m :
  mgr_inv m → tcbs_ m !! te = Some t → wp op (λ _ t' evs, keeps t t' evs) F t →
  wp (on_tcb te op) (λ _ m' es, mgr_keeps m m' es) F m.
Proof.
  intros Hinv Ht Hop. pose proof (on_tcb_wp te t op F m Hinv Ht Hop) as H1.
  pose proof (on_tcb_settles te t op F m Hinv Ht Hop) as H2. unfold wp in *.
  destruct (on_tcb te op m) as [[[u m'] es]|f]; [|done]. destruct H1 as (? & ? & _).
  split_and!; [done|by exists te|done].
Qed.

Lemma mgr_keeps_refl m : mgr_inv m → mgr_keeps m m [].
Proof.
  intros Hinv. split; [done|]. split.
  - exists (mk_two_ends (mk_endpoint (Ipv4 0) 0) (mk_endpoint (Ipv4 0) 0)). apply only_touches_refl.
  - split; [done|]. by intros te t Hin%elem_of_nil.
Qed.

(** An operation on a block that was created for it. *)
Lemma on_new_tcb_keeps te t op F m :
  mgr_inv m → tcbs_ m !! te = None → tcb_inv t → remote_ep_ t = te_remote_ep te →
  local_ep_ t = te_local_ep te → wp op (λ _ t' evs, keeps t t' evs) F t →
  wp (on_tcb te op) (λ _ m' es, mgr_keeps m m' es) F (set_tcbs (<[te := t]> (tcbs_ m)) m).
Proof.
  intros Hinv Hnone Hti Hr Hl Hop. set (m1 := set_tcbs _ m).
  assert (mgr_inv m1) as Hinv1 by (apply map_Forall_insert_2; [by split_and!|done]).
  assert (tcbs_ m1 !! te = Some t) as Ht1 by (cbn; apply lookup_insert_eq).
  pose proof (on_tcb_wp te t op F m1 Hinv1 Ht1 Hop) as H1.
  pose proof (on_tcb_settles te t op F m1 Hinv1 Ht1 Hop) as H2. unfold wp in *.
  destruct (on_tcb te op m1) as [[[u m'] es]|f]; [|done]. destruct H1 as (Hi & Ho & _).
  destruct H2 as [Hset Hp]. split_and!; [done|exists te; by eapply only_touches_new|].
  split; [|done]. intros te' (t' & Ht' & Hst). apply Hset. exists t'. split; [|done].
  cbn. rewrite lookup_insert_ne; [done|]. congruence.
Qed.

Lemma mgr_process_keeps junk isn pkt_in m :
  mgr_inv m → ind_ok junk → is_u 32 isn →
  endpoint_ok (tp_remote_ep pkt_in) → endpoint_ok (tp_local_ep pkt_in) →
  wp (mgr_process junk isn pkt_in) (λ _ m' es, mgr_keeps m m' es) remote_fault m.
Proof.
  intros Hinv Hj Hisn Hr Hl. unfold mgr_process. set (te := two_end_of pkt_in). wp_steps.
  destruct (tcbs_ m !! te) as [t|] eqn:Et.
  { eapply on_tcb_keeps; [done|exact Et|]. apply process_wp; [|done]. by apply (Hinv te t Et). }
  destruct (find_rule m te) as [r|].
  - destruct (tcb_new_inv junk (te_remote_ep te) (te_local_ep te) kTCPListen (rule_cb r))
      as (t & E & Hti & Hre & Hle & _); [done..|by left|].
    wp_steps. apply wp_lift; rewrite E; [intros ? [= <-]|done]. wp_steps. cbn [app].
    eapply on_new_tcb_keeps; [done..|]. by apply process_wp.
  - wp_steps. by apply mgr_keeps_refl.
Qed.

Lemma mgr_connect_keeps junk isn ports moved remote_ep local_addr cb m :
  mgr_inv m → ind_ok junk → is_u 32 isn → endpoint_ok remote_ep → ipv4_ok local_addr →
  Forall (is_u 16) ports →
  wp (mgr_async_connect junk isn ports moved remote_ep local_addr cb)
    (λ _ m' es, mgr_keeps m m' es) (λ f, f = AssertFail ∨ f = OutOfFuel) m.
Proof.
  intros Hinv Hj Hisn Hr Hl Hports. revert cb.
  induction Hports as [|port ports Hport _ IH]; intros cb; cbn [mgr_async_connect]; [by right|].
  set (te := mk_two_ends remote_ep (mk_endpoint local_addr port)).
  wp_steps. apply wp_lift; [|intros f E; left; destruct cb; by simplify_eq/=].
  intros t E. wp_steps. cbn [app].
  destruct (tcbs_ m !! te) as [t0|] eqn:Et; [by apply IH|].
  destruct cb as [cb|]; [|done].
  destruct (tcb_new_inv junk (te_remote_ep te) (te_local_ep te) kTCPConnecting cb)
    as (t' & E' & Hti & Hre & Hle & Hst); [done|done|by split|by right|].
  assert (t' = t) as -> by congruence. wp_steps. cbn [app].
  eapply on_new_tcb_keeps; [done..|].
  eapply wp_mono; [by apply start_connecting_wp|done|done].
Qed.

(** C21: an incoming packet reaches exactly the block of its two ends.
    Whatever it holds, no other connection changes and the rules stay; a
    block is created only when there is none and a rule matches, for the
    first rule that does; a packet for nobody changes nothing at all; and
    every packet put in the queue goes from one of its ends to the other,
    with one closure posted for each. *)
Theorem process_demultiplexes junk isn pkt_in m :
  mgr_inv m → ind_ok junk → is_u 32 isn →
  endpoint_ok (tp_remote_ep pkt_in) → endpoint_ok (tp_local_ep pkt_in) →
  let te := two_end_of pkt_in in
  match mgr_process junk isn pkt_in m with
  | Ok (_, m', es) =>
      mgr_inv m' ∧ only_touches te m m' es ∧
      (is_Some (tcbs_ m' !! te) ↔ is_Some (tcbs_ m !! te) ∨ is_Some (find_rule m te)) ∧
      (tcbs_ m !! te = None → find_rule m te = None → m' = m ∧ es = [])
  | Fault f => remote_fault f
  end.
Proof.
  intros Hinv Hj Hisn Hr Hl te.
  assert (∀ m1 t, mgr_inv m1 → tcbs_ m1 !! te = Some t →
    wp (on_tcb te (process isn pkt_in)) (λ _ m' es, mgr_inv m' ∧ only_touches te m1 m' es ∧
      is_Some (tcbs_ m' !! te)) remote_fault m1) as Hrun.
  { intros m1 t Hinv1 Ht. eapply on_tcb_wp; [done|exact Ht|]. apply process_wp; [|done].
    by apply (Hinv1 te t Ht). }
  unfold mgr_process. run. fold te. destruct (tcbs_ m !! te) as [t|] eqn:Et.
  - specialize (Hrun m t Hinv Et). unfold wp in Hrun.
    destruct (on_tcb te _ m) as [[[u m'] es]|f]; [|done]. destruct Hrun as (Hi & Ho & Hs').
    split_and!; try done. split; [|done]. intros _. left. by eexists.
  - destruct (find_rule m te) as [r|] eqn:Er.
    + destruct (tcb_new_inv junk (te_remote_ep te) (te_local_ep te) kTCPListen (rule_cb r))
        as (t & E & Hti & Hre & Hle & _); [done..|by left|].
      rewrite (bind_lift_Ok _ _ _ _ E). run.
      assert (mgr_inv (set_tcbs (<[te := t]> (tcbs_ m)) m)) as Hinv1
        by (apply map_Forall_insert_2; [by split_and!|done]).
      specialize (Hrun _ t Hinv1 (lookup_insert_eq _ _ _)). unfold wp in Hrun.
      destruct (on_tcb te _ _) as [[[u m'] es]|f]; [|done]. destruct Hrun as (Hi & Ho & Hs').
      split_and!; [done|by eapply only_touches_new| |done]. split; [|done]. intros _. right.
      by eexists.
    + cbn. rewrite Et. split_and!; [done|apply only_touches_refl| |done].
      split; [by intros [? ?]|]. intros [[? ?]|[? ?]]; done.
Qed.

(** [async_connect] with a generated port that is free creates a block
    for it, in SYN-SENT, and queues one packet, a SYN whose sequence number
    is the ISN.  When the port is taken the loop goes around, but the block
    that could not be inserted has already consumed the callback: with a
    [std::function] that is empty after a move, the constructor's assertion
    fails. *)
Theorem async_connect_ports junk isn port ports moved remote_ep local_addr cb m :
  mgr_inv m → ind_ok junk → is_u 32 isn → endpoint_ok remote_ep → ipv4_ok local_addr →
  is_u 16 port → ports ≠ [] → moved (Some cb) = None →
  let te := mk_two_ends remote_ep (mk_endpoint local_addr port) in
  let run := mgr_async_connect junk isn (port :: ports) moved remote_ep local_addr (Some cb) m in
  match tcbs_ m !! te with
  | None => ∃ m' p t opts, run = Ok ((), m', [MgrBase BasePost]) ∧ mgr_inv m' ∧
      packet_queue_ (mgr_base m') = packet_queue_ (mgr_base m) ++ [p] ∧
      tcbs_ m' = <[te := t]> (tcbs_ m) ∧ state_ t = kTCPSynSent ∧
      tcp_header.consume_from_net (payload (tp_skb p)) = Ok (syn_header t isn 28, opts) ∧
      SYN (syn_header t isn 28) = 1 ∧ seq_no (syn_header t isn 28) = isn ∧
      src_port (syn_header t isn 28) = port
  | Some _ => run = Fault AssertFail
  end.
Proof.
  intros Hinv Hj Hisn Hr Hl Hport Hports Hmoved te run'. subst run'. cbn [mgr_async_connect].
  fold te.
  destruct (tcb_new_inv junk (te_remote_ep te) (te_local_ep te) kTCPConnecting cb)
    as (t & E & Hti & Hre & Hle & Hst); [done|done|by split|by right|].
  rewrite (bind_lift_Ok _ _ _ _ E). run.
  destruct (tcbs_ m !! te) as [t0|] eqn:Et.
  { rewrite Hmoved. destruct ports as [|port' ports]; [done|]. done. }
  run. destruct (start_connecting_run isn t) as (p & opts & Ec & Hp & _).
  set (m1 := set_tcbs (<[te := t]> (tcbs_ m)) m).
  exists (set_base (set_queue (packet_queue_ (mgr_base m) ++ [p]) (mgr_base m))
    (set_tcbs (<[te := connecting isn t]> (tcbs_ m)) m)), p, (connecting isn t), opts.
  pose proof (start_connecting_wp isn t Hti Hst Hisn) as Hwp. unfold wp in Hwp.
  rewrite Ec in Hwp. destruct Hwp as (Hti' & _ & _ & [Hr' Hl'] & _).
  split_and!; try done.
  - unfold on_tcb. run. cbn [m1 set_tcbs tcbs_]. rewrite lookup_insert_eq.
    rewrite (bind_lift_Ok _ _ _ _ Ec). run. cbn [forward].
    unfold m1, set_tcbs. cbn. by rewrite insert_insert_eq.
  - apply map_Forall_insert_2; [|done]. by rewrite Hr', Hl'.
  - destruct Hp as (_ & _ & _ & _ & _ & ->).
    assert (syn_header t isn 28 = syn_header (connecting isn t) isn 28) as -> by done.
    exact (wire_roundtrip (Wire := tcp_wire) _ opts
      (syn_header_ok _ isn (inv_ok _ Hti') Hisn)).
  - cbn. by rewrite Hle.
Qed.
End Properties.

(** ** Examples *)

(** A manager with the rule of one acceptor, bound to port 80. *)
Definition test_manager : tcb_manager reserve_buffer :=
  mk_manager (mk_base true [])
    [mk_rule (λ _ local_ep, bool_decide (local_ep = test_ep 167772161 80)) 3] ∅.

Definition test_junk : indeterminate := mk_indeterminate 0 0 0 0 0 0.

Lemma process_demultiplexes_witness :
  let H := test_host Little in
  let te := mk_two_ends (test_ep 167772162 4096) (test_ep 167772161 80) in
  ∃ m' es, mgr_process test_junk 2000 test_syn test_manager = Ok ((), m', es) ∧
    mgr_inv m' ∧ only_touches te test_manager m' es ∧ is_Some (tcbs_ m' !! te).
Proof.
  intros H te.
  pose proof (process_demultiplexes (Hh := H) test_junk 2000 test_syn test_manager
    (map_Forall_empty _) ltac:(unfold ind_ok, is_u; cbn; lia) ltac:(unfold is_u; lia)
    ltac:(unfold endpoint_ok, ipv4_ok, is_u; cbn; lia)
    ltac:(unfold endpoint_ok, ipv4_ok, is_u; cbn; lia)) as P.
  assert (match mgr_process test_junk 2000 test_syn test_manager with
    Ok _ => true | Fault _ => false end = true) as Hok by (vm_compute; reflexivity).
  destruct (mgr_process test_junk 2000 test_syn test_manager) as [[[[] m'] es]|f];
    [|discriminate Hok].
  destruct P as (Hi & Ho & Hd & _). exists m', es. split; [reflexivity|]. split; [exact Hi|].
  split; [exact Ho|]. apply Hd. right. vm_compute. eexists. reflexivity.
Defined.

Lemma async_connect_ports_witness :
  let H := test_host Little in
  let te := mk_two_ends (test_ep 167772162 80) (test_ep 167772161 2048) in
  ∃ m' p t opts,
    mgr_async_connect test_junk 500 [2048; 2049] (λ _, None) (test_ep 167772162 80)
      (Ipv4 167772161) (Some 6%nat) test_manager = Ok ((), m', [MgrBase BasePost]) ∧
    mgr_inv m' ∧ packet_queue_ (mgr_base m') = packet_queue_ (mgr_base test_manager) ++ [p] ∧
    tcbs_ m' = <[te := t]> (tcbs_ test_manager) ∧ state_ t = kTCPSynSent ∧
    tcp_header.consume_from_net (payload (tp_skb p)) = Ok (syn_header t 500 28, opts) ∧
    SYN (syn_header t 500 28) = 1 ∧ seq_no (syn_header t 500 28) = 500 ∧
    src_port (syn_header t 500 28) = 2048.
Proof.
  intros H te.
  exact (async_connect_ports (Hh := H) test_junk 500 2048 [2049] (λ _, None)
    (test_ep 167772162 80) (Ipv4 167772161) 6 test_manager (map_Forall_empty _)
    ltac:(unfold ind_ok, is_u; cbn; lia) ltac:(unfold is_u; lia)
    ltac:(unfold endpoint_ok, ipv4_ok, is_u; cbn; lia) ltac:(unfold ipv4_ok, is_u; cbn; lia)
    ltac:(unfold is_u; lia) ltac:(discriminate) eq_refl).
Defined.
