(* ===== verification/Socket.v ===== *)
(** * socket.hpp, socket.cpp, acceptor.hpp, acceptor.cpp, read.hpp, write.hpp,
      and the echo server of main.cpp

    The sockets of an application over the connection table, and the closures
    the application leaves behind.  A [std::function] that the library or the
    example creates is a value of [io_cb], [done_cb] or [conn_cb], one
    constructor for each lambda of the source with the variables it captures;
    the connection block knows it by its number.  The state holds the memory
    of the application too, since a socket reads into buffers and writes out
    of them.  Posted closures of the blocks are run first in, first out. *)

From S2P Require Import Prelude Utils Skbuff Addr Headers TcpOptions CircularBuffer Tcb TcbFacts.
From S2P Require Import TcbSend TcbRecv TcbState BaseProtocol Packets TcbManager.

(** ** Sockets, acceptors, closures *)

(** A [std::weak_ptr<tcb_t>]: the key of the block in the table, which owns
    it, or empty. *)
Record socket : Type := mk_socket {
  sk_state : tcp_state; sk_local_ep : endpoint; sk_tcb : option two_ends_t;
}.

(** [std::function<void(error_code const&, size_t)>] *)
Inductive io_cb : Type :=
| UserIo (k : nat)                                 (** a callback of the user *)
| ReadAll (nbytesall : Z) (cb : io_cb)             (** the lambda of [async_read] *)
| ReadComplete (sk : nat) (buf : span) (cb : io_cb) (** that of [async_read_complete] *)
| EchoRead (sk buf : nat)                          (** main.cpp: what was read is written *)
| EchoWritten (sk buf : nat).                      (** main.cpp: and the next is read *)

(** [std::function<void(error_code const&)>] *)
Inductive done_cb : Type :=
| UserDone (k : nat)
| EchoAccepted (acc sk : nat).                     (** the lambda of [do_accept] *)

(** What a block calls when its connection is established. *)
Inductive conn_cb : Type :=
| SocketConnected (sk : nat) (cb : done_cb)        (** the lambda of [socket::async_connect] *)
| AcceptorRule (acc : nat).                        (** that of the constructor of [acceptor] *)

(** The calls of a user's callback. *)
Inductive user_call : Type :=
| CallReadSome (sk : nat) (buf : span) (k : nat)
| CallRead (sk : nat) (buf : span) (k : nat)
| CallWrite (sk : nat) (buf : span) (k : nat)
| CallAccept (acc sk : nat) (k : nat).

Abbreviation memory_t := (gmap nat (list byte)).

Record application (B : Type) : Type := mk_app {
  mngr : tcb_manager B;
  tasks : list (two_ends_t * task);    (** the posted closures of the blocks *)
  io_cbs : list io_cb;                 (** the closures the blocks know by number *)
  conn_cbs : list conn_cb;
  sockets : gmap nat socket;
  acceptors : gmap nat (list (nat * done_cb)); (** the queue of each: socket and callback *)
  memory : memory_t;
  allocated : nat;                     (** the number of the next [make_shared] *)
}.
Arguments mk_app {B}. Arguments mngr {B}. Arguments tasks {B}. Arguments io_cbs {B}.
Arguments conn_cbs {B}. Arguments sockets {B}. Arguments acceptors {B}.
Arguments memory {B}. Arguments allocated {B}.

Inductive app_event : Type :=
| AppBase (ev : base_event tcp_packet)                       (** the manager's *)
| AppPost (te : two_ends_t) (t : task)                       (** a block posts a closure *)
| AppIo (k : nat) (ec : bool) (nbytes : Z) (mem : memory_t)  (** a user's callback is called, *)
| AppDone (k : nat) (ec : bool)                              (** and finds this memory *)
| AppPrint (msg : list byte).                                (** the lines on [std::cout] *)

(** ** Memory *)

(** [std::copy] into a span; [data] of a span. *)
Definition fill (sp : span) (bs : list byte) (mem : memory_t) : memory_t :=
  alter (λ l, take (Z.to_nat (sp_off sp)) l ++ bs ++
              drop (Z.to_nat (sp_off sp) + length bs) l) (sp_buf sp) mem.
Definition contents (mem : memory_t) (sp : span) : result (list byte) :=
  match mem !! sp_buf sp with
  | Some l => subspan (sp_off sp) (sp_size sp) l
  | None => Fault Dangling
  end.

(** [buf.subspan(n)]; for [n] up to [buf.size()], which its caller ensures. *)
Definition sp_from (n : Z) (sp : span) : span :=
  mk_span (sp_buf sp) (sp_off sp + n) (sp_size sp - n).

Section App.
Context `{Hh : Host} {B : Type} `{Hc : CircularBuffer B}.
Implicit Types a : application B.

Definition set_mngr m a : application B :=
  mk_app m (tasks a) (io_cbs a) (conn_cbs a) (sockets a) (acceptors a) (memory a) (allocated a).
Definition set_tasks q a : application B :=
  mk_app (mngr a) q (io_cbs a) (conn_cbs a) (sockets a) (acceptors a) (memory a) (allocated a).
Definition set_io_cbs l a : application B :=
  mk_app (mngr a) (tasks a) l (conn_cbs a) (sockets a) (acceptors a) (memory a) (allocated a).
Definition set_conn_cbs l a : application B :=
  mk_app (mngr a) (tasks a) (io_cbs a) l (sockets a) (acceptors a) (memory a) (allocated a).
Definition set_sockets s a : application B :=
  mk_app (mngr a) (tasks a) (io_cbs a) (conn_cbs a) s (acceptors a) (memory a) (allocated a).
Definition set_acceptors q a : application B :=
  mk_app (mngr a) (tasks a) (io_cbs a) (conn_cbs a) (sockets a) q (memory a) (allocated a).
Definition set_memory mem a : application B :=
  mk_app (mngr a) (tasks a) (io_cbs a) (conn_cbs a) (sockets a) (acceptors a) mem (allocated a).
Definition set_allocated n a : application B :=
  mk_app (mngr a) (tasks a) (io_cbs a) (conn_cbs a) (sockets a) (acceptors a) (memory a) n.

Abbreviation AM := (M (application B) app_event).

(** ** The connection table, called by the application

    What its blocks put out takes effect: a posted closure joins the queue,
    bytes for a reader go to memory. *)

Fixpoint absorb (es : list mgr_event) : AM unit :=
  match es with
  | [] => mret ()
  | MgrBase ev :: es => _ ← emit (AppBase ev); absorb es
  | MgrTcb te (EvPost t) :: es =>
      _ ← modify (λ a, set_tasks (tasks a ++ [(te, t)]) a);
      _ ← emit (AppPost te t); absorb es
  | MgrTcb _ (EvFill sp bs) :: es => _ ← modify (λ a, set_memory (fill sp bs (memory a)) a); absorb es
  | MgrTcb _ _ :: es => absorb es
  end.

Definition with_mngr {A} (op : M (tcb_manager B) mgr_event A) : AM A :=
  a ← get;
  '(x, m, es) ← lift (op (mngr a));
  _ ← modify (set_mngr m);
  _ ← absorb es;
  mret x.

(** A closure handed to a block gets the next number. *)
Definition register_io (cb : io_cb) : AM nat :=
  a ← get; _ ← modify (set_io_cbs (io_cbs a ++ [cb])); mret (length (io_cbs a)).
Definition register_conn (cb : conn_cb) : AM nat :=
  a ← get; _ ← modify (set_conn_cbs (conn_cbs a ++ [cb])); mret (length (conn_cbs a)).

(** [std::make_shared] *)
Definition allocate : AM nat :=
  a ← get; _ ← modify (set_allocated (S (allocated a))); mret (allocated a).

(** ** socket.cpp *)

(** The constructor; the port of [local_ep] is indeterminate. *)
Definition socket_new (junk_port : Z) : socket :=
  mk_socket kSocketDisconnected (mk_endpoint (Ipv4 0) junk_port) None.

(** A method of a socket that has been destroyed is undefined. *)
Definition this_socket (sk : nat) : AM socket :=
  a ← get; match sockets a !! sk with Some s => mret s | None => fail Dangling end.

(** [tcb.lock()]: the table is the only owner of a block. *)
Definition lock (p : option two_ends_t) : AM (option two_ends_t) :=
  a ← get; mret (te ← p; _ ← tcbs_ (mngr a) !! te; Some te).

(** [this->tcb.lock()] in a method of a socket. *)
Definition locked (sk : nat) : AM (option two_ends_t) := s ← this_socket sk; lock (sk_tcb s).

(** A method that may throw says so with the text of the exception, and with
    the state it leaves: what it did before stays done. *)
Definition not_connected : string := "endpoint is not connected".

(** The caller does not catch the exception. *)
Definition uncaught (m : AM (option string)) : AM unit :=
  thrown ← m; match thrown with Some what => fail (Thrown what) | None => mret () end.

Definition socket_async_connect (junk : indeterminate) (isn : Z) (ports : list Z)
    (moved : option nat → option nat) (sk : nat) (remote_ep : endpoint)
    (local_addr : ipv4_addr_t) (cb : done_cb) : AM unit :=
  n ← register_conn (SocketConnected sk cb);
  with_mngr (mgr_async_connect junk isn ports moved remote_ep local_addr (Some n)).

Definition try_async_read_some (sk : nat) (buf : span) (cb : io_cb) : AM (option string) :=
  sp ← locked sk;
  match sp with
  | Some te => n ← register_io cb; _ ← with_mngr (on_tcb te (async_read_some buf n)); mret None
  | None => mret (Some not_connected)
  end.

Definition try_async_read_complete (sk : nat) (buf : span) (cb : io_cb) : AM (option string) :=
  try_async_read_some sk buf (ReadComplete sk buf cb).

Definition try_async_read (sk : nat) (buf : span) (cb : io_cb) : AM (option string) :=
  try_async_read_complete sk buf (ReadAll (sp_size buf) cb).

Definition try_async_write (sk : nat) (buf : span) (cb : io_cb) : AM (option string) :=
  sp ← locked sk;
  match sp with
  | Some te =>
      n ← register_io cb;
      a ← get;
      bs ← lift (contents (memory a) buf);
      _ ← with_mngr (on_tcb te (async_write bs n)); mret None
  | None => mret (Some not_connected)
  end.

Definition try_async_write_some (sk : nat) (buf : span) (cb : io_cb) : AM (option string) :=
  try_async_write sk buf cb.

Definition try_remote_endpoint (sk : nat) : AM (string + endpoint) :=
  sp ← locked sk;
  a ← get;
  match te ← sp; tcbs_ (mngr a) !! te with
  | Some t => mret (inr (remote_ep_ t))
  | None => mret (inl not_connected)
  end.

(** The methods, as the closures of this file and of the user call them. *)
Definition socket_async_read_some (sk : nat) (buf : span) (cb : io_cb) : AM unit :=
  uncaught (try_async_read_some sk buf cb).
Definition async_read_complete (sk : nat) (buf : span) (cb : io_cb) : AM unit :=
  uncaught (try_async_read_complete sk buf cb).
Definition socket_async_read (sk : nat) (buf : span) (cb : io_cb) : AM unit :=
  uncaught (try_async_read sk buf cb).
Definition socket_async_write (sk : nat) (buf : span) (cb : io_cb) : AM unit :=
  uncaught (try_async_write sk buf cb).

(** ** acceptor.cpp *)

Definition acceptor_new (matcher : endpoint → endpoint → bool) (acc : nat) : AM unit :=
  _ ← modify (λ a, set_acceptors (<[acc := []]> (acceptors a)) a);
  n ← register_conn (AcceptorRule acc);
  with_mngr (rule_insert_back matcher n).

Definition acceptor_new_at (local_ep : endpoint) (acc : nat) : AM unit :=
  acceptor_new (λ _ local_ep', bool_decide (local_ep = local_ep')) acc.

Definition async_accept (acc sk : nat) (cb : done_cb) : AM unit :=
  a ← get;
  match acceptors a !! acc with
  | Some cbs => modify (λ a, set_acceptors (<[acc := cbs ++ [(sk, cb)]]> (acceptors a)) a)
  | None => fail Dangling
  end.

(** ** main.cpp *)

Definition echo_size : Z := 2000.

Definition async_read_and_echo (sk buf : nat) : AM unit :=
  socket_async_read_some sk (mk_span buf 0 echo_size) (EchoRead sk buf).

(** [junk_port]: the indeterminate port of the new socket. *)
Definition do_accept (junk_port : Z) (acc : nat) : AM unit :=
  sk ← allocate;
  _ ← modify (λ a, set_sockets (<[sk := socket_new junk_port]> (sockets a)) a);
  async_accept acc sk (EchoAccepted acc sk).

(** ** Calling closures *)

Definition run_user_call (c : user_call) : AM unit :=
  match c with
  | CallReadSome sk buf k => socket_async_read_some sk buf (UserIo k)
  | CallRead sk buf k => socket_async_read sk buf (UserIo k)
  | CallWrite sk buf k => socket_async_write sk buf (UserIo k)
  | CallAccept acc sk k => async_accept acc sk (UserDone k)
  end.

Fixpoint run_user_calls (calls : list user_call) : AM unit :=
  match calls with
  | [] => mret ()
  | c :: calls => _ ← run_user_call c; run_user_calls calls
  end.

Fixpoint run_io (cb : io_cb) (ec : bool) (nbytes : Z) (calls : list user_call) : AM unit :=
  match cb with
  | UserIo k =>
      a ← get;
      _ ← emit (AppIo k ec nbytes (memory a));
      run_user_calls calls
  | ReadAll nbytesall cb => run_io cb ec (u64 (nbytesall - nbytes)) calls
  | ReadComplete sk buf cb =>
      if ec then run_io cb ec (u64 (sp_size buf - nbytes)) calls
      else if negb (nbytes <? sp_size buf) then run_io cb false 0 calls
      else async_read_complete sk (sp_from nbytes buf) cb
  | EchoRead sk buf =>
      if ec then mret () else
      a ← get;
      msg ← lift (contents (memory a) (mk_span buf 0 nbytes));
      _ ← emit (AppPrint msg);
      socket_async_write sk (mk_span buf 0 nbytes) (EchoWritten sk buf)
  | EchoWritten sk buf =>
      if ec then mret () else async_read_and_echo sk buf
  end.

Definition run_done (junk_port : Z) (cb : done_cb) (ec : bool) (calls : list user_call) : AM unit :=
  match cb with
  | UserDone k => _ ← emit (AppDone k ec); run_user_calls calls
  | EchoAccepted acc sk =>
      if ec then mret () else
      buf ← allocate;
      _ ← modify (λ a, set_memory (<[buf := replicate (Z.to_nat echo_size) Byte.x00]> (memory a)) a);
      _ ← async_read_and_echo sk buf;
      do_accept junk_port acc
  end.

(** [this->local_ep = local_ep; this->tcb = std::move(tcb);], and the same
    with [sk.state = kSocketConnected]. *)
Definition bind_socket (sk : nat) (st : option tcp_state) (local_ep : endpoint) (te : two_ends_t)
    : AM unit :=
  s ← this_socket sk;
  modify (λ a, set_sockets (<[sk := mk_socket (default (sk_state s) st) local_ep (Some te)]>
                              (sockets a)) a).

Definition run_conn (junk_port : Z) (cb : conn_cb) (ec : bool) (local_ep : endpoint)
    (te : two_ends_t) (calls : list user_call) : AM unit :=
  if ec then mret () else
  match cb with
  | SocketConnected sk cb =>
      _ ← bind_socket sk None local_ep te;
      run_done junk_port cb false calls
  | AcceptorRule acc =>
      a ← get;
      match acceptors a !! acc with
      | None => fail Dangling
      | Some [] => mret ()
      | Some ((sk, cb) :: cbs) =>
          _ ← modify (λ a, set_acceptors (<[acc := cbs]> (acceptors a)) a);
          _ ← bind_socket sk (Some kSocketConnected) local_ep te;
          run_done junk_port cb false calls
      end
  end.

(** A posted closure of the block of [te] ([run_task] with the closures of
    this file in place of the callbacks). *)
Definition exec (junk_port : Z) (te : two_ends_t) (t : task) (calls : list user_call) : AM unit :=
  a ← get;
  match t with
  | TaskReadDone n nbytes =>
      match io_cbs a !! n with
      | None => fail BadFunctionCall
      | Some cb => _ ← run_io cb false nbytes calls; with_mngr (on_tcb te make_and_send_pkt)
      end
  | TaskWriteDone n nbytes =>
      match io_cbs a !! n with
      | None => fail BadFunctionCall
      | Some cb => run_io cb false nbytes calls
      end
  | TaskDrain => with_mngr (on_tcb te (run_task TaskDrain []))
  | TaskEstablished =>
      match tcbs_ (mngr a) !! te with
      | None => fail Dangling
      | Some t =>
          match conn_cbs a !! on_connection_established_ t with
          | None => fail BadFunctionCall
          | Some cb => run_conn junk_port cb false (local_ep_ t) te calls
          end
      end
  end.

(** The [io_context] runs the closure posted first. *)
Definition run_next (junk_port : Z) (calls : list user_call) : AM unit :=
  a ← get;
  match tasks a with
  | [] => mret ()
  | (te, t) :: q => _ ← modify (set_tasks q); exec junk_port te t calls
  end.
End App.
