(* ===== verification/SocketFacts.v ===== *)
(** * Facts about sockets

    What an operation of a block does to the application's state, in one
    equation ([with_on_tcb]); spans and memory; and what a block in
    ESTABLISHED does with the next text of the stream. *)

From S2P Require Import Prelude Utils Skbuff Addr Headers TcpOptions CircularBuffer Tcb TcbFacts.
From S2P Require Import TcbSend TcbRecv TcbState BaseProtocol Packets TcbManager Socket.

(** ** Spans *)

Lemma subspan_in {A} off cnt (l : list A) :
  0 ≤ off → 0 ≤ cnt → off + cnt ≤ len l →
  subspan off cnt l = Ok (take (Z.to_nat cnt) (drop (Z.to_nat off) l)).
Proof.
  intros. unfold subspan. by replace ((0 <=? off) && (0 <=? cnt) && (off + cnt <=? len l))
    with true by lia.
Qed.

Lemma sp_from_0 sp : sp_from 0 sp = sp.
Proof. destruct sp. unfold sp_from. cbn. f_equal; lia. Qed.
Lemma sp_from_from n m sp : sp_from m (sp_from n sp) = sp_from (n + m) sp.
Proof. destruct sp. unfold sp_from. cbn. f_equal; lia. Qed.

(** The span lies inside a buffer. *)
Definition span_ok (mem : memory_t) (sp : span) : Prop :=
  0 ≤ sp_off sp ∧ 0 ≤ sp_size sp < 2 ^ 64 ∧
  ∃ l, mem !! sp_buf sp = Some l ∧ sp_off sp + sp_size sp ≤ len l.

(** The first [n] bytes of the span are [bs], [n] the length of [bs]. *)
Definition holds (mem : memory_t) (sp : span) (bs : list byte) : Prop :=
  contents mem (sp_take (len bs) sp) = Ok bs.

Lemma holds_nil mem sp : span_ok mem sp → holds mem sp [].
Proof.
  intros (Ho & Hs & l & Hl & Hin). unfold holds, contents. cbn. rewrite Hl.
  by rewrite subspan_in by lia.
Qed.

Lemma span_ok_from mem sp n : span_ok mem sp → 0 ≤ n ≤ sp_size sp → span_ok mem (sp_from n sp).
Proof.
  intros (? & ? & l & ? & ?) ?. unfold span_ok. cbn. split_and!; [lia|lia|lia|].
  exists l. split; [done|lia].
Qed.

Lemma fill_span_ok mem sp sp' bs :
  span_ok mem sp → span_ok mem sp' → len bs ≤ sp_size sp' → span_ok (fill sp' bs mem) sp.
Proof.
  intros (Ho & Hs & l & Hl & Hin) (Ho' & Hs' & l' & Hl' & Hin') Hbs. unfold span_ok, fill.
  split_and!; [done|lia|lia|]. destruct (decide (sp_buf sp = sp_buf sp')) as [E|Hne].
  - rewrite E in *. assert (l' = l) as -> by congruence. rewrite lookup_alter_eq, Hl. eexists. split; [done|].
    rewrite !length_app, length_take, length_drop. lia.
  - rewrite lookup_alter_ne by done. eauto.
Qed.

Lemma contents_all mem sp bs : holds mem sp bs → len bs = sp_size sp → contents mem sp = Ok bs.
Proof. unfold holds. intros H E. rewrite E in H. by destruct sp. Qed.

(** A copy behind what a span holds makes it hold both. *)
Lemma fill_holds mem sp g bs :
  span_ok mem sp → holds mem sp g → len g + len bs ≤ sp_size sp →
  holds (fill (sp_from (len g) sp) bs mem) sp (g ++ bs).
Proof.
  intros (Ho & Hs & l & Hl & Hin) Hg Hlen. unfold holds, contents, fill in *.
  cbn [sp_take sp_buf sp_off sp_size sp_from] in *.
  rewrite Hl in Hg. rewrite lookup_alter_eq, Hl. cbn -[take drop].
  apply subspan_Ok in Hg as (_ & _ & _ & Hg & _). rewrite Nat2Z.id in Hg.
  rewrite subspan_in by (rewrite ?length_app, ?length_take, ?length_drop; lia).
  f_equal. rewrite Nat2Z.id.
  rewrite drop_app_le by (rewrite length_take; lia).
  replace (Z.to_nat (sp_off sp + len g)) with (Z.to_nat (sp_off sp) + length g)%nat by lia.
  rewrite <- take_drop_commute, <- Hg, app_assoc. apply take_app_length'.
  by rewrite length_app.
Qed.

(** ** What reaches memory, and what is posted *)

Fixpoint fills (evs : list tcb_event) (mem : memory_t) : memory_t :=
  match evs with
  | [] => mem
  | EvFill sp bs :: evs => fills evs (fill sp bs mem)
  | _ :: evs => fills evs mem
  end.

(** The events an application sees: its callbacks and what is printed. *)
Definition visible (evs : list app_event) : list app_event :=
  List.filter (λ e, match e with AppBase _ | AppPost _ _ => false | _ => true end) evs.

Lemma visible_app e1 e2 : visible (e1 ++ e2) = visible e1 ++ visible e2.
Proof. apply List.filter_app. Qed.

(** What a block puts out, as the application hears of it. *)
Fixpoint posts_of (te : two_ends_t) (evs : list tcb_event) : list app_event :=
  match evs with
  | [] => []
  | EvEnqueue _ :: evs => AppBase BasePost :: posts_of te evs
  | EvPost t :: evs => AppPost te t :: posts_of te evs
  | _ :: evs => posts_of te evs
  end.

Lemma posts_of_invisible te evs : visible (posts_of te evs) = [].
Proof. by induction evs as [|[] evs IH]. Qed.

Section Facts.
Context `{Hh : Host} {B : Type} `{Hc : CircularBuffer B} `{Hs : !CircularBufferSpec B}.
Implicit Types (a : application B) (t : tcb_t B) (m : tcb_manager B).

(** The state after the block of [te] has become [t] and put out [evs]. *)
Definition advanced (te : two_ends_t) t (evs : list tcb_event) a : application B :=
  let m := mngr a in
  set_memory (fills evs (memory a)) (set_tasks (tasks a ++ (pair te <$> posted evs))
    (set_mngr (set_base (set_queue (packet_queue_ (mgr_base m) ++ packets evs) (mgr_base m))
      (set_tcbs (<[te := t]> (tcbs_ m)) m)) a)).

Lemma absorb_forward te evs a :
  absorb (as_mgr te <$> evs) a =
    Ok ((), set_memory (fills evs (memory a)) (set_tasks (tasks a ++ (pair te <$> posted evs)) a),
        posts_of te evs).
Proof.
  revert a. induction evs as [|ev evs IH]; intros a.
  { destruct a. cbn. by rewrite app_nil_r. }
  destruct ev as [p|t|sp bs|cb n|cb re le]; cbn [absorb fmap list_fmap as_mgr posts_of].
  - apply bind_emit, IH.
  - run. apply bind_emit. rewrite IH. cbn. by rewrite <- app_assoc.
  - run. by rewrite IH.
  - exact (IH a).
  - exact (IH a).
Qed.

(** An operation of a block, as an operation of the table, *)
Lemma on_tcb_run te t op t' evs m :
  tcbs_ m !! te = Some t → op t = Ok ((), t', evs) →
  on_tcb te op m =
    Ok ((), set_base (set_queue (packet_queue_ (mgr_base m) ++ packets evs) (mgr_base m))
              (set_tcbs (<[te := t']> (tcbs_ m)) m), as_mgr te <$> evs).
Proof.
  intros Ht E. unfold on_tcb. run. rewrite Ht, (bind_lift_Ok _ _ _ _ E). run. by rewrite forward_run.
Qed.
Lemma mgr_process_run junk isn pkt t t' evs m :
  tcbs_ m !! two_end_of pkt = Some t → process isn pkt t = Ok ((), t', evs) →
  mgr_process junk isn pkt m = on_tcb (two_end_of pkt) (process isn pkt) m.
Proof. intros Ht _. unfold mgr_process. rewrite bind_get. by rewrite Ht. Qed.

(** and of the application. *)
Lemma with_on_tcb_run te t op t' evs a :
  tcbs_ (mngr a) !! te = Some t → op t = Ok ((), t', evs) →
  with_mngr (on_tcb te op) a = Ok ((), advanced te t' evs a, posts_of te evs).
Proof.
  intros Ht E. unfold with_mngr. run. rewrite (bind_lift_Ok _ _ _ _ (on_tcb_run te t op t' evs _ Ht E)).
  cbv beta iota. run. rewrite (bind_run _ _ _ _ _ _ (absorb_forward te evs _)). cbn.
  by rewrite app_nil_r.
Qed.

Lemma with_on_tcb te t op t' evs a :
  tcbs_ (mngr a) !! te = Some t → op t = Ok ((), t', evs) →
  ∃ out, with_mngr (on_tcb te op) a = Ok ((), advanced te t' evs a, out) ∧ visible out = [].
Proof.
  intros Ht E. eexists. split; [by apply (with_on_tcb_run te t)|apply posts_of_invisible].
Qed.

Lemma with_on_tcb_fault te t op a f :
  tcbs_ (mngr a) !! te = Some t → op t = Fault f → with_mngr (on_tcb te op) a = Fault f.
Proof.
  intros Ht E. unfold with_mngr. run. apply bind_lift_Fault. unfold on_tcb. run. rewrite Ht.
  by apply bind_lift_Fault.
Qed.

(** A packet for a block that exists. *)
Lemma with_mgr_process junk isn pkt t t' evs a :
  tcbs_ (mngr a) !! two_end_of pkt = Some t → process isn pkt t = Ok ((), t', evs) →
  ∃ out, with_mngr (mgr_process junk isn pkt) a =
      Ok ((), advanced (two_end_of pkt) t' evs a, out) ∧ visible out = [].
Proof.
  intros Ht E. destruct (with_on_tcb _ t (process isn pkt) t' evs a Ht E) as (out & Eo & Hv).
  exists out. split; [|done]. rewrite <- Eo. unfold with_mngr. rewrite !bind_get.
  by rewrite (mgr_process_run junk isn pkt t t' evs).
Qed.

(** A socket that is connected reads and writes through its block. *)
Lemma locked_run sk so a :
  sockets a !! sk = Some so →
  locked sk a = Ok (te ← sk_tcb so; _ ← tcbs_ (mngr a) !! te; Some te, a, []).
Proof. intros Hsk. unfold locked, this_socket, lock, mbind, M_bind. cbn. by rewrite Hsk. Qed.

Lemma connected_run sk so te t a :
  sockets a !! sk = Some so → sk_tcb so = Some te → tcbs_ (mngr a) !! te = Some t →
  locked sk a = Ok (Some te, a, []).
Proof. intros Hsk Hte Ht. rewrite (locked_run sk so a Hsk), Hte. cbn. by rewrite Ht. Qed.

(** A method that does not throw is what it does. *)
Lemma uncaught_run (m : M (application B) app_event unit) a :
  uncaught (_ ← m; mret None) a = m a.
Proof.
  unfold uncaught, mbind, M_bind. destruct (m a) as [[[[] a1] es]|]; [|done]. cbn. by rewrite !app_nil_r.
Qed.

Lemma read_some_locked sk te sp cb a :
  locked sk a = Ok (Some te, a, []) →
  socket_async_read_some sk sp cb a =
    with_mngr (on_tcb te (async_read_some sp (length (io_cbs a)))) (set_io_cbs (io_cbs a ++ [cb]) a).
Proof.
  intros E. unfold socket_async_read_some, try_async_read_some.
  rewrite <- (uncaught_run (with_mngr _)). unfold uncaught at 1, mbind at 1, M_bind at 1.
  rewrite (bind_silent _ _ _ _ _ E). rewrite (bind_silent _ _ _ (length (io_cbs a)) (set_io_cbs (io_cbs a ++ [cb]) a));
    [reflexivity|unfold register_io; by run].
Qed.

Lemma write_locked sk te sp cb bs a :
  locked sk a = Ok (Some te, a, []) → contents (memory a) sp = Ok bs →
  socket_async_write sk sp cb a =
    with_mngr (on_tcb te (async_write bs (length (io_cbs a)))) (set_io_cbs (io_cbs a ++ [cb]) a).
Proof.
  intros E Hbs. unfold socket_async_write, try_async_write.
  rewrite <- (uncaught_run (with_mngr _)). unfold uncaught at 1, mbind at 1, M_bind at 1.
  rewrite (bind_silent _ _ _ _ _ E). rewrite (bind_silent _ _ _ (length (io_cbs a)) (set_io_cbs (io_cbs a ++ [cb]) a));
    [|unfold register_io; by run].
  rewrite bind_get. change (memory (set_io_cbs _ a)) with (memory a). by rewrite (bind_lift_Ok _ _ _ _ Hbs).
Qed.
End Facts.

(** ** A socket connected to a block in ESTABLISHED *)

Section Open.
Context `{Hh : Host} {B : Type} `{Hc : CircularBuffer B} `{Hs : !CircularBufferSpec B}.
Implicit Types (a : application B) (t : tcb_t B) (sp : span).
Context (sk : nat) (te : two_ends_t).

Record open_at a t : Prop := {
  open_block : tcbs_ (mngr a) !! te = Some t;
  open_inv : tcb_inv t;
  open_state : state_ t = kTCPEstablished;
  open_socket : ∃ so, sockets a !! sk = Some so ∧ sk_tcb so = Some te;
}.

Lemma open_next a t : open_at a t → next_state_ t = kTCPEstablished.
Proof. intros [_ [_ Hst _ _] Est _]. rewrite Est in Hst. by destruct (next_state_ t). Qed.

Lemma open_queue a t : open_at a t → ∃ pq, send_pq (send_ t) = Some pq.
Proof. intros [_ [_ _ _ Hpq] Est _]. by rewrite Est in Hpq. Qed.

(** The state in which a block has advanced. *)
Lemma open_advanced a t t' evs :
  open_at a t → tcb_inv t' → state_ t' = kTCPEstablished → open_at (advanced te t' evs a) t'.
Proof. intros [Hb _ _ Hso] Hi Hst. split; [|done..]. cbn. apply lookup_insert_eq. Qed.

(** *** The next text arrives *)

Definition text_queued t (pq : B) hdr (text : list byte) : tcb_t B :=
  let t1 := after_ack t pq (ack_no hdr) in
  upd_rcv (set_rcv_pq (append_text text (rcv_pq (rcv_ t1)))) t1.

(** Nobody waits for it: it joins the queue. *)
Lemma arrive_queued junk isn a t pq pkt hdr text :
  is_u 32 isn → open_at a t → send_pq (send_ t) = Some pq → two_end_of pkt = te →
  next_segment t pkt hdr text → on_data_receive_ t = [] →
  let t' := text_queued t pq hdr text in
  ∃ out, with_mngr (mgr_process junk isn pkt) a = Ok ((), advanced te t' [] a, out) ∧
    visible out = [] ∧ open_at (advanced te t' [] a) t' ∧ buffered t' = buffered t ++ text.
Proof.
  intros Hisn Ho Hpq Hte Hseg Hnone t'. pose proof Ho as [Hb Hi Hst _].
  pose proof (process_next_text isn pkt hdr text t pq (inv_ok _ Hi) Hst Hpq Hseg) as E.
  pose proof (process_wp isn pkt t Hi Hisn) as Hkeep. unfold wp in Hkeep. rewrite E in Hkeep.
  pose proof Hseg as (_ & _ & _ & _ & _ & Hpos & Hseq & _ & Hwrap & Hfit).
  pose proof (inv_room _ Hi) as Hroom. unfold rcv_room in Hroom.
  assert (receive_text hdr text (after_ack t pq (ack_no hdr)) = Ok ((), t', [])) as Er.
  { apply receive_text_buffer; cbn; unfold buffered, cb_size in *; [lia|done|lia]. }
  rewrite Er in Hkeep, E. destruct Hkeep as (Hi' & _). rewrite <- Hte in Hb.
  destruct (with_mgr_process junk isn pkt t t' [] a Hb E) as (out & Ew & Hv).
  rewrite Hte in Ew. exists out. split_and!; [done|done|by eapply open_advanced|apply append_text_list].
Qed.

Definition text_delivered t (pq : B) hdr sp (text : list byte) : tcb_t B :=
  let t1 := after_ack t pq (ack_no hdr) in
  upd_rcv (set_rcv_pq (leftover (drop (Z.to_nat (sp_size sp)) text) (rcv_pq (rcv_ t1))))
    (upd_rcv (λ x, set_rcv_next (u32 (rcv_next x + len (filled sp text))) x)
       (set_on_data_receive [] t1)).

(** A reader waits: it gets what its span holds, the queue the rest. *)
Lemma process_delivered isn a t pq pkt hdr text sp n :
  is_u 32 isn → open_at a t → send_pq (send_ t) = Some pq → next_segment t pkt hdr text →
  on_data_receive_ t = [(sp, n)] → buffered t = [] → 0 ≤ sp_size sp →
  let t' := text_delivered t pq hdr sp text in
  let part := filled sp text in
  let evs := [EvFill (sp_take (len part) sp) part; EvPost (TaskReadDone n (len part))] in
  process isn pkt t = Ok ((), t', evs) ∧ open_at (advanced te t' evs a) t' ∧
  buffered t' = drop (Z.to_nat (sp_size sp)) text.
Proof.
  intros Hisn Ho Hpq Hseg Hwait Hnil Hsp t' part evs. pose proof Ho as [Hb Hi Hst _].
  pose proof (process_next_text isn pkt hdr text t pq (inv_ok _ Hi) Hst Hpq Hseg) as E.
  pose proof (process_wp isn pkt t Hi Hisn) as Hkeep. unfold wp in Hkeep. rewrite E in Hkeep.
  pose proof Hseg as (_ & _ & _ & _ & _ & Hpos & Hseq & _).
  assert (receive_text hdr text (after_ack t pq (ack_no hdr)) = Ok ((), t', evs)) as Er.
  { apply receive_text_deliver; [cbn; lia|done..]. }
  rewrite Er in Hkeep, E. destruct Hkeep as (Hi' & _).
  split_and!; [done|by eapply open_advanced|by apply leftover_list].
Qed.

Lemma arrive_delivered junk isn a t pq pkt hdr text sp n :
  is_u 32 isn → open_at a t → send_pq (send_ t) = Some pq → two_end_of pkt = te →
  next_segment t pkt hdr text → on_data_receive_ t = [(sp, n)] → buffered t = [] → 0 ≤ sp_size sp →
  let t' := text_delivered t pq hdr sp text in
  let part := filled sp text in
  let evs := [EvFill (sp_take (len part) sp) part; EvPost (TaskReadDone n (len part))] in
  ∃ out, with_mngr (mgr_process junk isn pkt) a = Ok ((), advanced te t' evs a, out) ∧
    visible out = [] ∧ open_at (advanced te t' evs a) t' ∧
    buffered t' = drop (Z.to_nat (sp_size sp)) text.
Proof.
  intros Hisn Ho Hpq Hte Hseg Hwait Hnil Hsp t' part evs.
  destruct (process_delivered isn a t pq pkt hdr text sp n) as (E & Ho' & Hb'); [done..|].
  pose proof (open_block _ _ Ho) as Hb. rewrite <- Hte in Hb.
  destruct (with_mgr_process junk isn pkt t t' evs a Hb E) as (out & Ew & Hv).
  rewrite Hte in Ew. by exists out.
Qed.

(** *** The socket reads *)

(** Nothing has arrived: the read waits. *)
Lemma read_waits a t sp cb :
  open_at a t → on_data_receive_ t = [] → buffered t = [] → 0 ≤ sp_size sp →
  let n := length (io_cbs a) in
  let t' := set_on_data_receive [(sp, n)] t in
  let a' := advanced te t' [] (set_io_cbs (io_cbs a ++ [cb]) a) in
  socket_async_read_some sk sp cb a = Ok ((), a', []) ∧ open_at a' t' ∧ io_cbs a' !! n = Some cb.
Proof.
  intros Ho Hnone Hnil Hsp n t' a'. pose proof Ho as [Hb Hi Hst (so & Hso & Hte)].
  set (a1 := set_io_cbs (io_cbs a ++ [cb]) a).
  assert (async_read_some sp n t = Ok ((), t', [])) as E.
  { unfold async_read_some. run. cbv zeta. unfold cb_empty, cb_size.
    unfold buffered in Hnil. rewrite Hnil.
    transitivity (Ok ((), set_on_data_receive (on_data_receive_ t ++ [(sp, n)]) t, [] : list tcb_event));
      [done|]. by rewrite Hnone. }
  pose proof (async_read_wp sp n t Hi Hsp) as Hkeep. unfold wp in Hkeep. rewrite E in Hkeep.
  destruct Hkeep as (Hi' & _).
  split; [|split].
  - rewrite (read_some_locked sk te sp cb a (connected_run sk so te t a Hso Hte Hb)).
    exact (with_on_tcb_run te t _ _ _ a1 Hb E).
  - apply (open_advanced a1 t); [|done..]. split; eauto.
  - cbn. unfold n. by rewrite lookup_app_r, Nat.sub_diag by lia.
Qed.

Definition text_read t sp : tcb_t B :=
  let part := filled sp (buffered t) in
  upd_rcv (λ x, set_rcv_next (u32 (rcv_next x + len part)) x)
    (upd_rcv (set_rcv_pq (cb_erase_begin (len part) (rcv_pq (rcv_ t)))) t).

(** Something has: it is copied, and the completion posted. *)
Lemma read_copies a t sp cb :
  open_at a t → on_data_receive_ t = [] → buffered t ≠ [] → 0 ≤ sp_size sp →
  let n := length (io_cbs a) in
  let t' := text_read t sp in
  let part := filled sp (buffered t) in
  let evs := [EvFill (sp_take (len part) sp) part; EvPost (TaskReadDone n (len part))] in
  let a' := advanced te t' evs (set_io_cbs (io_cbs a ++ [cb]) a) in
  ∃ out, socket_async_read_some sk sp cb a = Ok ((), a', out) ∧ visible out = [] ∧
    open_at a' t' ∧ io_cbs a' !! n = Some cb ∧ buffered t' = drop (length part) (buffered t).
Proof.
  intros Ho Hnone Hne Hsp n t' part evs a'. pose proof Ho as [Hb Hi Hst (so & Hso & Hte)].
  set (a1 := set_io_cbs (io_cbs a ++ [cb]) a).
  pose proof (async_read_some_run t sp n Hsp Hne) as E. fold part in E.
  pose proof (async_read_wp sp n t Hi Hsp) as Hkeep. unfold wp in Hkeep. rewrite E in Hkeep.
  destruct Hkeep as (Hi' & _).
  destruct (with_on_tcb te t _ _ _ a1 Hb E) as (out & Ew & Hv). exists out.
  split; [|split; [done|split; [|split]]].
  - by rewrite (read_some_locked sk te sp cb a (connected_run sk so te t a Hso Hte Hb)).
  - apply (open_advanced a1 t); [|done..]. split; eauto.
  - cbn. unfold n. by rewrite lookup_app_r, Nat.sub_diag by lia.
  - unfold buffered, t', text_read. cbn. fold part. rewrite cb_erase_begin_list; [by rewrite Nat2Z.id|].
    unfold part, filled, buffered, cb_size. rewrite length_take. lia.
Qed.

(** What a read takes of the queue, and what it leaves. *)
Lemma filled_rest sp bs : filled sp bs ++ drop (length (filled sp bs)) bs = bs.
Proof.
  unfold filled. rewrite length_take.
  destruct (Nat.min_spec (Z.to_nat (sp_size sp)) (length bs)) as [[? ->]|[? ->]]; [apply take_drop|].
  rewrite take_ge, drop_ge by lia. apply app_nil_r.
Qed.

Lemma filled_length sp bs : 0 ≤ sp_size sp → len (filled sp bs) ≤ sp_size sp.
Proof. intros. unfold filled. rewrite length_take. lia. Qed.

(** *** The socket writes *)

(** The bytes join the send queue; the loop and the completion are posted. *)
Lemma write_starts a t pq sp bs cb :
  open_at a t → send_pq (send_ t) = Some pq → contents (memory a) sp = Ok bs →
  cb_size pq + len bs ≤ cb_capacity pq →
  let k := length (io_cbs a) in
  let t' := upd_send (set_send_pq (cb_insert_end bs pq)) t in
  let evs := [EvPost TaskDrain; EvPost (TaskWriteDone k (len bs))] in
  let a' := advanced te t' evs (set_io_cbs (io_cbs a ++ [cb]) a) in
  socket_async_write sk sp cb a = Ok ((), a', posts_of te evs) ∧ open_at a' t'.
Proof.
  intros Ho Hpq Hbs Hfit k t' evs a'. pose proof Ho as [Hb Hi Hst (so & Hso & Hte)].
  set (a1 := set_io_cbs (io_cbs a ++ [cb]) a).
  destruct (async_write_run t pq bs k (inv_ok _ Hi) Hpq Hfit) as (Ewr & _).
  fold t' evs in Ewr. pose proof (async_write_wp bs k t Hi) as Hkeep. unfold wp in Hkeep.
  rewrite Ewr in Hkeep. destruct Hkeep as (Hi1 & _). split.
  - rewrite (write_locked sk te sp cb bs a (connected_run sk so te t a Hso Hte Hb) Hbs).
    exact (with_on_tcb_run te t _ _ _ a1 Hb Ewr).
  - apply (open_advanced a1 t); [|done..]. split; eauto.
Qed.

(** *** The block sends *)

Lemma open_sends a t pq :
  open_at a t → send_pq (send_ t) = Some pq →
  let n := next_len t pq in
  ∃ p, with_mngr (on_tcb te make_and_send_pkt) a =
      Ok ((), advanced te (after_packet t n) [EvEnqueue p] a, posts_of te [EvEnqueue p]) ∧
    open_at (advanced te (after_packet t n) [EvEnqueue p] a) (after_packet t n) ∧
    packet_of t (out_header t n) (take (Z.to_nat n) (unsent t pq)) p.
Proof.
  intros Ho Hpq n. pose proof Ho as [Hb Hi Hst _].
  destruct (make_and_send_pkt_run t pq (inv_ok _ Hi) Hpq) as (p & E & Hp).
  assert (tcb_inv (after_packet t n)) as Hi'.
  { apply (keeps_packet t _ p); [done|by rewrite Hst|].
    eapply packet_of_outgoing; [exact Hp|]. destruct (inv_ok _ Hi) as (_ & _ & (_ & _ & _ & Hm & _) & _).
    unfold is_u in Hm. rewrite length_take. unfold next_len. lia. }
  exists p. split; [by apply (with_on_tcb_run te t)|]. split; [|done].
  apply (open_advanced a t); [done|done|cbn; by eapply open_next].
Qed.
End Open.

(** ** A concrete application *)

Definition test_te : two_ends_t := mk_two_ends (test_ep 167772162 4096) (test_ep 167772161 80).

(** The socket 0, connected to a block that expects the sequence number
    5000, and the buffer 9 of four bytes. *)
Definition test_app (io : list io_cb) (q : list (two_ends_t * task)) (t : tcb_t reserve_buffer)
    (buf : list byte) : application reserve_buffer :=
  mk_app (mk_manager (mk_base true []) [] {[test_te := t]}) q io []
    {[0%nat := mk_socket kSocketConnected (test_ep 167772161 80) (Some test_te)]} ∅
    {[9%nat := buf]} 10.

Definition test_block (waiting : list (span * nat)) (queue : list byte) : tcb_t reserve_buffer :=
  mk_tcb (test_ep 167772162 4096) (test_ep 167772161 80) kTCPEstablished kTCPEstablished 0 waiting
    (mk_send 5000 5000 100 1446 (Some (mk_reserve [] 100)))
    (mk_receive 5000 rcv_window_init 1446 (mk_reserve queue (Z.to_nat 64240))).

Lemma test_open_at io q w queue buf :
  open_at 0 test_te (test_app io q (test_block w queue) buf) (test_block w queue).
Proof.
  split; [done| |done|by eexists]. split; [test_ok|done| |by eexists].
  change (64240 ≤ len queue + Z.of_nat (Z.to_nat 64240)). lia.
Qed.
