(* ===== verification/SocketRead.v ===== *)
(** * [socket::async_read] refines an exact read

    [async_read] of a socket reads again, from inside its own completion
    handler, until the buffer is full.  Its contract: one call of the
    callback, when the buffer is full, with its size, and the buffer holds
    the next bytes of the stream.  [reader_step] is that contract as an
    abstract machine; the simulation relation is [reads]. *)

From S2P Require Import Prelude Utils Skbuff Addr Headers TcpOptions CircularBuffer Tcb TcbFacts.
From S2P Require Import TcbSend TcbRecv TcbState BaseProtocol Packets TcbManager Socket SocketFacts.

(** ** What happens to the connection of a socket *)

Inductive rd_op : Type :=
| OpArrive (pkt : tcp_packet) (hdr : tcp_header_t) (text : list byte) (** a packet arrives *)
| OpRead (sp : span) (k : nat)             (** the application calls [async_read] *)
| OpNext (next : option (span * nat)).     (** a posted closure runs; when it calls the
                                               application's callback, that may read again *)

(** ** The specification: an exact reader *)

Record reader : Type := mk_reader { unread : list byte; pending : option (span * nat) }.

Inductive reader_step : rd_op → reader → list app_event → reader → Prop :=
| ReaderArrive pkt hdr text bs p :
    reader_step (OpArrive pkt hdr text) (mk_reader bs p) [] (mk_reader (bs ++ text) p)
| ReaderRead sp k bs :
    reader_step (OpRead sp k) (mk_reader bs None) [] (mk_reader bs (Some (sp, k)))
| ReaderBusy next r : reader_step (OpNext next) r [] r
| ReaderDone next bs sp k mem :
    sp_size sp ≤ len bs → contents mem sp = Ok (take (Z.to_nat (sp_size sp)) bs) →
    reader_step (OpNext next) (mk_reader bs (Some (sp, k))) [AppIo k false (sp_size sp) mem]
      (mk_reader (drop (Z.to_nat (sp_size sp)) bs) next).

Inductive reader_run : list rd_op → reader → list app_event → reader → Prop :=
| ReaderNil r : reader_run [] r [] r
| ReaderCons o ops r1 e1 r2 e2 r3 :
    reader_step o r1 e1 r2 → reader_run ops r2 e2 r3 → reader_run (o :: ops) r1 (e1 ++ e2) r3.

(** ** The implementation *)

Section Read.
Context `{Hh : Host} {B : Type} `{Hc : CircularBuffer B} `{Hs : !CircularBufferSpec B}.
Implicit Types (a : application B) (t : tcb_t B) (sp : span) (k n : nat) (r : reader).

(** What does not matter: the memory of new blocks, initial sequence numbers
    of new connections, the port of new sockets. *)
Context (junk : indeterminate) (isn junk_port : Z) (Hisn : is_u 32 isn).
(** The socket and its connection. *)
Context (sk : nat) (te : two_ends_t).

Definition run_op (o : rd_op) : M (application B) app_event unit :=
  match o with
  | OpArrive pkt _ _ => with_mngr (mgr_process junk isn pkt)
  | OpRead sp k => socket_async_read sk sp (UserIo k)
  | OpNext next => run_next junk_port (match next with
      Some (sp, k) => [CallRead sk sp k] | None => [] end)
  end.
Fixpoint run_ops (ops : list rd_op) : M (application B) app_event unit :=
  match ops with
  | [] => mret ()
  | o :: ops => _ ← run_op o; run_ops ops
  end.

(** No read is outstanding. *)
Definition no_read a : Prop :=
  tasks a = [] ∧ ∀ t, tcbs_ (mngr a) !! te = Some t → on_data_receive_ t = [].

(** What is assumed of each event: packets bring the next text and fit the
    window, one read at a time, spans lie in memory. *)
Definition op_ok (o : rd_op) a : Prop :=
  match o with
  | OpArrive pkt hdr text =>
      two_end_of pkt = te ∧ ∃ t, tcbs_ (mngr a) !! te = Some t ∧ next_segment t pkt hdr text
  | OpRead sp _ => no_read a ∧ span_ok (memory a) sp
  | OpNext next => match next with Some (sp, _) => span_ok (memory a) sp | None => True end
  end.
Fixpoint ops_ok (ops : list rd_op) a : Prop :=
  match ops with
  | [] => True
  | o :: ops => op_ok o a ∧ match run_op o a with Ok (_, a', _) => ops_ok ops a' | Fault _ => True end
  end.

(** ** The simulation relation *)

(** The closure the block calls when it has read the part of [sp] behind
    the bytes [g]. *)
Definition rest_of sp k (g : list byte) : io_cb :=
  ReadComplete sk (sp_from (len g) sp) (ReadAll (sp_size sp) (UserIo k)).

Definition waiting a sp k (g : list byte) : Prop :=
  ∃ t n, open_at sk te a t ∧ on_data_receive_ t = [(sp_from (len g) sp, n)] ∧ tasks a = [] ∧
    io_cbs a !! n = Some (rest_of sp k g) ∧ buffered t = [].
Definition copied a sp k (g bs rest : list byte) : Prop :=
  ∃ t n, open_at sk te a t ∧ on_data_receive_ t = [] ∧ tasks a = [(te, TaskReadDone n (len bs))] ∧
    io_cbs a !! n = Some (rest_of sp k g) ∧ buffered t = rest.

Inductive reads a : reader → Prop :=
| ReadsIdle t :
    open_at sk te a t → on_data_receive_ t = [] → tasks a = [] → reads a (mk_reader (buffered t) None)
| ReadsWaiting sp k g :
    span_ok (memory a) sp → holds (memory a) sp g → len g < sp_size sp ∨ g = [] ∧ sp_size sp = 0 →
    waiting a sp k g → reads a (mk_reader g (Some (sp, k)))
| ReadsCopied sp k g bs rest :
    span_ok (memory a) sp → holds (memory a) sp (g ++ bs) → len (g ++ bs) ≤ sp_size sp →
    copied a sp k g bs rest → reads a (mk_reader ((g ++ bs) ++ rest) (Some (sp, k))).

(** ** One read of the rest of a buffer *)

Lemma reread a t sp k g :
  open_at sk te a t → on_data_receive_ t = [] → tasks a = [] →
  span_ok (memory a) sp → holds (memory a) sp g → len g ≤ sp_size sp →
  ∃ a' out, async_read_complete sk (sp_from (len g) sp) (ReadAll (sp_size sp) (UserIo k)) a =
      Ok ((), a', out) ∧ visible out = [] ∧ span_ok (memory a') sp ∧
    (buffered t = [] ∧ holds (memory a') sp g ∧ waiting a' sp k g ∨
     buffered t ≠ [] ∧
     let bs := filled (sp_from (len g) sp) (buffered t) in
     holds (memory a') sp (g ++ bs) ∧
     copied a' sp k g bs (drop (length bs) (buffered t))).
Proof.
  intros Ho Hnone Hq Hsp Hg Hlen. set (sub := sp_from (len g) sp).
  assert (0 ≤ sp_size sub) as Hsub by (cbn; lia).
  destruct (decide (buffered t = [])) as [Hnil|Hne].
  - destruct (read_waits sk te a t sub (rest_of sp k g) Ho Hnone Hnil Hsub) as (E & Ho' & Hcb).
    eexists _, []. split; [exact E|]. split; [done|]. split; [done|]. left. split; [done|].
    split; [done|]. eexists _, _. split; [exact Ho'|]. split; [done|]. cbn. by rewrite Hq.
  - destruct (read_copies sk te a t sub (rest_of sp k g) Ho Hnone Hne Hsub)
      as (out & E & Hv & Ho' & Hcb & Hbuf).
    set (bs := filled sub (buffered t)) in *.
    pose proof (filled_length sub (buffered t) Hsub) as Hbs. fold bs in Hbs.
    eexists _, out. split; [exact E|]. split; [done|]. split; [|right; split; [done|]; split].
    + change (span_ok (fill sub bs (memory a)) sp).
      apply fill_span_ok; [done|apply span_ok_from; [done|lia]|done].
    + change (holds (fill sub bs (memory a)) sp (g ++ bs)).
      apply fill_holds; [done|done|]. cbn in Hbs. lia.
    + eexists _, _. split; [exact Ho'|]. split; [done|]. cbn. rewrite Hq. by split_and!.
Qed.

(** ** The closing [make_and_send_pkt] changes nothing for the reader *)

Lemma send_open a t :
  open_at sk te a t → ∃ t' a' out,
    with_mngr (on_tcb te make_and_send_pkt) a = Ok ((), a', out) ∧ visible out = [] ∧
    open_at sk te a' t' ∧ on_data_receive_ t' = on_data_receive_ t ∧ buffered t' = buffered t ∧
    tasks a' = tasks a ∧ io_cbs a' = io_cbs a ∧ memory a' = memory a.
Proof.
  intros Ho. destruct (open_queue sk te a t Ho) as [pq Hpq].
  destruct (open_sends sk te a t pq Ho Hpq) as (p & Ew & Ho' & _).
  do 3 eexists. split; [exact Ew|]. split; [done|]. split; [exact Ho'|].
  split_and!; try done. cbn. by rewrite app_nil_r.
Qed.

Lemma send_copied a sp k g bs rest :
  copied a sp k g bs rest → ∃ a' out,
    with_mngr (on_tcb te make_and_send_pkt) a = Ok ((), a', out) ∧ visible out = [] ∧
    copied a' sp k g bs rest ∧ memory a' = memory a.
Proof.
  intros (t & n & Ho & Hn & Hq & Hcb & Hbuf).
  destruct (send_open a t Ho) as (t' & a' & out & Ew & Hv & Ho' & Hn' & Hb' & Hq' & Hc' & Hm').
  exists a', out. split_and!; try done. exists t', n. split_and!; congruence.
Qed.

Lemma send_reads a r :
  reads a r →
  ∃ a' out, with_mngr (on_tcb te make_and_send_pkt) a = Ok ((), a', out) ∧ visible out = [] ∧
    reads a' r.
Proof.
  intros [t Ho Hn Hq|sp k g Hsp Hg Hlen (t & n & Ho & Hn & Hq & Hcb & Hbuf)|
    sp k g bs rest Hsp Hg Hlen Hc'].
  - destruct (send_open a t Ho) as (t' & a' & out & Ew & Hv & Ho' & Hn' & Hb' & Hq' & _).
    exists a', out. split_and!; try done. rewrite <- Hb'. apply ReadsIdle; congruence.
  - destruct (send_open a t Ho) as (t' & a' & out & Ew & Hv & Ho' & Hn' & Hb' & Hq' & Hc' & Hm').
    exists a', out. split_and!; try done.
    apply ReadsWaiting; rewrite ?Hm'; [done..|]. exists t', n. split_and!; congruence.
  - destruct (send_copied _ _ _ _ _ _ Hc') as (a' & out & Ew & Hv & Hc2 & Hm').
    exists a', out. split_and!; try done. by apply ReadsCopied; rewrite ?Hm'.
Qed.

(** ** A packet arrives *)

Lemma arrive_step pkt hdr text a r :
  reads a r → op_ok (OpArrive pkt hdr text) a →
  ∃ a' out, run_op (OpArrive pkt hdr text) a = Ok ((), a', out) ∧ visible out = [] ∧
    reads a' (mk_reader (unread r ++ text) (pending r)).
Proof.
  intros Hr (Hte & t & Ht & Hseg). cbn [run_op].
  assert (∀ t0, open_at sk te a t0 → t0 = t) as Huniq by (intros t0 [Hb _ _ _]; congruence).
  assert (open_at sk te a t) as Hopen.
  { destruct Hr as [t0 Ho|? ? ? ? ? ? (t0 & ? & Ho & _)|? ? ? ? ? ? ? ? (t0 & ? & Ho & _)];
      by rewrite <- (Huniq _ Ho). }
  destruct (open_queue sk te a t Hopen) as [pq Hpq].
  destruct Hr as [t0 Ho Hn Hq|sp k g Hsp Hg Hlen (t0 & n & Ho & Hn & Hq & Hcb & Hbuf)|
    sp k g bs rest Hsp Hg Hlen (t0 & n & Ho & Hn & Hq & Hcb & Hbuf)];
    rewrite (Huniq _ Ho) in *; cbn [unread pending].
  - destruct (arrive_queued sk te junk isn a t pq pkt hdr text Hisn Hopen Hpq Hte Hseg Hn)
      as (out & Ew & Hv & Ho' & Hb').
    eexists _, out. split; [exact Ew|]. split; [done|]. rewrite <- Hb'. apply ReadsIdle; [done|done|].
    cbn. by rewrite Hq.
  - (* the text goes to the reader, what does not fit to the queue *)
    set (sub := sp_from (len g) sp) in *. set (part := filled sub text).
    assert (0 ≤ sp_size sub) as Hsub by (cbn; destruct Hlen as [|[-> ->]]; cbn; lia).
    destruct (arrive_delivered sk te junk isn a t pq pkt hdr text sub n Hisn Hopen Hpq Hte Hseg Hn Hbuf Hsub)
      as (out & Ew & Hv & Ho' & Hb').
    eexists _, out. split; [exact Ew|]. split; [done|].
    pose proof (filled_length sub text Hsub) as Hpart. fold part in Hpart.
    assert (g ++ text = (g ++ part) ++ drop (Z.to_nat (sp_size sub)) text) as ->.
    { rewrite <- app_assoc. f_equal. symmetry. apply take_drop. }
    apply ReadsCopied.
    + change (span_ok (fill sub part (memory a)) sp).
      apply fill_span_ok; [done|apply span_ok_from; [done|cbn in Hsub; lia]|done].
    + change (holds (fill sub part (memory a)) sp (g ++ part)). apply fill_holds; [done|done|].
      cbn in Hpart. lia.
    + rewrite length_app. cbn in Hpart. lia.
    + eexists _, n. split; [exact Ho'|]. split; [done|]. cbn. rewrite Hq. by split_and!.
  - destruct (arrive_queued sk te junk isn a t pq pkt hdr text Hisn Hopen Hpq Hte Hseg Hn)
      as (out & Ew & Hv & Ho' & Hb').
    eexists _, out. split; [exact Ew|]. split; [done|]. rewrite <- app_assoc.
    apply ReadsCopied; [done..|]. eexists _, n. split; [exact Ho'|]. split; [done|]. cbn. rewrite Hq.
    split_and!; [done|done|]. by rewrite Hb', Hbuf.
Qed.

(** ** The application reads *)

(** What [reread] leaves is related to a reader with a read pending. *)
Lemma reread_reads a t sp k g :
  open_at sk te a t → on_data_receive_ t = [] → tasks a = [] →
  span_ok (memory a) sp → holds (memory a) sp g → len g < sp_size sp ∨ g = [] ∧ sp_size sp = 0 →
  ∃ a' out, async_read_complete sk (sp_from (len g) sp) (ReadAll (sp_size sp) (UserIo k)) a =
      Ok ((), a', out) ∧ visible out = [] ∧
    reads a' (mk_reader (g ++ buffered t) (Some (sp, k))) ∧
    (buffered t = [] ∨
     let bs := filled (sp_from (len g) sp) (buffered t) in
     span_ok (memory a') sp ∧ holds (memory a') sp (g ++ bs) ∧ len (g ++ bs) ≤ sp_size sp ∧
     copied a' sp k g bs (drop (length bs) (buffered t))).
Proof.
  intros Ho Hn Hq Hsp Hg Hlen.
  assert (len g ≤ sp_size sp) as Hle by (destruct Hlen as [|[-> ->]]; [lia|done]).
  destruct (reread a t sp k g Ho Hn Hq Hsp Hg Hle)
    as (a' & out & E & Hv & Hsp' & [(Hb & Hg' & Hw)|(_ & Hg' & Hc')]);
    exists a', out; (split; [done|]); (split; [done|]).
  - rewrite Hb, app_nil_r. split; [by apply ReadsWaiting|by left].
  - cbv zeta. set (bs := filled _ _) in *.
    assert (len (g ++ bs) ≤ sp_size sp) as Hfit
      by (rewrite length_app; unfold bs, filled; rewrite length_take; cbn; lia).
    split; [|right; by split_and!].
    rewrite <- (filled_rest (sp_from (len g) sp) (buffered t)). fold bs.
    rewrite app_assoc. by apply ReadsCopied.
Qed.

Lemma user_reads a t sp k :
  open_at sk te a t → on_data_receive_ t = [] → tasks a = [] → span_ok (memory a) sp →
  ∃ a' out, socket_async_read sk sp (UserIo k) a = Ok ((), a', out) ∧ visible out = [] ∧
    reads a' (mk_reader (buffered t) (Some (sp, k))).
Proof.
  intros Ho Hn Hq Hsp.
  destruct (reread_reads a t sp k []) as (a' & out & E & Hv & Hr & _); try done.
  - by apply holds_nil.
  - destruct Hsp as (_ & ? & _). cbn. destruct (decide (sp_size sp = 0)); [by right|left; lia].
  - exists a', out. split_and!; try done. unfold socket_async_read. rewrite <- E.
    cbn [length]. by rewrite sp_from_0.
Qed.

(** ** A posted closure runs *)

Definition calls_of (next : option (span * nat)) : list user_call :=
  match next with Some (sp, k) => [CallRead sk sp k] | None => [] end.

Lemma run_copied next a sp k g bs rest :
  copied a sp k g bs rest →
  run_op (OpNext next) a =
    (run_io (rest_of sp k g) false (len bs) (calls_of next) ≫=
      λ _, with_mngr (on_tcb te make_and_send_pkt)) (set_tasks [] a).
Proof.
  intros (t & n & Ho & Hn & Hq & Hcb & Hbuf). cbn [run_op]. unfold run_next.
  rewrite bind_get, Hq, bind_modify. unfold exec. rewrite bind_get.
  change (io_cbs (set_tasks [] a)) with (io_cbs a). by rewrite Hcb.
Qed.

(** The buffer is full: the callback of the user is called. *)
Lemma copied_full next a sp k g bs rest :
  span_ok (memory a) sp → holds (memory a) sp (g ++ bs) → len (g ++ bs) = sp_size sp →
  copied a sp k g bs rest → op_ok (OpNext next) a →
  ∃ a' out mem, run_op (OpNext next) a = Ok ((), a', out) ∧
    visible out = [AppIo k false (sp_size sp) mem] ∧ contents mem sp = Ok (g ++ bs) ∧
    reads a' (mk_reader rest next).
Proof.
  intros Hsp Hg Hfull Hcop Hnext. rewrite (run_copied next _ _ _ _ _ _ Hcop).
  destruct Hcop as (t & n & [Hb Hi Hst Hso] & Hn & _ & _ & Hbuf). set (a1 := set_tasks [] a).
  assert (open_at sk te a1 t) as Ho1 by done.
  enough (∃ a2 out, run_user_calls (calls_of next) a1 = Ok ((), a2, out) ∧ visible out = [] ∧
    reads a2 (mk_reader rest next)) as (a2 & out & E & Hv & Hr).
  { destruct (send_reads a2 _ Hr) as (a3 & out3 & E3 & Hv3 & Hr3).
    exists a3, ((AppIo k false (sp_size sp) (memory a1) :: out) ++ out3), (memory a1).
    split; [|split; [|split; [by apply contents_all|done]]].
    - apply (bind_run_Ok _ _ _ () a2 (AppIo k false (sp_size sp) (memory a1) :: out)); [|done].
      cbn [run_io rest_of]. cbn [sp_size sp_from]. rewrite length_app in Hfull.
      replace (len bs <? sp_size sp - len g) with false by lia. cbn [negb].
      assert (u64 (sp_size sp - 0) = sp_size sp) as ->
        by (destruct Hsp as (_ & ? & _); rewrite Z.sub_0_r; by apply Z.mod_small).
      rewrite bind_get. by apply bind_emit.
    - rewrite visible_app, Hv3, app_nil_r.
      by apply (f_equal (cons (AppIo k false (sp_size sp) (memory a1)))). }
  unfold calls_of. destruct next as [[sp2 k2]|].
  - destruct (user_reads a1 t sp2 k2 Ho1 Hn) as (a2 & out & E & Hv & Hr); [done|done|].
    exists a2, out. rewrite <- Hbuf. split_and!; [|done|done]. cbn [run_user_calls run_user_call].
    rewrite (bind_run _ _ _ _ _ _ E). cbn. by rewrite app_nil_r.
  - exists a1, []. split_and!; try done. rewrite <- Hbuf. by apply ReadsIdle.
Qed.

(** It is not: the rest is read. *)
Lemma copied_more next a sp k g bs rest :
  span_ok (memory a) sp → holds (memory a) sp (g ++ bs) → len (g ++ bs) < sp_size sp →
  copied a sp k g bs rest →
  ∃ a' out, run_op (OpNext next) a = Ok ((), a', out) ∧ visible out = [] ∧
    reads a' (mk_reader ((g ++ bs) ++ rest) (Some (sp, k))) ∧
    (rest = [] ∨
     let bs' := filled (sp_from (len (g ++ bs)) sp) rest in
     span_ok (memory a') sp ∧ holds (memory a') sp ((g ++ bs) ++ bs') ∧
     len ((g ++ bs) ++ bs') ≤ sp_size sp ∧
     copied a' sp k (g ++ bs) bs' (drop (length bs') rest)).
Proof.
  intros Hsp Hg Hmore Hcop. rewrite (run_copied next _ _ _ _ _ _ Hcop).
  destruct Hcop as (t & n & [Hb Hi Hst Hso] & Hn & _ & _ & Hbuf). set (a1 := set_tasks [] a).
  assert (open_at sk te a1 t) as Ho1 by done.
  destruct (reread_reads a1 t sp k (g ++ bs)) as (a2 & out & E & Hv & Hr & Hcase); try done.
  { by left. }
  rewrite Hbuf in *.
  assert (run_io (rest_of sp k g) false (len bs) (calls_of next) a1 = Ok ((), a2, out)) as E1.
  { cbn [run_io rest_of]. cbn [sp_size sp_from]. rewrite length_app in Hmore.
    replace (len bs <? sp_size sp - len g) with true by lia. cbn [negb].
    by rewrite sp_from_from, <- Nat2Z.inj_add, <- length_app. }
  destruct Hcase as [->|(Hsp2 & Hg2 & Hl2 & Hc2)].
  - destruct (send_reads a2 _ Hr) as (a3 & out3 & E3 & Hv3 & Hr3). exists a3, (out ++ out3).
    split; [by apply (bind_run_Ok _ _ _ () a2 out)|]. rewrite visible_app, Hv, Hv3.
    split_and!; [done|done|by left].
  - destruct (send_copied _ _ _ _ _ _ Hc2) as (a3 & out3 & E3 & Hv3 & Hc3 & Hm3).
    exists a3, (out ++ out3). split; [by apply (bind_run_Ok _ _ _ () a2 out)|].
    rewrite visible_app, Hv, Hv3. cbv zeta. rewrite Hm3. split; [done|].
    split; [|right; by split_and!].
    rewrite <- (filled_rest (sp_from (len (g ++ bs)) sp) rest) at 1. rewrite app_assoc.
    apply ReadsCopied; rewrite ?Hm3; done.
Qed.

Lemma next_step next a r :
  reads a r → op_ok (OpNext next) a →
  ∃ a' out r', run_op (OpNext next) a = Ok ((), a', out) ∧
    reader_step (OpNext next) r (visible out) r' ∧ reads a' r'.
Proof.
  intros Hr Hnext.
  assert (tasks a = [] → ∃ a' out r', run_op (OpNext next) a = Ok ((), a', out) ∧
    reader_step (OpNext next) r (visible out) r' ∧ reads a' r') as Hidle.
  { intros Hq. exists a, [], r. cbn [run_op]. unfold run_next. rewrite bind_get, Hq.
    split_and!; try done. apply ReaderBusy. }
  destruct Hr as [t Ho Hn Hq|sp k g Hsp Hg Hlen (t & n & Ho & Hn & Hq & Hcb & Hbuf)|
    sp k g bs rest Hsp Hg Hlen Hcop]; [by apply Hidle..|].
  destruct (Z.lt_ge_cases (len (g ++ bs)) (sp_size sp)) as [Hmore|Hdone].
  - destruct (copied_more next a sp k g bs rest Hsp Hg Hmore Hcop) as (a' & out & E & Hv & Hr & _).
    do 3 eexists. split; [exact E|]. rewrite Hv. split; [apply ReaderBusy|done].
  - assert (len (g ++ bs) = sp_size sp) as Hfull by lia.
    destruct (copied_full next a sp k g bs rest Hsp Hg Hfull Hcop Hnext)
      as (a' & out & mem & E & Hv & Hc' & Hr).
    exists a', out, (mk_reader rest next). split; [done|]. split; [|done]. rewrite Hv.
    assert (rest = drop (Z.to_nat (sp_size sp)) ((g ++ bs) ++ rest)) as Hrest
      by (rewrite drop_app_length' by lia; done).
    rewrite Hrest at 2. apply ReaderDone; [rewrite (length_app (g ++ bs)); lia|].
    by rewrite take_app_length' by lia.
Qed.

Lemma read_step_sim sp k a r :
  reads a r → op_ok (OpRead sp k) a →
  ∃ a' out r', run_op (OpRead sp k) a = Ok ((), a', out) ∧
    reader_step (OpRead sp k) r (visible out) r' ∧ reads a' r'.
Proof.
  intros Hr [[Hq Hnone] Hsp2]. cbn [run_op].
  destruct Hr as [t Ho Hn _|sp' k' g Hsp Hg Hlen (t & n & Ho & Hn & _)|
    sp' k' g bs rest Hsp Hg Hlen (t & n & Ho & _ & Hq' & _)].
  - destruct (user_reads a t sp k Ho Hn Hq Hsp2) as (a' & out & E & Hv & Hr).
    do 3 eexists. split; [exact E|]. rewrite Hv. split; [apply ReaderRead|done].
  - destruct Ho as [Hb _ _ _]. specialize (Hnone t Hb). congruence.
  - congruence.
Qed.

Lemma op_step o a r :
  reads a r → op_ok o a →
  ∃ a' out r', run_op o a = Ok ((), a', out) ∧ reader_step o r (visible out) r' ∧ reads a' r'.
Proof.
  intros Hr Ho. destruct o as [pkt hdr text|sp k|next].
  - destruct (arrive_step pkt hdr text a r Hr Ho) as (a' & out & E & Hv & Hr').
    do 3 eexists. split; [exact E|]. rewrite Hv. split; [|exact Hr']. destruct r. apply ReaderArrive.
  - by apply read_step_sim.
  - by apply next_step.
Qed.

(** In a state without pending closures, a read that is pending lacks bytes. *)
Lemma reads_quiet a r :
  reads a r → tasks a = [] →
  match pending r with
  | Some (sp, _) => len (unread r) < sp_size sp ∨ sp_size sp = 0
  | None => True
  end.
Proof.
  intros [t Ho Hn _|sp k g Hsp Hg Hlen Hw|sp k g bs rest Hsp Hg Hlen (t & n & _ & _ & Hq' & _)] Hq;
    cbn; [done| |congruence].
  destruct Hlen as [?|[_ ?]]; [by left|by right].
Qed.

(** C14: [socket::async_read] refines an exact read.  Whatever the sizes of
    the segments and the interleaving of arrivals, reads and posted
    closures, no handler faults, and what the application sees is a run of
    the specification: the bytes that arrive are appended to the unread
    stream, and the callback of a read is called once, when the stream holds
    enough bytes, with the size of its buffer, at a moment when the buffer
    holds exactly the next bytes of the stream.  When no closure is pending,
    a read that is not answered lacks bytes. *)
Theorem async_read_refines ops a r :
  reads a r → ops_ok ops a →
  ∃ a' evs r', run_ops ops a = Ok ((), a', evs) ∧ reader_run ops r (visible evs) r' ∧
    reads a' r' ∧
    (tasks a' = [] → match pending r' with
       | Some (sp, _) => len (unread r') < sp_size sp ∨ sp_size sp = 0
       | None => True
       end).
Proof.
  revert a r. induction ops as [|o ops IH]; intros a r Hr Hok.
  { exists a, [], r. split; [done|]. split; [apply ReaderNil|]. split; [done|].
    by apply reads_quiet. }
  destruct Hok as [Ho Hok]. destruct (op_step o a r Hr Ho) as (a1 & e1 & r1 & E1 & Hs1 & Hr1).
  rewrite E1 in Hok. destruct (IH a1 r1 Hr1 Hok) as (a2 & e2 & r2 & E2 & Hs2 & Hr2 & Hq).
  exists a2, (e1 ++ e2), r2. split; [by apply (bind_run_Ok _ _ _ () a1 e1)|].
  rewrite visible_app. split; [by eapply ReaderCons|]. done.
Qed.

(** C19: A read is answered as soon as the stream holds enough bytes: at most
    two posted closures later, without any further packet or call, the
    callback has been called, once, with the buffer full. *)
Theorem async_read_completes a bs sp k :
  reads a (mk_reader bs (Some (sp, k))) → 0 < sp_size sp ≤ len bs →
  ∃ a' evs mem, run_ops [OpNext None; OpNext None] a = Ok ((), a', evs) ∧
    visible evs = [AppIo k false (sp_size sp) mem] ∧
    contents mem sp = Ok (take (Z.to_nat (sp_size sp)) bs) ∧
    reads a' (mk_reader (drop (Z.to_nat (sp_size sp)) bs) None).
Proof.
  intros Hr Hsz. inversion Hr as [|sp' k' g Hsp Hg Hlen _|sp' k' g bs1 rest Hsp Hg Hlen Hcop];
    subst; [lia|].
  assert (∀ bs' a1 e1 rest, run_op (OpNext None) a = Ok ((), a1, e1) → visible e1 = [] →
    span_ok (memory a1) sp → ∀ g', holds (memory a1) sp (g' ++ bs') → len (g' ++ bs') = sp_size sp →
    copied a1 sp k g' bs' rest →
    ∃ a' evs mem, run_ops [OpNext None; OpNext None] a = Ok ((), a', evs) ∧
      visible evs = [AppIo k false (sp_size sp) mem] ∧
      contents mem sp = Ok (take (Z.to_nat (sp_size sp)) ((g' ++ bs') ++ rest)) ∧
      reads a' (mk_reader (drop (Z.to_nat (sp_size sp)) ((g' ++ bs') ++ rest)) None)) as Hlast.
  { intros bs' a1 e1 rest' E1 V1 Hsp1 g' Hg1 Hfull1 Hc1.
    destruct (copied_full None a1 sp k g' bs' rest' Hsp1 Hg1 Hfull1 Hc1 I)
      as (a2 & e2 & mem & E2 & V2 & Hcont & Hr2).
    exists a2, (e1 ++ e2), mem. rewrite take_app_length', drop_app_length' by lia.
    split_and!; [|by rewrite visible_app, V1, V2|done|done].
    apply (bind_run_Ok _ _ _ () a1 e1); [done|]. cbn [run_ops]. rewrite (bind_run _ _ _ _ _ _ E2).
    cbn. by rewrite app_nil_r. }
  destruct (Z.lt_ge_cases (len (g ++ bs1)) (sp_size sp)) as [Hmore|Hdone].
  - destruct (copied_more None a sp k g bs1 rest Hsp Hg Hmore Hcop)
      as (a1 & e1 & E1 & V1 & _ & [->|(Hsp1 & Hg1 & Hl1 & Hc1)]);
      [rewrite app_nil_r in Hsz; lia|].
    set (bs' := filled _ _) in *.
    assert (rest = bs' ++ drop (length bs') rest) as Hrest by (symmetry; apply filled_rest).
    assert (len ((g ++ bs1) ++ bs') = sp_size sp) as Hfull.
    { rewrite length_app in Hsz. rewrite length_app. unfold bs', filled. rewrite length_take. cbn. lia. }
    clearbody bs'. rewrite Hrest, app_assoc. by eapply Hlast.
  - destruct (copied_full None a sp k g bs1 rest Hsp Hg ltac:(lia) Hcop I)
      as (a1 & e1 & mem & E1 & V1 & Hcont & Hr1).
    rewrite take_app_length', drop_app_length' by lia.
    destruct (next_step None a1 _ Hr1 I) as (a2 & e2 & r2 & E2 & Hs2 & Hr2).
    assert (visible e2 = [] ∧ r2 = mk_reader rest None) as [V2 ->] by (by inversion Hs2).
    exists a2, (e1 ++ e2), mem. split_and!; [|by rewrite visible_app, V1, V2|done|done].
    apply (bind_run_Ok _ _ _ () a1 e1); [done|]. cbn [run_ops]. rewrite (bind_run _ _ _ _ _ _ E2).
    cbn. by rewrite app_nil_r.
Qed.
End Read.

(** ** Examples *)

(** A read of four bytes that has got one. *)
Definition test_span : span := mk_span 9 0 4.
Definition test_io : list io_cb := [rest_of 0 test_span 5 [Byte.x07]].
Definition test_text : list byte := [Byte.x01; Byte.x02; Byte.x03; Byte.x04].
Definition test_hdr : tcp_header_t := mk_tcp_header 4096 80 5000 5000 5 0 0 0 0 1 0 0 0 0 1000 0 0.

Lemma async_read_refines_witness :
  let H := test_host Little in
  let a := test_app test_io [] (test_block [(sp_from 1 test_span, 0%nat)] [])
    [Byte.x07; Byte.x00; Byte.x00; Byte.x00] in
  let ops := [OpArrive (test_packet test_hdr test_text) test_hdr test_text; OpNext None] in
  ∃ a' evs r', run_ops test_junk 0 0 0 ops a = Ok ((), a', evs) ∧
    reader_run ops (mk_reader [Byte.x07] (Some (test_span, 5%nat))) (visible evs) r' ∧
    reads 0 test_te a' r' ∧
    (tasks a' = [] → match pending r' with
       | Some (sp, _) => len (unread r') < sp_size sp ∨ sp_size sp = 0
       | None => True
       end).
Proof.
  intros H a ops. refine (async_read_refines test_junk 0 0 _ 0 test_te ops a _ _ _).
  - unfold is_u; lia.
  - apply ReadsWaiting; [|reflexivity|left; cbn; lia|].
    + unfold span_ok. cbn. split_and!; try lia. eexists. split; [reflexivity|cbn; lia].
    + eexists _, 0%nat. split; [apply test_open_at|]. done.
  - split; [split; [reflexivity|]|].
    + eexists. split; [reflexivity|]. split; [exists []; vm_compute; reflexivity|].
      split_and!; first [reflexivity | (cbn; lia) | (vm_compute; done)].
    + destruct (run_op _ _ _ _ _ _) as [[[u a1] e1]|]; [|exact I]. split; [exact I|].
      destruct (run_op _ _ _ _ _ a1) as [[[u' a2] e2]|]; exact I.
Defined.

Lemma async_read_completes_witness :
  let H := test_host Little in
  let a := test_app [rest_of 0 test_span 5 []] [(test_te, TaskReadDone 0 1)] (test_block [] test_text)
    [Byte.x07; Byte.x00; Byte.x00; Byte.x00] in
  ∃ a' evs mem, run_ops test_junk 0 0 0 [OpNext None; OpNext None] a = Ok ((), a', evs) ∧
    visible evs = [AppIo 5 false 4 mem] ∧
    contents mem test_span = Ok [Byte.x07; Byte.x01; Byte.x02; Byte.x03] ∧
    reads 0 test_te a' (mk_reader [Byte.x04] None).
Proof.
  intros H a. refine (async_read_completes test_junk 0 0 0 test_te a (Byte.x07 :: test_text) test_span 5 _ _).
  - apply (ReadsCopied 0 test_te a test_span 5 [] [Byte.x07] test_text); [|reflexivity|cbn; lia|].
    + unfold span_ok. cbn. split_and!; try lia. eexists. split; [reflexivity|cbn; lia].
    + eexists _, 0%nat. split; [apply test_open_at|]. done.
  - cbn; lia.
Defined.
