(* ===== verification/Echo.v ===== *)
(** * main.cpp: the echo server echoes

    [async_read_and_echo] keeps one closure in flight: what a read brought is
    written back, and when the write is done the next read starts.  Whatever
    the interleaving of packets and posted closures, the bytes that go out on
    the connection are the bytes that came in, in order. *)

From S2P Require Import Prelude Utils Skbuff Addr Headers TcpOptions CircularBuffer Tcb TcbFacts.
From S2P Require Import TcbSend TcbRecv TcbState BaseProtocol Packets TcbManager Socket SocketFacts.

(** ** The bytes on the wire *)

Section Wire.
Context `{Hh : Host} {B : Type} `{Hc : CircularBuffer B} `{Hs : !CircularBufferSpec B}.
Implicit Types (a : application B) (t : tcb_t B).

(** The text of a packet. *)
Definition packet_text (p : tcp_packet) : list byte :=
  match parse_segment (tp_skb p) with Ok (_, _, text) => text | Fault _ => [] end.

(** The text of all packets the connection table has queued. *)
Definition wire a : list byte := concat (packet_text <$> packet_queue_ (mgr_base (mngr a))).

(** What was printed. *)
Fixpoint printed (evs : list app_event) : list byte :=
  match evs with
  | [] => []
  | AppPrint msg :: evs => msg ++ printed evs
  | _ :: evs => printed evs
  end.

Lemma printed_app e1 e2 : printed (e1 ++ e2) = printed e1 ++ printed e2.
Proof.
  induction e1 as [|ev e1 IH]; [done|]. destruct ev; cbn; by rewrite IH, ?app_assoc.
Qed.

Lemma printed_visible evs : printed (visible evs) = printed evs.
Proof. induction evs as [|ev evs IH]; [done|]. destruct ev; cbn; by rewrite <- ?IH. Qed.

Lemma printed_silent evs : visible evs = [] → printed evs = [].
Proof. intros E. by rewrite <- printed_visible, E. Qed.

Lemma wire_advanced te t evs a :
  wire (advanced te t evs a) = wire a ++ concat (packet_text <$> packets evs).
Proof. unfold wire. cbn. by rewrite fmap_app, concat_app. Qed.

Lemma packet_of_text t n seg p :
  tcb_ok t → packet_of t (out_header t n) seg p → len seg < 2 ^ 62 → packet_text p = seg.
Proof.
  intros Hok Hp Hl. unfold packet_text.
  by rewrite (parse_packet t (out_header t n) seg p Hp (out_header_ok _ _ Hok) eq_refl Hl).
Qed.

Lemma sent_text t nxt bytes evs :
  tcb_ok t → is_u 32 nxt → sent t nxt bytes evs → concat (packet_text <$> packets evs) = bytes.
Proof.
  intros Hok Hn Hsent. pose proof Hok as (_ & _ & (_ & _ & _ & Hm & _) & _).
  induction Hsent as [|nxt seg rest p evs Hne Hle _ Hp _ IH]; [done|].
  cbn. rewrite IH by apply u32_is_u. f_equal.
  apply (packet_of_text (upd_send (set_next nxt) t) (len seg)); [|done|unfold is_u in Hm; lia].
  destruct Hok as (? & ? & (? & ? & ? & ? & ?) & ?). unfold tcb_ok, send_ok; cbn -[is_u].
  by split_and!.
Qed.

(** The peer has acknowledged the SYN, and has an MSS. *)
Definition flow t (pq : B) : Prop :=
  send_pq (send_ t) = Some pq ∧ no_syn_in_flight t pq ∧ 0 < send_mss (send_ t).
End Wire.

(** ** The server *)

(** A packet of the connection arrives, or a posted closure runs. *)
Inductive echo_op : Type :=
| EchoArrive (pkt : tcp_packet) (hdr : tcp_header_t) (text : list byte)
| EchoNext.

Fixpoint arrived (ops : list echo_op) : list byte :=
  match ops with
  | [] => []
  | EchoArrive _ _ text :: ops => text ++ arrived ops
  | EchoNext :: ops => arrived ops
  end.

Section Echo.
Context `{Hh : Host} {B : Type} `{Hc : CircularBuffer B} `{Hs : !CircularBufferSpec B}.
Implicit Types (a : application B) (t : tcb_t B).
Context (junk : indeterminate) (isn junk_port : Z) (Hisn : is_u 32 isn).
(** The accepted socket, its connection and the buffer of the server. *)
Context (sk : nat) (te : two_ends_t) (buf : nat).

Definition run_echo_op (o : echo_op) : M (application B) app_event unit :=
  match o with
  | EchoArrive pkt _ _ => with_mngr (mgr_process junk isn pkt)
  | EchoNext => run_next junk_port []
  end.
Fixpoint run_echo (ops : list echo_op) : M (application B) app_event unit :=
  match ops with
  | [] => mret ()
  | o :: ops => _ ← run_echo_op o; run_echo ops
  end.

(** Packets bring the next text and fit the window; what was read fits the
    send queue, whose capacity is the window the peer announced. *)
Definition echo_ok (o : echo_op) a : Prop :=
  match o with
  | EchoArrive pkt hdr text =>
      two_end_of pkt = te ∧ ∃ t, tcbs_ (mngr a) !! te = Some t ∧ next_segment t pkt hdr text
  | EchoNext =>
      ∀ n m q t pq, tasks a = (te, TaskReadDone n m) :: q → tcbs_ (mngr a) !! te = Some t →
        send_pq (send_ t) = Some pq → cb_size pq + m ≤ cb_capacity pq
  end.
Fixpoint all_ok (ops : list echo_op) a : Prop :=
  match ops with
  | [] => True
  | o :: ops => echo_ok o a ∧ match run_echo_op o a with Ok (_, a', _) => all_ok ops a' | Fault _ => True end
  end.

(** *** Where the server is *)

Definition echo_span : span := mk_span buf 0 echo_size.

(** The bytes that have arrived and were not written back. *)
Inductive phase a t (un : list byte) : list byte → Prop :=
| Reading n :
    tasks a = [] → on_data_receive_ t = [(echo_span, n)] → io_cbs a !! n = Some (EchoRead sk buf) →
    buffered t = [] → un = [] → phase a t un []
| HasRead n bs :
    tasks a = [(te, TaskReadDone n (len bs))] → on_data_receive_ t = [] →
    io_cbs a !! n = Some (EchoRead sk buf) → holds (memory a) echo_span bs → un = [] →
    phase a t un (bs ++ buffered t)
| Writing n m :
    tasks a = [(te, TaskDrain); (te, TaskWriteDone n m)] → on_data_receive_ t = [] →
    io_cbs a !! n = Some (EchoWritten sk buf) → phase a t un (buffered t)
| Written n m :
    tasks a = [(te, TaskWriteDone n m)] → on_data_receive_ t = [] →
    io_cbs a !! n = Some (EchoWritten sk buf) → un = [] → phase a t un (buffered t).

(** [un]: what is written back and not yet sent; [y]: what is not yet
    written back. *)
Definition echoing a (un y : list byte) : Prop :=
  ∃ t pq, open_at sk te a t ∧ flow t pq ∧ un = unsent t pq ∧ span_ok (memory a) echo_span ∧
    phase a t un y.

(** What the server does not look at. *)
Lemma echoing_frame a b un y :
  echoing a un y → mngr b = mngr a → tasks b = tasks a → io_cbs b = io_cbs a →
  memory b = memory a → sockets b !! sk = sockets a !! sk → echoing b un y.
Proof.
  intros (t & pq & [Hb Hi Hst Hso] & Hflow & Hu & Hsp & Hph) Em Et Ei Ey Es.
  exists t, pq. rewrite Ey. split; [split; rewrite ?Em, ?Es; done|]. split_and!; try done.
  destruct Hph as [n ? ? ? ? ?|n bs ? ? ? ? ?|n m ? ? ?|n m ? ? ? ?];
    [eapply Reading|eapply HasRead|eapply Writing|eapply Written];
    rewrite ?Et, ?Ei, ?Ey; eauto.
Qed.

(** *** The steps *)

Lemma arrive_flow t pq ack :
  tcb_ok t → flow t pq → seq_nr_unack (send_ t) ≤ ack ≤ seq_nr_next (send_ t) →
  ∃ pq', ∀ t', send_ t' = send_ (after_ack t pq ack) → flow t' pq' ∧ unsent t' pq' = unsent t pq.
Proof.
  intros Hok (Hpq & Hf & Hm) Hack.
  destruct (after_ack_valid t pq ack Hok Hpq Hf Hack) as (pq' & Hpq' & _ & _ & Hu & Hf').
  exists pq'. intros t' E. unfold flow, unsent, unacked, no_syn_in_flight in *. rewrite E.
  by split_and!.
Qed.

Lemma arrive_echo pkt hdr text a un y :
  echoing a un y → echo_ok (EchoArrive pkt hdr text) a →
  ∃ a' out, run_echo_op (EchoArrive pkt hdr text) a = Ok ((), a', out) ∧ visible out = [] ∧
    echoing a' un (y ++ text) ∧ wire a' = wire a.
Proof.
  intros (t & pq & Ho & Hflow & Hun & Hsp & Hph) (Hte & t0 & Ht0 & Hseg). cbn [run_echo_op].
  assert (t0 = t) as -> by (destruct Ho; congruence).
  pose proof (inv_ok _ (open_inv _ _ _ _ Ho)) as Hok. pose proof Hflow as (Hpq & _).
  destruct (arrive_flow t pq (ack_no hdr) Hok Hflow) as (pq' & Hflow'); [apply Hseg|].
  assert (on_data_receive_ t = [] → ∃ t' a' out,
    with_mngr (mgr_process junk isn pkt) a = Ok ((), a', out) ∧ visible out = [] ∧
    open_at sk te a' t' ∧ flow t' pq' ∧ un = unsent t' pq' ∧ on_data_receive_ t' = [] ∧
    tasks a' = tasks a ∧ memory a' = memory a ∧ io_cbs a' = io_cbs a ∧ wire a' = wire a ∧
    buffered t' = buffered t ++ text) as Hquiet.
  { intros Hn.
    destruct (arrive_queued sk te junk isn a t pq pkt hdr text Hisn Ho Hpq Hte Hseg Hn)
      as (out & Ew & Hv & Ho' & Hb').
    destruct (Hflow' (text_queued t pq hdr text) eq_refl) as [Hf' Hu'].
    do 3 eexists. split; [exact Ew|]. split; [done|]. split; [exact Ho'|]. split; [exact Hf'|].
    split; [congruence|]. split; [done|]. rewrite wire_advanced. cbn. rewrite !app_nil_r.
    by split_and!. }
  destruct Hph as [n Hq Hn Hcb Hbuf Hu|n bs Hq Hn Hcb Hbs Hu|n m Hq Hn Hcb|n m Hq Hn Hcb Hu].
  - destruct (arrive_delivered sk te junk isn a t pq pkt hdr text echo_span n Hisn Ho Hpq Hte Hseg
      Hn Hbuf ltac:(done)) as (out & Ew & Hv & Ho' & Hb').
    set (part := filled echo_span text) in *.
    destruct (Hflow' (text_delivered t pq hdr echo_span text) eq_refl) as [Hf' Hu'].
    pose proof (filled_length echo_span text ltac:(done)) as Hpart. fold part in Hpart.
    do 2 eexists. split; [exact Ew|]. split; [done|]. split.
    2: { rewrite wire_advanced. cbn. apply app_nil_r. }
    eexists _, pq'. split; [exact Ho'|]. split; [exact Hf'|]. split; [congruence|].
    change (memory _) with (fill echo_span part (memory a)). split; [by apply fill_span_ok|].
    assert ([] ++ text = part ++ drop (Z.to_nat (sp_size echo_span)) text) as ->
      by (symmetry; apply take_drop).
    rewrite <- Hb'. apply (HasRead _ _ _ n); [cbn; by rewrite Hq|done|done| |done].
    pose proof (fill_holds (memory a) echo_span [] part Hsp (holds_nil _ _ Hsp) Hpart) as Hh'.
    by rewrite sp_from_0 in Hh'.
  - destruct (Hquiet Hn) as (t' & a' & out & Ew & Hv & Ho' & Hf' & Hu' & Hn' & Hq' & Hm' & Hc' & Hw' & Hb').
    exists a', out. split_and!; try done. exists t', pq'. rewrite Hm'. split_and!; try done.
    rewrite <- app_assoc, <- Hb'. apply (HasRead _ _ _ n); rewrite ?Hm'; congruence.
  - destruct (Hquiet Hn) as (t' & a' & out & Ew & Hv & Ho' & Hf' & Hu' & Hn' & Hq' & Hm' & Hc' & Hw' & Hb').
    exists a', out. split_and!; try done. exists t', pq'. rewrite Hm'. split_and!; try done.
    rewrite <- Hb'. apply (Writing _ _ _ n m); congruence.
  - destruct (Hquiet Hn) as (t' & a' & out & Ew & Hv & Ho' & Hf' & Hu' & Hn' & Hq' & Hm' & Hc' & Hw' & Hb').
    exists a', out. split_and!; try done. exists t', pq'. rewrite Hm'. split_and!; try done.
    rewrite <- Hb'. apply (Written _ _ _ n m); congruence.
Qed.

(** The next read, by [async_read_and_echo]. *)
Lemma echo_reads a t pq :
  open_at sk te a t → flow t pq → unsent t pq = [] → span_ok (memory a) echo_span →
  tasks a = [] → on_data_receive_ t = [] →
  ∃ a' out, async_read_and_echo sk buf a = Ok ((), a', out) ∧ visible out = [] ∧
    echoing a' [] (buffered t) ∧ wire a' = wire a ∧ acceptors a' = acceptors a ∧
    sockets a' = sockets a ∧ allocated a' = allocated a.
Proof.
  intros Ho Hflow Hu Hsp Hq Hn. unfold async_read_and_echo. fold echo_span.
  destruct (decide (buffered t = [])) as [Hnil|Hne].
  - destruct (read_waits sk te a t echo_span (EchoRead sk buf) Ho Hn Hnil ltac:(done))
      as (E & Ho' & Hcb).
    do 2 eexists. split; [exact E|]. split; [done|]. split.
    2: { split; [rewrite wire_advanced; apply app_nil_r|done]. }
    eexists _, pq. split; [exact Ho'|]. split; [exact Hflow|]. split; [done|]. split; [exact Hsp|].
    rewrite Hnil. eapply Reading; [cbn; by rewrite Hq|done|exact Hcb|exact Hnil|done].
  - destruct (read_copies sk te a t echo_span (EchoRead sk buf) Ho Hn Hne ltac:(done))
      as (out & E & Hv & Ho' & Hcb & Hb').
    set (part := filled echo_span (buffered t)) in *.
    pose proof (filled_length echo_span (buffered t) ltac:(done)) as Hpart. fold part in Hpart.
    do 2 eexists. split; [exact E|]. split; [done|]. split.
    2: { split; [rewrite wire_advanced; apply app_nil_r|done]. }
    eexists _, pq. split; [exact Ho'|]. split; [exact Hflow|]. split; [done|].
    change (memory _) with (fill echo_span part (memory a)). split; [by apply fill_span_ok|].
    rewrite <- (filled_rest echo_span (buffered t)). fold part. rewrite <- Hb'.
    eapply HasRead; [cbn; by rewrite Hq|done|exact Hcb| |done].
    pose proof (fill_holds (memory a) echo_span [] part Hsp (holds_nil _ _ Hsp) Hpart) as Hh'.
    by rewrite sp_from_0 in Hh'.
Qed.

(** What was read is printed, written to the block, and as much of it sent as
    a packet holds. *)
Lemma echo_writes_run a t pq n bs :
  open_at sk te a t → send_pq (send_ t) = Some pq → io_cbs a !! n = Some (EchoRead sk buf) →
  holds (memory a) echo_span bs → cb_size pq + len bs ≤ cb_capacity pq →
  let k := length (io_cbs a) in
  let pq1 := cb_insert_end bs pq in
  let t1 := upd_send (set_send_pq pq1) t in
  let evs := [EvPost TaskDrain; EvPost (TaskWriteDone k (len bs))] in
  let a2 := advanced te t1 evs (set_io_cbs (io_cbs a ++ [EchoWritten sk buf]) a) in
  let j := next_len t1 pq1 in
  ∃ p, exec junk_port te (TaskReadDone n (len bs)) [] a =
      Ok ((), advanced te (after_packet t1 j) [EvEnqueue p] a2,
          AppPrint bs :: posts_of te evs ++ posts_of te [EvEnqueue p]) ∧
    open_at sk te (advanced te (after_packet t1 j) [EvEnqueue p] a2) (after_packet t1 j) ∧
    packet_of t1 (out_header t1 j) (take (Z.to_nat j) (unsent t1 pq1)) p.
Proof.
  intros Ho Hpq Hcb Hbs Hfit k pq1 t1 evs a2 j.
  assert (contents (memory a) (mk_span buf 0 (len bs)) = Ok bs) as Hcont by exact Hbs.
  destruct (write_starts sk te a t pq (mk_span buf 0 (len bs)) bs (EchoWritten sk buf) Ho Hpq Hcont Hfit)
    as (E1 & Ho2). fold k pq1 t1 evs a2 in E1, Ho2.
  destruct (open_sends sk te a2 t1 pq1 Ho2 eq_refl) as (p & E2 & Ho3 & Hp). fold j in E2, Ho3, Hp.
  exists p. split; [|by split]. unfold exec. rewrite bind_get, Hcb.
  rewrite app_comm_cons. apply (bind_run_Ok _ _ _ () a2 (AppPrint bs :: posts_of te evs)); [|exact E2].
  cbn [run_io]. rewrite bind_get, (bind_lift_Ok _ _ _ _ Hcont). by apply bind_emit.
Qed.

(** What was read is written back, in a packet as far as one holds it. *)
Lemma echo_writes a t pq n bs :
  open_at sk te a t → flow t pq → unsent t pq = [] → span_ok (memory a) echo_span →
  tasks a = [] → on_data_receive_ t = [] → io_cbs a !! n = Some (EchoRead sk buf) →
  holds (memory a) echo_span bs → cb_size pq + len bs ≤ cb_capacity pq →
  ∃ a' out un, exec junk_port te (TaskReadDone n (len bs)) [] a = Ok ((), a', out) ∧
    printed out = bs ∧ echoing a' un (buffered t) ∧ wire a' ++ un = wire a ++ bs.
Proof.
  intros Ho (Hpq & Hf & Hm) Hu Hsp Hq Hn Hcb Hbs Hfit.
  destruct (echo_writes_run a t pq n bs Ho Hpq Hcb Hbs Hfit) as (p & E & Ho3 & Hp).
  pose proof (open_inv _ _ _ _ Ho) as Hi.
  destruct (async_write_run t pq bs 0 (inv_ok _ Hi) Hpq Hfit) as (_ & _ & Hok1 & Hun).
  destruct (Hun Hf) as [Hu1 Hf1]. rewrite Hu in Hu1. cbn [app] in Hu1.
  set (k := length (io_cbs a)) in *. set (pq1 := cb_insert_end bs pq) in *.
  set (t1 := upd_send (set_send_pq pq1) t) in *. set (j := next_len t1 pq1) in *.
  set (a2 := advanced te t1 _ _) in *.
  pose proof (next_len_range t1 pq1 Hok1) as Hj. fold j in Hj. rewrite Hu1 in Hj.
  destruct (unsent_after_packet t1 pq1 j Hok1 eq_refl Hf1) as [Hu3 Hf3]; [by rewrite Hu1|].
  rewrite Hu1 in Hu3, Hp.
  do 2 eexists. exists (drop (Z.to_nat j) bs). split; [exact E|]. split; [|split].
  - cbn. by rewrite app_nil_r.
  - exists (after_packet t1 j), pq1. split; [exact Ho3|]. split; [by split_and!|].
    split; [done|]. split; [exact Hsp|].
    change (buffered t) with (buffered (after_packet t1 j)).
    apply (Writing _ _ _ k (len bs)); [cbn; by rewrite Hq|done|].
    cbn. unfold k. by rewrite lookup_app_r, Nat.sub_diag by lia.
  - rewrite !wire_advanced. cbn [packets fmap list_fmap concat].
    rewrite (packet_of_text t1 j _ p Hok1 Hp).
    2: { rewrite length_take. pose proof (send_capacity t1 pq1 Hok1 eq_refl) as Hcap.
         pose proof (length_unsent t1 pq1) as Hlu. rewrite Hu1 in Hlu.
         pose proof (unacked_range t1 pq1). lia. }
    assert (wire a2 = wire a) as -> by (unfold a2; rewrite wire_advanced; apply app_nil_r).
    rewrite !app_nil_r, <- app_assoc. f_equal. apply take_drop.
Qed.

(** The sending loop sends the rest. *)
Lemma echo_drains a t pq n m :
  open_at sk te a t → flow t pq → span_ok (memory a) echo_span →
  tasks a = [(te, TaskWriteDone n m)] → on_data_receive_ t = [] →
  io_cbs a !! n = Some (EchoWritten sk buf) →
  ∃ a' out, exec junk_port te TaskDrain [] a = Ok ((), a', out) ∧ visible out = [] ∧
    echoing a' [] (buffered t) ∧ wire a' = wire a ++ unsent t pq.
Proof.
  intros Ho (Hpq & Hf & Hm) Hsp Hq Hn Hcb. pose proof Ho as [Hb Hi Hst _].
  pose proof (inv_ok _ Hi) as Hok.
  destruct (send_loop_run (send_fuel t) t pq Hok Hpq Hm) as (evs & E & Hsent).
  { unfold send_fuel. rewrite Hpq. unfold unsent. rewrite length_drop. lia. }
  pose proof (send_loop_wp t Hi ltac:(by rewrite Hst)) as Hkeep. unfold wp in Hkeep.
  rewrite E in Hkeep. destruct Hkeep as (Hi' & _).
  destruct (sent_events t _ _ _ Hok Hsent) as [Hposted _].
  assert (fills evs (memory a) = memory a) as Hfills by (clear - Hsent; by induction Hsent).
  assert (run_task TaskDrain [] t = Ok ((), after_loop t pq, evs)) as Et
    by (cbn [run_task]; by rewrite bind_get).
  destruct (with_on_tcb te t _ _ _ a Hb Et) as (out & Ew & Hv).
  exists (advanced te (after_loop t pq) evs a), out.
  split; [unfold exec; by rewrite bind_get|]. split; [done|]. split.
  2: { rewrite wire_advanced. f_equal. eapply sent_text; [done| |exact Hsent].
       destruct Hok as (_ & _ & (_ & ? & _) & _). done. }
  assert (state_ (after_loop t pq) = kTCPEstablished ∧ flow (after_loop t pq) pq ∧
    unsent (after_loop t pq) pq = [] ∧ on_data_receive_ (after_loop t pq) = [] ∧
    buffered (after_loop t pq) = buffered t) as (Hst' & Hflow' & Hu' & Hn' & Hb').
  { unfold after_loop. case_decide as Hun; [by split_and!|].
    destruct (unsent_after_packet t pq (len (unsent t pq)) Hok Hpq Hf) as [Hu' Hf']; [lia|].
    rewrite drop_ge in Hu' by lia. split_and!; try done. cbn. by eapply open_next. }
  exists (after_loop t pq), pq. split; [by apply (open_advanced sk te a t)|]. split; [done|].
  split; [done|]. rewrite <- Hb'.
  change (memory (advanced te (after_loop t pq) evs a)) with (fills evs (memory a)).
  rewrite Hfills. split; [done|].
  apply (Written _ _ _ n m); [cbn; by rewrite Hposted, Hq|done|done|done].
Qed.

Lemma next_echo a un y :
  echoing a un y → echo_ok EchoNext a →
  ∃ a' out un' y', run_echo_op EchoNext a = Ok ((), a', out) ∧ echoing a' un' y' ∧
    wire a' ++ un' = wire a ++ un ++ printed out ∧ printed out ++ y' = y.
Proof.
  intros Hecho Hok. pose proof Hecho as (t & pq & Ho & Hflow & Hun & Hsp & Hph). cbn [run_echo_op].
  pose proof Hflow as (Hpq & _). pose proof (open_block _ _ _ _ Ho) as Hb.
  unfold run_next. rewrite bind_get. set (a1 := set_tasks (tail (tasks a)) a).
  assert (open_at sk te a1 t) as Ho1 by (destruct Ho; by split).
  destruct Hph as [n Hq Hn Hcb Hbuf Hu|n bs Hq Hn Hcb Hbs Hu|n m Hq Hn Hcb|n m Hq Hn Hcb Hu];
    unfold a1 in *; rewrite Hq in *; cbn [tail] in *.
  - exists a, [], un, []. split; [done|]. split; [exact Hecho|]. by rewrite Hu, !app_nil_r.
  - rewrite bind_modify.
    destruct (echo_writes (set_tasks [] a) t pq n bs) as (a' & out & un' & E & Hp & He & Hw); try done.
    { congruence. } { by eapply Hok. }
    exists a', out, un', (buffered t). split; [exact E|]. split; [exact He|].
    rewrite Hp, Hw, Hu. done.
  - rewrite bind_modify.
    destruct (echo_drains (set_tasks [(te, TaskWriteDone n m)] a) t pq n m) as (a' & out & E & Hv & He & Hw);
      try done.
    exists a', out, [], (buffered t). split; [exact E|]. split; [exact He|].
    rewrite (printed_silent _ Hv), Hw, Hun, !app_nil_r. done.
  - rewrite bind_modify. unfold exec. rewrite bind_get.
    change (io_cbs (set_tasks [] a)) with (io_cbs a). rewrite Hcb. cbn [run_io].
    destruct (echo_reads (set_tasks [] a) t pq) as (a' & out & E & Hv & He & Hw & _); try done.
    { congruence. }
    exists a', out, [], (buffered t). split; [exact E|]. split; [exact He|].
    rewrite (printed_silent _ Hv), Hw, Hu. done.
Qed.

(** C15: The echo server echoes.  However packets and posted closures
    interleave and whatever the sizes of the segments, no handler faults as
    long as what was read fits the send queue; the text put on the wire,
    with what still waits to be sent, is what was there before followed by
    everything that was read and printed, and that, with what was not yet
    read, is everything that arrived, in order.  When no closure is pending,
    all that arrived is on the wire. *)
Theorem echo_stream ops a un y :
  echoing a un y → all_ok ops a →
  ∃ a' evs un' y', run_echo ops a = Ok ((), a', evs) ∧ echoing a' un' y' ∧
    wire a' ++ un' = wire a ++ un ++ printed evs ∧
    printed evs ++ y' = y ++ arrived ops ∧
    (tasks a' = [] → wire a' = wire a ++ un ++ y ++ arrived ops).
Proof.
  intros He Hok.
  enough (∃ a' evs un' y', run_echo ops a = Ok ((), a', evs) ∧ echoing a' un' y' ∧
    wire a' ++ un' = wire a ++ un ++ printed evs ∧ printed evs ++ y' = y ++ arrived ops)
    as (a' & evs & un' & y' & E & He' & Hw & Hp).
  { exists a', evs, un', y'. split_and!; try done. intros Hq.
    destruct He' as (t & pq & _ & _ & _ & _ & Hph).
    destruct Hph as [n _ _ _ _ Hu|n bs Hq'|n m Hq'|n m Hq']; [|congruence..].
    rewrite Hu, app_nil_r in Hw. rewrite app_nil_r in Hp. by rewrite Hw, Hp. }
  revert a un y He Hok. induction ops as [|o ops IH]; intros a un y He Hok.
  { exists a, [], un, y. split; [done|]. split; [done|]. by rewrite !app_nil_r. }
  destruct Hok as [Ho Hok].
  assert (∃ a1 e1 un1 y1, run_echo_op o a = Ok ((), a1, e1) ∧ echoing a1 un1 y1 ∧
    wire a1 ++ un1 = wire a ++ un ++ printed e1 ∧
    printed e1 ++ y1 = y ++ arrived [o]) as (a1 & e1 & un1 & y1 & E1 & He1 & Hw1 & Hp1).
  { destruct o as [pkt hdr text|].
    - destruct (arrive_echo pkt hdr text a un y He Ho) as (a1 & e1 & E1 & Hv1 & He1 & Hw1).
      exists a1, e1, un, (y ++ text). rewrite (printed_silent _ Hv1), Hw1. cbn.
      by rewrite !app_nil_r.
    - destruct (next_echo a un y He Ho) as (a1 & e1 & un1 & y1 & E1 & He1 & Hw1 & Hp1).
      exists a1, e1, un1, y1. cbn. by rewrite app_nil_r. }
  rewrite E1 in Hok. destruct (IH a1 un1 y1 He1 Hok) as (a2 & e2 & un2 & y2 & E2 & He2 & Hw2 & Hp2).
  exists a2, (e1 ++ e2), un2, y2. split; [by apply (bind_run_Ok _ _ _ () a1 e1)|]. split; [done|].
  rewrite printed_app. split.
  - rewrite Hw2, app_assoc, Hw1. by rewrite <- !app_assoc.
  - rewrite <- app_assoc, Hp2, app_assoc, Hp1, <- app_assoc. f_equal. destruct o; [|done]. cbn.
    by rewrite app_nil_r.
Qed.
End Echo.

(** ** Examples *)

(** The server has read two bytes; two more are in the queue. *)
Definition test_echo : application reserve_buffer :=
  test_app [EchoRead 0 9] [(test_te, TaskReadDone 0 2)] (test_block [] [Byte.x03; Byte.x04])
    ([Byte.x01; Byte.x02] ++ replicate (Z.to_nat 1998) Byte.x00).

Lemma echo_stream_witness :
  let H := test_host Little in
  let ops := [EchoNext] in
  ∃ a' evs un' y', run_echo test_junk 0 0 ops test_echo = Ok ((), a', evs) ∧
    echoing 0 test_te 9 a' un' y' ∧
    wire a' ++ un' = printed evs ∧
    printed evs ++ y' = [Byte.x01; Byte.x02; Byte.x03; Byte.x04] ∧
    (tasks a' = [] → wire a' = [Byte.x01; Byte.x02; Byte.x03; Byte.x04]).
Proof.
  intros H ops. refine (echo_stream test_junk 0 0 _ 0 test_te 9 ops test_echo []
    [Byte.x01; Byte.x02; Byte.x03; Byte.x04] _ _).
  - unfold is_u; lia.
  - exists (test_block [] [Byte.x03; Byte.x04]), (mk_reserve [] 100).
    split; [apply test_open_at|]. split; [by split_and!|]. split; [reflexivity|]. split.
    + unfold span_ok. split; [reflexivity|]. split; [split; reflexivity || discriminate|].
      eexists. split; [reflexivity|vm_compute; discriminate].
    + change [Byte.x01; Byte.x02; Byte.x03; Byte.x04] with
        ([Byte.x01; Byte.x02] ++ buffered (test_block [] [Byte.x03; Byte.x04])).
      apply (HasRead 0 test_te 9 test_echo (test_block [] [Byte.x03; Byte.x04]) [] 0
        [Byte.x01; Byte.x02]); reflexivity.
  - split.
    + intros n m q t pq Hq Ht Hpq. injection Hq as <- <- <-.
      assert (t = test_block [] [Byte.x03; Byte.x04]) as -> by (injection Ht as <-; reflexivity).
      injection Hpq as <-. vm_compute. discriminate.
    + destruct (run_echo_op _ _ _ _ _) as [[[u a1] e1]|]; exact I.
Defined.
