(* ===== verification/Accept.v ===== *)
(** * Accepting, connecting, and sockets that are not connected

    What the closures of [acceptor] and of [socket::async_connect] do with an
    established connection, how the echo server starts, and the exception of
    a socket without a connection. *)

From S2P Require Import Prelude Utils Skbuff Addr Headers TcpOptions CircularBuffer Tcb TcbFacts.
From S2P Require Import TcbSend TcbRecv TcbState BaseProtocol Packets TcbManager Socket SocketFacts.
From S2P Require Import Echo.

Section Accept.
Context `{Hh : Host} {B : Type} `{Hc : CircularBuffer B} `{Hs : !CircularBufferSpec B}.
Implicit Types (a : application B) (t : tcb_t B).
Context (junk_port : Z).

(** A socket after it was given a connection. *)
Definition bound (sk : nat) (so : socket) (st : option tcp_state) (t : tcb_t B) (te : two_ends_t) a
    : application B :=
  set_sockets (<[sk := mk_socket (default (sk_state so) st) (local_ep_ t) (Some te)]> (sockets a)) a.

Lemma bind_socket_run sk so st t te a :
  sockets a !! sk = Some so → bind_socket sk st (local_ep_ t) te a = Ok ((), bound sk so st t te a, []).
Proof. intros Hso. unfold bind_socket, this_socket. unfold mbind, M_bind. cbn. by rewrite Hso. Qed.

(** The closure [listen_finish] posts, on its way to the callback. *)
Lemma exec_established te t cb calls a :
  tcbs_ (mngr a) !! te = Some t → conn_cbs a !! on_connection_established_ t = Some cb →
  exec junk_port te TaskEstablished calls a = run_conn junk_port cb false (local_ep_ t) te calls a.
Proof. intros Ht Hcb. unfold exec. by rewrite bind_get, Ht, Hcb. Qed.

(** The acceptor pops its queue before it calls the callback. *)
Definition popped (acc : nat) (cbs : list (nat * done_cb)) a : application B :=
  set_acceptors (<[acc := cbs]> (acceptors a)) a.

Lemma accept_run te t acc sk so cb cbs calls a :
  tcbs_ (mngr a) !! te = Some t → conn_cbs a !! on_connection_established_ t = Some (AcceptorRule acc) →
  acceptors a !! acc = Some ((sk, cb) :: cbs) → sockets a !! sk = Some so →
  exec junk_port te TaskEstablished calls a =
    run_done junk_port cb false calls
      (bound sk so (Some kSocketConnected) t te (popped acc cbs a)).
Proof.
  intros Ht Hcb Hacc Hso. rewrite (exec_established te t _ calls a Ht Hcb). cbn [run_conn].
  rewrite bind_get, Hacc, bind_modify.
  by rewrite (bind_silent _ _ _ _ _ (bind_socket_run sk so (Some kSocketConnected) t te
    (popped acc cbs a) Hso)).
Qed.

(** The closure of a connection that the acceptor's rule took. *)
Lemma established_run te t acc cbs calls a :
  tcbs_ (mngr a) !! te = Some t → conn_cbs a !! on_connection_established_ t = Some (AcceptorRule acc) →
  acceptors a !! acc = Some cbs →
  match cbs with
  | [] => exec junk_port te TaskEstablished calls a = Ok ((), a, [])
  | (sk, cb) :: cbs' =>
      is_Some (sockets a !! sk) →
      ∃ a1, exec junk_port te TaskEstablished calls a = run_done junk_port cb false calls a1 ∧
        sockets a1 !! sk = Some (mk_socket kSocketConnected (local_ep_ t) (Some te)) ∧
        acceptors a1 !! acc = Some cbs' ∧ mngr a1 = mngr a ∧
        (∀ sk', sk' ≠ sk → sockets a1 !! sk' = sockets a !! sk')
  end.
Proof.
  intros Ht Hcb Hacc. destruct cbs as [|[sk cb] cbs'].
  - rewrite (exec_established te t _ calls a Ht Hcb). cbn [run_conn]. by rewrite bind_get, Hacc.
  - intros [so Hso]. exists (bound sk so (Some kSocketConnected) t te (popped acc cbs' a)).
    split; [by apply accept_run|]. split; [cbn; apply lookup_insert_eq|].
    split; [cbn; apply lookup_insert_eq|]. split; [done|].
    intros sk' Hne. cbn. by rewrite lookup_insert_ne.
Qed.

(** *** The order of the accepts

    The program calls [async_accept], and connections are established; in
    between, the connection table changes with the packets that arrive. *)
Inductive accept_action : Type :=
| Accepting (sk k : nat)                             (** [async_accept(sk, k)] *)
| Established (m : tcb_manager B) (te : two_ends_t). (** the table is then [m] *)

Definition accept_act (acc : nat) (x : accept_action) : M (application B) app_event unit :=
  match x with
  | Accepting sk k => async_accept acc sk (UserDone k)
  | Established m te => _ ← modify (set_mngr m); exec junk_port te TaskEstablished []
  end.
Fixpoint accept_run_all (acc : nat) (acts : list accept_action) : M (application B) app_event unit :=
  match acts with
  | [] => mret ()
  | x :: acts => _ ← accept_act acc x; accept_run_all acc acts
  end.

(** The accepts that were asked for, and the connections, in order. *)
Definition accepts (acts : list accept_action) : list (nat * nat) :=
  omap (λ x, match x with Accepting sk k => Some (sk, k) | _ => None end) acts.
Definition connections_in (acts : list accept_action) : list two_ends_t :=
  omap (λ x, match x with Established _ te => Some te | _ => None end) acts.

(** The sockets exist, and each connection was made by the rule whose closure
    is the number [n]. *)
Definition for_rule (n : nat) a (x : accept_action) : Prop :=
  match x with
  | Accepting sk _ => is_Some (sockets a !! sk)
  | Established m te => ∃ t, tcbs_ m !! te = Some t ∧ on_connection_established_ t = n
  end.

(** The accepts [waiting] are in the queue of the acceptor. *)
Definition queue_of (waiting : list (nat * nat)) : list (nat * done_cb) :=
  (λ p, (p.1, UserDone p.2)) <$> waiting.
Definition waits_for (n acc : nat) (waiting : list (nat * nat)) a : Prop :=
  conn_cbs a !! n = Some (AcceptorRule acc) ∧ acceptors a !! acc = Some (queue_of waiting) ∧
  Forall (λ p, is_Some (sockets a !! p.1)) waiting.

(** What a connection leaves of the accepts that wait: the oldest is served. *)
Definition served_by (te : two_ends_t) (waiting : list (nat * nat)) : list (two_ends_t * (nat * nat)) :=
  match waiting with [] => [] | p :: _ => [(te, p)] end.

(** The socket of an accept that was served has the connection. *)
Definition has_connection a (x : two_ends_t * (nat * nat)) : Prop :=
  ∃ so, sockets a !! x.2.1 = Some so ∧ sk_state so = kSocketConnected ∧ sk_tcb so = Some x.1.
Definition told (x : two_ends_t * (nat * nat)) : app_event := AppDone x.2.2 false.

Lemma accepting_run n acc waiting sk k a :
  waits_for n acc waiting a → is_Some (sockets a !! sk) →
  ∃ a1, accept_act acc (Accepting sk k) a = Ok ((), a1, []) ∧ waits_for n acc (waiting ++ [(sk, k)]) a1 ∧
    sockets a1 = sockets a.
Proof.
  intros (Hn & Hacc & Hsks) Hsk.
  exists (set_acceptors (<[acc := queue_of waiting ++ [(sk, UserDone k)]]> (acceptors a)) a).
  split; [cbn [accept_act]; unfold async_accept; by rewrite bind_get, Hacc|]. split; [|done]. split; [done|].
  split; [cbn; rewrite lookup_insert_eq; unfold queue_of; by rewrite fmap_app|].
  apply Forall_app. by repeat constructor.
Qed.

Lemma established_serves n acc waiting m te a :
  waits_for n acc waiting a → (∃ t, tcbs_ m !! te = Some t ∧ on_connection_established_ t = n) →
  ∃ a1, accept_act acc (Established m te) a = Ok ((), a1, told <$> served_by te waiting) ∧
    waits_for n acc (tail waiting) a1 ∧ (∀ sk, is_Some (sockets a !! sk) → is_Some (sockets a1 !! sk)) ∧
    (∀ sk, sk ∉ (served_by te waiting).*2.*1 → sockets a1 !! sk = sockets a !! sk) ∧
    Forall (has_connection a1) (served_by te waiting).
Proof.
  intros (Hn & Hacc & Hsks) (t & Ht & Et). cbn [accept_act]. rewrite bind_modify.
  set (am := set_mngr m a). assert (conn_cbs am !! on_connection_established_ t = Some (AcceptorRule acc)) as Hcb
    by by rewrite Et.
  destruct waiting as [|[sk k] waiting].
  - exists am. split; [exact (established_run te t acc [] [] am Ht Hcb Hacc)|]. split; [by split|].
    split; [done|]. split; [done|constructor].
  - apply Forall_cons in Hsks as [[so Hso] Hsks]. cbn in Hso.
    exists (bound sk so (Some kSocketConnected) t te (popped acc (queue_of waiting) am)).
    split; [by rewrite (accept_run te t acc sk so (UserDone k) (queue_of waiting) [] am Ht Hcb Hacc Hso)|].
    assert (∀ sk', is_Some (sockets a !! sk') →
      is_Some (sockets (bound sk so (Some kSocketConnected) t te (popped acc (queue_of waiting) am)) !! sk')) as Hkeep.
    { intros sk' Hsk'. cbn. destruct (decide (sk = sk')) as [->|]; [rewrite lookup_insert_eq; eauto|].
      by rewrite lookup_insert_ne. }
    split; [|split; [exact Hkeep|split]].
    + split; [done|]. split; [apply lookup_insert_eq|]. eapply Forall_impl; [exact Hsks|]. intros p. apply Hkeep.
    + intros sk' Hsk'. cbn in Hsk'. cbn. apply lookup_insert_ne. set_solver.
    + constructor; [|constructor]. eexists. cbn. rewrite lookup_insert_eq. by split_and!.
Qed.

(** One after the other: who was served, and who waits. *)
Lemma accept_run_spec n acc acts : ∀ waiting a,
  waits_for n acc waiting a → Forall (for_rule n a) acts →
  ∃ served waiting' a1, accept_run_all acc acts a = Ok ((), a1, told <$> served) ∧
    waits_for n acc waiting' a1 ∧ served.*2 ++ waiting' = waiting ++ accepts acts ∧
    served.*1 `sublist_of` connections_in acts ∧
    (∀ sk, sk ∉ served.*2.*1 → sockets a1 !! sk = sockets a !! sk) ∧
    (NoDup (waiting ++ accepts acts).*1 → Forall (has_connection a1) served).
Proof.
  induction acts as [|x acts IH]; intros waiting a Hw Hacts.
  { exists [], waiting, a. rewrite !app_nil_r. by split_and!. }
  apply Forall_cons in Hacts as [Hx Hacts]. destruct x as [sk k|m te].
  - destruct (accepting_run n acc waiting sk k a Hw Hx) as (a1 & E & Hw1 & Eso).
    destruct (IH _ a1 Hw1) as (served & waiting' & a2 & E2 & Hw2 & Hq & Hsub & Hso & Hhas).
    { eapply Forall_impl; [exact Hacts|]. intros []; cbn; by rewrite ?Eso. }
    exists served, waiting', a2. rewrite <- app_assoc in Hq, Hhas.
    split; [cbn [accept_run_all]; by rewrite (bind_silent _ _ _ _ _ E)|].
    split; [done|]. split; [done|]. split; [done|]. split; [by rewrite <- Eso|done].
  - destruct (established_serves n acc waiting m te a Hw Hx) as (a1 & E & Hw1 & Hkeep & Hso1 & Hhas1).
    destruct (IH _ a1 Hw1) as (served & waiting' & a2 & E2 & Hw2 & Hq & Hsub & Hso & Hhas).
    { eapply Forall_impl; [exact Hacts|]. intros []; cbn; auto. }
    assert (waiting = (served_by te waiting).*2 ++ tail waiting) as Ew by by destruct waiting.
    exists (served_by te waiting ++ served), waiting', a2. rewrite !fmap_app, <- app_assoc, Hq.
    split; [cbn [accept_run_all]; exact (bind_run_Ok _ _ _ _ _ _ _ _ _ E E2)|].
    split; [done|]. split; [by rewrite app_assoc, <- Ew|].
    split; [destruct waiting; cbn; [by apply sublist_cons|by apply sublist_skip]|].
    split.
    { intros sk Hsk. rewrite elem_of_app in Hsk. rewrite Hso, Hso1 by tauto. done. }
    change (accepts (Established m te :: acts)) with (accepts acts). intros Hnd.
    rewrite <- fmap_app, Ew, <- app_assoc, <- Hq, !fmap_app in Hnd.
    apply NoDup_app in Hnd as (_ & Hapart & Hnd). apply Forall_app. split.
    + apply Forall_forall. intros y Hy. rewrite Forall_forall in Hhas1.
      destruct (Hhas1 y Hy) as (so & Eso & Hso'). exists so. split; [|done]. rewrite Hso; [done|].
      intros Hin. apply (Hapart y.2.1); [by do 2 apply list_elem_of_fmap_2|].
      apply elem_of_app. by left.
    + apply Hhas. by rewrite <- Hq, fmap_app.
Qed.

(** C22: An acceptor serves its accepts in the order in which they were asked
    for.  The acceptor is constructed, and then the program calls
    [async_accept] and connections that its rule took are established, in any
    order, while the connection table changes as it may.  Whatever the
    interleaving, the callbacks called are those of a first part of the
    accepts, in order, each once and without an error, and the rest wait; the
    connections they were given are some of those established, in order, and
    an accept whose socket no other has finds its socket CONNECTED to its
    connection.  The next connection goes to the accept that has waited
    longest: its socket gets the connection, the local end and the state
    CONNECTED before the callback is called, and the others keep waiting.
    When no accept waits, nothing happens at all: no later accept will ever
    get this connection.  The sockets exist; in the history a callback asks
    for the next connection by an action that follows it, in the last step it
    may call anything. *)
Theorem acceptor_takes_connection matcher acc acts a0 :
  let n := length (conn_cbs a0) in
  Forall (for_rule n a0) acts →
  ∃ a, acceptor_new matcher acc a0 = Ok ((), a, []) ∧ rules_ (mngr a) = rules_ (mngr a0) ++ [mk_rule matcher n] ∧
  ∃ served waiting a1, accept_run_all acc acts a = Ok ((), a1, (λ x, AppDone x.2.2 false) <$> served) ∧
    served.*2 ++ waiting = accepts acts ∧ served.*1 `sublist_of` connections_in acts ∧
    (NoDup (accepts acts).*1 → ∀ te sk k, (te, (sk, k)) ∈ served →
      ∃ so, sockets a1 !! sk = Some so ∧ sk_state so = kSocketConnected ∧ sk_tcb so = Some te) ∧
    ∀ m te t calls, tcbs_ m !! te = Some t → on_connection_established_ t = n →
      let am := set_mngr m a1 in
      match waiting with
      | [] => exec junk_port te TaskEstablished calls am = Ok ((), am, [])
      | (sk, k) :: waiting =>
          ∃ a2, exec junk_port te TaskEstablished calls am = run_done junk_port (UserDone k) false calls a2 ∧
            sockets a2 !! sk = Some (mk_socket kSocketConnected (local_ep_ t) (Some te)) ∧
            acceptors a2 !! acc = Some ((λ p, (p.1, UserDone p.2)) <$> waiting) ∧ mngr a2 = m ∧
            (∀ sk', sk' ≠ sk → sockets a2 !! sk' = sockets a1 !! sk')
      end.
Proof.
  intros n Hacts.
  set (a := set_mngr (set_rules (rules_ (mngr a0) ++ [mk_rule matcher n]) (mngr a0))
    (set_conn_cbs (conn_cbs a0 ++ [AcceptorRule acc]) (set_acceptors (<[acc := []]> (acceptors a0)) a0))).
  exists a. split; [reflexivity|]. split; [reflexivity|].
  assert (waits_for n acc [] a) as Hw.
  { split; [cbn; unfold n; by rewrite lookup_app_r, Nat.sub_diag by lia|].
    split; [apply lookup_insert_eq|constructor]. }
  destruct (accept_run_spec n acc acts [] a Hw) as (served & waiting & a1 & E & Hw1 & Hq & Hsub & _ & Hhas); [done|].
  exists served, waiting, a1. split; [exact E|]. split; [exact Hq|]. split; [exact Hsub|]. split.
  { intros Hnd te sk k Hin. specialize (Hhas Hnd). rewrite Forall_forall in Hhas. exact (Hhas _ Hin). }
  intros m te t calls Ht Et am. destruct Hw1 as (Hn & Hacc & Hsks).
  assert (conn_cbs am !! on_connection_established_ t = Some (AcceptorRule acc)) as Hcb by by rewrite Et.
  pose proof (established_run te t acc (queue_of waiting) calls am Ht Hcb Hacc) as Hnext.
  destruct waiting as [|[sk k] waiting]; [exact Hnext|]. apply Forall_cons in Hsks as [Hsk _]. exact (Hnext Hsk).
Qed.

(** When the connection of [socket::async_connect] is established the
    socket gets it, and the callback is called; but the member [state] stays
    what it was, DISCONNECTED. *)
Theorem connected_socket_state te t sk so k a :
  tcbs_ (mngr a) !! te = Some t →
  conn_cbs a !! on_connection_established_ t = Some (SocketConnected sk (UserDone k)) →
  sockets a !! sk = Some so →
  ∃ a', exec junk_port te TaskEstablished [] a = Ok ((), a', [AppDone k false]) ∧
    sockets a' !! sk = Some (mk_socket (sk_state so) (local_ep_ t) (Some te)) ∧
    locked sk a' = Ok (Some te, a', []).
Proof.
  intros Ht Hcb Hso. exists (bound sk so None t te a). split_and!.
  - rewrite (exec_established te t _ [] a Ht Hcb). cbn [run_conn].
    by rewrite (bind_silent _ _ _ _ _ (bind_socket_run sk so None t te a Hso)).
  - cbn. apply lookup_insert_eq.
  - eapply (connected_run sk _ te t); [cbn; apply lookup_insert_eq|done|done].
Qed.

(** C35: A socket whose weak pointer is empty, or points to a block that is
    gone.  Each method that needs the connection (the reads, the writes, and
    [remote_endpoint]) throws, and leaves nothing behind: the state of the
    application with its sockets, its connections, the closures it has
    registered and its memory is what it was, and nothing was posted or sent.
    Where nothing catches the exception, it ends the caller. *)
Theorem unconnected_socket_throws sk so buf cb a :
  sockets a !! sk = Some so →
  match sk_tcb so with Some te => tcbs_ (mngr a) !! te = None | None => True end →
  let what := "endpoint is not connected" in
  try_async_read_some sk buf cb a = Ok (Some what, a, []) ∧
  try_async_read_complete sk buf cb a = Ok (Some what, a, []) ∧
  try_async_read sk buf cb a = Ok (Some what, a, []) ∧
  try_async_write sk buf cb a = Ok (Some what, a, []) ∧
  try_async_write_some sk buf cb a = Ok (Some what, a, []) ∧
  try_remote_endpoint sk a = Ok (inl what, a, []) ∧
  socket_async_read_some sk buf cb a = Fault (Thrown what) ∧
  async_read_complete sk buf cb a = Fault (Thrown what) ∧
  socket_async_read sk buf cb a = Fault (Thrown what) ∧
  socket_async_write sk buf cb a = Fault (Thrown what).
Proof.
  intros Hso Hgone what.
  assert (locked sk a = Ok (None, a, [])) as E.
  { rewrite (locked_run sk so a Hso). destruct (sk_tcb so) as [te|]; cbn; [by rewrite Hgone|done]. }
  assert (∀ cb, try_async_read_some sk buf cb a = Ok (Some what, a, [])) as Hr.
  { intros cb'. unfold try_async_read_some. by rewrite (bind_silent _ _ _ _ _ E). }
  assert (try_async_write sk buf cb a = Ok (Some what, a, [])) as Hwr.
  { unfold try_async_write. by rewrite (bind_silent _ _ _ _ _ E). }
  assert (∀ m, m a = Ok (Some what, a, []) → uncaught (B := B) m a = Fault (Thrown what)) as Hu.
  { intros m Em. unfold uncaught. by rewrite (bind_silent _ _ _ _ _ Em). }
  split; [done|]. split; [apply Hr|]. split; [apply Hr|]. split; [done|]. split; [done|]. split.
  { unfold try_remote_endpoint. by rewrite (bind_silent _ _ _ _ _ E). }
  split; [by apply Hu|]. split; [by apply Hu, Hr|]. split; [by apply Hu, Hr|by apply Hu].
Qed.

Lemma do_accept_run acc cbs a :
  acceptors a !! acc = Some cbs →
  let sk := allocated a in
  let a1 := set_sockets (<[sk := socket_new junk_port]> (sockets a)) (set_allocated (S sk) a) in
  do_accept junk_port acc a =
    Ok ((), set_acceptors (<[acc := cbs ++ [(sk, EchoAccepted acc sk)]]> (acceptors a)) a1, []).
Proof.
  intros Hacc sk a1. unfold do_accept.
  rewrite (bind_silent _ _ a sk (set_allocated (S sk) a)) by done. rewrite bind_modify.
  unfold async_accept. rewrite bind_get.
  by change (acceptors (set_sockets _ _)) with (acceptors a); rewrite Hacc.
Qed.

(** The echo server takes a connection.  The closure posted when the
    handshake is done gives the waiting socket the connection, starts to
    echo with a new buffer, the bytes already received first, and waits with
    a new socket for the next connection. *)
Theorem echo_accepts te t pq acc sk a :
  tcbs_ (mngr a) !! te = Some t → tcb_inv t → state_ t = kTCPEstablished → flow t pq →
  unsent t pq = [] → on_data_receive_ t = [] → tasks a = [] →
  conn_cbs a !! on_connection_established_ t = Some (AcceptorRule acc) →
  acceptors a !! acc = Some [(sk, EchoAccepted acc sk)] → is_Some (sockets a !! sk) →
  (sk < allocated a)%nat →
  let buf := allocated a in
  let sk' := S (allocated a) in
  ∃ a' evs, exec junk_port te TaskEstablished [] a = Ok ((), a', evs) ∧ visible evs = [] ∧
    echoing sk te buf a' [] (buffered t) ∧ wire a' = wire a ∧
    acceptors a' !! acc = Some [(sk', EchoAccepted acc sk')] ∧
    sockets a' !! sk' = Some (socket_new junk_port).
Proof.
  intros Ht Hi Hst Hflow Hu Hn Hq Hcb Hacc [so Hso] Hsk buf sk'.
  rewrite (accept_run te t acc sk so _ [] [] a Ht Hcb Hacc Hso).
  set (a1 := bound sk so (Some kSocketConnected) t te (popped acc [] a)).
  set (zeros := replicate (Z.to_nat echo_size) Byte.x00).
  set (a2 := set_memory (<[buf := zeros]> (memory a)) (set_allocated (S (allocated a)) a1)).
  assert (open_at sk te a2 t) as Ho.
  { split; [done..|]. exists (mk_socket kSocketConnected (local_ep_ t) (Some te)).
    split; [cbn; apply lookup_insert_eq|done]. }
  assert (span_ok (memory a2) (echo_span buf)) as Hsp.
  { unfold span_ok. cbn [echo_span sp_off sp_size sp_buf]. split_and!; [done|done|done|].
    exists zeros. split; [apply lookup_insert_eq|]. unfold zeros. by rewrite length_replicate. }
  destruct (echo_reads sk te buf a2 t pq Ho Hflow Hu Hsp Hq Hn)
    as (a3 & out & E & Hv & He & Hw & Eacc & Eso & Eal).
  assert (acceptors a3 !! acc = Some []) as Hacc3 by (rewrite Eacc; cbn; apply lookup_insert_eq).
  pose proof (do_accept_run acc [] a3 Hacc3) as Edo. cbv zeta in Edo.
  match type of Edo with _ = Ok (_, ?x, _) => set (a4 := x) in Edo end.
  exists a4, out. split; [|split; [done|split; [|split; [exact Hw|split]]]].
  - cbn [run_done]. rewrite (bind_silent _ _ a1 buf (set_allocated (S (allocated a)) a1)) by done.
    rewrite bind_modify. change (set_memory _ _) with a2.
    rewrite (bind_run _ _ _ _ _ _ E), Edo. by rewrite app_nil_r.
  - eapply echoing_frame; [exact He|done..|]. cbn. rewrite Eal. apply lookup_insert_ne. cbn. lia.
  - cbn. rewrite Eal. apply lookup_insert_eq.
  - cbn. rewrite Eal. apply lookup_insert_eq.
Qed.
End Accept.

(** ** Examples *)

(** The block of a connection that was just established, the socket 0, and
    the acceptor 7 with its queue; [cb] is called for the connection. *)
Definition test_accept (cb : conn_cb) (cbs : list (nat * done_cb)) (so : socket)
    : application reserve_buffer :=
  mk_app (mk_manager (mk_base true []) [] {[test_te := test_block [] [Byte.x03]]}) [] [] [cb]
    {[0%nat := so]} {[7%nat := cbs]} ∅ 1.

(** Two accepts; three connections come, the first before the second accept,
    and the last when nobody waits. *)
Definition test_accepting : application reserve_buffer :=
  mk_app (mk_manager (mk_base true []) [] ∅) [] [] [] {[0%nat := socket_new 0; 1%nat := socket_new 0]} ∅ ∅ 2.
Definition test_table : tcb_manager reserve_buffer :=
  mk_manager (mk_base true []) [] {[test_te := test_block [] [Byte.x03]]}.

Lemma acceptor_takes_connection_witness :
  let acts := [Accepting 0 4; Established test_table test_te; Accepting 1 5; Established test_table test_te;
               Established test_table test_te] in
  ∃ a, acceptor_new (λ _ _, true) 7 test_accepting = Ok ((), a, []) ∧
  ∃ served waiting a1,
    accept_run_all (Hh := test_host Big) 0 7 acts a = Ok ((), a1, (λ x, AppDone x.2.2 false) <$> served) ∧
    served.*2 ++ waiting = [(0, 4); (1, 5)]%nat ∧
    (∀ te sk k, (te, (sk, k)) ∈ served →
      ∃ so, sockets a1 !! sk = Some so ∧ sk_state so = kSocketConnected ∧ sk_tcb so = Some te).
Proof.
  intros acts.
  destruct (acceptor_takes_connection (Hh := test_host Big) 0 (λ _ _, true) 7 acts test_accepting)
    as (a & E & _ & served & waiting & a1 & Er & Hq & _ & Hhas & _).
  - repeat (apply Forall_cons; split; [by eexists|]). apply List.Forall_nil.
  - exists a. split; [exact E|]. exists served, waiting, a1. split; [exact Er|]. split; [exact Hq|].
    apply Hhas. by apply (bool_decide_unpack _).
Defined.

Lemma connected_socket_state_witness :
  let a := test_accept (SocketConnected 0 (UserDone 4)) [] (socket_new 0) in
  ∃ a', exec (Hh := test_host Big) 0 test_te TaskEstablished [] a = Ok ((), a', [AppDone 4 false]) ∧
    sockets a' !! 0%nat = Some (mk_socket kSocketDisconnected (test_ep 167772161 80) (Some test_te)) ∧
    locked 0 a' = Ok (Some test_te, a', []).
Proof.
  intros a. apply (connected_socket_state (Hh := test_host Big) 0 test_te (test_block [] [Byte.x03])
    0 (socket_new 0) 4 a); reflexivity.
Defined.

Lemma unconnected_socket_throws_witness :
  let a := test_accept (AcceptorRule 7) [] (socket_new 0) in
  let what := "endpoint is not connected" in
  let buf := mk_span 9 0 4 in
  try_async_read_some 0 buf (UserIo 1) a = Ok (Some what, a, []) ∧
  try_async_read_complete 0 buf (UserIo 1) a = Ok (Some what, a, []) ∧
  try_async_read 0 buf (UserIo 1) a = Ok (Some what, a, []) ∧
  try_async_write 0 buf (UserIo 1) a = Ok (Some what, a, []) ∧
  try_async_write_some 0 buf (UserIo 1) a = Ok (Some what, a, []) ∧
  try_remote_endpoint 0 a = Ok (inl what, a, []) ∧
  socket_async_read_some 0 buf (UserIo 1) a = Fault (Thrown what) ∧
  async_read_complete 0 buf (UserIo 1) a = Fault (Thrown what) ∧
  socket_async_read 0 buf (UserIo 1) a = Fault (Thrown what) ∧
  socket_async_write 0 buf (UserIo 1) a = Fault (Thrown what).
Proof.
  intros a what buf. apply (unconnected_socket_throws 0 (socket_new 0) buf (UserIo 1) a);
    [reflexivity|exact I].
Defined.

Lemma echo_accepts_witness :
  let H := test_host Little in
  let a := test_accept (AcceptorRule 7) [(0%nat, EchoAccepted 7 0)] (socket_new 0) in
  ∃ a' evs, exec 0 test_te TaskEstablished [] a = Ok ((), a', evs) ∧ visible evs = [] ∧
    echoing 0 test_te 1 a' [] [Byte.x03] ∧ wire a' = wire a ∧
    acceptors a' !! 7%nat = Some [(2%nat, EchoAccepted 7 2)] ∧
    sockets a' !! 2%nat = Some (socket_new 0).
Proof.
  intros H a. refine (echo_accepts 0 test_te (test_block [] [Byte.x03]) (mk_reserve [] 100) 7 0 a
    _ _ _ _ _ _ _ _ _ _ _); try reflexivity.
  - apply (test_open_at [] [] [] [Byte.x03] []).
  - by split_and!.
  - eexists; reflexivity.
  - cbn; lia.
Defined.
