(* ===== verification/Tcp.v ===== *)
(** * tcp.hpp, tcp.cpp: between the connections and IPv4

    Outgoing segments get their checksum, computed over a pseudo header that
    is written into the headroom for the purpose; incoming ones are either
    intercepted, for a pair of ends a raw socket is attached to or that
    matches a rule of an interceptor, or go on to the connection table. *)

From S2P Require Import Prelude Utils Skbuff Addr Headers Tcb TcbSend TcbState BaseProtocol.
From S2P Require Import Packets.

(** What a raw socket has not read, and its callbacks that wait. *)
Record raw_state : Type := mk_raw { raw_pq : list tcp_packet; raw_on_data_receive : list nat }.

Record tcp : Type := mk_tcp {
  tcp_base : base ipv4_packet;
  tcp_rules_ : list rule;
  rcv_raw_states_ : gmap two_ends_t raw_state;
}.

Inductive tcp_event : Type :=
| TcpBase (ev : base_event ipv4_packet)
| TcpRawCall (cb : nat) (pkt : tcp_packet)  (** the callback of [async_wait] is called *)
| TcpRawPost (cb : nat) (pkt : tcp_packet)  (** its call is posted *)
| TcpWritten (cb : nat)                     (** the callback of [async_write] is posted *)
(** What the callbacks of interceptors do: the interceptor [i] calls the
    callback [cb] with a raw socket for these ends; [async_intercept] is called. *)
| TcpIntercepted (i cb : nat) (remote_ep local_ep : endpoint)
| TcpIntercept (i cb : nat).

Section Tcp.
Context `{Host}.

Abbreviation TcpM := (M tcp tcp_event).

(** The address [operator new[]] returned for the buffer of a packet, and
    what the callback of an interception rule does: it may use the TCP
    layer, and returns [true] when it throws a [std::exception]. *)
Context (new_addr : Z) (run_cb : nat → endpoint → endpoint → TcpM bool).

Definition set_tcp_base (b : base ipv4_packet) (s : tcp) : tcp :=
  mk_tcp b (tcp_rules_ s) (rcv_raw_states_ s).
Definition set_tcp_rules (l : list rule) (s : tcp) : tcp :=
  mk_tcp (tcp_base s) l (rcv_raw_states_ s).
Definition set_raw (r : gmap two_ends_t raw_state) (s : tcp) : tcp :=
  mk_tcp (tcp_base s) (tcp_rules_ s) r.

Definition tcp_new : tcp := mk_tcp base_new [] ∅.

(** ** From above *)

Definition tcp_enqueue (pkt : ipv4_packet) : TcpM unit :=
  zoom tcp_base set_tcp_base TcpBase (enqueue pkt).

Definition process_raw (pkt_in : tcp_packet) : TcpM unit :=
  tcp_enqueue {| src_addrv4 := addrv4 (tp_local_ep pkt_in);
                 dst_addrv4 := addrv4 (tp_remote_ep pkt_in);
                 ipp_proto := tp_proto pkt_in; ipp_skb := tp_skb pkt_in |}.

(** The bytes of [tcp_ph_net] in memory. *)
Definition tcp_pseudo_header (pkt_in : tcp_packet) (segment_len : Z) : list byte :=
  native_store 4 (hton 4 (raw (addrv4 (tp_local_ep pkt_in)))) ++
  native_store 4 (hton 4 (raw (addrv4 (tp_remote_ep pkt_in)))) ++
  native_store 1 0 ++ native_store 1 (tp_proto pkt_in) ++
  native_store 2 (hton 2 (u16 segment_len)).

(** [sizeof(tcp_ph_net)] *)
Definition pseudo_size : Z := 12.

Definition set_skb (skb : skbuff) (p : tcp_packet) : tcp_packet :=
  mk_tcp_packet (tp_proto p) (tp_remote_ep p) (tp_local_ep p) skb.

Definition tcp_process (pkt_in : tcp_packet) : TcpM unit :=
  let skb := tp_skb pkt_in in
  _ ← lift (assert_ (negb (len (payload skb) <? tcp_header.fixed_size)));
  skb ← lift (skb_write tcp_header.offsetof_chsum (native_store 2 0) skb);
  let tcp_ph_net := tcp_pseudo_header pkt_in (len (payload skb)) in
  _ ← lift (assert_ (negb (headroom skb <? pseudo_size)));
  skb ← lift (push_front pseudo_size skb);
  skb ← lift (skb_write 0 tcp_ph_net skb);
  chsum_net ← lift (checksum (new_addr + headroom skb) (payload skb) 0);
  skb ← lift (pop_front pseudo_size skb);
  skb ← lift (skb_write tcp_header.offsetof_chsum (native_store 2 chsum_net) skb);
  process_raw (set_skb skb pkt_in).

Definition tcp_async_write (pkt : tcp_packet) (cb : nat) : TcpM unit :=
  _ ← tcp_process pkt; emit (TcpWritten cb).

(** ** From below *)

(** The packet [make_packet] builds.  The header is read without a check of
    the packet's length. *)
Definition incoming (pkt_in : ipv4_packet) (tcph : tcp_header_t) : tcp_packet := {|
  tp_proto := PROTO;
  tp_remote_ep := mk_endpoint (src_addrv4 pkt_in) (src_port tcph);
  tp_local_ep := mk_endpoint (dst_addrv4 pkt_in) (dst_port tcph);
  tp_skb := ipp_skb pkt_in;
|}.

(** What [std::move] leaves of a packet: the buffer is gone, the pointers
    into it are not. *)
Definition moved_from (p : tcp_packet) : tcp_packet :=
  set_skb (mk_skb [] (skb_head (tp_skb p)) (skb_tail (tp_skb p))) p.

Definition ends_of (p : tcp_packet) : two_ends_t := mk_two_ends (tp_remote_ep p) (tp_local_ep p).

(** The loop over the rules.  [gone]: an earlier rule threw, so that the
    packet has been moved and the iterator erased. *)
Fixpoint try_rules (rules : list rule) (pkt : tcp_packet) (gone : bool) : TcpM (option tcp_packet) :=
  match rules with
  | [] => mret (Some (if gone then moved_from pkt else pkt))
  | r :: rules =>
      if rule_matches r (ends_of pkt) then
        if gone then fail Dangling else
        _ ← modify (λ s, set_raw (<[ends_of pkt := mk_raw [pkt] []]> (rcv_raw_states_ s)) s);
        thrown ← run_cb (rule_cb r) (tp_remote_ep pkt) (tp_local_ep pkt);
        if (thrown : bool) then
          s ← get;
          match rcv_raw_states_ s !! ends_of pkt with
          | None => fail Dangling
          | Some _ =>
              _ ← modify (λ s, set_raw (delete (ends_of pkt) (rcv_raw_states_ s)) s);
              try_rules rules pkt true
          end
        else mret None
      else try_rules rules pkt gone
  end.

Definition tcp_make_packet (pkt_in : ipv4_packet) : TcpM (option tcp_packet) :=
  '(tcph, _) ← lift (tcp_header.consume_from_net (head (ipp_skb pkt_in)));
  let tcp_pkt := incoming pkt_in tcph in
  let two_end := ends_of tcp_pkt in
  s ← get;
  match rcv_raw_states_ s !! two_end with
  | Some st =>
      match raw_on_data_receive st with
      | cb :: waiting =>
          _ ← modify (λ s, set_raw (<[two_end := mk_raw (raw_pq st) waiting]> (rcv_raw_states_ s)) s);
          _ ← emit (TcpRawCall cb tcp_pkt);
          mret None
      | [] =>
          _ ← modify (λ s, set_raw (<[two_end := mk_raw (raw_pq st ++ [tcp_pkt]) []]>
                                      (rcv_raw_states_ s)) s);
          mret None
      end
  | None => try_rules (tcp_rules_ s) tcp_pkt false
  end.

(** ** Rules and raw sockets *)

Definition tcp_rule_insert_front (mt : endpoint → endpoint → bool) (cb : nat) : TcpM unit :=
  modify (λ s, set_tcp_rules (mk_rule mt cb :: tcp_rules_ s) s).
Definition tcp_rule_insert_back (mt : endpoint → endpoint → bool) (cb : nat) : TcpM unit :=
  modify (λ s, set_tcp_rules (tcp_rules_ s ++ [mk_rule mt cb]) s).

Definition attach (remote_ep local_ep : endpoint) : TcpM unit :=
  s ← get;
  match rcv_raw_states_ s !! mk_two_ends remote_ep local_ep with
  | Some _ => fail (Thrown "is already attached")
  | None => modify (λ s, set_raw (<[mk_two_ends remote_ep local_ep := mk_raw [] []]>
                                    (rcv_raw_states_ s)) s)
  end.

Definition detach (remote_ep local_ep : endpoint) : TcpM unit :=
  modify (λ s, set_raw (delete (mk_two_ends remote_ep local_ep) (rcv_raw_states_ s)) s).

Definition async_wait (remote_ep local_ep : endpoint) (cb : nat) : TcpM unit :=
  let two_end := mk_two_ends remote_ep local_ep in
  s ← get;
  match rcv_raw_states_ s !! two_end with
  | None => fail (Thrown "endpoint is not connected")
  | Some st =>
      match raw_pq st with
      | tcp_pkt :: pq =>
          _ ← modify (λ s, set_raw (<[two_end := mk_raw pq (raw_on_data_receive st)]>
                                      (rcv_raw_states_ s)) s);
          emit (TcpRawPost cb tcp_pkt)
      | [] =>
          modify (λ s, set_raw (<[two_end := mk_raw [] (raw_on_data_receive st ++ [cb])]>
                                  (rcv_raw_states_ s)) s)
      end
  end.
End Tcp.

(** ** Properties *)

Section Checksum.
Context `{H : Host} (new_addr : Z).
Implicit Types (s : tcp) (skb : skbuff).

(** The pseudo header of RFC 793. *)
Definition rfc793_pseudo (src dst : ipv4_addr_t) (proto length_ : Z) : list byte :=
  be_split 4 (raw src) ++ be_split 4 (raw dst) ++ be_split 1 0 ++ be_split 1 proto ++
  be_split 2 length_.

Lemma tcp_pseudo_header_rfc793 pkt n :
  tcp_pseudo_header pkt n =
  rfc793_pseudo (addrv4 (tp_local_ep pkt)) (addrv4 (tp_remote_ep pkt)) (tp_proto pkt) (u16 n).
Proof.
  assert (∀ z, native_store 1 z = be_split 1 z) as E1.
  { intros z. unfold native_store, be_split. by destruct host_endian. }
  assert (∀ n z, (2 ≤ n)%nat → native_store n (hton n z) = be_split n z) as E2.
  { intros k z Hk. rewrite <- produce_to_net_be. unfold produce_to_net.
    by rewrite (proj2 (Z.ltb_lt 1 _)) by lia. }
  unfold tcp_pseudo_header, rfc793_pseudo. rewrite !E1, !E2 by lia. done.
Qed.

Lemma length_rfc793_pseudo src dst proto n : length (rfc793_pseudo src dst proto n) = 12%nat.
Proof. unfold rfc793_pseudo. by rewrite !length_app, !length_be_split. Qed.

(** The buffer in front of a payload whose checksum is being computed. *)
Lemma tcp_checksum_buffer skb ps :
  skb_wf skb → len ps = pseudo_size → pseudo_size ≤ headroom skb →
  tcp_header.fixed_size ≤ len (payload skb) →
  ∃ skb1 skb2 skb3 skb4,
    skb_write tcp_header.offsetof_chsum (native_store 2 0) skb = Ok skb1 ∧
    headroom skb1 = headroom skb ∧ len (payload skb1) = len (payload skb) ∧
    push_front pseudo_size skb1 = Ok skb2 ∧ skb_write 0 ps skb2 = Ok skb3 ∧
    headroom skb3 = headroom skb - pseudo_size ∧
    payload skb3 = (ps ++ take 16 (payload skb)) ++ be_split 2 0 ++ drop 18 (payload skb) ∧
    pop_front pseudo_size skb3 = Ok skb4 ∧ skb_wf skb4 ∧ headroom skb4 = headroom skb ∧
    payload skb4 = take 16 (payload skb) ++ be_split 2 0 ++ drop 18 (payload skb).
Proof.
  change tcp_header.fixed_size with 20. unfold tcp_header.offsetof_chsum, pseudo_size.
  intros Hw Hps Hroom Hlen. rewrite native_store_0.
  destruct (skb_write_Ok 16 (be_split 2 0) skb) as (skb1 & E1 & W1 & P1 & H1 & _);
    [done|lia|rewrite length_be_split; lia|].
  rewrite length_be_split in P1. change (Z.to_nat 16 + 2)%nat with 18%nat in P1.
  change (Z.to_nat 16) with 16%nat in P1.
  assert (len (payload skb1) = len (payload skb)) as L1.
  { rewrite P1, !length_app, length_be_split, length_take, length_drop. lia. }
  destruct (prepend_Ok ps skb1) as (skb3 & E3 & W3 & P3 & H3 & _); [done|lia|].
  unfold prepend in E3. rewrite Hps in E3.
  destruct (push_front 12 skb1) as [skb2|] eqn:E2; [|done]. cbn in E3.
  destruct (pop_front_total 12 skb3) as [skb4 E4]; [done|rewrite P3, length_app; lia|].
  apply pop_front_Ok in E4 as E4'; [|done|lia].
  destruct E4' as (W4 & P4 & _ & H4 & _ & _).
  exists skb1, skb2, skb3, skb4.
  split_and!; [done|done|done|done|done|lia|by rewrite P3, P1, <- app_assoc|done|done|lia|].
  rewrite P4, P3, <- P1. apply drop_app_length'. lia.
Qed.

(** The packet the segment leaves in. *)
Definition datagram (pkt : tcp_packet) (skb : skbuff) : ipv4_packet := {|
  src_addrv4 := addrv4 (tp_local_ep pkt); dst_addrv4 := addrv4 (tp_remote_ep pkt);
  ipp_proto := tp_proto pkt; ipp_skb := skb |}.

Lemma process_raw_run pkt s :
  process_raw pkt s =
  Ok ((), set_tcp_base (set_queue (packet_queue_ (tcp_base s) ++ [datagram pkt (tp_skb pkt)])
                                  (tcp_base s)) s, [TcpBase BasePost]).
Proof. done. Qed.

Lemma tcp_process_run pkt s :
  let skb := tp_skb pkt in
  let pseudo := rfc793_pseudo (addrv4 (tp_local_ep pkt)) (addrv4 (tp_remote_ep pkt))
                  (tp_proto pkt) (u16 (len (payload skb))) in
  skb_wf skb → pseudo_size ≤ headroom skb → tcp_header.fixed_size ≤ len (payload skb) →
  len (payload skb) ≤ 131058 → (host_endian = Big → Z.even (len (payload skb)) = true) →
  Z.even (new_addr + headroom skb) = true →
  ∃ skb' c, tcp_process new_addr pkt s =
      Ok ((), set_tcp_base (set_queue (packet_queue_ (tcp_base s) ++ [datagram pkt skb'])
                                      (tcp_base s)) s, [TcpBase BasePost]) ∧
    skb_wf skb' ∧ headroom skb' = headroom skb ∧
    payload skb' = take 16 (payload skb) ++ be_split 2 c ++ drop 18 (payload skb) ∧
    c = rfc1071 (pseudo ++ take 16 (payload skb) ++ be_split 2 0 ++ drop 18 (payload skb)) ∧
    rfc1071 (pseudo ++ payload skb') = 0.
Proof.
  intros skb pseudo Hw Hroom Hlen Hmax Hbig Heven.
  assert (len pseudo = pseudo_size) as Lps by (unfold pseudo; by rewrite length_rfc793_pseudo).
  destruct (tcp_checksum_buffer skb pseudo Hw Lps Hroom Hlen)
    as (skb1 & skb2 & skb3 & skb4 & E1 & H1 & L1 & E2 & E3 & H3 & P3 & E4 & W4 & H4 & P4).
  change tcp_header.fixed_size with 20 in Hlen.
  assert (len (take 16 (payload skb)) = 16) as L16 by (rewrite length_take; lia).
  assert (len (payload skb3) = 12 + len (payload skb)) as L3.
  { rewrite P3, !length_app, length_be_split, length_drop.
    unfold pseudo_size in Lps. lia. }
  destruct (checksum_rfc1071_aux (new_addr + headroom skb3) (payload skb3))
    as (c & Ec & Hc & Sc).
  { rewrite H3. unfold pseudo_size.
    replace (new_addr + (headroom skb - 12)) with (new_addr + headroom skb + 2 * (-6)) by lia.
    by rewrite Z.even_add_mul_2. }
  { split; [lia|]. intros Hb. rewrite L3. change 12 with (2 * 6).
    rewrite Z.add_comm, Z.even_add_mul_2. auto. }
  destruct (skb_write_Ok 16 (native_store 2 c) skb4) as (skb5 & E5 & W5 & P5 & H5 & _);
    [done|lia| |].
  { rewrite Sc, length_be_split, P4, !length_app, length_be_split, length_drop. lia. }
  rewrite Sc, P4, length_be_split in P5.
  change (Z.to_nat 16 + 2)%nat with 18%nat in P5. change (Z.to_nat 16) with 16%nat in P5.
  rewrite take_app_length', (app_assoc (take 16 (payload skb)) (be_split 2 0)) in P5 by lia.
  rewrite drop_app_length' in P5 by (rewrite length_app, length_be_split; lia).
  exists skb5, (rfc1071 (payload skb3)).
  split_and!; [|done|lia|done|by rewrite P3, <- app_assoc|].
  - unfold tcp_process, mbind, M_bind, lift.
    change (tp_skb pkt) with skb. unfold assert_.
    rewrite (proj2 (Z.ltb_ge _ _)) by (change tcp_header.fixed_size with 20; lia). cbn -[process_raw].
    rewrite E1, tcp_pseudo_header_rfc793, L1. fold pseudo.
    rewrite H1, (proj2 (Z.ltb_ge _ _)) by lia. cbn -[process_raw].
    rewrite E2, E3, Ec, E4. unfold tcp_header.offsetof_chsum. rewrite E5.
    by rewrite process_raw_run.
  - rewrite P5, app_assoc, P3. apply rfc1071_filled.
    rewrite length_app, Nat2Z.inj_add, Lps, L16. done.
Qed.

(** Whatever the segment holds and however long it is, it is queued. *)
Lemma tcp_process_total k pkt s :
  has_room k (tp_skb pkt) → pseudo_size ≤ k → tcp_header.fixed_size ≤ len (payload (tp_skb pkt)) →
  Z.even new_addr = true →
  ∃ skb', tcp_process new_addr pkt s =
      Ok ((), set_tcp_base (set_queue (packet_queue_ (tcp_base s) ++ [datagram pkt skb'])
                                      (tcp_base s)) s, [TcpBase BasePost]) ∧
    has_room k skb' ∧ len (payload skb') = len (payload (tp_skb pkt)).
Proof.
  intros Hr Hk Hlen Ha. set (skb := tp_skb pkt) in *.
  set (ps := tcp_pseudo_header pkt (len (payload skb))).
  assert (len ps = pseudo_size) as Lps
    by (unfold ps; by rewrite tcp_pseudo_header_rfc793, length_rfc793_pseudo).
  pose proof Hr as (Hw & Hroom & He).
  destruct (tcp_checksum_buffer skb ps Hw Lps ltac:(lia) Hlen)
    as (skb1 & skb2 & skb3 & skb4 & E1 & H1 & L1 & E2 & E3 & H3 & P3 & E4 & W4 & H4 & P4).
  change tcp_header.fixed_size with 20 in Hlen.
  destruct (checksum_total (new_addr + headroom skb3) (payload skb3)) as (c & Ec & _).
  { rewrite H3, Z.even_add, Z.even_sub, He, Ha. done. }
  assert (len (payload skb4) = len (payload skb)) as L4
    by (rewrite P4, !length_app, length_be_split, length_take, length_drop; lia).
  assert (has_room k skb4) as Hr4 by (unfold has_room; rewrite H4; by split_and!).
  destruct (skb_write_room k 16 (native_store 2 c) skb4 Hr4) as (skb5 & E5 & Hr5 & L5); [lia| |].
  { rewrite length_native_store, L4. lia. }
  exists skb5. split_and!; [|done|by rewrite L5].
  unfold tcp_process, mbind, M_bind, lift. change (tp_skb pkt) with skb. unfold assert_.
  rewrite (proj2 (Z.ltb_ge _ _)) by (change tcp_header.fixed_size with 20; lia).
  cbn -[process_raw]. rewrite E1, L1. fold ps.
  rewrite H1, (proj2 (Z.ltb_ge _ _)) by lia. cbn -[process_raw].
  rewrite E2, E3, Ec, E4. unfold tcp_header.offsetof_chsum. rewrite E5. by rewrite process_raw_run.
Qed.

(** C23: an outgoing segment of 20 to 131058 bytes, at an even address and
    with room for the pseudo header, is queued with everything but its
    checksum field as it was.  On a little-endian host, and for a segment of
    even length on a big-endian one, the checksum is that of RFC 793: the
    ones' complement sum over the pseudo header and the whole segment
    verifies.  (On a big-endian host the checksum of a segment of odd length
    is wrong, [checksum_big_endian_odd].)  The room in front of the segment,
    where the pseudo header was written for the purpose, is given back. *)
Theorem tcp_process_checksum pkt s :
  let skb := tp_skb pkt in
  let pseudo := rfc793_pseudo (addrv4 (tp_local_ep pkt)) (addrv4 (tp_remote_ep pkt))
                  (tp_proto pkt) (u16 (len (payload skb))) in
  skb_wf skb → pseudo_size ≤ headroom skb → tcp_header.fixed_size ≤ len (payload skb) →
  len (payload skb) ≤ 131058 → (host_endian = Big → Z.even (len (payload skb)) = true) →
  Z.even (new_addr + headroom skb) = true →
  ∃ skb' c, tcp_process new_addr pkt s =
      Ok ((), set_tcp_base (set_queue (packet_queue_ (tcp_base s) ++ [datagram pkt skb'])
                                      (tcp_base s)) s, [TcpBase BasePost]) ∧
    skb_wf skb' ∧ headroom skb' = headroom skb ∧
    payload skb' = take 16 (payload skb) ++ be_split 2 c ++ drop 18 (payload skb) ∧
    c = rfc1071 (pseudo ++ take 16 (payload skb) ++ be_split 2 0 ++ drop 18 (payload skb)) ∧
    rfc1071 (pseudo ++ payload skb') = 0.
Proof. apply tcp_process_run. Qed.
End Checksum.

(** *** Raw sockets *)

Section RawSockets.
Context `{H : Host} (run_cb : nat → endpoint → endpoint → M tcp tcp_event bool).
Implicit Types (s : tcp) (te : two_ends_t).

(** What [make_packet] makes of a packet from below. *)
Definition received (pkt_in : ipv4_packet) : option tcp_packet :=
  match tcp_header.consume_from_net (head (ipp_skb pkt_in)) with
  | Ok (tcph, _) => Some (incoming pkt_in tcph)
  | Fault _ => None
  end.

Lemma make_packet_attached pkt_in pkt st s :
  received pkt_in = Some pkt → rcv_raw_states_ s !! ends_of pkt = Some st →
  tcp_make_packet run_cb pkt_in s =
  match raw_on_data_receive st with
  | cb :: waiting =>
      Ok (None, set_raw (<[ends_of pkt := mk_raw (raw_pq st) waiting]> (rcv_raw_states_ s)) s,
          [TcpRawCall cb pkt])
  | [] =>
      Ok (None, set_raw (<[ends_of pkt := mk_raw (raw_pq st ++ [pkt]) []]> (rcv_raw_states_ s)) s,
          [])
  end.
Proof.
  unfold received. destruct (tcp_header.consume_from_net _) as [[tcph rest]|] eqn:E; [|done].
  intros [= <-] Hst. unfold tcp_make_packet, mbind at 1, M_bind at 1, lift. rewrite E.
  unfold mbind, M_bind. cbn [get]. rewrite Hst. by destruct (raw_on_data_receive st).
Qed.

Lemma make_packet_detached pkt_in pkt s :
  received pkt_in = Some pkt → rcv_raw_states_ s !! ends_of pkt = None →
  tcp_make_packet run_cb pkt_in s = try_rules run_cb (tcp_rules_ s) pkt false s.
Proof.
  unfold received. destruct (tcp_header.consume_from_net _) as [[tcph rest]|] eqn:E; [|done].
  intros [= <-] Hst. unfold tcp_make_packet, mbind at 1, M_bind at 1, lift. rewrite E.
  unfold mbind, M_bind. cbn [get]. rewrite Hst. by destruct (try_rules _ _ _ _ _) as [[[??]?]|].
Qed.

Lemma async_wait_attached te cb st s :
  rcv_raw_states_ s !! te = Some st →
  async_wait (te_remote_ep te) (te_local_ep te) cb s =
  match raw_pq st with
  | pkt :: pq =>
      Ok ((), set_raw (<[te := mk_raw pq (raw_on_data_receive st)]> (rcv_raw_states_ s)) s,
          [TcpRawPost cb pkt])
  | [] =>
      Ok ((), set_raw (<[te := mk_raw [] (raw_on_data_receive st ++ [cb])]> (rcv_raw_states_ s)) s,
          [])
  end.
Proof.
  intros Hst. unfold async_wait. destruct te as [r l]. cbn [te_remote_ep te_local_ep].
  unfold mbind, M_bind. cbn [get]. rewrite Hst. by destruct (raw_pq st).
Qed.

(** What happens to the pair of ends of a raw socket. *)
Inductive raw_action : Type :=
| RawArrive (pkt_in : ipv4_packet)  (** a packet comes from below *)
| RawWait (cb : nat).               (** the socket is read *)

(** What [make_packet] returns is handed on to the connection table. *)
Definition raw_act te (a : raw_action) : M tcp tcp_event (option tcp_packet) :=
  match a with
  | RawArrive pkt_in => tcp_make_packet run_cb pkt_in
  | RawWait cb => _ ← async_wait (te_remote_ep te) (te_local_ep te) cb; mret None
  end.

(** The packets that go up. *)
Fixpoint raw_run te (acts : list raw_action) : M tcp tcp_event (list tcp_packet) :=
  match acts with
  | [] => mret []
  | a :: acts => up ← raw_act te a; ups ← raw_run te acts; mret (option_list up ++ ups)
  end.

Definition arrivals (acts : list raw_action) : list tcp_packet :=
  omap (λ a, match a with RawArrive pkt_in => received pkt_in | RawWait _ => None end) acts.
Definition waits (acts : list raw_action) : list nat :=
  omap (λ a, match a with RawArrive _ => None | RawWait cb => Some cb end) acts.
(** The packets handed over, with the callbacks they were handed to. *)
Definition handed (evs : list tcp_event) : list (nat * tcp_packet) :=
  omap (λ ev, match ev with
    TcpRawCall cb pkt | TcpRawPost cb pkt => Some (cb, pkt) | _ => None end) evs.

(** The packets of an [RawArrive] are complete and for these ends. *)
Definition for_ends te (a : raw_action) : Prop :=
  match a with
  | RawArrive pkt_in => ∃ pkt, received pkt_in = Some pkt ∧ ends_of pkt = te
  | RawWait _ => True
  end.

(** Unread packets and waiting callbacks are never both there. *)
Definition raw_ok (st : raw_state) : Prop := raw_pq st = [] ∨ raw_on_data_receive st = [].

Lemma raw_act_spec te a st s :
  for_ends te a → rcv_raw_states_ s !! te = Some st → raw_ok st →
  ∃ st' evs, raw_act te a s =
      Ok (None, set_raw (<[te := st']> (rcv_raw_states_ s)) s, evs) ∧ raw_ok st' ∧
    (handed evs).*1 ++ raw_on_data_receive st' = raw_on_data_receive st ++ waits [a] ∧
    (handed evs).*2 ++ raw_pq st' = raw_pq st ++ arrivals [a].
Proof.
  intros Ha Hst Hok. destruct a as [pkt_in|cb]; cbn [raw_act].
  - destruct Ha as (pkt & Hp & He).
    assert (arrivals [RawArrive pkt_in] = [pkt]) as -> by (cbn; by rewrite Hp).
    erewrite make_packet_attached by (first [done|by rewrite He]). rewrite He.
    destruct st as [pq [|cb waiting]]; cbn [raw_on_data_receive raw_pq].
    + do 2 eexists. split; [done|]. split_and!; [by right|done|done].
    + destruct Hok as [Hq|]; [cbn in Hq; subst pq|done].
      do 2 eexists. split; [done|]. split_and!; [by left|cbn; by rewrite app_nil_r|done].
  - unfold mbind, M_bind. erewrite async_wait_attached by done.
    destruct st as [[|pkt pq] w]; cbn [raw_on_data_receive raw_pq].
    + do 2 eexists. split; [done|]. split_and!; [by left|done|done].
    + destruct Hok as [|Hw]; [done|cbn in Hw; subst w].
      do 2 eexists. split; [done|]. split_and!; [by right|done|cbn; by rewrite app_nil_r].
Qed.

(** C26: a raw socket gets every packet of its pair of ends once, in order of
    arrival, however arrivals and reads interleave: the k-th call of
    [async_wait] is answered with the k-th packet, at once when it is there
    and when it comes otherwise.  What is left over is in the queues, at
    most one of which holds something.  [make_packet] returns none of the
    packets, so that none reaches the connection table. *)
Theorem raw_sockets_fifo te acts s :
  rcv_raw_states_ s !! te = Some (mk_raw [] []) → Forall (for_ends te) acts →
  ∃ st evs s', raw_run te acts s = Ok ([], s', evs) ∧
    rcv_raw_states_ s' = <[te := st]> (rcv_raw_states_ s) ∧ raw_ok st ∧
    (handed evs).*1 ++ raw_on_data_receive st = waits acts ∧
    (handed evs).*2 ++ raw_pq st = arrivals acts.
Proof.
  intros Hst Hacts.
  enough (∀ st0, rcv_raw_states_ s !! te = Some st0 → raw_ok st0 →
    ∃ st evs s', raw_run te acts s = Ok ([], s', evs) ∧
      rcv_raw_states_ s' = <[te := st]> (rcv_raw_states_ s) ∧ raw_ok st ∧
      (handed evs).*1 ++ raw_on_data_receive st = raw_on_data_receive st0 ++ waits acts ∧
      (handed evs).*2 ++ raw_pq st = raw_pq st0 ++ arrivals acts) as Hgen.
  { apply (Hgen _ Hst). by left. }
  clear Hst. revert s. induction Hacts as [|a acts Ha _ IH]; intros s st0 Hst Hok.
  - exists st0, [], s. rewrite !app_nil_r, insert_id by done. by split_and!.
  - destruct (raw_act_spec te a st0 s Ha Hst Hok) as (st1 & ev1 & E1 & Hok1 & Hw1 & Hp1).
    set (s1 := set_raw (<[te := st1]> (rcv_raw_states_ s)) s) in *.
    destruct (IH s1 st1) as (st & ev2 & s' & E2 & Hs' & Hok2 & Hw2 & Hp2);
      [apply lookup_insert_eq|done|].
    exists st, (ev1 ++ ev2), s'. split_and!; [..|done| |].
    + cbn [raw_run]. unfold mbind, M_bind. rewrite E1, E2. cbn. by rewrite app_nil_r.
    + rewrite Hs'. unfold s1. cbn [rcv_raw_states_ set_raw]. apply insert_insert_eq.
    + assert (waits (a :: acts) = waits [a] ++ waits acts) as -> by (by destruct a).
      unfold handed. rewrite omap_app, fmap_app. fold (handed ev1) (handed ev2).
      by rewrite <- app_assoc, Hw2, app_assoc, Hw1, <- app_assoc.
    + assert (arrivals (a :: acts) = arrivals [a] ++ arrivals acts) as ->.
      { destruct a as [p|]; cbn; [|done]. by destruct (received p). }
      unfold handed. rewrite omap_app, fmap_app. fold (handed ev1) (handed ev2).
      by rewrite <- app_assoc, Hp2, app_assoc, Hp1, <- app_assoc.
Qed.

Lemma try_rules_skip pkt gone l l' :
  Forall (λ r, rule_matches r (ends_of pkt) = false) l →
  try_rules run_cb (l ++ l') pkt gone = try_rules run_cb l' pkt gone.
Proof. induction 1 as [|x l Hx _ IH]; [done|]. cbn. by rewrite Hx. Qed.

Lemma try_rules_gone pkt s l :
  try_rules run_cb l pkt true s =
  if existsb (λ r, rule_matches r (ends_of pkt)) l then Fault Dangling
  else Ok (Some (moved_from pkt), s, []).
Proof.
  induction l as [|x l IH]; [done|]. cbn [try_rules existsb].
  destruct (rule_matches x (ends_of pkt)); [done|]. cbn [orb]. by rewrite IH.
Qed.

(** A packet whose ends no raw socket has.  It goes up to the connection
    table, with the remote end taken from its source and the local one from
    its destination, when no rule matches.  The first rule that matches
    takes it: it waits in a fresh state of its own for the first
    [async_wait] of the socket that the rule's callback makes.  When the
    callback throws, the packet has already been moved: the connection
    table is handed what the move left, and a further rule that matches
    uses the erased iterator. *)
Theorem make_packet_rules pkt_in pkt s :
  received pkt_in = Some pkt → rcv_raw_states_ s !! ends_of pkt = None →
  let te := ends_of pkt in
  let s1 := set_raw (<[te := mk_raw [pkt] []]> (rcv_raw_states_ s)) s in
  (Forall (λ r, rule_matches r te = false) (tcp_rules_ s) →
   tcp_make_packet run_cb pkt_in s = Ok (Some pkt, s, [])) ∧
  (∀ rules1 r rules2, tcp_rules_ s = rules1 ++ r :: rules2 →
   Forall (λ r, rule_matches r te = false) rules1 → rule_matches r te = true →
   (∀ s' evs, run_cb (rule_cb r) (tp_remote_ep pkt) (tp_local_ep pkt) s1 = Ok (false, s', evs) →
      tcp_make_packet run_cb pkt_in s = Ok (None, s', evs)) ∧
   (∀ evs, run_cb (rule_cb r) (tp_remote_ep pkt) (tp_local_ep pkt) s1 = Ok (true, s1, evs) →
      tcp_make_packet run_cb pkt_in s =
        if existsb (λ r, rule_matches r te) rules2 then Fault Dangling
        else Ok (Some (moved_from pkt), s, evs))).
Proof.
  intros Hp Hst te s1. rewrite (make_packet_detached _ pkt) by done. split.
  - intros Hr. rewrite <- (app_nil_r (tcp_rules_ s)), try_rules_skip by done. done.
  - intros rules1 r rules2 -> Hr1 Hm. rewrite try_rules_skip by done.
    cbn [try_rules]. fold te. rewrite Hm. unfold mbind, M_bind, modify. fold te s1. split.
    + intros s' evs ->. cbn. by rewrite app_nil_r.
    + intros evs ->. cbn [get]. unfold s1 at 1. cbn [rcv_raw_states_ set_raw].
      rewrite lookup_insert_eq.
      assert (set_raw (delete te (rcv_raw_states_ s1)) s1 = s) as ->.
      { unfold s1. cbn [rcv_raw_states_ set_raw tcp_base tcp_rules_].
        rewrite delete_insert_id by done. by destruct s. }
      rewrite try_rules_gone. fold te.
      destruct (existsb _ _); [done|]. by rewrite app_nil_l, app_nil_r.
Qed.

(** *** What comes up *)

Definition raw_event (ev : tcp_event) : Prop :=
  match ev with TcpBase _ => False | _ => True end.

(** What is asked of the callbacks of the rules: they do not throw, and do
    not send. *)
Definition callbacks_ok : Prop := ∀ cb re le s,
  wp (run_cb cb re le) (λ thrown s' es, thrown = false ∧ tcp_base s' = tcp_base s ∧
    Forall raw_event es) (λ _, False) s.

Lemma try_rules_wp rules pkt s :
  callbacks_ok →
  wp (try_rules run_cb rules pkt false) (λ out s' es, tcp_base s' = tcp_base s ∧
    Forall raw_event es ∧ (out = None ∨ out = Some pkt)) (λ _, False) s.
Proof.
  intros Hcb. induction rules as [|r rules IH]; cbn [try_rules]; [wp_steps; auto using List.Forall_nil|].
  case_match; [|done]. wp_steps. eapply wp_mono; [apply Hcb| |done].
  intros thrown s' es (-> & Hb & He). wp_steps. cbn [app]. rewrite app_nil_r.
  split_and!; [done|done|by left].
Qed.

Lemma tcp_consume_ports ptr h rest :
  tcp_header.consume_from_net ptr = Ok (h, rest) → is_u 16 (src_port h) ∧ is_u 16 (dst_port h).
Proof.
  unfold tcp_header.consume_from_net. intros E. repeat unparse_step E.
  injection E as <- <-. done.
Qed.

Lemma tcp_make_packet_wp pkt_in s :
  callbacks_ok → ipv4_ok (src_addrv4 pkt_in) → ipv4_ok (dst_addrv4 pkt_in) →
  wp (tcp_make_packet run_cb pkt_in) (λ out s' es, tcp_base s' = tcp_base s ∧
    Forall raw_event es ∧ ∀ p, out = Some p →
      tp_proto p = PROTO ∧ endpoint_ok (tp_remote_ep p) ∧ endpoint_ok (tp_local_ep p))
    remote_fault s.
Proof.
  intros Hcb Hsrc Hdst. unfold tcp_make_packet. wp_steps.
  apply wp_lift; [|by eauto using tcp_consume_fault].
  intros [h rest] [Hp1 Hp2]%tcp_consume_ports. cbv beta iota. wp_steps. cbn [app].
  destruct (rcv_raw_states_ s !! _) as [[pq [|cb waiting]]|]; cbn [raw_on_data_receive].
  - wp_steps. split_and!; [done|apply List.Forall_nil|done].
  - wp_steps. split_and!; [done|by repeat constructor|done].
  - eapply wp_mono; [by apply try_rules_wp| |done]. intros out s' es (Hb & He & Ho).
    split_and!; [done|done|]. intros p ->. destruct Ho as [|[= ->]]; [done|]. by split_and!.
Qed.

End RawSockets.

(** *** A concrete layer *)

(** An outgoing segment with room for the headers below it, of odd length. *)
Definition test_segment : tcp_packet :=
  mk_tcp_packet PROTO (test_ep 167772162 4096) (test_ep 167772161 80)
    (mk_skb (replicate 34 Byte.x00 ++
             tcp_header.produce_to_net (H := test_host Little) (test_header 1000 2000 [1; 1]) ++
             [Byte.xab; Byte.xcd; Byte.xef]) 34 57).

Lemma tcp_process_checksum_witness :
  let H := test_host Little in
  let skb := tp_skb test_segment in
  let pseudo := rfc793_pseudo (Ipv4 167772161) (Ipv4 167772162) PROTO 23 in
  ∃ skb' c, tcp_process 64 test_segment tcp_new =
      Ok ((), set_tcp_base (mk_base false [datagram test_segment skb']) tcp_new,
          [TcpBase BasePost]) ∧
    skb_wf skb' ∧ headroom skb' = headroom skb ∧
    payload skb' = take 16 (payload skb) ++ be_split 2 c ++ drop 18 (payload skb) ∧
    c = rfc1071 (pseudo ++ take 16 (payload skb) ++ be_split 2 0 ++ drop 18 (payload skb)) ∧
    rfc1071 (pseudo ++ payload skb') = 0.
Proof.
  apply (tcp_process_checksum (H := test_host Little) 64 test_segment tcp_new);
    [split_and!; vm_compute; discriminate|vm_compute; discriminate|vm_compute; discriminate
    |vm_compute; discriminate|done|reflexivity].
Defined.

(** The datagrams [test_packet]s come in. *)
Definition test_datagram (bytes : list byte) : ipv4_packet :=
  let p := test_packet (test_header 1000 2000 [1; 1]) bytes in
  mk_ipv4_packet (addrv4 (tp_remote_ep p)) (addrv4 (tp_local_ep p)) (tp_proto p) (tp_skb p).
Definition test_incoming (bytes : list byte) : tcp_packet :=
  test_packet (test_header 1000 2000 [1; 1]) bytes.
Definition test_ends : two_ends_t := ends_of (test_incoming []).

(** Two reads before the first packet, and two packets before the last read. *)
Lemma raw_sockets_fifo_witness :
  let H := test_host Little in
  let acts := [RawWait 7; RawWait 8; RawArrive (test_datagram [Byte.x01]);
               RawArrive (test_datagram [Byte.x02]); RawArrive (test_datagram [Byte.x03]);
               RawArrive (test_datagram [Byte.x04]); RawWait 9] in
  let s := set_raw {[ test_ends := mk_raw [] [] ]} tcp_new in
  ∃ st evs s', raw_run (λ _ _ _, mret false) test_ends acts s = Ok ([], s', evs) ∧
    rcv_raw_states_ s' = <[test_ends := st]> (rcv_raw_states_ s) ∧ raw_ok st ∧
    (handed evs).*1 ++ raw_on_data_receive st = [7; 8; 9]%nat ∧
    (handed evs).*2 ++ raw_pq st =
      [test_incoming [Byte.x01]; test_incoming [Byte.x02]; test_incoming [Byte.x03];
       test_incoming [Byte.x04]].
Proof.
  intros H acts s. refine (raw_sockets_fifo (H := test_host Little) _ test_ends acts s _ _).
  - apply lookup_insert_eq.
  - repeat (apply Forall_cons; split; [first [exact I | eexists; split; vm_compute; reflexivity]|]).
    apply List.Forall_nil.
Defined.

(** The second of three rules takes the packet; its callback attaches nothing. *)
Lemma make_packet_rules_witness :
  let H := test_host Little in
  let pkt := test_incoming [Byte.x01] in
  let miss := mk_rule (λ _ _, false) 1 in
  let hit := mk_rule (λ _ _, true) 2 in
  let s := set_tcp_rules [miss; hit; hit] tcp_new in
  tcp_make_packet (λ _ _ _, mret false) (test_datagram [Byte.x01]) s =
    Ok (None, set_raw {[ ends_of pkt := mk_raw [pkt] [] ]} s, []) ∧
  tcp_make_packet (λ _ _ _, mret true) (test_datagram [Byte.x01]) s = Fault Dangling.
Proof.
  intros H pkt miss hit s.
  assert (received (H := test_host Little) (test_datagram [Byte.x01]) = Some pkt) as Hp
    by (vm_compute; reflexivity).
  assert (Forall (λ r, rule_matches r (ends_of pkt) = false) [miss]) as Hm
    by (apply Forall_cons; split; [reflexivity|apply List.Forall_nil]).
  split.
  - exact (proj1 (proj2 (make_packet_rules (λ _ _ _, mret false) _ pkt s Hp (lookup_empty _))
      [miss] hit [hit] eq_refl Hm eq_refl) _ [] eq_refl).
  - exact (proj2 (proj2 (make_packet_rules (λ _ _ _, mret true) _ pkt s Hp (lookup_empty _))
      [miss] hit [hit] eq_refl Hm eq_refl) [] eq_refl).
Defined.
