(* ===== verification/Intercept.v ===== *)
(** * interceptor.hpp, interceptor.cpp, raw_socket.hpp, raw_socket.cpp

    An interceptor inserts a rule into the TCP layer that takes connections
    away from the connection table, and hands each to a callback that waits,
    as a raw socket, whose methods are those of the TCP layer. *)

From S2P Require Import Prelude Utils Skbuff Addr Headers Tcb TcbSend TcbState BaseProtocol Packets Tcp.

(** ** Raw sockets *)

Record raw_socket : Type := mk_raw_socket { rs_remote_ep : endpoint; rs_local_ep : endpoint }.

Section Intercept.
Context `{Hh : Host}.

(** The address of the buffer of a packet that is written. *)
Context (new_addr : Z).

Abbreviation TcpM := (M tcp tcp_event).

Definition rs_attach (sk : raw_socket) : TcpM unit := attach (rs_remote_ep sk) (rs_local_ep sk).
Definition rs_detach (sk : raw_socket) : TcpM unit := detach (rs_remote_ep sk) (rs_local_ep sk).

(** The closure that moves the packet to the reader and calls [cb] is known
    by [cb]. *)
Definition rs_async_read (sk : raw_socket) (cb : nat) : TcpM unit :=
  async_wait (rs_remote_ep sk) (rs_local_ep sk) cb.
Definition rs_async_write (sk : raw_socket) (pkt : tcp_packet) (cb : nat) : TcpM unit :=
  tcp_async_write new_addr pkt cb.

(** ** Interceptors *)

(** What a callback of the user does with the raw socket it is given. *)
Inductive use : Type :=
| UseAttach | UseDetach | UseRead (cb : nat) | UseWrite (pkt : tcp_packet) (cb : nat)
| UseIntercept (i cb : nat)  (** [async_intercept] of the interceptor [i] *)
| UseThrow (what : string).

(** The callbacks of the user. *)
Context (user : nat → list use).

Definition run_use (sk : raw_socket) (u : use) : TcpM unit :=
  match u with
  | UseAttach => rs_attach sk
  | UseDetach => rs_detach sk
  | UseRead cb => rs_async_read sk cb
  | UseWrite pkt cb => rs_async_write sk pkt cb
  | UseIntercept i cb => emit (TcpIntercept i cb)
  | UseThrow what => fail (Thrown what)
  end.

(** Whether an exception ends the callback. *)
Fixpoint run_uses (sk : raw_socket) (us : list use) : TcpM bool :=
  match us with
  | [] => mret false
  | u :: us => λ s,
      match run_use sk u s with
      | Fault (Thrown _) => Ok (true, s, [])
      | _ => (_ ← run_use sk u; run_uses sk us) s
      end
  end.

(** [cbs_] of the interceptors alive. *)
Abbreviation queues := (gmap nat (list nat)).

(** The callback of the rule of the interceptor [i].  The rule outlives the
    interceptor, whose destructor does not remove it. *)
Definition on_rule (cbs_ : queues) (i : nat) (remote_ep local_ep : endpoint) : TcpM bool :=
  match cbs_ !! i with
  | None => fail Dangling
  | Some [] => mret false
  | Some (cb :: _) =>
      _ ← emit (TcpIntercepted i cb remote_ep local_ep);
      run_uses (mk_raw_socket remote_ep local_ep) (user cb)
  end.

(** What becomes of the queues: a callback is popped before it is called. *)
Definition on_queues (cbs_ : queues) (ev : tcp_event) : queues :=
  match ev with
  | TcpIntercepted i _ _ _ => alter tail i cbs_
  | TcpIntercept i cb => alter (λ q, q ++ [cb]) i cbs_
  | _ => cbs_
  end.

(** The TCP layer and its interceptors. *)
Record host : Type := mk_host { h_tcp : tcp; h_cbs : queues }.
Abbreviation HostM := (M host tcp_event).

Definition set_h_tcp (t : tcp) (h : host) : host := mk_host t (h_cbs h).
Definition set_h_cbs (c : queues) (h : host) : host := mk_host (h_tcp h) c.

Definition interceptor_new (i : nat) (mt : endpoint → endpoint → bool) : HostM unit :=
  _ ← zoom h_tcp set_h_tcp id (tcp_rule_insert_back mt i);
  modify (λ h, set_h_cbs (<[i := []]> (h_cbs h)) h).
Definition interceptor_new_at (i : nat) (local_ep_exp : endpoint) : HostM unit :=
  interceptor_new i (λ _ local_ep, bool_decide (local_ep_exp = local_ep)).
Definition interceptor_destroy (i : nat) : HostM unit :=
  modify (λ h, set_h_cbs (delete i (h_cbs h)) h).

Definition async_intercept (i cb : nat) : HostM unit :=
  h ← get;
  match h_cbs h !! i with
  | None => fail Dangling
  | Some q => modify (λ h, set_h_cbs (<[i := q ++ [cb]]> (h_cbs h)) h)
  end.

(** A packet from below. *)
Definition h_make_packet (pkt_in : ipv4_packet) : HostM (option tcp_packet) := λ h,
  match tcp_make_packet (on_rule (h_cbs h)) pkt_in (h_tcp h) with
  | Ok (out, t, evs) => Ok (out, mk_host t (foldl on_queues (h_cbs h) evs), evs)
  | Fault f => Fault f
  end.

(** ** The first packet of a connection *)

Implicit Types (h : host) (pkt : tcp_packet) (t : tcp).

(** The rule [r] is the first that matches. *)
Definition first_rule (r : rule) (rules2 : list rule) (te : two_ends_t) (t : tcp) : Prop :=
  ∃ rules1, tcp_rules_ t = rules1 ++ r :: rules2 ∧
    Forall (λ r, rule_matches r te = false) rules1 ∧ rule_matches r te = true.

(** The connection is attached, and its first packet waits to be read. *)
Definition captured pkt t : tcp := set_raw (<[ends_of pkt := mk_raw [pkt] []]> (rcv_raw_states_ t)) t.

Lemma make_packet_first_rule run_cb pkt_in pkt r rules2 t :
  received pkt_in = Some pkt → rcv_raw_states_ t !! ends_of pkt = None →
  first_rule r rules2 (ends_of pkt) t →
  tcp_make_packet run_cb pkt_in t =
  match run_cb (rule_cb r) (tp_remote_ep pkt) (tp_local_ep pkt) (captured pkt t) with
  | Ok (false, t', evs) => Ok (None, t', evs)
  | Ok (true, t', evs) =>
      match rcv_raw_states_ t' !! ends_of pkt with
      | None => Fault Dangling
      | Some _ =>
          if existsb (λ r, rule_matches r (ends_of pkt)) rules2 then Fault Dangling
          else Ok (Some (moved_from pkt),
                   set_raw (delete (ends_of pkt) (rcv_raw_states_ t')) t', evs)
      end
  | Fault f => Fault f
  end.
Proof.
  intros Hp Hst (rules1 & Hr & Hr1 & Hm).
  rewrite (make_packet_detached _ _ pkt), Hr, try_rules_skip by done. cbn [try_rules]. rewrite Hm.
  unfold mbind, M_bind, modify. fold (captured pkt t).
  destruct (run_cb _ _ _ _) as [[[[] t'] evs]|f]; [|by cbn; rewrite app_nil_r|done].
  cbn [get]. destruct (rcv_raw_states_ t' !! _); [|done]. rewrite try_rules_gone.
  destruct (existsb _ _); [done|]. by rewrite app_nil_l, !app_nil_r.
Qed.

Lemma read_captured pkt rd us t t' evs b :
  run_uses (mk_raw_socket (tp_remote_ep pkt) (tp_local_ep pkt)) us
    (set_raw (<[ends_of pkt := mk_raw [] []]> (rcv_raw_states_ t)) t) = Ok (b, t', evs) →
  run_uses (mk_raw_socket (tp_remote_ep pkt) (tp_local_ep pkt)) (UseRead rd :: us) (captured pkt t) =
    Ok (b, t', TcpRawPost rd pkt :: evs).
Proof.
  intros E. assert (rs_async_read (mk_raw_socket (tp_remote_ep pkt) (tp_local_ep pkt)) rd (captured pkt t) =
    Ok ((), set_raw (<[ends_of pkt := mk_raw [] []]> (rcv_raw_states_ t)) t, [TcpRawPost rd pkt])) as Er.
  { unfold rs_async_read. cbn [rs_remote_ep rs_local_ep].
    rewrite (async_wait_attached (ends_of pkt) rd (mk_raw [pkt] [])) by apply lookup_insert_eq.
    cbn [raw_pq raw_on_data_receive captured rcv_raw_states_ set_raw]. by rewrite insert_insert_eq. }
  cbn [run_uses run_use]. rewrite Er. unfold mbind, M_bind. by rewrite Er, E.
Qed.

Lemma alter_lookup {A} (f : A → A) i (m : gmap nat A) x : m !! i = Some x → alter f i m = <[i := f x]> m.
Proof.
  intros E. apply map_eq. intros j. destruct (decide (i = j)) as [->|].
  - by rewrite lookup_alter_eq, lookup_insert_eq, E.
  - by rewrite lookup_alter_ne, lookup_insert_ne.
Qed.

(** One packet, at any host.  The callback at the front of the queue is called
    with a raw socket of the two ends; when it reads, it gets this packet, and
    the connection table gets none.  When no callback waits, the connection is
    taken all the same: this packet and the next one are kept.  A callback
    that calls [attach], as the class offers, throws, since the ends are
    attached already: the interception is undone, and the packet goes up
    without its buffer or meets an erased iterator.  After the interceptor is
    destroyed its rule refers to what is gone. *)
Theorem intercepted_connection pkt_in pkt r rules2 h :
  received pkt_in = Some pkt → rcv_raw_states_ (h_tcp h) !! ends_of pkt = None →
  first_rule r rules2 (ends_of pkt) (h_tcp h) →
  let i := rule_cb r in
  let remote_ep := tp_remote_ep pkt in
  let local_ep := tp_local_ep pkt in
  match h_cbs h !! i with
  | None => h_make_packet pkt_in h = Fault Dangling
  | Some [] =>
      h_make_packet pkt_in h = Ok (None, set_h_tcp (captured pkt (h_tcp h)) h, []) ∧
      ∀ cbs_ pkt_in' pkt', received pkt_in' = Some pkt' → ends_of pkt' = ends_of pkt →
        h_make_packet pkt_in' (mk_host (captured pkt (h_tcp h)) cbs_) =
          Ok (None, mk_host (set_raw (<[ends_of pkt := mk_raw [pkt; pkt'] []]>
                                        (rcv_raw_states_ (h_tcp h))) (h_tcp h)) cbs_, [])
  | Some (cb :: q) =>
      (∀ rd us t' evs, user cb = UseRead rd :: us →
        run_uses (mk_raw_socket remote_ep local_ep) us
          (set_raw (<[ends_of pkt := mk_raw [] []]> (rcv_raw_states_ (h_tcp h))) (h_tcp h)) =
          Ok (false, t', evs) →
        h_make_packet pkt_in h =
          Ok (None, mk_host t' (foldl on_queues (<[i := q]> (h_cbs h)) evs),
              TcpIntercepted i cb remote_ep local_ep :: TcpRawPost rd pkt :: evs)) ∧
      (∀ us, user cb = UseAttach :: us →
        h_make_packet pkt_in h =
          if existsb (λ r, rule_matches r (ends_of pkt)) rules2 then Fault Dangling
          else Ok (Some (moved_from pkt), set_h_cbs (<[i := q]> (h_cbs h)) h,
                   [TcpIntercepted i cb remote_ep local_ep]))
  end.
Proof.
  intros Hp Hst Hr i remote_ep local_ep. unfold h_make_packet.
  rewrite (make_packet_first_rule _ _ pkt r rules2) by done. fold i remote_ep local_ep.
  unfold on_rule. destruct (h_cbs h !! i) as [[|cb q]|] eqn:Eq; [|split|done].
  - split; [done|]. intros cbs_ pkt_in' pkt' Hp' He. cbn [h_tcp h_cbs].
    erewrite make_packet_attached; [|done|by rewrite He; apply lookup_insert_eq].
    cbn [raw_on_data_receive raw_pq foldl]. rewrite He. unfold captured. cbn [rcv_raw_states_ set_raw].
    by rewrite insert_insert_eq.
  - intros rd us t' evs Ea Eu. unfold mbind, M_bind, emit. rewrite Ea.
    pose proof (read_captured pkt rd us (h_tcp h) t' evs false Eu) as Er.
    fold remote_ep local_ep in Er. rewrite Er. cbn [app foldl on_queues].
    by rewrite (alter_lookup tail _ _ _ Eq).
  - intros us Ea. unfold mbind, M_bind, emit. rewrite Ea.
    cbn [run_uses run_use]. unfold rs_attach, attach. cbn [rs_remote_ep rs_local_ep].
    fold (ends_of pkt). unfold mbind, M_bind. cbn [get captured rcv_raw_states_ set_raw].
    rewrite lookup_insert_eq. cbn [fail captured rcv_raw_states_ set_raw].
    unfold captured. cbn [rcv_raw_states_ set_raw]. rewrite lookup_insert_eq.
    destruct (existsb _ _); [done|]. cbn [app foldl on_queues].
    rewrite (alter_lookup tail _ _ _ Eq), delete_insert_id by done.
    destruct h as [[b rules raw] cbs_]. done.
Qed.

(** *** The order of the callbacks

    The program calls [async_intercept], and packets arrive.  What a callback
    asks for while it runs counts at the place where it runs. *)
Inductive host_action : Type :=
| Ask (cb : nat)                    (** [async_intercept] *)
| Arrive (pkt_in : ipv4_packet).

Definition host_act (i : nat) (x : host_action) : HostM (option tcp_packet) :=
  match x with
  | Ask cb => _ ← async_intercept i cb; _ ← emit (TcpIntercept i cb); mret None
  | Arrive pkt_in => h_make_packet pkt_in
  end.

(** The packets that go up. *)
Fixpoint host_run (i : nat) (acts : list host_action) : HostM (list tcp_packet) :=
  match acts with
  | [] => mret []
  | x :: acts => up ← host_act i x; ups ← host_run i acts; mret (option_list up ++ ups)
  end.

(** The callbacks that ask the interceptor [i], and those it calls, with the
    ends of the raw socket they get. *)
Definition asking (i : nat) (evs : list tcp_event) : list nat :=
  omap (λ ev, match ev with TcpIntercept j cb => if decide (j = i) then Some cb else None | _ => None end) evs.
Definition handing (i : nat) (evs : list tcp_event) : list (nat * two_ends_t) :=
  omap (λ ev, match ev with
    | TcpIntercepted j cb r l => if decide (j = i) then Some (cb, mk_two_ends r l) else None
    | _ => None end) evs.
(** The packets for [te] that arrived, and those that were read. *)
Definition arrived (te : two_ends_t) (acts : list host_action) : list tcp_packet :=
  omap (λ x, match x with
    | Arrive pkt_in => pkt ← received pkt_in; (if decide (ends_of pkt = te) then Some pkt else None)
    | Ask _ => None end) acts.
Definition read_of (te : two_ends_t) (evs : list tcp_event) : list tcp_packet :=
  omap (λ ev, match ev with
    | TcpRawCall _ pkt | TcpRawPost _ pkt => if decide (ends_of pkt = te) then Some pkt else None
    | _ => None end) evs.

(** The callbacks read and ask for the next connection, in any order. *)
Definition gentle (us : list use) : Prop :=
  Forall (λ u, match u with UseRead _ | UseIntercept _ _ => True | _ => False end) us.

Definition reads (us : list use) : list nat :=
  omap (λ u, match u with UseRead rd => Some rd | _ => None end) us.

Lemma asking_app i e1 e2 : asking i (e1 ++ e2) = asking i e1 ++ asking i e2.
Proof. apply omap_app. Qed.
Lemma handing_app i e1 e2 : handing i (e1 ++ e2) = handing i e1 ++ handing i e2.
Proof. apply omap_app. Qed.
Lemma read_of_app te e1 e2 : read_of te (e1 ++ e2) = read_of te e1 ++ read_of te e2.
Proof. apply omap_app. Qed.

Lemma read_post te rd pkt evs :
  read_of te (TcpRawPost rd pkt :: evs) = if decide (ends_of pkt = te) then pkt :: read_of te evs else read_of te evs.
Proof. unfold read_of. cbn. by case_decide. Qed.
Lemma read_call te rd pkt evs :
  read_of te (TcpRawCall rd pkt :: evs) = if decide (ends_of pkt = te) then pkt :: read_of te evs else read_of te evs.
Proof. unfold read_of. cbn. by case_decide. Qed.
Lemma asking_intercept i j cb evs :
  asking i (TcpIntercept j cb :: evs) = if decide (j = i) then cb :: asking i evs else asking i evs.
Proof. unfold asking. cbn. by case_decide. Qed.

(** A callback runs: what it reads is what is kept for its ends, whenever it
    reads; other ends and the rules are left alone. *)
Lemma gentle_run te us : ∀ t st,
  gentle us → rcv_raw_states_ t !! te = Some st → raw_ok st → Forall (λ p, ends_of p = te) (raw_pq st) →
  ∃ st' evs,
    run_uses (mk_raw_socket (te_remote_ep te) (te_local_ep te)) us t =
      Ok (false, set_raw (<[te := st']> (rcv_raw_states_ t)) t, evs) ∧
    raw_ok st' ∧ read_of te evs ++ raw_pq st' = raw_pq st ∧
    (∀ te', te' ≠ te → read_of te' evs = []) ∧ (∀ i, handing i evs = []) ∧
    handed evs = zip (reads us) (raw_pq st) ∧
    ∀ i q cbs_, cbs_ !! i = Some q → foldl on_queues cbs_ evs !! i = Some (q ++ asking i evs).
Proof.
  induction us as [|u us IH]; intros t st Hus Hst Hok Hpq.
  { exists st, []. rewrite insert_id by done. split; [by destruct t|]. split_and!; try done.
    intros i q cbs_ E. cbn. by rewrite E, app_nil_r. }
  apply Forall_cons in Hus as [Hu Hus]. destruct u as [| |rd| |j cb|]; try done; cbn [run_uses run_use].
  - unfold rs_async_read. cbn [rs_remote_ep rs_local_ep].
    unfold mbind, M_bind. rewrite (async_wait_attached te rd st t Hst).
    destruct (raw_pq st) as [|pkt pq] eqn:Epq.
    + set (st1 := mk_raw [] (raw_on_data_receive st ++ [rd])).
      destruct (IH (set_raw (<[te := st1]> (rcv_raw_states_ t)) t) st1)
        as (st' & evs & E & Hok' & Hread & Hother & Hhand & Hq); [done|apply lookup_insert_eq|by left|done|].
      exists st', evs. rewrite E. cbn [set_raw rcv_raw_states_]. rewrite insert_insert_eq.
      destruct Hq as [Hgive Hq]. split_and!; try done. rewrite Hgive. cbn. by destruct (reads us).
    + destruct Hok as [Hnil|Hw]; [by rewrite Epq in Hnil|]. rewrite Hw.
      apply Forall_cons in Hpq as [Hp Hpq]. set (st1 := mk_raw pq []).
      destruct (IH (set_raw (<[te := st1]> (rcv_raw_states_ t)) t) st1)
        as (st' & evs & E & Hok' & Hread & Hother & Hhand & Hq); [done|apply lookup_insert_eq|by right|done|].
      exists st', (TcpRawPost rd pkt :: evs). rewrite E. cbn [set_raw rcv_raw_states_]. rewrite insert_insert_eq.
      split; [done|]. split; [done|]. split; [rewrite read_post, decide_True by done; cbn [app]; by rewrite Hread|].
      split; [intros te' Hne; rewrite read_post, decide_False by congruence; by apply Hother|].
      split; [done|]. destruct Hq as [Hgive Hq]. split; [|done]. cbn. by f_equal.
  - destruct (IH t st Hus Hst Hok Hpq) as (st' & evs & E & Hok' & Hread & Hother & Hhand & Hq).
    exists st', (TcpIntercept j cb :: evs). unfold emit, mbind, M_bind. rewrite E. split; [done|].
    split; [done|]. split; [done|]. split; [done|]. split; [done|].
    destruct Hq as [Hgive Hq]. split; [done|]. intros i q cbs_ Ei. cbn [foldl on_queues]. rewrite asking_intercept. destruct (decide (j = i)) as [->|Hne].
    + rewrite (Hq i (q ++ [cb])) by (by rewrite lookup_alter_eq, Ei). by rewrite <- app_assoc.
    + by rewrite (Hq i q) by (by rewrite lookup_alter_ne).
Qed.

(** The first packet of a connection. *)
Lemma fresh_arrival r i q pkt_in pkt h :
  (∀ cb, gentle (user cb)) → rule_cb r = i → received pkt_in = Some pkt →
  rcv_raw_states_ (h_tcp h) !! ends_of pkt = None → first_rule r [] (ends_of pkt) (h_tcp h) →
  h_cbs h !! i = Some q →
  ∃ st evs, h_make_packet pkt_in h =
      Ok (None, mk_host (set_raw (<[ends_of pkt := st]> (rcv_raw_states_ (h_tcp h))) (h_tcp h))
        (foldl on_queues (h_cbs h) evs), evs) ∧
    raw_ok st ∧ read_of (ends_of pkt) evs ++ raw_pq st = [pkt] ∧
    (∀ te', te' ≠ ends_of pkt → read_of te' evs = []) ∧
    match q with
    | [] => evs = [] ∧ st = mk_raw [pkt] []
    | cb :: q' => ∃ evs1, evs = TcpIntercepted i cb (tp_remote_ep pkt) (tp_local_ep pkt) :: evs1 ∧
        handing i evs1 = [] ∧ handed evs1 = zip (reads (user cb)) [pkt] ∧
        foldl on_queues (h_cbs h) evs !! i = Some (q' ++ asking i evs1)
    end.
Proof.
  intros Huser Ei Hp Hst Hr Hq. unfold h_make_packet.
  rewrite (make_packet_first_rule _ _ pkt r []) by done. rewrite Ei. unfold on_rule. rewrite Hq.
  destruct q as [|cb q].
  { exists (mk_raw [pkt] []), []. split; [done|]. split; [by right|]. by split_and!. }
  destruct (gentle_run (ends_of pkt) (user cb) (captured pkt (h_tcp h)) (mk_raw [pkt] []))
    as (st & evs & E & Hok & Hread & Hother & Hhand & Hgot & Hqs); [done|apply lookup_insert_eq|by right|by repeat constructor|].
  exists st, (TcpIntercepted i cb (tp_remote_ep pkt) (tp_local_ep pkt) :: evs).
  cbn [ends_of te_remote_ep te_local_ep] in E. unfold emit, mbind, M_bind. rewrite E.
  cbn [set_raw rcv_raw_states_ captured]. rewrite insert_insert_eq.
  split; [done|]. split; [done|]. split; [exact Hread|]. split; [exact Hother|].
  exists evs. split; [done|]. split; [done|]. split; [exact Hgot|]. cbn [foldl on_queues].
  apply (Hqs i q). by rewrite lookup_alter_eq, Hq.
Qed.

(** A later one. *)
Lemma further_arrival i pkt_in pkt st h :
  received pkt_in = Some pkt → rcv_raw_states_ (h_tcp h) !! ends_of pkt = Some st → raw_ok st →
  ∃ st' evs, h_make_packet pkt_in h =
      Ok (None, mk_host (set_raw (<[ends_of pkt := st']> (rcv_raw_states_ (h_tcp h))) (h_tcp h)) (h_cbs h), evs) ∧
    raw_ok st' ∧ read_of (ends_of pkt) evs ++ raw_pq st' = raw_pq st ++ [pkt] ∧
    (raw_on_data_receive st = [] → evs = [] ∧ raw_on_data_receive st' = []) ∧
    (∀ te', te' ≠ ends_of pkt → read_of te' evs = []) ∧ handing i evs = [] ∧ asking i evs = [].
Proof.
  intros Hp Hst Hok. unfold h_make_packet. rewrite (make_packet_attached _ pkt_in pkt st) by done.
  destruct st as [pq [|cb waiting]]; cbn [raw_on_data_receive raw_pq] in *.
  - exists (mk_raw (pq ++ [pkt]) []), []. split; [done|]. split; [by right|]. by split_and!.
  - destruct Hok as [Hnil|]; [cbn in Hnil; subst pq|done].
    exists (mk_raw [] waiting), [TcpRawCall cb pkt]. split; [done|]. split; [by left|].
    split; [by rewrite read_call, decide_True|]. split; [done|].
    split; [intros te' Hne; by rewrite read_call, decide_False by congruence|]. by split.
Qed.

(** After the actions [pre], which gave the events [evs]. *)
Record followed (i : nat) (h0 : host) (pre : list host_action) h (evs : list tcp_event) : Prop := {
  fo_rules : tcp_rules_ (h_tcp h) = tcp_rules_ (h_tcp h0);
  fo_queue : ∃ q, h_cbs h !! i = Some q ∧ (handing i evs).*1 ++ q = asking i evs;
  fo_once : NoDup (handing i evs).*2;
  fo_new : ∀ te, arrived te pre = [] → (te ∉ (handing i evs).*2) ∧ read_of te evs = [] ∧
    rcv_raw_states_ (h_tcp h) !! te = rcv_raw_states_ (h_tcp h0) !! te;
  fo_kept : ∀ te, arrived te pre ≠ [] → ∃ st, rcv_raw_states_ (h_tcp h) !! te = Some st ∧ raw_ok st ∧
    read_of te evs ++ raw_pq st = arrived te pre ∧
    (te ∉ (handing i evs).*2 → read_of te evs = [] ∧ raw_on_data_receive st = []);
}.

(** The packet can be read, no earlier rule takes it, and nothing was attached
    to its ends before. *)
Definition takes (mt : endpoint → endpoint → bool) (h : host) (pkt : tcp_packet) : Prop :=
  mt (tp_remote_ep pkt) (tp_local_ep pkt) = true ∧
  Forall (λ r, rule_matches r (ends_of pkt) = false) (tcp_rules_ (h_tcp h)) ∧
  rcv_raw_states_ (h_tcp h) !! ends_of pkt = None.
Definition taken mt h (x : host_action) : Prop :=
  match x with Ask _ => True | Arrive pkt_in => ∃ pkt, received pkt_in = Some pkt ∧ takes mt h pkt end.

Lemma arrived_app te e1 e2 : arrived te (e1 ++ e2) = arrived te e1 ++ arrived te e2.
Proof. apply omap_app. Qed.
Lemma arrived_one te pkt_in pkt :
  received pkt_in = Some pkt → arrived te [Arrive pkt_in] = if decide (ends_of pkt = te) then [pkt] else [].
Proof. intros E. unfold arrived. cbn. rewrite E. cbn. by case_decide. Qed.

Lemma followed_ask i h0 pre cb h evs :
  followed i h0 pre h evs →
  ∃ h', host_act i (Ask cb) h = Ok (None, h', [TcpIntercept i cb]) ∧
    followed i h0 (pre ++ [Ask cb]) h' (evs ++ [TcpIntercept i cb]).
Proof.
  intros [Hr (q & Hq & Eq) Hnd Hnew Hkept].
  exists (set_h_cbs (<[i := q ++ [cb]]> (h_cbs h)) h). split.
  { cbn [host_act]. unfold async_intercept, emit, mbind, M_bind. cbn. by rewrite Hq. }
  assert (∀ te, arrived te (pre ++ [Ask cb]) = arrived te pre) as Ea
    by (intros; rewrite arrived_app; apply app_nil_r).
  assert (∀ te, read_of te (evs ++ [TcpIntercept i cb]) = read_of te evs) as Er
    by (intros; rewrite read_of_app; apply app_nil_r).
  assert (handing i (evs ++ [TcpIntercept i cb]) = handing i evs) as Eh
    by (rewrite handing_app; apply app_nil_r).
  split.
  - done.
  - exists (q ++ [cb]). split; [apply lookup_insert_eq|].
    by rewrite Eh, asking_app, asking_intercept, decide_True, app_assoc, Eq.
  - by rewrite Eh.
  - intros te. rewrite Ea, Eh, Er. apply Hnew.
  - intros te. rewrite Ea, Eh, Er. apply Hkept.
Qed.

(** The ends of an arrival change, and no other. *)
Lemma followed_arrival i h0 pre pkt_in pkt h evs st cbs_ evs' q :
  followed i h0 pre h evs → received pkt_in = Some pkt → raw_ok st →
  cbs_ !! i = Some q → (handing i (evs ++ evs')).*1 ++ q = asking i (evs ++ evs') →
  NoDup (handing i (evs ++ evs')).*2 →
  (∀ te, te ∈ (handing i (evs ++ evs')).*2 → te ∈ (handing i evs).*2 ∨ te = ends_of pkt) →
  (∀ te, te ≠ ends_of pkt → read_of te evs' = []) →
  read_of (ends_of pkt) (evs ++ evs') ++ raw_pq st = arrived (ends_of pkt) pre ++ [pkt] →
  (ends_of pkt ∉ (handing i (evs ++ evs')).*2 →
    read_of (ends_of pkt) (evs ++ evs') = [] ∧ raw_on_data_receive st = []) →
  followed i h0 (pre ++ [Arrive pkt_in])
    (mk_host (set_raw (<[ends_of pkt := st]> (rcv_raw_states_ (h_tcp h))) (h_tcp h)) cbs_) (evs ++ evs').
Proof.
  intros [Hr _ _ Hnew Hkept] Hp Hok Hq Eq Hnd Hsub Hother Hread Hnone. set (te0 := ends_of pkt) in *.
  assert (∀ te, te ≠ te0 → arrived te (pre ++ [Arrive pkt_in]) = arrived te pre ∧
    read_of te (evs ++ evs') = read_of te evs) as Hne.
  { intros te Hte. rewrite arrived_app, (arrived_one te _ _ Hp), read_of_app, (Hother te Hte).
    fold te0. rewrite decide_False by congruence. by rewrite !app_nil_r. }
  assert (arrived te0 (pre ++ [Arrive pkt_in]) = arrived te0 pre ++ [pkt]) as E0
    by by rewrite arrived_app, (arrived_one te0 _ _ Hp), decide_True.
  split; cbn [h_tcp h_cbs set_raw rcv_raw_states_ tcp_rules_].
  - done.
  - by exists q.
  - done.
  - intros te Hte. destruct (decide (te = te0)) as [->|Hd].
    { rewrite E0 in Hte. by destruct (arrived te0 pre). }
    destruct (Hne te Hd) as [Ea Er]. rewrite Ea in Hte. destruct (Hnew te Hte) as (Hin & Hre & Hl).
    rewrite Er, lookup_insert_ne by done. split_and!; [|done|done].
    intros Hh'. destruct (Hsub te Hh'); done.
  - intros te Hte. destruct (decide (te = te0)) as [->|Hd].
    { exists st. rewrite lookup_insert_eq, E0. by split_and!. }
    destruct (Hne te Hd) as [Ea Er]. rewrite Ea in Hte |- *. rewrite Er.
    destruct (Hkept te Hte) as (st' & Hl & Hok' & Hre & Hni). exists st'.
    rewrite lookup_insert_ne by done. split_and!; [done|done|done|].
    intros Hnot. apply Hni. intros Hin. apply Hnot. rewrite handing_app, fmap_app, elem_of_app. by left.
Qed.

Lemma followed_arrive mt i h0 rules pre pkt_in h evs :
  (∀ cb, gentle (user cb)) → tcp_rules_ (h_tcp h0) = rules ++ [mk_rule mt i] →
  followed i h0 pre h evs →
  (∃ pkt, received pkt_in = Some pkt ∧ mt (tp_remote_ep pkt) (tp_local_ep pkt) = true ∧
    Forall (λ r, rule_matches r (ends_of pkt) = false) rules ∧
    rcv_raw_states_ (h_tcp h0) !! ends_of pkt = None) →
  ∃ h' evs', host_act i (Arrive pkt_in) h = Ok (None, h', evs') ∧
    followed i h0 (pre ++ [Arrive pkt_in]) h' (evs ++ evs').
Proof.
  intros Huser Hrules Hfo (pkt & Hp & Hmt & Hothers & Hfree). set (te0 := ends_of pkt) in *.
  pose proof Hfo as [Hr (q & Hq & Eq) Hnd Hnew Hkept].
  destruct (arrived te0 pre) as [|p0 ps] eqn:Ea.
  - destruct (Hnew te0 Ea) as (Hnot & Hre & Hl). rewrite Hfree in Hl.
    destruct (fresh_arrival (mk_rule mt i) i q pkt_in pkt h) as (st & evs' & E & Hok & Hread & Hother & Hcase);
      [done|done|done|done| |done|].
    { exists rules. by rewrite Hr, Hrules. }
    do 2 eexists. split; [exact E|]. destruct q as [|cb q].
    + destruct Hcase as [-> ->]. apply (followed_arrival i h0 pre pkt_in pkt h evs _ _ _ [] Hfo Hp Hok Hq);
        fold te0; rewrite ?(app_nil_r evs); [exact Eq|exact Hnd|by left|exact Hother|by rewrite Hre, Ea|by split].
    + destruct Hcase as (evs1 & -> & Hhand & _ & Hqs).
      assert (handing i (TcpIntercepted i cb (tp_remote_ep pkt) (tp_local_ep pkt) :: evs1) = [(cb, te0)]) as Eh.
      { unfold handing. cbn. rewrite decide_True by done. fold (handing i evs1). by rewrite Hhand. }
      assert (asking i (TcpIntercepted i cb (tp_remote_ep pkt) (tp_local_ep pkt) :: evs1) = asking i evs1) as Eas by done.
      apply (followed_arrival i h0 pre pkt_in pkt h evs _ _ _ (q ++ asking i evs1) Hfo Hp Hok Hqs);
        fold te0; rewrite ?handing_app, ?Eh, ?fmap_app, ?asking_app, ?Eas; cbn [fmap list_fmap fst snd].
      * by rewrite <- Eq, <- !app_assoc.
      * apply NoDup_app. split; [done|]. split; [by intros te Hin ->%list_elem_of_singleton|apply NoDup_singleton].
      * intros te. rewrite elem_of_app, list_elem_of_singleton. tauto.
      * exact Hother.
      * by rewrite read_of_app, Hre, Ea, <- Hread.
      * intros Hnin. destruct Hnin. rewrite elem_of_app, list_elem_of_singleton. by right.
  - destruct (Hkept te0) as (st0 & Hl & Hok0 & Hre & Hni); [by rewrite Ea|].
    destruct (further_arrival i pkt_in pkt st0 h Hp Hl Hok0) as (st & evs' & E & Hok & Hread & Hquiet & Hother & Hhand & Hask).
    do 2 eexists. split; [exact E|].
    apply (followed_arrival i h0 pre pkt_in pkt h evs _ _ _ q Hfo Hp Hok Hq);
      fold te0; rewrite ?handing_app, ?Hhand, ?app_nil_r, ?asking_app, ?Hask, ?app_nil_r;
      [exact Eq|exact Hnd|by left|exact Hother| |].
    + rewrite read_of_app, <- app_assoc. fold te0 in Hread. by rewrite Hread, app_assoc, Hre.
    + intros Hnot. destruct (Hni Hnot) as [Hre0 Hw]. destruct (Hquiet Hw) as [-> Hw'].
      by rewrite read_of_app, Hre0.
Qed.

Lemma host_run_spec mt i h0 rules acts :
  (∀ cb, gentle (user cb)) → tcp_rules_ (h_tcp h0) = rules ++ [mk_rule mt i] → ∀ pre h evs,
  followed i h0 pre h evs →
  Forall (λ x, match x with Ask _ => True | Arrive pkt_in => ∃ pkt, received pkt_in = Some pkt ∧
    mt (tp_remote_ep pkt) (tp_local_ep pkt) = true ∧ Forall (λ r, rule_matches r (ends_of pkt) = false) rules ∧
    rcv_raw_states_ (h_tcp h0) !! ends_of pkt = None end) acts →
  ∃ h' evs', host_run i acts h = Ok ([], h', evs') ∧ followed i h0 (pre ++ acts) h' (evs ++ evs').
Proof.
  intros Huser Hrules. induction acts as [|x acts IH]; intros pre h evs Hfo Hacts.
  { exists h, []. rewrite !app_nil_r. by split. }
  apply Forall_cons in Hacts as [Hx Hacts].
  assert (∃ h1 e1, host_act i x h = Ok (None, h1, e1) ∧ followed i h0 (pre ++ [x]) h1 (evs ++ e1))
    as (h1 & e1 & E1 & Hfo1).
  { destruct x as [cb|pkt_in].
    - destruct (followed_ask i h0 pre cb h evs Hfo) as (h1 & E & Hfo1). by exists h1, [TcpIntercept i cb].
    - exact (followed_arrive mt i h0 rules pre pkt_in h evs Huser Hrules Hfo Hx). }
  destruct (IH _ h1 _ Hfo1 Hacts) as (h2 & e2 & E2 & Hfo2). exists h2, (e1 ++ e2).
  rewrite <- !app_assoc in Hfo2. split; [|done].
  cbn [host_run]. unfold mbind, M_bind. rewrite E1, E2. cbn. by rewrite app_nil_r.
Qed.

(** C27: An interceptor hands connections to its callbacks in the order in
    which they asked.  It is constructed, and then the program calls
    [async_intercept] and packets arrive, in any order, that its rule takes
    and no earlier one, while callbacks read and ask again, in any order too.
    Whatever the interleaving, no handler faults and no packet goes up to the
    connection table.  The callbacks called are those of a first part of the
    requests, in order, and the rest wait.  No connection is handed out twice.
    Of each pair of ends, what was read and then what is kept is what arrived,
    in order; of those never handed out nothing is ever read, however many
    callbacks ask later.  The next new connection goes to the callback that
    waited longest, with a raw socket of its ends, and the first read of this
    callback, wherever it comes, gets this packet; when none waits, the
    packet is kept and nobody is told.  The packets are complete segments for
    ends to which nothing was attached beforehand, and the callbacks neither
    write nor attach nor detach; [intercepted_connection] has what happens
    when one attaches. *)
Theorem interceptions_in_order mt i acts h0 :
  (∀ cb, gentle (user cb)) → Forall (taken mt h0) acts →
  ∃ h, interceptor_new i mt h0 = Ok ((), h, []) ∧
  ∃ h1 evs q, host_run i acts h = Ok ([], h1, evs) ∧ h_cbs h1 !! i = Some q ∧
    (handing i evs).*1 ++ q = asking i evs ∧ NoDup (handing i evs).*2 ∧
    (∀ te, match arrived te acts with
      | [] => (te ∉ (handing i evs).*2) ∧ rcv_raw_states_ (h_tcp h1) !! te = rcv_raw_states_ (h_tcp h0) !! te
      | pkts => ∃ st, rcv_raw_states_ (h_tcp h1) !! te = Some st ∧ raw_ok st ∧
          read_of te evs ++ raw_pq st = pkts ∧ (te ∉ (handing i evs).*2 → raw_pq st = pkts)
      end) ∧
    ∀ pkt_in pkt, received pkt_in = Some pkt → takes mt h0 pkt → arrived (ends_of pkt) acts = [] →
      match q with
      | [] => h_make_packet pkt_in h1 = Ok (None, set_h_tcp (captured pkt (h_tcp h1)) h1, [])
      | cb :: q' => ∃ h2 evs', h_make_packet pkt_in h1 =
            Ok (None, h2, TcpIntercepted i cb (tp_remote_ep pkt) (tp_local_ep pkt) :: evs') ∧
          h_cbs h2 !! i = Some (q' ++ asking i evs') ∧ handed evs' = zip (reads (user cb)) [pkt]
      end.
Proof.
  intros Huser Hacts. set (rules := tcp_rules_ (h_tcp h0)).
  set (h := mk_host (set_tcp_rules (rules ++ [mk_rule mt i]) (h_tcp h0)) (<[i := []]> (h_cbs h0))).
  exists h. split; [reflexivity|].
  assert (followed i h [] h []) as Hfo.
  { split; [done| |apply NoDup_nil_2| |done].
    - exists []. split; [apply lookup_insert_eq|done].
    - intros te _. split_and!; [apply not_elem_of_nil|done|done]. }
  destruct (host_run_spec mt i h rules acts Huser eq_refl [] h [] Hfo)
    as (h1 & evs & E & [Hr (q & Hq & Eq) Hnd Hnew Hkept]).
  { eapply Forall_impl; [exact Hacts|]. intros [|pkt_in]; [done|]. intros (pkt & Hp & Hmt & Ho & Hf).
    by exists pkt. }
  exists h1, evs, q. split; [exact E|]. split; [exact Hq|]. split; [exact Eq|]. split; [exact Hnd|].
  cbn [app] in *. split.
  - intros te. destruct (arrived te acts) as [|p ps] eqn:Ea.
    + destruct (Hnew te Ea) as (Hnot & _ & Hl). by split.
    + destruct (Hkept te) as (st & Hl & Hok & Hread & Hnot); [by rewrite Ea|].
      exists st. rewrite Ea in Hread. split_and!; [done|done|done|].
      intros Hn. destruct (Hnot Hn) as [Hre _]. by rewrite Hre in Hread.
  - intros pkt_in pkt Hp (Hmt & Ho & Hf) Ea. destruct (Hnew _ Ea) as (_ & _ & Hl).
    destruct (fresh_arrival (mk_rule mt i) i q pkt_in pkt h1) as (st & evs' & Em & _ & _ & _ & Hcase);
      [done|done|done|by rewrite Hl|exists rules; by rewrite Hr|done|].
    destruct q as [|cb q].
    + destruct Hcase as [-> ->]. rewrite Em. by destruct h1.
    + destruct Hcase as (evs1 & -> & _ & Hgot & Hqs). do 2 eexists. split; [exact Em|]. by split.
Qed.
End Intercept.

(** ** A concrete interceptor *)

(** The callback 1 reads the packet, with the callback 7, and intercepts the
    next connection. *)
Definition test_user (cb : nat) : list use := [UseRead 7; UseIntercept 0 1].
Definition test_intercepted : tcp_packet := test_incoming [Byte.x01].
Definition test_setup : M host tcp_event unit :=
  _ ← interceptor_new_at 0 (tp_local_ep test_intercepted); async_intercept 0 1.
Definition test_intercepting : host :=
  match test_setup (mk_host tcp_new ∅) with Ok (_, h, _) => h | Fault _ => mk_host tcp_new ∅ end.

Lemma intercepted_connection_witness :
  let H := test_host Little in
  let pkt := test_intercepted in
  h_make_packet 64 test_user (test_datagram [Byte.x01]) test_intercepting =
    Ok (None, mk_host (set_raw {[ ends_of pkt := mk_raw [] [] ]} (h_tcp test_intercepting))
                (h_cbs test_intercepting),
        [TcpIntercepted 0 1 (tp_remote_ep pkt) (tp_local_ep pkt); TcpRawPost 7 pkt;
         TcpIntercept 0 1]).
Proof.
  intros H pkt.
  pose (r := mk_rule (λ _ local_ep, bool_decide (tp_local_ep test_intercepted = local_ep)) 0).
  assert (received (H := H) (test_datagram [Byte.x01]) = Some pkt) as Hp by (vm_compute; reflexivity).
  assert (first_rule r [] (ends_of pkt) (h_tcp test_intercepting)) as Hr.
  { exists []. split_and!; [reflexivity|constructor|vm_compute; reflexivity]. }
  exact (proj1 (intercepted_connection (Hh := H) 64 test_user (test_datagram [Byte.x01]) pkt r []
    test_intercepting Hp eq_refl Hr) 7%nat [UseIntercept 0 1] _ [TcpIntercept 0 1] eq_refl eq_refl).
Defined.

(** Two callbacks ask, three connections come, the first of them with a second
    packet; the callback 1 reads, and asks again before or after. *)
Definition test_other (port : Z) : ipv4_packet :=
  let p := test_packet (mk_tcp_header port 80 1000 2000 5 0 0 0 0 0 0 0 0 0 1000 0 0) [Byte.x02] in
  mk_ipv4_packet (addrv4 (tp_remote_ep p)) (addrv4 (tp_local_ep p)) (tp_proto p) (tp_skb p).

Lemma interceptions_in_order_witness :
  let H := test_host Little in
  let mt := λ _ local_ep, bool_decide (tp_local_ep test_intercepted = local_ep) in
  let acts := [Ask 1; Arrive (test_datagram [Byte.x01]); Arrive (test_other 5000);
               Arrive (test_datagram [Byte.x02]); Ask 2; Arrive (test_other 5001)] in
  ∃ h, interceptor_new 0 mt (mk_host tcp_new ∅) = Ok ((), h, []) ∧
  ∃ h1 evs q, host_run 64 test_user 0 acts h = Ok ([], h1, evs) ∧ h_cbs h1 !! 0%nat = Some q ∧
    (handing 0 evs).*1 ++ q = asking 0 evs ∧ NoDup (handing 0 evs).*2.
Proof.
  intros H mt acts.
  destruct (interceptions_in_order (Hh := H) 64 test_user mt 0 acts (mk_host tcp_new ∅))
    as (h & E & h1 & evs & q & Er & Hq & Eq & Hnd & _).
  - intros cb. repeat (apply Forall_cons; split; [exact I|]). apply List.Forall_nil.
  - repeat (apply Forall_cons; split; [first [exact I | eexists; split; [vm_compute; reflexivity|];
      split; [vm_compute; reflexivity|split; [apply List.Forall_nil|reflexivity]]]|]). apply List.Forall_nil.
  - exists h. split; [exact E|]. by exists h1, evs, q.
Defined.
