(* ===== verification/Icmp.v ===== *)
(** * icmp.hpp: echo replies

    The ICMP layer has no layer above it.  It answers an echo request with an
    echo reply made in place, in the buffer of the request, and ignores
    everything else. *)

From S2P Require Import Prelude Utils Skbuff Addr Headers BaseProtocol Packets.

Section Icmp.
Context `{H : Host}.

Abbreviation IcmpM := (M (base ipv4_packet) (base_event ipv4_packet)).

(** The address of the buffer of the packet. *)
Context (new_addr : Z).

Definition icmp_async_reply (in_icmp_h : icmp_header_t) (pkt_in : ipv4_packet) : IcmpM unit :=
  let out_icmp_header := mk_icmp_header 0 0 0 (icmp_id in_icmp_h) (icmp_seq in_icmp_h) in
  let skb_out := ipp_skb pkt_in in
  _ ← lift (assert_ (negb (headroom skb_out <? icmp_header.size)));
  skb_out ← lift (push_front icmp_header.size skb_out);
  skb_out ← lift (skb_write 0 (icmp_header.produce_to_net out_icmp_header) skb_out);
  chsum_net ← lift (checksum (new_addr + headroom skb_out) (payload skb_out) 0);
  skb_out ← lift (skb_write icmp_header.offsetof_chsum (native_store 2 chsum_net) skb_out);
  top.enqueue {| src_addrv4 := dst_addrv4 pkt_in; dst_addrv4 := src_addrv4 pkt_in;
                 ipp_proto := ipp_proto pkt_in; ipp_skb := skb_out |}.

Definition icmp_process_request (in_icmp_h : icmp_header_t) (pkt_in : ipv4_packet) : IcmpM unit :=
  icmp_async_reply in_icmp_h pkt_in.

Definition icmp_process (pkt_in : ipv4_packet) : IcmpM unit :=
  _ ← lift (assert_ (negb (len (payload (ipp_skb pkt_in)) <? icmp_header.size)));
  '(in_icmp_h, _) ← lift (icmp_header.consume_from_net (head (ipp_skb pkt_in)));
  skb ← lift (pop_front icmp_header.size (ipp_skb pkt_in));
  let pkt_in := mk_ipv4_packet (src_addrv4 pkt_in) (dst_addrv4 pkt_in) (ipp_proto pkt_in) skb in
  if icmp_proto_type in_icmp_h =? 8 then icmp_process_request in_icmp_h pkt_in
  else mret ().

(** ** Properties *)

Lemma icmp_produce_split t c k i q :
  icmp_header.produce_to_net (mk_icmp_header t c k i q) =
  (be_split 1 t ++ be_split 1 c) ++ be_split 2 k ++ be_split 2 i ++ be_split 2 q.
Proof.
  unfold icmp_header.produce_to_net.
  cbn [icmp_proto_type icmp_code icmp_chsum icmp_id icmp_seq].
  autorewrite with wire. by rewrite <- app_assoc.
Qed.

(** The reply, in a buffer from which the header of the request is popped. *)
Lemma icmp_async_reply_run h pkt_in b :
  skb_wf (ipp_skb pkt_in) → icmp_header.size ≤ headroom (ipp_skb pkt_in) →
  Z.even (new_addr + headroom (ipp_skb pkt_in)) = true →
  8 + len (payload (ipp_skb pkt_in)) ≤ 131070 →
  (host_endian = Big → Z.even (len (payload (ipp_skb pkt_in))) = true) →
  let body := be_split 2 (icmp_id h) ++ be_split 2 (icmp_seq h) ++ payload (ipp_skb pkt_in) in
  ∃ skb c, icmp_async_reply h pkt_in b =
      Ok ((), set_queue (packet_queue_ b ++
             [mk_ipv4_packet (dst_addrv4 pkt_in) (src_addrv4 pkt_in) (ipp_proto pkt_in) skb]) b,
          [BasePost]) ∧
    skb_wf skb ∧ payload skb = be_split 2 0 ++ be_split 2 c ++ body ∧
    headroom skb = headroom (ipp_skb pkt_in) - 8 ∧
    c = rfc1071 (be_split 2 0 ++ be_split 2 0 ++ body) ∧ rfc1071 (payload skb) = 0.
Proof.
  set (skb0 := ipp_skb pkt_in). intros Hw Hroom Heven Hlen Hbig body.
  change icmp_header.size with 8 in Hroom.
  destruct (push_write_Ok (icmp_header.produce_to_net (mk_icmp_header 0 0 0 (icmp_id h)
    (icmp_seq h))) 8 skb0) as (skb1 & skb2 & E1 & E2 & Hw2 & Hp2 & Hh2);
    [apply icmp_length|done|done|].
  rewrite icmp_produce_split in Hp2. change (be_split 1 0 ++ be_split 1 0) with (be_split 2 0) in Hp2.
  assert (payload skb2 = (be_split 2 0 ++ be_split 2 0 ++ body) ++ []) as Hp2'.
  { rewrite Hp2, app_nil_r. unfold body. by rewrite <- !app_assoc. }
  assert (len (be_split 2 0 ++ be_split 2 0 ++ body) = 8 + len (payload skb0)) as Hl.
  { unfold body. rewrite !length_app, !length_be_split. lia. }
  destruct (fill_checksum_Ok new_addr 2 (be_split 2 0) body [] skb2)
    as (c & skb3 & Ec & E3 & Hw3 & Hh3 & Hp3 & Hz); [done|done|done|done| | |].
  { rewrite Hh2. replace (new_addr + (headroom skb0 - 8))
      with (new_addr + headroom skb0 + 2 * (-4)) by lia. by rewrite Z.even_add_mul_2. }
  { split; [lia|]. intros HB. rewrite Hl. change 8 with (2 * 4).
    rewrite Z.add_comm, Z.even_add_mul_2. auto. }
  rewrite app_nil_r in Hp2', Hp3.
  exists skb3, (rfc1071 (be_split 2 0 ++ be_split 2 0 ++ body)).
  split_and!; [|done|done|lia|done|by rewrite Hp3].
  unfold icmp_async_reply, mbind, M_bind, lift, assert_. fold skb0.
  rewrite (proj2 (Z.ltb_ge _ _)) by (unfold icmp_header.size; lia). cbn -[top.enqueue].
  unfold icmp_header.size, icmp_header.offsetof_chsum. rewrite E1, E2, Hp2', Ec, E3. done.
Qed.

Lemma icmp_process_parse h data pkt_in b :
  let skb := ipp_skb pkt_in in
  skb_wf skb → payload skb = icmp_header.produce_to_net h ++ data → icmp_header_ok h →
  ∃ skb1, skb_wf skb1 ∧ payload skb1 = data ∧ headroom skb1 = headroom skb + 8 ∧
    icmp_process pkt_in b =
    (if icmp_proto_type h =? 8 then icmp_process_request h
       (mk_ipv4_packet (src_addrv4 pkt_in) (dst_addrv4 pkt_in) (ipp_proto pkt_in) skb1)
     else mret ()) b.
Proof.
  intros skb Hw Hp Hh.
  assert (len (payload skb) = 8 + len data) as Hl
    by (rewrite Hp, length_app, Nat2Z.inj_add, icmp_length; done).
  destruct (pop_front_total 8 skb Hw) as [skb1 E1]; [lia|].
  apply pop_front_Ok in E1 as E1'; [|done|lia].
  destruct E1' as (Hw1 & Hp1 & _ & Hh1 & _ & _).
  exists skb1. split_and!; [done| |done|].
  - rewrite Hp1, Hp. apply drop_app_length'. pose proof (icmp_length h). lia.
  - unfold icmp_process, mbind, M_bind, lift, assert_. fold skb.
    rewrite (proj2 (Z.ltb_ge _ _)) by (unfold icmp_header.size; lia).
    rewrite (head_payload skb Hw), Hp, <- app_assoc.
    rewrite icmp_consume by done.
    cbn -[icmp_process_request]. unfold icmp_header.size. rewrite E1.
    destruct (icmp_proto_type h =? 8); [|done].
    by destruct (icmp_process_request _ _ _) as [[[??]?]|].
Qed.

(** A request, answered. *)
Lemma icmp_process_echo h data pkt_in b :
  let skb := ipp_skb pkt_in in
  skb_wf skb → payload skb = icmp_header.produce_to_net h ++ data → icmp_header_ok h →
  icmp_proto_type h = 8 → sum_ok (payload skb) → Z.even (new_addr + headroom skb) = true →
  let body := be_split 2 (icmp_id h) ++ be_split 2 (icmp_seq h) ++ data in
  ∃ skb' c, icmp_process pkt_in b =
      Ok ((), set_queue (packet_queue_ b ++
            [mk_ipv4_packet (dst_addrv4 pkt_in) (src_addrv4 pkt_in) (ipp_proto pkt_in) skb']) b,
          [BasePost]) ∧
    skb_wf skb' ∧ headroom skb' = headroom skb ∧
    payload skb' = be_split 2 0 ++ be_split 2 c ++ body ∧
    c = rfc1071 (be_split 2 0 ++ be_split 2 0 ++ body) ∧ rfc1071 (payload skb') = 0.
Proof.
  intros skb Hw Hp Hh Ht [Hmax Hbig] Heven body.
  assert (len (payload skb) = 8 + len data) as Hl
    by (rewrite Hp, length_app, Nat2Z.inj_add, icmp_length; done).
  destruct (icmp_process_parse h data pkt_in b Hw Hp Hh) as (skb1 & Hw1 & Hd & Hh1 & ->).
  fold skb in Hh1. rewrite Ht, Z.eqb_refl.
  destruct (icmp_async_reply_run h (mk_ipv4_packet (src_addrv4 pkt_in) (dst_addrv4 pkt_in)
    (ipp_proto pkt_in) skb1) b) as (skb' & c & E & Hw' & Hp' & Hh' & Hc & Hz);
    cbn [ipp_skb src_addrv4 dst_addrv4 ipp_proto] in *.
  * done.
  * unfold icmp_header.size, skb_wf, headroom in *. lia.
  * rewrite Hh1. change 8 with (2 * 4). by rewrite Z.add_assoc, Z.even_add_mul_2.
  * rewrite Hd. lia.
  * intros HB. rewrite Hd. specialize (Hbig HB). rewrite Hl in Hbig. change 8 with (2 * 4) in Hbig.
    by rewrite Z.add_comm, Z.even_add_mul_2 in Hbig.
  * exists skb', c. rewrite Hd in *. split_and!; try done. lia.
Qed.

(** An echo request is answered with an echo reply to its sender: the
    identifier, the sequence number and the data are those of the request,
    and the checksum verifies.  Any other message is ignored, and a packet
    shorter than a header aborts the program.  The checksum of what is
    received is not looked at. *)
Theorem icmp_process_spec pkt_in b :
  let skb := ipp_skb pkt_in in
  skb_wf skb →
  (len (payload skb) < icmp_header.size → icmp_process pkt_in b = Fault AssertFail) ∧
  (∀ h data, payload skb = icmp_header.produce_to_net h ++ data → icmp_header_ok h →
    (icmp_proto_type h ≠ 8 → icmp_process pkt_in b = Ok ((), b, [])) ∧
    (icmp_proto_type h = 8 → sum_ok (payload skb) → Z.even (new_addr + headroom skb) = true →
     let body := be_split 2 (icmp_id h) ++ be_split 2 (icmp_seq h) ++ data in
     ∃ skb' c, icmp_process pkt_in b =
         Ok ((), set_queue (packet_queue_ b ++
               [mk_ipv4_packet (dst_addrv4 pkt_in) (src_addrv4 pkt_in) (ipp_proto pkt_in) skb']) b,
             [BasePost]) ∧
       skb_wf skb' ∧ headroom skb' = headroom skb ∧
       payload skb' = be_split 2 0 ++ be_split 2 c ++ body ∧
       c = rfc1071 (be_split 2 0 ++ be_split 2 0 ++ body) ∧ rfc1071 (payload skb') = 0)).
Proof.
  intros skb Hw. split.
  - intros Hl. unfold icmp_process, mbind, M_bind, lift, assert_. fold skb.
    by rewrite (proj2 (Z.ltb_lt _ _)).
  - intros h data Hp Hh. split; [|intros; by eapply icmp_process_echo].
    intros Ht. destruct (icmp_process_parse h data pkt_in b Hw Hp Hh) as (skb1 & _ & _ & _ & ->).
    by rewrite (proj2 (Z.eqb_neq _ _)).
Qed.
End Icmp.

Definition test_echo : ipv4_packet :=
  let data := icmp_header.produce_to_net (H := test_host Little) (mk_icmp_header 8 0 777 21 3) ++
              [Byte.x61; Byte.x62; Byte.x63] in
  mk_ipv4_packet (Ipv4 167772162) (Ipv4 167772161) 1 (mk_skb (replicate 34 Byte.x00 ++ data) 34 45).

Lemma icmp_process_spec_witness :
  let H := test_host Little in
  let body := be_split 2 21 ++ be_split 2 3 ++ [Byte.x61; Byte.x62; Byte.x63] in
  ∃ skb' c, icmp_process 64 test_echo (mk_base true []) =
      Ok ((), mk_base true [mk_ipv4_packet (Ipv4 167772161) (Ipv4 167772162) 1 skb'], [BasePost]) ∧
    skb_wf skb' ∧ headroom skb' = 34 ∧ payload skb' = be_split 2 0 ++ be_split 2 c ++ body ∧
    c = rfc1071 (be_split 2 0 ++ be_split 2 0 ++ body) ∧ rfc1071 (payload skb') = 0.
Proof.
  assert (skb_wf (ipp_skb test_echo)) as Hw by (split_and!; vm_compute; discriminate).
  refine (proj2 (proj2 (icmp_process_spec (H := test_host Little) 64 test_echo (mk_base true []) Hw)
    (mk_icmp_header 8 0 777 21 3) [Byte.x61; Byte.x62; Byte.x63] _ _) _ _ _).
  - vm_compute; reflexivity.
  - unfold icmp_header_ok, is_u; cbn; lia.
  - reflexivity.
  - split; [vm_compute; discriminate|done].
  - reflexivity.
Defined.
