(* ===== verification/NeighCache.v ===== *)
(** * neigh_cache.hpp: which MAC address an IPv4 address has

    [update] is [std::unordered_map::insert], which does nothing for a key
    that is there. *)

From S2P Require Import Prelude Addr.

(** [cache_] *)
Abbreviation neigh_cache := (gmap ipv4_addr_t mac_addr_t).

Module neigh.
Definition reset (addr : ipv4_addr_t) (cache_ : neigh_cache) : neigh_cache :=
  match cache_ !! addr with
  | Some _ => delete addr cache_
  | None => cache_
  end.

Definition update (kv : ipv4_addr_t * mac_addr_t) (cache_ : neigh_cache) : neigh_cache :=
  match cache_ !! kv.1 with
  | Some _ => cache_
  | None => <[kv.1 := kv.2]> cache_
  end.

Definition query (addr : ipv4_addr_t) (cache_ : neigh_cache) : option mac_addr_t :=
  cache_ !! addr.

Lemma lookup_update a k v cache_ :
  query a (update (k, v) cache_) =
  match query a cache_ with
  | Some m => Some m
  | None => if decide (a = k) then Some v else None
  end.
Proof.
  unfold query, update. cbn [fst snd]. destruct (cache_ !! k) as [m|] eqn:E.
  - case_match eqn:Ea; [done|]. case_decide; [congruence|done].
  - destruct (decide (a = k)) as [->|Hne]; [by rewrite lookup_insert_eq, E|].
    rewrite lookup_insert_ne by done. by destruct (cache_ !! a).
Qed.

Lemma lookup_reset a k cache_ :
  query a (reset k cache_) = if decide (a = k) then None else query a cache_.
Proof.
  unfold query, reset. destruct (cache_ !! k) eqn:E; case_decide; subst.
  - apply lookup_delete_eq.
  - by apply lookup_delete_ne.
  - done.
  - done.
Qed.

(** ** A history of the cache *)

Inductive op : Type := Update (addr : ipv4_addr_t) (mac : mac_addr_t) | Reset (addr : ipv4_addr_t).

Definition apply (o : op) : neigh_cache → neigh_cache :=
  match o with Update a m => update (a, m) | Reset a => reset a end.
Definition after (ops : list op) (cache_ : neigh_cache) : neigh_cache :=
  foldl (λ c o, apply o c) cache_ ops.

(** What a cache that keeps the first answer since the last reset has for
    [addr]. *)
Fixpoint first_since_reset (addr : ipv4_addr_t) (ops : list op) (known : option mac_addr_t)
    : option mac_addr_t :=
  match ops with
  | [] => known
  | Reset a :: ops =>
      first_since_reset addr ops (if decide (addr = a) then None else known)
  | Update a m :: ops =>
      first_since_reset addr ops
        (match known with Some m => Some m | None => if decide (addr = a) then Some m else None end)
  end.

(** The cache answers with the first address it was told since the last
    reset, whatever it was told later: an address that changes is not
    learnt until somebody resets the entry. *)
Theorem cache_keeps_first addr ops cache_ :
  query addr (after ops cache_) = first_since_reset addr ops (query addr cache_).
Proof.
  revert cache_. induction ops as [|[a m|a] ops IH]; intros cache_; [done|..];
    cbn [after foldl first_since_reset apply].
  - fold (after ops (update (a, m) cache_)). by rewrite IH, lookup_update.
  - fold (after ops (reset a cache_)). by rewrite IH, lookup_reset.
Qed.
End neigh.
