(* ===== verification/RoutingTable.v ===== *)
(** * routing_table.hpp, routing_table.cpp: the next hop of a destination

    A route is for one destination address; [update] is
    [std::unordered_map::emplace], which keeps the route that is there, and
    [update_default] is [std::optional::emplace], which replaces it. *)

From S2P Require Import Prelude Addr.

(** [routing_table::record]; a device is known by its number. *)
Record rt_record : Type := mk_record {
  via_addrv4 : ipv4_addr_t; from_addrv4 : ipv4_addr_t; rec_dev : option nat;
}.

Record routing_table : Type := mk_routing_table {
  table_ : gmap ipv4_addr_t rt_record; default_ : option rt_record;
}.

Definition routing_table_new : routing_table := mk_routing_table ∅ None.

Module rt.
(** The log line of [reset] dereferences the device. *)
Definition reset (addr : ipv4_addr_t) (t : routing_table) : result routing_table :=
  match table_ t !! addr with
  | Some r =>
      match rec_dev r with
      | None => Fault NullDeref
      | Some _ => Ok (mk_routing_table (delete addr (table_ t)) (default_ t))
      end
  | None => Ok t
  end.

Definition update (hop : ipv4_addr_t) (r : rt_record) (t : routing_table) : result routing_table :=
  _ ← assert_ (bool_decide (is_Some (rec_dev r)));
  Ok (match table_ t !! hop with
      | Some _ => t
      | None => mk_routing_table (<[hop := r]> (table_ t)) (default_ t)
      end).

Definition update_default (r : rt_record) (t : routing_table) : result routing_table :=
  _ ← assert_ (bool_decide (is_Some (rec_dev r)));
  Ok (mk_routing_table (table_ t) (Some r)).

Definition query (addr : ipv4_addr_t) (t : routing_table) : option rt_record := table_ t !! addr.
Definition query_default (t : routing_table) : option rt_record := default_ t.

(** The next hop [ipv4::process] takes. *)
Definition next_hop (addr : ipv4_addr_t) (t : routing_table) : option rt_record :=
  match query addr t with Some r => Some r | None => query_default t end.

(** ** Tables *)

Definition has_dev (r : rt_record) : Prop := is_Some (rec_dev r).
Definition rt_inv (t : routing_table) : Prop :=
  map_Forall (λ _, has_dev) (table_ t) ∧ (∀ r, default_ t = Some r → has_dev r).

Inductive op : Type :=
| Update (hop : ipv4_addr_t) (r : rt_record) | UpdateDefault (r : rt_record)
| Reset (addr : ipv4_addr_t).

Definition apply (o : op) (t : routing_table) : result routing_table :=
  match o with
  | Update hop r => update hop r t
  | UpdateDefault r => update_default r t
  | Reset addr => reset addr t
  end.

Fixpoint after (ops : list op) (t : routing_table) : result routing_table :=
  match ops with
  | [] => Ok t
  | o :: ops => t ← apply o t; after ops t
  end.

(** The route to [addr] itself, and the default one, after a history. *)
Definition spec_route (addr : ipv4_addr_t) (o : op) (known : option rt_record) : option rt_record :=
  match o with
  | Update hop r =>
      match known with Some r => Some r | None => if decide (addr = hop) then Some r else None end
  | Reset a => if decide (addr = a) then None else known
  | UpdateDefault _ => known
  end.
Definition spec_default (o : op) (known : option rt_record) : option rt_record :=
  match o with UpdateDefault r => Some r | _ => known end.

Definition op_ok (o : op) : Prop :=
  match o with Update _ r | UpdateDefault r => has_dev r | Reset _ => True end.

Lemma apply_spec o t :
  rt_inv t → op_ok o →
  ∃ t', apply o t = Ok t' ∧ rt_inv t' ∧
    (∀ addr, query addr t' = spec_route addr o (query addr t)) ∧
    query_default t' = spec_default o (query_default t).
Proof.
  intros [Hi Hd] Ho. destruct o as [hop r|r|a]; cbn in Ho |- *.
  - unfold update. rewrite bool_decide_true by done. cbn. eexists. split; [done|].
    destruct (table_ t !! hop) as [r'|] eqn:E; (split_and!; [|intros addr|done]).
    + done.
    + unfold query. case_match; [done|]. case_decide; congruence.
    + split; [|done]. cbn. by apply map_Forall_insert_2.
    + unfold query. cbn. destruct (decide (addr = hop)) as [->|Hne].
      * by rewrite lookup_insert_eq, E.
      * rewrite lookup_insert_ne by done. by destruct (table_ t !! addr).
  - unfold update_default. rewrite bool_decide_true by done. cbn. eexists. split; [done|].
    split_and!; [|done..]. split; [done|]. cbn. by intros ? [= <-].
  - unfold reset. destruct (table_ t !! a) as [r|] eqn:E.
    + pose proof (Hi _ _ E) as [d Hr]. rewrite Hr. eexists. split; [done|].
      split_and!; [|intros addr|done].
      * split; [|done]. cbn. by apply map_Forall_delete.
      * unfold query. cbn. case_decide; subst; [apply lookup_delete_eq|by apply lookup_delete_ne].
    + eexists. split; [done|]. split_and!; [done|intros addr|done].
      unfold query. case_decide; congruence.
Qed.

(** The next hop of a destination, after any history of updates with a
    device: the first route to that very address since its last reset, or
    else the latest default route; no operation faults, and the next hop
    has a device. *)
Theorem next_hop_after addr ops t :
  rt_inv t → Forall op_ok ops →
  ∃ t', after ops t = Ok t' ∧ (∀ r, next_hop addr t' = Some r → has_dev r) ∧
    next_hop addr t' =
      match foldl (λ k o, spec_route addr o k) (query addr t) ops with
      | Some r => Some r
      | None => foldl (λ k o, spec_default o k) (query_default t) ops
      end.
Proof.
  intros Ht Hops. revert t Ht. induction Hops as [|o ops Ho _ IH]; intros t Ht.
  - exists t. split_and!; [done| |done]. unfold next_hop. destruct Ht as [Hi Hd]. intros r.
    destruct (query addr t) as [r'|] eqn:E; [|apply Hd]. intros [= <-]. by apply (Hi addr).
  - destruct (apply_spec o t Ht Ho) as (t1 & E1 & Ht1 & Hq & Hd).
    destruct (IH t1 Ht1) as (t' & E & Hdev & Hn). exists t'. cbn [after foldl].
    rewrite E1, <- Hq, <- Hd. by split_and!.
Qed.

Lemma next_hop_after_witness :
  let r1 := mk_record (Ipv4 1) (Ipv4 2) (Some 0%nat) in
  let r2 := mk_record (Ipv4 3) (Ipv4 2) (Some 0%nat) in
  ∃ t', after [Update (Ipv4 9) r1; Update (Ipv4 9) r2; UpdateDefault r1; UpdateDefault r2]
          routing_table_new = Ok t' ∧
    (∀ r, next_hop (Ipv4 9) t' = Some r → has_dev r) ∧ next_hop (Ipv4 9) t' = Some r1.
Proof.
  cbv zeta.
  refine (next_hop_after (Ipv4 9) [Update (Ipv4 9) (mk_record (Ipv4 1) (Ipv4 2) (Some 0%nat));
    Update (Ipv4 9) (mk_record (Ipv4 3) (Ipv4 2) (Some 0%nat));
    UpdateDefault (mk_record (Ipv4 1) (Ipv4 2) (Some 0%nat));
    UpdateDefault (mk_record (Ipv4 3) (Ipv4 2) (Some 0%nat))] routing_table_new _ _).
  - split; [apply map_Forall_empty|done].
  - repeat (apply Forall_cons; split; [eexists; reflexivity|]). apply List.Forall_nil.
Defined.
End rt.
