(* ===== verification/Arp.v ===== *)
(** * arp.hpp, arp.cpp: who has an address

    The ARP layer answers requests from the cache, learns from what it
    receives, and keeps the callers that wait for a reply, one
    [boost::signals2::signal] for each address. *)

From S2P Require Import Prelude Utils Skbuff Addr Headers BaseProtocol Packets NeighCache.

(** [boost::signals2::signal], as far as it is used: slots are connected, and
    a call calls the slots in the order in which they were connected. *)
Class Signal (CB Sig : Type) : Type := {
  sig_empty : Sig;
  sig_connect : CB → Sig → Sig;
  sig_slots : Sig → list CB;
}.

Class SignalSpec (CB Sig : Type) `{Signal CB Sig} : Prop := {
  slots_empty : sig_slots (CB := CB) sig_empty = [];
  slots_connect cb s : sig_slots (sig_connect cb s) = sig_slots s ++ [cb];
}.

(** A signal that is the list of its slots. *)
#[export] Instance list_signal CB : Signal CB (list CB) :=
  {| sig_empty := []; sig_connect cb s := s ++ [cb]; sig_slots s := s |}.
#[export] Instance list_signal_spec CB : SignalSpec CB (list CB).
Proof. split; done. Qed.

Record arp (Sig : Type) : Type := mk_arp {
  arp_base : base ethernetv2_frame;
  arp_cache_ : neigh_cache;
  on_replies_ : gmap ipv4_addr_t Sig;
}.
Arguments mk_arp {Sig}. Arguments arp_base {Sig}. Arguments arp_cache_ {Sig}.
Arguments on_replies_ {Sig}.

Inductive arp_event (CB : Type) : Type :=
| ArpBase (ev : base_event ethernetv2_frame)
| ArpPost (cb : CB) (mac : mac_addr_t)   (** a call of [cb] is posted *)
| ArpCall (cb : CB) (mac : mac_addr_t).  (** [cb] is called *)
Arguments ArpBase {CB}. Arguments ArpPost {CB}. Arguments ArpCall {CB}.

Section Arp.
Context `{Hh : Host} {CB Sig : Type} `{Hsig : Signal CB Sig}.

Abbreviation ArpM := (M (arp Sig) (arp_event CB)).

Definition ARP_PROTO : Z := 2054.

Definition set_arp_base (b : base ethernetv2_frame) (s : arp Sig) : arp Sig :=
  mk_arp b (arp_cache_ s) (on_replies_ s).
Definition set_cache (c : neigh_cache) (s : arp Sig) : arp Sig :=
  mk_arp (arp_base s) c (on_replies_ s).
Definition set_replies (r : gmap ipv4_addr_t Sig) (s : arp Sig) : arp Sig :=
  mk_arp (arp_base s) (arp_cache_ s) r.

(** [on_replies_[addr]] *)
Definition replies_at (s : arp Sig) (addr : ipv4_addr_t) : Sig :=
  default sig_empty (on_replies_ s !! addr).

Definition arp_enqueue (f : ethernetv2_frame) : ArpM unit :=
  zoom arp_base set_arp_base ArpBase (top.enqueue f).

Definition arp_update (peer : mac_addr_t * ipv4_addr_t) : ArpM unit :=
  when (negb (mac_addr.is_broadcast peer.1 || mac_addr.is_zero peer.1))
    (modify (λ s, set_cache (neigh.update (peer.2, peer.1) (arp_cache_ s)) s)).

Definition arp_async_reply (from to_ : mac_addr_t * ipv4_addr_t) (in_frame : ethernetv2_frame)
    : ArpM unit :=
  let out_arp := mk_arp_header 1 2048 6 4 2 from.1 from.2 to_.1 to_.2 in
  out_buffer ← lift (push_front arpv4_header.size (frame_skb in_frame));
  out_buffer ← lift (skb_write 0 (arpv4_header.produce_to_net out_arp) out_buffer);
  arp_enqueue {| src_mac_addr := sha out_arp; dst_mac_addr := tha out_arp;
                 frame_proto := ARP_PROTO; frame_skb := out_buffer;
                 frame_dev := frame_dev in_frame |}.

Definition arp_process_request (in_arp : arpv4_header_t) (in_frame : ethernetv2_frame)
    : ArpM unit :=
  _ ← arp_update (sha in_arp, spa in_arp);
  s ← get;
  match neigh.query (tpa in_arp) (arp_cache_ s) with
  | Some tha_ => arp_async_reply (tha_, tpa in_arp) (sha in_arp, spa in_arp) in_frame
  | None => mret ()
  end.

Definition arp_async_request (from : mac_addr_t * ipv4_addr_t) (to_ : ipv4_addr_t)
    (dev : option nat) : ArpM unit :=
  let out_arp := mk_arp_header 1 2048 6 4 1 from.1 from.2 mac_addr.zero to_ in
  let room := ethernetv2_header.size + arpv4_header.size in
  skb_out ← lift (skb_new (make_unique_for_overwrite room) ethernetv2_header.size);
  skb_out ← lift (skb_write 0 (arpv4_header.produce_to_net out_arp) skb_out);
  arp_enqueue {| src_mac_addr := sha out_arp; dst_mac_addr := mac_addr.broadcast;
                 frame_proto := ARP_PROTO; frame_skb := skb_out; frame_dev := dev |}.

Fixpoint call_slots (slots : list CB) (mac : mac_addr_t) : ArpM unit :=
  match slots with
  | [] => mret ()
  | cb :: slots => _ ← emit (ArpCall cb mac); call_slots slots mac
  end.

Definition arp_process_reply (in_arp : arpv4_header_t) : ArpM unit :=
  _ ← arp_update (sha in_arp, spa in_arp);
  s ← get;
  let on_reply := replies_at s (spa in_arp) in
  _ ← modify (λ s, set_replies (<[spa in_arp := sig_empty]> (on_replies_ s)) s);
  call_slots (sig_slots on_reply) (sha in_arp).

Definition set_frame_skb (skb : skbuff) (f : ethernetv2_frame) : ethernetv2_frame :=
  mk_frame (src_mac_addr f) (dst_mac_addr f) (frame_proto f) skb (frame_dev f).

(** The header is read without a check of the frame's length. *)
Definition arp_process (in_frame : ethernetv2_frame) : ArpM unit :=
  '(in_arp, _) ← lift (arpv4_header.consume_from_net (head (frame_skb in_frame)));
  skb ← lift (pop_front arpv4_header.size (frame_skb in_frame));
  let in_frame := set_frame_skb skb in_frame in
  if (1 =? htype in_arp) && (2048 =? ptype in_arp) then
    if oper in_arp =? 1 then arp_process_request in_arp in_frame
    else if oper in_arp =? 2 then arp_process_reply in_arp
    else mret ()
  else mret ().

Definition async_resolve (from_mac : mac_addr_t) (from_ipv4 to_ipv4 : ipv4_addr_t)
    (dev : option nat) (cb : CB) : ArpM unit :=
  s ← get;
  match neigh.query to_ipv4 (arp_cache_ s) with
  | Some mac => emit (ArpPost cb mac)
  | None =>
      _ ← modify (λ s, set_replies
            (<[to_ipv4 := sig_connect cb (replies_at s to_ipv4)]> (on_replies_ s)) s);
      arp_async_request (from_mac, from_ipv4) to_ipv4 dev
  end.
End Arp.

(** ** Properties *)

Section ArpProperties.
Context `{Hh : Host} {CB Sig : Type} `{Hsig : Signal CB Sig} `{Hspec : !SignalSpec CB Sig}.
Implicit Types (s : arp Sig) (h : arpv4_header_t) (f : ethernetv2_frame).

Abbreviation slots_at s addr := (sig_slots (CB := CB) (replies_at s addr)).

(** The state after [update] with the sender of a packet. *)
Definition learn h s : arp Sig :=
  if mac_addr.is_broadcast (sha h) || mac_addr.is_zero (sha h) then s
  else set_cache (neigh.update (spa h, sha h) (arp_cache_ s)) s.

Lemma arp_update_run h s :
  arp_update (CB := CB) (sha h, spa h) s = Ok ((), learn h s, []).
Proof.
  unfold arp_update, learn, when. cbn [fst snd].
  by destruct (mac_addr.is_broadcast (sha h) || mac_addr.is_zero (sha h)).
Qed.

(** The queue with one frame more. *)
Definition with_frame f s : arp Sig :=
  set_arp_base (set_queue (packet_queue_ (arp_base s) ++ [f]) (arp_base s)) s.

(** The answer to the request [h]: the sender is told that [mac] has the
    address it asked for. *)
Definition reply_header h (mac : mac_addr_t) : arpv4_header_t :=
  mk_arp_header 1 2048 6 4 2 mac (tpa h) (sha h) (spa h).

Lemma arp_async_reply_run h mac f s :
  skb_wf (frame_skb f) → arpv4_header.size ≤ headroom (frame_skb f) →
  ∃ skb, arp_async_reply (CB := CB) (mac, tpa h) (sha h, spa h) f s =
      Ok ((), with_frame (mk_frame mac (sha h) ARP_PROTO skb (frame_dev f)) s,
          [ArpBase BasePost]) ∧
    skb_wf skb ∧ headroom skb = headroom (frame_skb f) - arpv4_header.size ∧
    payload skb = arpv4_header.produce_to_net (reply_header h mac) ++ payload (frame_skb f).
Proof.
  intros Hw Hroom.
  destruct (push_write_Ok (arpv4_header.produce_to_net (reply_header h mac)) arpv4_header.size
    (frame_skb f)) as (skb1 & skb2 & E1 & E2 & Hw2 & Hp2 & Hh2);
    [rewrite arp_length; done|done|done|].
  exists skb2. split_and!; [|done..].
  unfold arp_async_reply, mbind, M_bind, lift. rewrite E1. cbn [fst snd].
  unfold reply_header in E2. by rewrite E2.
Qed.

(** [arp_process] up to the handlers. *)
Lemma arp_process_parse f h rest s :
  skb_wf (frame_skb f) → payload (frame_skb f) = arpv4_header.produce_to_net h ++ rest →
  arp_header_ok h →
  ∃ skb, skb_wf skb ∧ headroom skb = headroom (frame_skb f) + 28 ∧ payload skb = rest ∧
    arp_process (CB := CB) f s =
    (if (1 =? htype h) && (2048 =? ptype h) then
       if oper h =? 1 then arp_process_request h (set_frame_skb skb f)
       else if oper h =? 2 then arp_process_reply h
       else mret ()
     else mret ()) s.
Proof.
  intros Hw Hp Hok. pose proof (arp_length h) as Hl.
  destruct (pop_front_total 28 (frame_skb f) Hw) as [skb E];
    [rewrite Hp, length_app; lia|].
  apply pop_front_Ok in E as E'; [|done|lia]. destruct E' as (Hw1 & Hp1 & _ & Hh1 & _ & _).
  exists skb. split_and!; [done|done|rewrite Hp1, Hp; apply drop_app_length'; lia|].
  unfold arp_process, mbind, M_bind, lift.
  rewrite (head_payload _ Hw), Hp, <- app_assoc, arp_consume by done.
  change arpv4_header.size with 28. rewrite E.
  by destruct ((if _ : bool then _ else _ : M _ _ _) s) as [[[??]?]|].
Qed.

Lemma call_slots_run (cbs : list CB) mac s :
  call_slots cbs mac s = Ok ((), s, (λ cb, ArpCall cb mac) <$> cbs).
Proof.
  induction cbs as [|cb cbs IH]; [done|]. cbn [call_slots].
  unfold mbind, M_bind, emit. by rewrite IH.
Qed.

Lemma arp_process_reply_run h s :
  arp_process_reply h s =
  Ok ((), set_replies (<[spa h := sig_empty]> (on_replies_ s)) (learn h s),
      (λ cb, ArpCall cb (sha h)) <$> slots_at s (spa h)).
Proof.
  unfold arp_process_reply, mbind, M_bind. rewrite arp_update_run. cbn [get modify].
  rewrite call_slots_run. cbn [app].
  assert (on_replies_ (learn h s) = on_replies_ s) as E
    by (unfold learn; by destruct (_ || _)).
  unfold replies_at. by rewrite E.
Qed.

Lemma async_request_run from to_ dev s :
  ∃ skb, arp_async_request (CB := CB) from to_ dev s =
      Ok ((), with_frame (mk_frame from.1 mac_addr.broadcast ARP_PROTO skb dev) s,
          [ArpBase BasePost]) ∧
    skb_wf skb ∧ headroom skb = ethernetv2_header.size ∧
    payload skb = arpv4_header.produce_to_net
      (mk_arp_header 1 2048 6 4 1 from.1 from.2 mac_addr.zero to_).
Proof.
  set (hdr := mk_arp_header 1 2048 6 4 1 from.1 from.2 mac_addr.zero to_).
  set (buf := make_unique_for_overwrite (ethernetv2_header.size + arpv4_header.size)).
  assert (len buf = 42) as Lb by (apply length_make_unique; done).
  destruct (skb_new_Ok buf ethernetv2_header.size) as (skb0 & E0 & W0 & P0 & H0 & _);
    [change ethernetv2_header.size with 14; lia|].
  assert (length (payload skb0) = 28%nat) as L0.
  { rewrite P0, length_drop. change (Z.to_nat ethernetv2_header.size) with 14%nat. lia. }
  pose proof (arp_length hdr) as Lh.
  destruct (skb_write_Ok 0 (arpv4_header.produce_to_net hdr) skb0)
    as (skb1 & E1 & W1 & P1 & H1 & _); [done|lia|lia|].
  exists skb1. split_and!; [|done|lia|].
  - unfold arp_async_request, mbind, M_bind, lift. fold buf hdr. by rewrite E0, E1.
  - rewrite P1. cbn [take]. rewrite drop_ge by lia. by rewrite app_nil_r.
Qed.

Lemma arp_process_cases f h rest s :
  skb_wf (frame_skb f) → payload (frame_skb f) = arpv4_header.produce_to_net h ++ rest →
  arp_header_ok h →
  if bool_decide (htype h = 1 ∧ ptype h = 2048) then
    if decide (oper h = 1) then
      match neigh.query (tpa h) (arp_cache_ (learn h s)) with
      | Some mac =>
          ∃ skb, arp_process (CB := CB) f s =
              Ok ((), with_frame (mk_frame mac (sha h) ARP_PROTO skb (frame_dev f)) (learn h s),
                  [ArpBase BasePost]) ∧
            skb_wf skb ∧ headroom skb = headroom (frame_skb f) ∧
            payload skb = arpv4_header.produce_to_net (reply_header h mac) ++ rest
      | None => arp_process (CB := CB) f s = Ok ((), learn h s, [])
      end
    else if decide (oper h = 2) then
      arp_process f s =
        Ok ((), set_replies (<[spa h := sig_empty]> (on_replies_ s)) (learn h s),
            (λ cb, ArpCall cb (sha h)) <$> slots_at s (spa h))
    else arp_process (CB := CB) f s = Ok ((), s, [])
  else arp_process (CB := CB) f s = Ok ((), s, []).
Proof.
  intros Hw Hp Hok.
  destruct (arp_process_parse f h rest s Hw Hp Hok) as (skb & Hw1 & Hh1 & Hp1 & ->).
  case_bool_decide as Ht; [destruct Ht as [-> ->]; cbn [andb Z.eqb Pos.eqb]
    |by replace ((1 =? htype h) && (2048 =? ptype h)) with false by lia].
  destruct (decide (oper h = 1)) as [->|N1]; [cbn [Z.eqb Pos.eqb]|rewrite (proj2 (Z.eqb_neq _ _) N1)].
  - destruct (neigh.query (tpa h) _) as [mac|] eqn:Eq.
    + destruct (arp_async_reply_run h mac (set_frame_skb skb f) (learn h s))
        as (skb' & E & Hw' & Hh' & Hp'); cbn [frame_skb set_frame_skb frame_dev] in *;
        [done|change arpv4_header.size with 28; unfold skb_wf, headroom in *; lia|].
      exists skb'. split_and!; [|done| |by rewrite Hp', Hp1].
      * unfold arp_process_request, mbind, M_bind. rewrite arp_update_run. cbn [get].
        by rewrite Eq, E.
      * change arpv4_header.size with 28 in *. lia.
    + unfold arp_process_request, mbind, M_bind. rewrite arp_update_run. cbn [get].
      by rewrite Eq.
  - destruct (decide (oper h = 2)) as [->|N2]; [apply arp_process_reply_run|].
    by rewrite (proj2 (Z.eqb_neq _ _) N2).
Qed.

(** What an ARP packet does.  The sender is learnt, unless its MAC
    address is zero or broadcast or its IP address is known; a request for
    any address in the cache, one learnt from somebody else included, is
    answered to its sender in the same buffer; a reply calls, in order,
    exactly the callbacks that wait for its sender, even with an address
    that was not learnt; anything else changes nothing. *)
Theorem arp_process_spec f h rest s :
  skb_wf (frame_skb f) → payload (frame_skb f) = arpv4_header.produce_to_net h ++ rest →
  arp_header_ok h →
  if bool_decide (htype h = 1 ∧ ptype h = 2048) then
    if decide (oper h = 1) then
      match neigh.query (tpa h) (arp_cache_ (learn h s)) with
      | Some mac =>
          ∃ skb, arp_process (CB := CB) f s =
              Ok ((), with_frame (mk_frame mac (sha h) ARP_PROTO skb (frame_dev f)) (learn h s),
                  [ArpBase BasePost]) ∧
            skb_wf skb ∧ headroom skb = headroom (frame_skb f) ∧
            payload skb = arpv4_header.produce_to_net (reply_header h mac) ++ rest
      | None => arp_process (CB := CB) f s = Ok ((), learn h s, [])
      end
    else if decide (oper h = 2) then
      arp_process f s =
        Ok ((), set_replies (<[spa h := sig_empty]> (on_replies_ s)) (learn h s),
            (λ cb, ArpCall cb (sha h)) <$> slots_at s (spa h))
    else arp_process (CB := CB) f s = Ok ((), s, [])
  else arp_process (CB := CB) f s = Ok ((), s, []).
Proof. apply arp_process_cases. Qed.
End ArpProperties.

(** *** Every resolution is answered at most once *)

Section Resolution.
Context `{Hh : Host} {CB Sig : Type} `{Hsig : Signal CB Sig} `{Hspec : !SignalSpec CB Sig}.
(** The address a callback waits for. *)
Context (dest : CB → ipv4_addr_t).
Implicit Types (s : arp Sig) (a : ipv4_addr_t) (evs : list (arp_event CB)).

Abbreviation slots_at s addr := (sig_slots (CB := CB) (replies_at s addr)).

Inductive arp_action : Type :=
| Resolve (cb : CB) (from_mac : mac_addr_t) (from_ipv4 : ipv4_addr_t) (dev : option nat)
| Receive (f : ethernetv2_frame).

Definition arp_act (x : arp_action) : M (arp Sig) (arp_event CB) unit :=
  match x with
  | Resolve cb from_mac from_ipv4 dev => async_resolve from_mac from_ipv4 (dest cb) dev cb
  | Receive f => arp_process f
  end.
Fixpoint arp_run (acts : list arp_action) : M (arp Sig) (arp_event CB) unit :=
  match acts with
  | [] => mret ()
  | x :: acts => _ ← arp_act x; arp_run acts
  end.

Definition only a (cb : CB) : option CB := if decide (dest cb = a) then Some cb else None.
(** The callbacks for [a] that are resolved, called and posted. *)
Definition resolves a (acts : list arp_action) : list CB :=
  omap (λ x, match x with Resolve cb _ _ _ => only a cb | Receive _ => None end) acts.
Definition calls a evs : list CB :=
  omap (λ ev, match ev with ArpCall cb _ => only a cb | _ => None end) evs.
Definition posts a evs : list CB :=
  omap (λ ev, match ev with ArpPost cb _ => only a cb | _ => None end) evs.

(** A frame long enough for a header. *)
Definition arrived (x : arp_action) : Prop :=
  match x with
  | Receive f => skb_wf (frame_skb f) ∧ arpv4_header.size ≤ len (payload (frame_skb f))
  | Resolve _ _ _ _ => True
  end.

Definition waiting_ok s : Prop := ∀ a, Forall (λ cb, dest cb = a) (slots_at s a).
Definition cached s a : option mac_addr_t := neigh.query a (arp_cache_ s).

Lemma omap_only a cbs :
  Forall (λ cb, dest cb = a) cbs → omap (only a) cbs = cbs.
Proof.
  induction 1 as [|cb cbs Hcb _ IH]; [done|]. cbn. unfold only at 1. by rewrite decide_True, IH.
Qed.
Lemma omap_only_ne a b cbs :
  Forall (λ cb, dest cb = b) cbs → a ≠ b → omap (only a) cbs = [].
Proof.
  intros Hcbs Hne. induction Hcbs as [|cb cbs Hcb _ IH]; [done|]. cbn. unfold only at 1.
  rewrite decide_False by congruence. done.
Qed.

Lemma calls_fmap a mac cbs : calls a ((λ cb, ArpCall cb mac) <$> cbs) = omap (only a) cbs.
Proof.
  induction cbs as [|cb cbs IH]; [done|]. unfold calls in *. rewrite fmap_cons.
  cbn -[fmap]. by rewrite IH.
Qed.
Lemma posts_fmap a mac cbs : posts a ((λ cb, ArpCall cb mac) <$> cbs) = [].
Proof. by induction cbs. Qed.

Lemma cached_learn h s a mac : cached s a = Some mac → cached (learn h s) a = Some mac.
Proof.
  unfold cached, learn. destruct (_ || _); [done|]. cbn [arp_cache_ set_cache].
  intros E. by rewrite neigh.lookup_update, E.
Qed.

Lemma replies_learn h s a : replies_at (learn h s) a = replies_at s a.
Proof. unfold learn, replies_at. by destruct (_ || _). Qed.

(** One action, for one address. *)
Definition act_ok x s s1 evs : Prop :=
  waiting_ok s1 ∧
  (∀ a mac, cached s a = Some mac → cached s1 a = Some mac) ∧
  (∀ a, calls a evs ++ slots_at s1 a =
        slots_at s a ++ (if cached s a is Some _ then [] else resolves a [x])) ∧
  (∀ a, posts a evs = if cached s a is Some _ then resolves a [x] else []) ∧
  (∀ cb mac, ArpPost cb mac ∈ evs → cached s (dest cb) = Some mac).

(** A frame that calls nobody. *)
Lemma act_ok_quiet f s s1 evs :
  waiting_ok s → (∀ a, replies_at s1 a = replies_at s a) →
  (∀ a mac, cached s a = Some mac → cached s1 a = Some mac) →
  evs = [] ∨ evs = [ArpBase BasePost] → act_ok (Receive f) s s1 evs.
Proof.
  intros Hwait Hr Hc Hevs.
  assert (∀ a, calls a evs = [] ∧ posts a evs = []) as Hnone
    by (intros a; by destruct Hevs as [-> | ->]).
  split_and!; [intros a; rewrite Hr; apply Hwait|done|intros a|intros a|].
  - destruct (Hnone a) as [-> _]. rewrite Hr. cbn. case_match; by rewrite app_nil_r.
  - destruct (Hnone a) as [_ ->]. cbn. by case_match.
  - intros cb mac Hin. destruct Hevs as [-> | ->]; [by apply elem_of_nil in Hin|].
    by apply list_elem_of_singleton in Hin.
Qed.

Lemma slots_insert a b sg s :
  sig_slots (CB := CB) (replies_at (set_replies (<[a := sg]> (on_replies_ s)) s) b) =
  if decide (b = a) then sig_slots sg else slots_at s b.
Proof.
  unfold replies_at. cbn [on_replies_ set_replies]. case_decide; subst.
  - by rewrite lookup_insert_eq.
  - by rewrite lookup_insert_ne by done.
Qed.

Lemma reply_ok f h s :
  waiting_ok s →
  act_ok (Receive f) s (set_replies (<[spa h := sig_empty]> (on_replies_ s)) (learn h s))
    ((λ cb, ArpCall cb (sha h)) <$> slots_at s (spa h)).
Proof.
  intros Hwait.
  assert (∀ b, slots_at (set_replies (<[spa h := sig_empty]> (on_replies_ s)) (learn h s)) b =
    if decide (b = spa h) then [] else slots_at s b) as Hs1.
  { intros b. rewrite <- (slots_empty (CB := CB) (Sig := Sig)), <- slots_insert. done. }
  split_and!.
  - intros a. rewrite Hs1. case_decide; [apply List.Forall_nil|apply Hwait].
  - apply cached_learn.
  - intros a. rewrite Hs1, calls_fmap. change (resolves a [Receive f]) with (@nil CB).
    replace (if cached s a is Some _ then [] else @nil CB) with (@nil CB) by (by case_match).
    rewrite app_nil_r.
    case_decide as Ha; [rewrite Ha, omap_only by apply Hwait; apply app_nil_r|].
    by rewrite (omap_only_ne a (spa h)) by (done || apply Hwait).
  - intros a. rewrite posts_fmap. by case_match.
  - intros cb mac (cb' & E & _)%list_elem_of_fmap. done.
Qed.

Lemma receive_ok f s :
  waiting_ok s → arrived (Receive f) →
  ∃ s1 evs, arp_process f s = Ok ((), s1, evs) ∧ act_ok (Receive f) s s1 evs.
Proof.
  intros Hwait [Hw Hl]. change arpv4_header.size with 28 in Hl.
  destruct (reads_arp (payload (frame_skb f))) as [h Eh]; [lia|].
  apply arp_consume_inv in Eh as [Hp Hok]. set (rest := drop _ _) in Hp.
  assert (∀ s1 evs, arp_process f s = Ok ((), s1, evs) → act_ok (Receive f) s s1 evs →
    ∃ s1 evs, arp_process f s = Ok ((), s1, evs) ∧ act_ok (Receive f) s s1 evs) as Hex by eauto.
  pose proof (arp_process_cases f h rest s Hw Hp Hok) as Hspec_.
  case_bool_decide; [|by eapply Hex; [done|apply act_ok_quiet; eauto]].
  destruct (decide (oper h = 1)).
  - destruct (neigh.query (tpa h) _).
    + destruct Hspec_ as (skb & E & _). eapply Hex; [done|]. apply act_ok_quiet; [done| | |by right].
      * intros a. rewrite <- (replies_learn h s). done.
      * apply (cached_learn h s).
    + eapply Hex; [done|]. apply act_ok_quiet; [done| | |by left].
      * apply replies_learn.
      * apply cached_learn.
  - destruct (decide (oper h = 2)); [|by eapply Hex; [done|apply act_ok_quiet; eauto]].
    eapply Hex; [done|]. by apply reply_ok.
Qed.

Lemma resolve_ok cb from_mac from_ipv4 dev s :
  waiting_ok s →
  ∃ s1 evs, arp_act (Resolve cb from_mac from_ipv4 dev) s = Ok ((), s1, evs) ∧
    act_ok (Resolve cb from_mac from_ipv4 dev) s s1 evs.
Proof.
  intros Hwait. cbn [arp_act]. unfold async_resolve, mbind, M_bind. cbn [get].
  fold (cached s (dest cb)). destruct (cached s (dest cb)) as [mac|] eqn:Ec.
  - do 2 eexists. split; [done|]. split_and!; [done|done|intros a|intros a|].
    + cbn. unfold only. destruct (decide (dest cb = a)) as [<-|]; [rewrite Ec|];
        [|case_match]; by rewrite app_nil_r.
    + cbn. unfold only. destruct (decide (dest cb = a)) as [<-|]; [by rewrite Ec|by case_match].
    + intros cb' mac' [= -> ->]%list_elem_of_singleton. done.
  - set (s0 := set_replies (<[dest cb := sig_connect cb (replies_at s (dest cb))]> (on_replies_ s)) s).
    destruct (async_request_run (CB := CB) (from_mac, from_ipv4) (dest cb) dev s0) as (skb & E & _).
    cbn [modify]. fold s0. rewrite E. do 2 eexists. split; [done|].
    assert (∀ b, slots_at (with_frame (mk_frame from_mac mac_addr.broadcast ARP_PROTO skb dev) s0) b =
      if decide (b = dest cb) then slots_at s b ++ [cb] else slots_at s b) as Hs1.
    { intros b. transitivity (slots_at s0 b); [done|]. unfold s0. rewrite slots_insert.
      case_decide; subst; [apply slots_connect|done]. }
    split_and!; [|done|intros a|intros a|].
    + intros a. rewrite Hs1. case_decide as Ha; [|apply Hwait].
      apply Forall_app. split; [apply Hwait|]. apply Forall_cons. by split.
    + rewrite Hs1. cbn. unfold only. case_decide as Ha; [subst a; rewrite Ec, decide_True by done; done|].
      rewrite decide_False by congruence. case_match; by rewrite app_nil_r.
    + cbn. case_match eqn:Ea; [|done]. unfold only. rewrite decide_False; [done|congruence].
    + intros cb' mac' [=]%list_elem_of_singleton.
Qed.

Lemma arp_act_ok x s :
  waiting_ok s → arrived x → ∃ s1 evs, arp_act x s = Ok ((), s1, evs) ∧ act_ok x s s1 evs.
Proof. destruct x; intros; [by apply resolve_ok|by apply receive_ok]. Qed.

Lemma calls_app a evs evs' : calls a (evs ++ evs') = calls a evs ++ calls a evs'.
Proof. apply omap_app. Qed.
Lemma posts_app a evs evs' : posts a (evs ++ evs') = posts a evs ++ posts a evs'.
Proof. apply omap_app. Qed.
Lemma resolves_cons a x acts : resolves a (x :: acts) = resolves a [x] ++ resolves a acts.
Proof. unfold resolves. by rewrite <- omap_app. Qed.

Lemma arp_run_ok acts s :
  waiting_ok s → Forall arrived acts →
  ∃ s' evs, arp_run acts s = Ok ((), s', evs) ∧
    (∀ a mac, cached s a = Some mac → cached s' a = Some mac) ∧
    (∀ a, calls a evs ++ slots_at s' a ++ posts a evs = slots_at s a ++ resolves a acts) ∧
    (∀ a mac, cached s a = Some mac →
       calls a evs ++ slots_at s' a = slots_at s a ∧ posts a evs = resolves a acts) ∧
    (∀ cb mac, ArpPost cb mac ∈ evs → cached s' (dest cb) = Some mac).
Proof.
  intros Hwait Hacts. revert s Hwait. induction Hacts as [|x acts Hx _ IH]; intros s Hwait.
  - exists s, []. split_and!; [done|done|by intros a; rewrite !app_nil_r|done|].
    by intros cb mac ?%elem_of_nil.
  - destruct (arp_act_ok x s Hwait Hx) as (s1 & ev1 & E1 & Hw1 & Hc1 & Hq1 & Hp1 & Hm1).
    destruct (IH s1 Hw1) as (s' & ev2 & E2 & Hc2 & Hq2 & Hk2 & Hm2).
    exists s', (ev1 ++ ev2). split_and!; [by cbn; unfold mbind, M_bind; rewrite E1, E2|auto| | |].
    + intros a. specialize (Hq1 a). specialize (Hp1 a).
      rewrite calls_app, posts_app, resolves_cons, <- app_assoc, Hp1.
      destruct (cached s a) as [mac|] eqn:Ec.
      * destruct (Hk2 a mac (Hc1 _ _ Ec)) as [Hk ->].
        rewrite (app_assoc (calls a ev2)), Hk, app_assoc, Hq1. by rewrite app_nil_r.
      * cbn [app]. by rewrite Hq2, app_assoc, Hq1, <- app_assoc.
    + intros a mac Ec. specialize (Hq1 a). specialize (Hp1 a). rewrite Ec in Hq1, Hp1.
      destruct (Hk2 a mac (Hc1 _ _ Ec)) as [Hk Hk'].
      rewrite calls_app, posts_app, resolves_cons, <- app_assoc, Hk, Hk', Hp1, Hq1.
      by rewrite app_nil_r.
    + intros cb mac [Hin|Hin]%elem_of_app; [apply Hc2, Hc1, (Hm1 _ _ Hin)|by apply Hm2].
Qed.

(** C25: however resolutions and frames interleave, the callbacks that ask
    for an address are, in the order in which they asked: those that a
    reply has called, those that still wait, and those that were posted
    because the address was in the cache by then.  So each is called or
    posted at most once, none overtakes another, and what a posted one is
    given is what the cache has for the address. *)
Theorem resolutions_in_order acts s :
  (∀ a, slots_at s a = []) → Forall arrived acts →
  ∃ s' evs, arp_run acts s = Ok ((), s', evs) ∧
    (∀ a, calls a evs ++ slots_at s' a ++ posts a evs = resolves a acts) ∧
    (∀ cb mac, ArpPost cb mac ∈ evs → neigh.query (dest cb) (arp_cache_ s') = Some mac).
Proof.
  intros Hs Hacts. destruct (arp_run_ok acts s) as (s' & evs & E & _ & Hq & _ & Hm); [|done|].
  { intros a. rewrite Hs. apply List.Forall_nil. }
  exists s', evs. split_and!; [done| |done]. intros a. by rewrite Hq, Hs.
Qed.
End Resolution.

(** ** A concrete exchange *)

Definition test_mac (b : byte) : mac_addr_t := Mac b Byte.x00 Byte.x00 Byte.x00 Byte.x00 Byte.x01.
Definition test_arp_frame (oper_ : Z) (from_ target : Z) (b : byte) : ethernetv2_frame :=
  let data := arpv4_header.produce_to_net (H := test_host Little)
    (mk_arp_header 1 2048 6 4 oper_ (test_mac b) (Ipv4 from_) mac_addr.zero (Ipv4 target)) in
  mk_frame (test_mac b) mac_addr.broadcast ARP_PROTO
    (mk_skb (replicate 14 Byte.x00 ++ data) 14 42) (Some 0%nat).
(** The layer of a host whose own address is in its cache. *)
Definition test_arp : arp (list (nat * Z)) := mk_arp (mk_base true []) {[ Ipv4 1 := test_mac Byte.x02 ]} ∅.

Lemma arp_process_spec_witness :
  let H := test_host Little in
  let f := test_arp_frame 1 9 1 Byte.x08 in
  let h := mk_arp_header 1 2048 6 4 1 (test_mac Byte.x08) (Ipv4 9) mac_addr.zero (Ipv4 1) in
  ∃ skb, arp_process (CB := nat * Z) f test_arp =
      Ok ((), with_frame (mk_frame (test_mac Byte.x02) (test_mac Byte.x08) ARP_PROTO skb (Some 0%nat))
                (learn h test_arp), [ArpBase BasePost]) ∧
    skb_wf skb ∧ headroom skb = 14 ∧
    payload skb = arpv4_header.produce_to_net (reply_header h (test_mac Byte.x02)) ++ [].
Proof.
  refine (arp_process_spec (Hh := test_host Little) (test_arp_frame 1 9 1 Byte.x08)
    (mk_arp_header 1 2048 6 4 1 (test_mac Byte.x08) (Ipv4 9) mac_addr.zero (Ipv4 1)) [] test_arp
    _ _ _).
  - split_and!; vm_compute; discriminate.
  - vm_compute; reflexivity.
  - unfold arp_header_ok, ipv4_ok, is_u; cbn; lia.
Defined.

(** Two callers wait for address 9; the reply calls both, and a third asks. *)
Lemma resolutions_in_order_witness :
  let H := test_host Little in
  let ask n := Resolve (n, 9) (test_mac Byte.x02) (Ipv4 1) (Some 0%nat) in
  let acts := [ask 1%nat; ask 2%nat; Receive (test_arp_frame 2 9 1 Byte.x08); ask 3%nat] in
  ∃ s' evs, arp_run (λ cb : nat * Z, Ipv4 cb.2) acts test_arp = Ok ((), s', evs) ∧
    (∀ a, calls (λ cb : nat * Z, Ipv4 cb.2) a evs ++ sig_slots (replies_at s' a) ++
          posts (λ cb : nat * Z, Ipv4 cb.2) a evs = resolves (λ cb : nat * Z, Ipv4 cb.2) a acts) ∧
    (∀ cb mac, ArpPost cb mac ∈ evs → neigh.query (Ipv4 cb.2) (arp_cache_ s') = Some mac).
Proof.
  cbv zeta.
  refine (resolutions_in_order (Hh := test_host Little) (λ cb : nat * Z, Ipv4 cb.2) _ test_arp _ _).
  - reflexivity.
  - repeat (apply Forall_cons; split;
      [first [exact I | split; [split_and!; vm_compute; discriminate|vm_compute; discriminate]]|]).
    apply List.Forall_nil.
Defined.
