(* ===== verification/Ipv4.v ===== *)
(** * ipv4.hpp, ipv4.cpp: routing and the IPv4 header

    An outgoing packet gets its header and its checksum, and then waits, in a
    callback of the ARP layer, for the MAC address of its next hop.  The layer
    refers to the ARP layer, and shares with it the cache of MAC addresses,
    which is part of the state of [Arp]. *)

From S2P Require Import Prelude Utils Skbuff Addr Headers BaseProtocol Packets NeighCache.
From S2P Require Import RoutingTable Arp.

Record ipv4 (Sig : Type) : Type := mk_ipv4 {
  ip_base : base ethernetv2_frame;
  seq_ : Z;
  rt_ : routing_table;
  arp_ : arp Sig;
}.
Arguments mk_ipv4 {Sig}. Arguments ip_base {Sig}. Arguments seq_ {Sig}. Arguments rt_ {Sig}.
Arguments arp_ {Sig}.

(** The callback given to [async_resolve] is known by the frame it holds. *)
Inductive ipv4_event : Type :=
| IpBase (ev : base_event ethernetv2_frame)
| IpArp (ev : arp_event ethernetv2_frame).

Section Ipv4.
Context `{Hh : Host} {Sig : Type} `{Hsig : Signal ethernetv2_frame Sig}.

(** The address of the buffer of the packet. *)
Context (new_addr : Z).

Abbreviation IpM := (M (ipv4 Sig) ipv4_event).

Definition IP_PROTO : Z := 2048.

Definition set_ip_base (b : base ethernetv2_frame) (s : ipv4 Sig) : ipv4 Sig :=
  mk_ipv4 b (seq_ s) (rt_ s) (arp_ s).
Definition set_seq (z : Z) (s : ipv4 Sig) : ipv4 Sig := mk_ipv4 (ip_base s) z (rt_ s) (arp_ s).
Definition set_arp (a : arp Sig) (s : ipv4 Sig) : ipv4 Sig :=
  mk_ipv4 (ip_base s) (seq_ s) (rt_ s) a.

Definition ip_enqueue (f : ethernetv2_frame) : IpM unit :=
  zoom ip_base set_ip_base IpBase (enqueue f).

(** The callback: [out_frame_wrapper] holds [out_frame]. *)
Definition on_resolved (out_frame : ethernetv2_frame) (nh_addr : mac_addr_t) : IpM unit :=
  ip_enqueue (mk_frame (src_mac_addr out_frame) nh_addr (frame_proto out_frame)
    (frame_skb out_frame) (frame_dev out_frame)).

(** The header of the packet, with the identification [id]. *)
Definition ip_header (pkt_in : ipv4_packet) (id : Z) : ipv4_header_t := {|
  ip_version := 4;
  ip_header_length := 5;
  ip_tos := 0;
  ip_total_length := u16 (len (payload (ipp_skb pkt_in)) + ipv4_header.fixed_size);
  ip_id := id;
  ip_NOP := 0;
  ip_DF := 1;
  ip_MF := 0;
  ip_frag_offset := 0;
  ip_ttl := 64;
  ip_proto_type := ipp_proto pkt_in;
  ip_header_chsum := 0;
  ip_src_addr := src_addrv4 pkt_in;
  ip_dst_addr := dst_addrv4 pkt_in;
|}.

Definition ip_process (pkt_in : ipv4_packet) : IpM unit :=
  s ← get;
  _ ← modify (set_seq (u16 (seq_ s + 1)));
  let ipv4h := ip_header pkt_in (seq_ s) in
  let skb_out := ipp_skb pkt_in in
  _ ← lift (assert_ (negb (headroom skb_out <? ipv4_header.fixed_size)));
  skb_out ← lift (push_front ipv4_header.fixed_size skb_out);
  skb_out ← lift (skb_write 0 (ipv4_header.produce_to_net ipv4h) skb_out);
  span ← lift (subspan 0 ipv4_header.fixed_size (head skb_out));
  header_chsum_net ← lift (checksum (new_addr + headroom skb_out) span 0);
  skb_out ← lift (skb_write ipv4_header.offsetof_header_chsum (native_store 2 header_chsum_net) skb_out);
  match rt.next_hop (dst_addrv4 pkt_in) (rt_ s) with
  | Some nh =>
      _ ← lift (assert_ (bool_decide (is_Some (rec_dev nh))));
      match neigh.query (from_addrv4 nh) (arp_cache_ (arp_ s)) with
      | Some src_mac =>
          zoom arp_ set_arp IpArp
            (async_resolve src_mac (from_addrv4 nh) (via_addrv4 nh) (rec_dev nh)
               (mk_frame src_mac mac_addr.zero IP_PROTO skb_out (rec_dev nh)))
      | None => fail AssertFail
      end
  | None => mret ()
  end.

Definition ip_make_packet (frame_in : ethernetv2_frame) : IpM (option ipv4_packet) :=
  let skb := frame_skb frame_in in
  _ ← lift (assert_ (negb (len (payload skb) <? ipv4_header.fixed_size)));
  fb ← lift (span_at 0 (payload skb));
  if negb (4 =? Z.land (Z.shiftr (byte.unsigned fb) 4) 15) then mret None else
  '(h, _) ← lift (ipv4_header.consume_from_net (head skb));
  skb ← lift (pop_front ipv4_header.fixed_size skb);
  mret (Some {| src_addrv4 := ip_src_addr h; dst_addrv4 := ip_dst_addr h;
                ipp_proto := ip_proto_type h; ipp_skb := skb |}).
End Ipv4.

(** ** Properties *)

Section Ipv4Properties.
Context `{Hh : Host} {Sig : Type} `{Hsig : Signal ethernetv2_frame Sig}
  `{Hspec : !SignalSpec ethernetv2_frame Sig}.
Context (new_addr : Z).
Implicit Types (s : ipv4 Sig) (pkt : ipv4_packet) (skb : skbuff).

Definition packet_ok pkt : Prop :=
  is_u 8 (ipp_proto pkt) ∧ ipv4_ok (src_addrv4 pkt) ∧ ipv4_ok (dst_addrv4 pkt).

Lemma ip_header_ok pkt id : packet_ok pkt → is_u 16 id → ipv4_header_ok (ip_header pkt id).
Proof.
  intros (Hp & Hs & Hd) Hi. unfold ipv4_header_ok, ip_header. cbn -[is_u].
  split_and!; try done; apply u16_is_u.
Qed.

Definition with_chsum (c : Z) (h : ipv4_header_t) : ipv4_header_t :=
  mk_ipv4_header (ip_version h) (ip_header_length h) (ip_tos h) (ip_total_length h) (ip_id h)
    (ip_NOP h) (ip_DF h) (ip_MF h) (ip_frag_offset h) (ip_ttl h) (ip_proto_type h) c
    (ip_src_addr h) (ip_dst_addr h).

(** Where the checksum is in the header. *)
Lemma ip_produce_split h :
  ∃ pre post, len pre = 10 ∧ len post = 8 ∧
    ∀ c, ipv4_header.produce_to_net (with_chsum c h) = pre ++ be_split 2 c ++ post.
Proof.
  exists (be_split 1 (ipv4_header.version_header_length h) ++ be_split 1 (ip_tos h) ++
    be_split 2 (ip_total_length h) ++ be_split 2 (ip_id h) ++
    be_split 2 (ipv4_header.flags_frag_offset h) ++ be_split 1 (ip_ttl h) ++
    be_split 1 (ip_proto_type h)),
    (be_split 4 (raw (ip_src_addr h)) ++ be_split 4 (raw (ip_dst_addr h))).
  split_and!; [by rewrite !length_app, !length_be_split|by rewrite !length_app, !length_be_split|].
  intros c'. unfold ipv4_header.produce_to_net, ipv4_addr.produce_to_net.
  autorewrite with wire. rewrite <- !app_assoc. done.
Qed.

(** The header that is sent: its checksum filled in. *)
Definition sent_header pkt id : ipv4_header_t :=
  with_chsum (rfc1071 (ipv4_header.produce_to_net (ip_header pkt id))) (ip_header pkt id).

Lemma ip_build pkt id :
  skb_wf (ipp_skb pkt) → ipv4_header.fixed_size ≤ headroom (ipp_skb pkt) →
  Z.even (new_addr + headroom (ipp_skb pkt)) = true →
  ∃ skb1 skb2 span c skb3,
    push_front ipv4_header.fixed_size (ipp_skb pkt) = Ok skb1 ∧
    skb_write 0 (ipv4_header.produce_to_net (ip_header pkt id)) skb1 = Ok skb2 ∧
    subspan 0 ipv4_header.fixed_size (head skb2) = Ok span ∧
    checksum (new_addr + headroom skb2) span 0 = Ok c ∧
    skb_write ipv4_header.offsetof_header_chsum (native_store 2 c) skb2 = Ok skb3 ∧
    skb_wf skb3 ∧ headroom skb3 = headroom (ipp_skb pkt) - ipv4_header.fixed_size ∧
    payload skb3 = ipv4_header.produce_to_net (sent_header pkt id) ++ payload (ipp_skb pkt) ∧
    rfc1071 (ipv4_header.produce_to_net (sent_header pkt id)) = 0.
Proof.
  change ipv4_header.fixed_size with 20. change ipv4_header.offsetof_header_chsum with 10.
  intros Hw Hroom Heven. set (h := ip_header pkt id).
  destruct (ip_produce_split h) as (pre & post & Lpre & Lpost & Hsplit).
  pose proof (Hsplit 0) as H0. change (with_chsum 0 h) with h in H0.
  pose proof (ipv4_length h) as Lh.
  destruct (push_write_Ok (ipv4_header.produce_to_net h) 20 (ipp_skb pkt))
    as (skb1 & skb2 & E1 & E2 & Hw2 & Hp2 & Hh2); [done..|].
  rewrite H0 in Hp2.
  destruct (fill_checksum_Ok new_addr 10 pre post (payload (ipp_skb pkt)) skb2)
    as (c & skb3 & Ec & E3 & Hw3 & Hh3 & Hp3 & Hz); [done|done|done|done| | |].
  { rewrite Hh2. replace (new_addr + (headroom (ipp_skb pkt) - 20))
      with (new_addr + headroom (ipp_skb pkt) + 2 * (-10)) by lia. by rewrite Z.even_add_mul_2. }
  { rewrite <- H0. split; [lia|]. intros _. by rewrite Lh. }
  exists skb1, skb2, (ipv4_header.produce_to_net h), c, skb3.
  unfold sent_header. fold h. rewrite Hsplit, H0.
  split_and!; [done|by rewrite <- H0| |done|done|done|lia|done|done].
  pose proof (length_head skb2 Hw2) as Lhd.
  assert (20 ≤ len (head skb2)).
  { rewrite (head_payload skb2 Hw2), Hp2, <- H0, !length_app. lia. }
  unfold subspan. rewrite (proj2 (Z.leb_le (0 + 20) _)) by lia. cbn [Z.leb Z.compare andb].
  change (drop (Z.to_nat 0) (head skb2)) with (head skb2).
  rewrite (head_payload skb2 Hw2), Hp2, <- (app_assoc _ (payload (ipp_skb pkt))).
  rewrite take_app_length'; [done|]. rewrite <- H0. lia.
Qed.

(** What becomes of the frame [f], whose next hop is [nh]. *)
Definition resolved nh f s (r : result (unit * ipv4 Sig * list ipv4_event)) : Prop :=
  match neigh.query (via_addrv4 nh) (arp_cache_ (arp_ s)) with
  | Some mac => r = Ok ((), s, [IpArp (ArpPost f mac)])
  | None =>
      ∃ a' q, r = Ok ((), set_arp a' s, [IpArp (ArpBase BasePost)]) ∧
        arp_cache_ a' = arp_cache_ (arp_ s) ∧
        sig_slots (replies_at a' (via_addrv4 nh)) =
          sig_slots (replies_at (arp_ s) (via_addrv4 nh)) ++ [f] ∧
        packet_queue_ (arp_base a') = packet_queue_ (arp_base (arp_ s)) ++ [q] ∧
        frame_dev q = rec_dev nh ∧ dst_mac_addr q = mac_addr.broadcast ∧
        payload (frame_skb q) = arpv4_header.produce_to_net
          (mk_arp_header 1 2048 6 4 1 (src_mac_addr f) (from_addrv4 nh) mac_addr.zero
             (via_addrv4 nh))
  end.

Lemma async_resolve_resolved nh f s :
  resolved nh f s (zoom arp_ set_arp IpArp
    (async_resolve (src_mac_addr f) (from_addrv4 nh) (via_addrv4 nh) (rec_dev nh) f) s).
Proof.
  unfold resolved, zoom, async_resolve, mbind, M_bind. cbn [get].
  destruct (neigh.query (via_addrv4 nh) _) as [mac|]; [cbn; by destruct s|].
  set (a0 := set_replies (<[via_addrv4 nh :=
    sig_connect f (replies_at (arp_ s) (via_addrv4 nh))]> (on_replies_ (arp_ s))) (arp_ s)).
  destruct (async_request_run (CB := ethernetv2_frame) (src_mac_addr f, from_addrv4 nh)
    (via_addrv4 nh) (rec_dev nh) a0) as (skb & E & _ & _ & Hp).
  cbn [modify]. fold a0. rewrite E. do 2 eexists.
  split_and!; [done|done| |done|done|done|exact Hp].
  rewrite <- slots_connect. unfold replies_at at 1, a0. cbn [on_replies_ set_replies with_frame set_arp_base].
  by rewrite lookup_insert_eq.
Qed.

(** The header is built; what follows depends on the route. *)
Lemma ip_process_run pkt s :
  let skb := ipp_skb pkt in
  skb_wf skb → ipv4_header.fixed_size ≤ headroom skb → Z.even (new_addr + headroom skb) = true →
  let s1 := set_seq (u16 (seq_ s + 1)) s in
  let hdr := ipv4_header.produce_to_net (sent_header pkt (seq_ s)) in
  rfc1071 hdr = 0 ∧
  ∃ skb', skb_wf skb' ∧ headroom skb' = headroom skb - ipv4_header.fixed_size ∧
    payload skb' = hdr ++ payload skb ∧
    ip_process new_addr pkt s =
      match rt.next_hop (dst_addrv4 pkt) (rt_ s) with
      | Some nh =>
          match rec_dev nh, neigh.query (from_addrv4 nh) (arp_cache_ (arp_ s)) with
          | Some d, Some src_mac =>
              zoom arp_ set_arp IpArp
                (async_resolve src_mac (from_addrv4 nh) (via_addrv4 nh) (rec_dev nh)
                   (mk_frame src_mac mac_addr.zero IP_PROTO skb' (Some d))) s1
          | _, _ => Fault AssertFail
          end
      | None => Ok ((), s1, [])
      end.
Proof.
  intros skb Hw Hroom Heven s1 hdr.
  destruct (ip_build pkt (seq_ s) Hw Hroom Heven)
    as (skb1 & skb2 & span & c & skb3 & E1 & E2 & E3 & Ec & E4 & Hw3 & Hh3 & Hp3 & Hz).
  split; [done|]. exists skb3. split_and!; [done..|].
  unfold ip_process, mbind, M_bind, get, modify, lift. fold skb s1.
  unfold assert_ at 1. rewrite (proj2 (Z.ltb_ge _ _)) by done. cbn [negb].
  unfold skb. rewrite E1, E2, E3, Ec, E4.
  destruct (rt.next_hop _ _) as [nh|]; [|done].
  destruct (rec_dev nh); [|done]. rewrite bool_decide_true by eauto. cbn [assert_].
  destruct (neigh.query _ _); [|done]. by destruct (zoom _ _ _ _ _) as [[[??]?]|].
Qed.

(** The twenty bytes of a header of RFC 791 that has no options, is not to be
    fragmented, and lives for 64 hops. *)
Definition rfc791_header (total id proto c : Z) (src dst : ipv4_addr_t) : list byte :=
  [Byte.x45; Byte.x00] ++ be_split 2 total ++ be_split 2 id ++ [Byte.x40; Byte.x00] ++
  [Byte.x40] ++ be_split 1 proto ++ be_split 2 c ++ be_split 4 (raw src) ++ be_split 4 (raw dst).

Lemma ip_header_rfc791 pkt id c :
  ipv4_header.produce_to_net (with_chsum c (ip_header pkt id)) =
  rfc791_header (u16 (len (payload (ipp_skb pkt)) + 20)) id (ipp_proto pkt) c
    (src_addrv4 pkt) (dst_addrv4 pkt).
Proof.
  unfold ipv4_header.produce_to_net, ipv4_addr.produce_to_net. autorewrite with wire. reflexivity.
Qed.

(** C31: a packet from above, whose buffer has room for the header at an even
    address.  The bytes of its header are those of RFC 791: version 4 and five
    words, the length of the packet and of the header (modulo 2^16), the next
    identification, no fragmentation, a lifetime of 64, the protocol and the
    addresses of the packet, and the checksum, which verifies.  The next hop
    is the route to the destination or else the default one; without either,
    the packet is dropped.  When the route has no device or the cache does not
    know the MAC address of the route's own address, an assertion fails.
    Otherwise that address is the source of the frame, and the callback that
    holds it is posted at once when the cache knows the next hop, and waits
    for the reply to a broadcast request if not. *)
Theorem ip_process_spec pkt s :
  let skb := ipp_skb pkt in
  skb_wf skb → 20 ≤ headroom skb → Z.even (new_addr + headroom skb) = true →
  let s1 := set_seq (u16 (seq_ s + 1)) s in
  let hdr c := rfc791_header (u16 (len (payload skb) + 20)) (seq_ s) (ipp_proto pkt) c
                 (src_addrv4 pkt) (dst_addrv4 pkt) in
  let chsum := rfc1071 (hdr 0) in
  let route := match table_ (rt_ s) !! dst_addrv4 pkt with Some nh => Some nh | None => default_ (rt_ s) end in
  rfc1071 (hdr chsum) = 0 ∧
  match route with
  | None => ip_process new_addr pkt s = Ok ((), s1, [])
  | Some nh =>
      match rec_dev nh, neigh.query (from_addrv4 nh) (arp_cache_ (arp_ s)) with
      | Some d, Some src_mac =>
          ∃ skb', skb_wf skb' ∧ headroom skb' = headroom skb - 20 ∧
            payload skb' = hdr chsum ++ payload skb ∧
            resolved nh (mk_frame src_mac mac_addr.zero 2048 skb' (Some d)) s1
              (ip_process new_addr pkt s)
      | _, _ => ip_process new_addr pkt s = Fault AssertFail
      end
  end.
Proof.
  intros skb Hw Hroom Heven s1 hdr chsum route. change route with (rt.next_hop (dst_addrv4 pkt) (rt_ s)).
  destruct (ip_process_run pkt s Hw Hroom Heven) as (Hz & skb' & Hw' & Hh' & Hp' & ->).
  assert (ipv4_header.produce_to_net (sent_header pkt (seq_ s)) = hdr chsum) as Eh.
  { unfold sent_header.
    change (ipv4_header.produce_to_net (ip_header pkt (seq_ s)))
      with (ipv4_header.produce_to_net (with_chsum 0 (ip_header pkt (seq_ s)))).
    by rewrite !ip_header_rfc791. }
  rewrite Eh in Hz, Hp'. fold s1. split; [done|]. destruct (rt.next_hop _ _) as [nh|]; [|done].
  destruct (rec_dev nh) as [d|] eqn:Ed; [|done].
  destruct (neigh.query (from_addrv4 nh) _) as [src_mac|]; [|done].
  exists skb'. split_and!; [done..|].
  pose proof (async_resolve_resolved nh (mk_frame src_mac mac_addr.zero IP_PROTO skb' (Some d)) s1)
    as Hr. by rewrite Ed in Hr.
Qed.

Lemma ip_make_packet_run f h rest :
  let skb := frame_skb f in
  skb_wf skb → payload skb = ipv4_header.produce_to_net h ++ rest → ipv4_header_ok h →
  ∃ skb', skb_wf skb' ∧ payload skb' = rest ∧
    headroom skb' = headroom skb + ipv4_header.fixed_size ∧
    ∀ s, ip_make_packet f s =
      Ok (if ip_version h =? 4 then
            Some (mk_ipv4_packet (ip_src_addr h) (ip_dst_addr h) (ip_proto_type h) skb')
          else None, s, []).
Proof.
  intros skb Hw Hp Hok. pose proof (ipv4_length h) as Lh.
  assert (20 ≤ len (payload skb)) as Hl by (rewrite Hp, length_app; lia).
  assert (∃ fb, span_at 0 (payload skb) = Ok fb ∧
    Z.land (Z.shiftr (byte.unsigned fb) 4) 15 = ip_version h) as (fb & Efb & Hfb).
  { exists (byte.of_Z (ipv4_header.version_header_length h)). rewrite Hp.
    split; [unfold ipv4_header.produce_to_net; by rewrite produce_to_net_be|].
    destruct Hok as ([Hv Hhl] & _). destruct (pack_vhl _ _ Hv Hhl) as (Hu & Es & _).
    rewrite byte.unsigned_of_Z. unfold byte.wrap. rewrite Z.mod_small by exact Hu.
    unfold ipv4_header.version_header_length. rewrite Es.
    change 15 with (Z.ones 4). rewrite Z.land_ones by done. by apply Z.mod_small. }
  destruct (pop_front_total 20 skb Hw) as [skb1 E1]; [lia|].
  apply pop_front_Ok in E1 as E1'; [|done|lia]. destruct E1' as (Hw1 & Hp1 & _ & Hh1 & _ & _).
  exists skb1. split_and!; [done|rewrite Hp1, Hp; apply drop_app_length'; lia|done|]. intros s.
  unfold ip_make_packet, mbind, M_bind, lift, assert_. fold skb.
  change ipv4_header.fixed_size with 20. rewrite (proj2 (Z.ltb_ge _ _)) by lia.
  cbn [negb]. rewrite Efb, Hfb, (Z.eqb_sym 4).
  destruct (ip_version h =? 4); [cbn [negb]|done].
  by rewrite (head_payload skb Hw), Hp, <- app_assoc, ipv4_consume_header, E1 by done.
Qed.

(** A frame from below.  The packet's addresses and protocol are those
    of the header and its payload is everything behind the first twenty
    bytes: neither the header length nor the total length nor the checksum
    is looked at, so that options and the padding of a short Ethernet frame
    are part of the payload.  Another version is ignored, and a frame
    shorter than a header aborts the program. *)
Theorem ip_make_packet_spec f s :
  let skb := frame_skb f in
  skb_wf skb →
  (len (payload skb) < ipv4_header.fixed_size → ip_make_packet f s = Fault AssertFail) ∧
  (∀ h rest, payload skb = ipv4_header.produce_to_net h ++ rest → ipv4_header_ok h →
    if ip_version h =? 4 then
      ∃ skb', ip_make_packet f s =
          Ok (Some (mk_ipv4_packet (ip_src_addr h) (ip_dst_addr h) (ip_proto_type h) skb'), s, []) ∧
        skb_wf skb' ∧ payload skb' = rest ∧
        headroom skb' = headroom skb + ipv4_header.fixed_size
    else ip_make_packet f s = Ok (None, s, [])).
Proof.
  intros skb Hw. split.
  { intros Hl. unfold ip_make_packet, mbind, M_bind, lift, assert_. fold skb.
    by rewrite (proj2 (Z.ltb_lt _ _)). }
  intros h rest Hp Hok.
  destruct (ip_make_packet_run f h rest Hw Hp Hok) as (skb' & Hw' & Hp' & Hh' & E).
  rewrite (E s). destruct (ip_version h =? 4); [|done]. by exists skb'.
Qed.
End Ipv4Properties.

(** *** A concrete layer *)

(** A route to everything through address 9, by device 0. *)
Definition test_route : rt_record := mk_record (Ipv4 9) (Ipv4 1) (Some 0%nat).
Definition test_ipv4 (cache : neigh_cache) : ipv4 (list ethernetv2_frame) :=
  mk_ipv4 (mk_base true []) 65535 (mk_routing_table ∅ (Some test_route))
    (mk_arp (mk_base true []) cache ∅).
Definition test_ip_packet : ipv4_packet :=
  mk_ipv4_packet (Ipv4 1) (Ipv4 7) 6
    (mk_skb (replicate 34 Byte.x00 ++ [Byte.xaa; Byte.xbb; Byte.xcc]) 34 37).

(** The identification wraps; the next hop is in the cache. *)
Lemma ip_process_spec_witness :
  let H := test_host Little in
  let s := test_ipv4 (<[Ipv4 9 := test_mac Byte.x08]> {[ Ipv4 1 := test_mac Byte.x02 ]}) in
  let hdr c := rfc791_header 23 65535 6 c (Ipv4 1) (Ipv4 7) in
  let chsum := rfc1071 (hdr 0) in
  rfc1071 (hdr chsum) = 0 ∧
  ∃ skb', skb_wf skb' ∧ headroom skb' = 14 ∧
    payload skb' = hdr chsum ++ [Byte.xaa; Byte.xbb; Byte.xcc] ∧
    ip_process 64 test_ip_packet s =
      Ok ((), set_seq 0 s, [IpArp (ArpPost (mk_frame (test_mac Byte.x02) mac_addr.zero IP_PROTO skb'
                                     (Some 0%nat)) (test_mac Byte.x08))]).
Proof.
  cbv zeta.
  refine (ip_process_spec (Hh := test_host Little) 64 test_ip_packet
    (test_ipv4 (<[Ipv4 9 := test_mac Byte.x08]> {[ Ipv4 1 := test_mac Byte.x02 ]})) _ _ _).
  - split_and!; vm_compute; discriminate.
  - vm_compute; discriminate.
  - reflexivity.
Defined.

(** A header that claims six words and a total length of 20. *)
Definition test_ip_header : ipv4_header_t :=
  mk_ipv4_header 4 6 0 20 77 0 1 0 0 64 6 0 (Ipv4 7) (Ipv4 1).
Definition test_ip_frame : ethernetv2_frame :=
  let data := ipv4_header.produce_to_net (H := test_host Little) test_ip_header ++
              [Byte.xaa; Byte.xbb; Byte.xcc] in
  mk_frame (test_mac Byte.x08) (test_mac Byte.x02) IP_PROTO (mk_skb data 0 23) (Some 0%nat).

Lemma ip_make_packet_spec_witness :
  let H := test_host Little in
  let s := test_ipv4 ∅ in
  ∃ skb', ip_make_packet test_ip_frame s = Ok (Some (mk_ipv4_packet (Ipv4 7) (Ipv4 1) 6 skb'), s, []) ∧
    skb_wf skb' ∧ payload skb' = [Byte.xaa; Byte.xbb; Byte.xcc] ∧ headroom skb' = 20.
Proof.
  assert (skb_wf (frame_skb test_ip_frame)) as Hw by (split_and!; vm_compute; discriminate).
  refine (proj2 (ip_make_packet_spec (Hh := test_host Little) test_ip_frame (test_ipv4 ∅) Hw)
    test_ip_header [Byte.xaa; Byte.xbb; Byte.xcc] _ _).
  - vm_compute; reflexivity.
  - unfold ipv4_header_ok, ipv4_ok, is_u; cbn; lia.
Defined.
