(* ===== verification/Ethernet.v ===== *)
(** * ethernet.hpp, ethernet.cpp: the Ethernet header

    The lowest layer: its queue holds pairs of a buffer and the device it
    leaves by. *)

From S2P Require Import Prelude Utils Skbuff Addr Headers BaseProtocol Packets.

Section Ethernet.
Context `{Hh : Host}.

(** The base of [base_protocol<void, ethernetv2_frame>]. *)
Abbreviation eth_base := (base (skbuff * option nat)).
Abbreviation EthM := (M eth_base (base_event (skbuff * option nat))).

Definition eth_process (in_frame : ethernetv2_frame) : EthM unit :=
  _ ← lift (assert_ (bool_decide (is_Some (frame_dev in_frame))));
  let e_packet := mk_eth_header (dst_mac_addr in_frame) (src_mac_addr in_frame)
                    (frame_proto in_frame) in
  out_buffer ← lift (push_front ethernetv2_header.size (frame_skb in_frame));
  out_buffer ← lift (skb_write 0 (ethernetv2_header.produce_to_net e_packet) out_buffer);
  bottom.enqueue out_buffer (frame_dev in_frame).

(** The header is read without a check of the buffer's length. *)
Definition eth_make_packet (skb_in : skbuff) (dev : option nat) : EthM (option ethernetv2_frame) :=
  '(e_header, _) ← lift (ethernetv2_header.consume_from_net (head skb_in));
  skb_in ← lift (pop_front ethernetv2_header.size skb_in);
  mret (Some {| src_mac_addr := eth_src_mac_addr e_header;
                dst_mac_addr := eth_dst_mac_addr e_header;
                frame_proto := eth_proto e_header; frame_skb := skb_in; frame_dev := dev |}).

(** ** Lemmas *)

Lemma eth_process_run f :
  skb_wf (frame_skb f) → ethernetv2_header.size ≤ headroom (frame_skb f) → is_Some (frame_dev f) →
  ∃ skb, (∀ b, eth_process f b =
      Ok ((), set_queue (packet_queue_ b ++ [(skb, frame_dev f)]) b, [BasePost])) ∧
    skb_wf skb ∧ headroom skb = headroom (frame_skb f) - ethernetv2_header.size ∧
    payload skb = ethernetv2_header.produce_to_net
      (mk_eth_header (dst_mac_addr f) (src_mac_addr f) (frame_proto f)) ++ payload (frame_skb f).
Proof.
  intros Hw Hroom Hdev.
  set (h := mk_eth_header (dst_mac_addr f) (src_mac_addr f) (frame_proto f)).
  destruct (push_write_Ok (ethernetv2_header.produce_to_net h) ethernetv2_header.size (frame_skb f))
    as (skb1 & skb2 & E1 & E2 & Hw2 & Hp2 & Hh2); [rewrite eth_length; done|done|done|].
  exists skb2. split_and!; [|done..].
  intros b. unfold eth_process, mbind, M_bind, lift. rewrite bool_decide_true by done. cbn [assert_].
  fold h. by rewrite E1, E2.
Qed.

Lemma eth_make_packet_run skb h rest dev :
  skb_wf skb → payload skb = ethernetv2_header.produce_to_net h ++ rest → eth_header_ok h →
  ∃ skb', (∀ b, eth_make_packet skb dev b =
      Ok (Some (mk_frame (eth_src_mac_addr h) (eth_dst_mac_addr h) (eth_proto h) skb' dev), b, [])) ∧
    skb_wf skb' ∧ payload skb' = rest ∧ headroom skb' = headroom skb + ethernetv2_header.size.
Proof.
  intros Hw Hp Hok. change ethernetv2_header.size with 14. pose proof (eth_length h) as Lh.
  destruct (pop_front_total 14 skb Hw) as [skb1 E1]; [rewrite Hp, length_app; lia|].
  apply pop_front_Ok in E1 as E1'; [|done|lia]. destruct E1' as (Hw1 & Hp1 & _ & Hh1 & _ & _).
  exists skb1. split_and!; [|done|rewrite Hp1, Hp; apply drop_app_length'; lia|done].
  intros b. unfold eth_make_packet, mbind, M_bind, lift.
  rewrite (head_payload skb Hw), Hp, <- app_assoc, eth_consume by done.
  change ethernetv2_header.size with 14. by rewrite E1.
Qed.
End Ethernet.
