(* ===== verification/Device.v ===== *)
(** * device.hpp, device.cpp: the queue of a device

    A device writes its outgoing buffers to a file descriptor one at a time
    and reads frames of at most 1500 bytes from it.  The reads and writes
    themselves are those of Boost.Asio and of the kernel: the model has the
    calls, and what is done when they complete. *)

From S2P Require Import Prelude Utils Skbuff.

Record device : Type := mk_device { out_skb_q_ : list skbuff }.

Inductive device_event : Type :=
| DevWrite (buf : list byte)      (** [async_write] of these bytes is started *)
| DevRead (size : Z)              (** [async_read_some] into a buffer of this size *)
| DevReceive (skb : skbuff).      (** [net_.eth().receive(skb, this)] *)

Abbreviation DevM := (M device device_event).

(** What [std::move] leaves of a buffer. *)
Definition skb_moved (s : skbuff) : skbuff := mk_skb [] (skb_head s) (skb_tail s).

(** The buffer is moved into the completion handler; the front of the queue
    is left behind, without its bytes, until the write completes. *)
Definition send_front_pkt_out : DevM unit :=
  d ← get;
  match out_skb_q_ d with
  | [] => fail EmptyQueue
  | skb :: q =>
      _ ← modify (λ _, mk_device (skb_moved skb :: q));
      emit (DevWrite (payload skb))
  end.

Definition dev_process (skb_in : skbuff) : DevM unit :=
  _ ← modify (λ d, mk_device (out_skb_q_ d ++ [skb_in]));
  d ← get;
  when (1 =? len (out_skb_q_ d)) send_front_pkt_out.

(** The completion of a write; [ec]: it failed. *)
Definition dev_written (ec : bool) : DevM unit :=
  if ec then mret () else
  d ← get;
  match out_skb_q_ d with
  | [] => fail EmptyQueue
  | _ :: q =>
      _ ← modify (λ _, mk_device q);
      when (negb (bool_decide (q = []))) send_front_pkt_out
  end.

Definition dev_async_receive : DevM unit := emit (DevRead 1500).

(** The completion of a read of [nbytes] into [buf]. *)
Definition dev_read_done (ec : bool) (buf : list byte) (nbytes : Z) : DevM unit :=
  if ec then mret () else
  skb ← lift (skb_new (take (Z.to_nat nbytes) buf) 0);
  _ ← emit (DevReceive skb);
  dev_async_receive.

(** ** The writes of a device *)

(** What happens to a device.  The state says whether a write is under way:
    only then can one complete. *)
Inductive dev_action : Type := Process (skb : skbuff) | Written (ec : bool).

Definition started (evs : list device_event) : list (list byte) :=
  omap (λ ev, match ev with DevWrite buf => Some buf | _ => None end) evs.

Definition dev_act (a : dev_action) : M (device * bool) device_event unit := λ '(d, busy),
  match a with
  | Process skb =>
      '(_, d', evs) ← dev_process skb d; Ok ((), (d', busy || bool_decide (started evs ≠ [])), evs)
  | Written ec =>
      if (busy : bool) then
        '(_, d', evs) ← dev_written ec d; Ok ((), (d', bool_decide (started evs ≠ [])), evs)
      else Ok ((), (d, false), [])
  end.

Fixpoint dev_run (acts : list dev_action) : M (device * bool) device_event unit :=
  match acts with
  | [] => mret ()
  | a :: acts => _ ← dev_act a; dev_run acts
  end.

Definition processed (acts : list dev_action) : list (list byte) :=
  omap (λ a, match a with Process skb => Some (payload skb) | Written _ => None end) acts.
(** No write that was under way has failed. *)
Fixpoint no_error (acts : list dev_action) : bool :=
  match acts with
  | [] => true
  | Written true :: _ => false
  | _ :: acts => no_error acts
  end.

(** The bytes of the buffers whose write is not started: all but the front. *)
Definition pending (d : device) : list (list byte) := payload <$> tail (out_skb_q_ d).

(** A write is under way whenever the queue is not empty, unless one failed. *)
Definition dev_ok (st : device * bool) (stalled : bool) : Prop :=
  if stalled then st.2 = false ∧ out_skb_q_ st.1 ≠ []
  else st.2 = bool_decide (out_skb_q_ st.1 ≠ []).

Lemma dev_act_ok a st (stalled : bool) :
  dev_ok st stalled →
  ∃ st' evs stalled', dev_act a st = Ok ((), st', evs) ∧ dev_ok st' stalled' ∧
    started evs ++ pending st'.1 = pending st.1 ++ processed [a] ∧
    (length (started evs) ≤ 1)%nat ∧
    (stalled = true → stalled' = true ∧ started evs = []) ∧
    (stalled = false → a ≠ Written true → stalled' = false).
Proof.
  destruct st as [[q] busy]. unfold dev_ok, pending. cbn. intros Hok.
  destruct a as [skb|ec].
  - destruct q as [|x q].
    + destruct stalled; [by destruct Hok|]. subst busy. do 2 eexists. exists false.
      split_and!; [reflexivity|done..].
    + assert (dev_process skb (mk_device (x :: q)) = Ok ((), mk_device (x :: q ++ [skb]), [])) as E.
      { unfold dev_process, mbind, M_bind, when. cbn [modify get out_skb_q_].
        rewrite (proj2 (Z.eqb_neq 1 _)); [done|]. rewrite length_app. cbn [length]. lia. }
      exists (mk_device (x :: q ++ [skb]), busy), [], stalled. unfold dev_act. rewrite E.
      cbn -[fmap]. rewrite fmap_app, orb_false_r. split_and!; [done| |done|lia|done|done].
      destruct stalled; [by destruct Hok|]. by rewrite Hok, !bool_decide_true by done.
  - destruct busy.
    2: { exists (mk_device q, false), [], stalled. cbn -[fmap]. rewrite app_nil_r.
         split_and!; [done..|lia|done|done]. }
    destruct stalled; [by destruct Hok|].
    destruct q as [|x q]; [done|].
    destruct ec.
    + exists (mk_device (x :: q), false), [], true. cbn -[fmap]. rewrite app_nil_r.
      split_and!; [done..|lia|done|done].
    + destruct q as [|y q].
      * exists (mk_device [], false), [], false. split_and!; [done..|cbn; lia|done|done].
      * exists (mk_device (skb_moved y :: q), true), [DevWrite (payload y)], false.
        cbn -[fmap]. rewrite app_nil_r. split_and!; [done..|lia|done|done].
Qed.

Lemma dev_run_ok acts st stalled :
  dev_ok st stalled →
  ∃ st' evs stalled', dev_run acts st = Ok ((), st', evs) ∧ dev_ok st' stalled' ∧
    started evs ++ pending st'.1 = pending st.1 ++ processed acts ∧
    (stalled = true → started evs = []) ∧
    (stalled = false → no_error acts = true → stalled' = false).
Proof.
  revert st stalled. induction acts as [|a acts IH]; intros st stalled Hok.
  { exists st, [], stalled. cbn. by rewrite app_nil_r. }
  destruct (dev_act_ok a st stalled Hok) as (st1 & ev1 & sl1 & E1 & Hok1 & Hq1 & _ & Hs1 & Hn1).
  destruct (IH st1 sl1 Hok1) as (st2 & ev2 & sl2 & E2 & Hok2 & Hq2 & Hs2 & Hn2).
  assert (started (ev1 ++ ev2) = started ev1 ++ started ev2) as Happ by apply omap_app.
  assert (processed (a :: acts) = processed [a] ++ processed acts) as Hproc by (by destruct a).
  exists st2, (ev1 ++ ev2), sl2. rewrite Happ, Hproc. split_and!; [|done| | |].
  - cbn [dev_run]. unfold mbind, M_bind. by rewrite E1, E2.
  - by rewrite <- app_assoc, Hq2, app_assoc, Hq1, <- app_assoc.
  - intros Hst. destruct (Hs1 Hst) as [Hsl ->]. by rewrite Hs2.
  - intros Hst Hne. destruct a as [|[]]; [|done|]; (apply Hn2; [by apply Hn1|done]).
Qed.

(** C28: the frames handed to a device are written in order and one at a
    time: those whose write was started, followed by those that wait, are
    those that were handed over, whatever the interleaving with completions.
    When no write has failed and none is under way, nothing waits.  Once a
    write fails nothing is written any more, whatever follows: the queue
    keeps its front, and a new frame only starts a write when it is alone. *)
Theorem device_writes_in_order acts :
  ∃ d busy evs, dev_run acts (mk_device [], false) = Ok ((), (d, busy), evs) ∧
    started evs ++ pending d = processed acts ∧
    (no_error acts = true → busy = false → out_skb_q_ d = []) ∧
    (busy = true → ∀ acts2, ∃ st evs2,
       dev_run (Written true :: acts2) (d, busy) = Ok ((), st, evs2) ∧ started evs2 = []).
Proof.
  destruct (dev_run_ok acts (mk_device [], false) false) as
    ([d busy] & evs & stalled & E & Hok & Hq & _ & Hn); [done|].
  exists d, busy, evs. split_and!; [done|done| |].
  - intros Hne ->. rewrite (Hn eq_refl Hne) in Hok. cbn in Hok.
    destruct (out_skb_q_ d); [done|]. by rewrite bool_decide_true in Hok.
  - intros -> acts2. destruct stalled; [by destruct Hok|].
    destruct (dev_run_ok acts2 (d, false) true) as (st & evs2 & ? & E2 & _ & _ & Hs & _).
    { cbn in *. split; [done|]. by case_bool_decide. }
    exists st, evs2. split; [|by apply Hs]. cbn [dev_run].
    assert (dev_act (Written true) (d, true) = Ok ((), (d, false), [])) as Ew by done.
    unfold mbind, M_bind. by rewrite Ew, E2.
Qed.
