(* ===== verification/FileDesc.v ===== *)
(** * file_desc.hpp, and how device.cpp opens a TAP device

    A [file_desc] owns a file descriptor: moving hands it over, and the
    destructor closes it.  Objects live in a store, by name, since ownership
    is about which object holds what; the descriptors that are open are those
    of the kernel, whose answers are arguments. *)

From stdpp Require Import fin_maps.
From S2P Require Import Prelude Utils Skbuff Device Text.

(** ** The class *)

Record world : Type := mk_world {
  objs : gmap nat Z;      (** the member [_fd] of each [file_desc] alive *)
  opened : gset Z;        (** the descriptors the process has open *)
}.

(** [::close(fd)]; whether the descriptor was open. *)
Inductive fd_event : Type := FdClose (fd : Z) (was_open : bool).

Abbreviation FdM := (M world fd_event).

Definition set_objs (m : gmap nat Z) (w : world) : world := mk_world m (opened w).
Definition set_opened (s : gset Z) (w : world) : world := mk_world (objs w) s.

(** The object [o] is used: it has to be alive. *)
Definition fd_of (o : nat) : FdM Z :=
  w ← get; match objs w !! o with Some fd => mret fd | None => fail Dangling end.
Definition set_fd (o : nat) (fd : Z) : FdM unit := modify (λ w, set_objs (<[o := fd]> (objs w)) w).

(** [file_desc()] *)
Definition fd_default (o : nat) : FdM unit := set_fd o (-1).

(** [file_desc(file_desc const&)] *)
Definition fd_copy (o other : nat) : FdM unit := fd ← fd_of other; set_fd o fd.

(** [file_desc(file_desc&&)] *)
Definition fd_move (o other : nat) : FdM unit :=
  fd ← fd_of other; _ ← set_fd o fd; set_fd other (-1).

(** [operator=(file_desc const&)] *)
Definition fd_assign (o other : nat) : FdM unit := fd ← fd_of other; set_fd o fd.

(** [operator=(file_desc&&)] *)
Definition fd_move_assign (o other : nat) : FdM unit :=
  when (negb (bool_decide (o = other)))
    (fd ← fd_of o; fd' ← fd_of other; _ ← set_fd o fd'; set_fd other fd).

(** [operator bool] *)
Definition fd_bool (o : nat) : FdM bool := fd ← fd_of o; mret (negb (fd =? -1)).

Definition close_ (fd : Z) : FdM unit :=
  w ← get;
  _ ← emit (FdClose fd (bool_decide (fd ∈ opened w)));
  modify (λ w, set_opened (opened w ∖ {[ fd ]}) w).

(** [~file_desc()] *)
Definition fd_destroy (o : nat) : FdM unit :=
  fd ← fd_of o;
  _ ← when (negb (fd =? -1)) (close_ fd);
  modify (λ w, set_objs (delete o (objs w)) w).

(** [from_fd]: whether there is an object, which is [o]. *)
Definition from_fd (o : nat) (fd : Z) : FdM bool :=
  if fd =? -1 then mret false else _ ← set_fd o fd; mret true.

(** [open]; [fd] is what [::open] returns. *)
Definition fd_open (o : nat) (fd : Z) : FdM bool :=
  _ ← modify (λ w, if fd =? -1 then w else set_opened ({[ fd ]} ∪ opened w) w);
  from_fd o fd.

(** ** A device and its descriptor

    The constructor and the (defaulted) destructor of [device], where they
    deal with the descriptor: [fd_] is the object [o], the local variable the
    object [tmp].  [pfd_] is a [posix::stream_descriptor] of Boost.Asio, which
    closes on destruction the descriptor that was assigned to it. *)
Record tap : Type := mk_tap {
  pfd_ : option Z;     (** the descriptor assigned to [pfd_] *)
  ndev_ : text;
  receiving : bool;    (** [async_receive] was called *)
}.

(** [sizeof(ifr.ifr_name) - 1] *)
Definition ifr_name_max : nat := 15.

Lemma wp_fd_of o fd (Q : Z → world → list fd_event → Prop) F w :
  objs w !! o = Some fd → Q fd w [] → wp (fd_of o) Q F w.
Proof. intros E. unfold wp, fd_of, mbind, M_bind, get. by rewrite E. Qed.

(** What an object holds after assignments to it and to others. *)
Ltac held :=
  cbn [objs set_objs set_opened];
  repeat first [rewrite lookup_insert_eq | rewrite lookup_insert_ne by done
    | rewrite lookup_delete_ne by done]; done.

Section Tap.
(** What the ioctl returns for a descriptor and a name, and the name that is
    in the request afterwards. *)
Context (TUNSETIFF : Z → text → Z * text).

Definition device_ctor (o tmp : nat) (fd : Z) (name : text) : FdM tap :=
  _ ← fd_default o;
  ok ← fd_open tmp fd;
  if negb ok then mret (mk_tap None [] false) else
  _ ← fd_move_assign o tmp;
  get_fd ← fd_of o;
  let '(err, ifr_name) := TUNSETIFF get_fd (take (Nat.min (length name) ifr_name_max) name) in
  let dev := if err <? 0 then mk_tap None [] false else mk_tap (Some get_fd) ifr_name true in
  _ ← fd_destroy tmp;
  mret dev.

(** The members are destroyed in the reverse order of their declaration:
    [fd_] before [pfd_]. *)
Definition device_dtor (o : nat) (dev : tap) : FdM unit :=
  _ ← fd_destroy o;
  match pfd_ dev with Some fd => close_ fd | None => mret () end.

(** Both members close the descriptor of a device that was opened; what is
    open under that number by then is closed the second time. *)
Lemma device_closes_twice fd name w :
  0 ≤ fd → 0 ≤ (TUNSETIFF fd (take (Nat.min (length name) ifr_name_max) name)).1 →
  wp (dev ← device_ctor 0 1 fd name; device_dtor 0 dev)
    (λ _ w' evs, evs = [FdClose fd true; FdClose fd false]) (λ _, False) w.
Proof.
  intros Hfd Herr. destruct (TUNSETIFF fd _) as [err ifr_name] eqn:Et. cbn [fst] in Herr.
  unfold device_ctor, device_dtor, fd_open, from_fd, fd_default, fd_move_assign, fd_destroy, set_fd, close_.
  rewrite (proj2 (Z.eqb_neq fd (-1))) by lia. wp_steps. cbn [negb]. wp_steps; [|done].
  apply (wp_fd_of _ (-1)); [held|]. wp_steps. apply (wp_fd_of _ fd); [held|]. wp_steps.
  apply (wp_fd_of _ fd); [held|]. rewrite Et, (proj2 (Z.ltb_ge err 0)) by lia. wp_steps.
  apply (wp_fd_of _ (-1)); [held|]. wp_steps; [done|].
  apply (wp_fd_of _ fd); [held|]. wp_steps; [|lia].
  cbn [pfd_ objs opened set_objs set_opened app]. wp_steps.
  rewrite bool_decide_eq_true_2, bool_decide_eq_false_2; [done|set_solver..].
Qed.
End Tap.

(** ** Who closes what *)

(** What a program does with its objects. *)
Inductive fd_action : Type :=
| FdDefault (o : nat) | FdOpen (o : nat) (fd : Z) | FdCopy (o other : nat)
| FdMove (o other : nat) | FdMoveAssign (o other : nat) | FdDestroy (o : nat).

Definition fd_act (a : fd_action) : FdM unit :=
  match a with
  | FdDefault o => fd_default o
  | FdOpen o fd => _ ← fd_open o fd; mret ()
  | FdCopy o other => fd_copy o other
  | FdMove o other => fd_move o other
  | FdMoveAssign o other => fd_move_assign o other
  | FdDestroy o => fd_destroy o
  end.

(** What the language and the kernel ask for: an object is constructed where
    none is, and used while it is alive; [::open] returns -1 or a descriptor
    that was not open.  Copies are left out. *)
Definition fd_legal (a : fd_action) (w : world) : Prop :=
  match a with
  | FdDefault o => objs w !! o = None
  | FdOpen o fd => objs w !! o = None ∧ (fd = -1 ∨ 0 ≤ fd ∧ fd ∉ opened w)
  | FdCopy _ _ => False
  | FdMove o other => objs w !! o = None ∧ is_Some (objs w !! other)
  | FdMoveAssign o other => is_Some (objs w !! o) ∧ is_Some (objs w !! other)
  | FdDestroy o => is_Some (objs w !! o)
  end.

Inductive fd_run : world → list fd_event → world → Prop :=
| fd_run_nil w : fd_run w [] w
| fd_run_cons a w evs w1 evs' w' :
    fd_legal a w → fd_act a w = Ok ((), w1, evs) → fd_run w1 evs' w' →
    fd_run w (evs ++ evs') w'.

(** Each open descriptor has one owner, and nothing else is owned. *)
Definition holds (w : world) (o : nat) (fd : Z) : Prop := objs w !! o = Some fd ∧ fd ≠ -1.
Definition owned (w : world) : Prop :=
  (∀ fd, fd ∈ opened w ↔ ∃ o, holds w o fd) ∧
  (∀ o o' fd, holds w o fd → holds w o' fd → o = o').

Definition good_close (ev : fd_event) : Prop := match ev with FdClose _ was_open => was_open = true end.

(** The descriptors are held by other objects, one by one. *)
Lemma owned_renamed (σ : nat → nat) w w' :
  owned w → opened w' = opened w → (∀ o, σ (σ o) = o) →
  (∀ o fd, holds w' o fd ↔ holds w (σ o) fd) → owned w'.
Proof.
  intros [Ho Hi] E Hσ Hh. split.
  - intros fd. rewrite E, Ho. split; intros [o H]; [exists (σ o)|exists (σ o); by apply Hh].
    apply Hh. by rewrite Hσ.
  - intros o o' fd H%Hh H'%Hh. pose proof (Hi _ _ _ H H') as Heq. by rewrite <- (Hσ o), Heq, Hσ.
Qed.

Definition exchange (a b o : nat) : nat :=
  if decide (o = a) then b else if decide (o = b) then a else o.

Lemma owned_exchange w w' a b :
  owned w → opened w' = opened w → (∀ o fd, holds w' o fd ↔ holds w (exchange a b o) fd) → owned w'.
Proof.
  intros Hw E Hh. apply (owned_renamed (exchange a b) w); [done..| |done].
  intros o. unfold exchange. repeat case_decide; congruence.
Qed.

Lemma owned_close w o fd :
  owned w → holds w o fd →
  owned (set_objs (delete o (objs w)) (set_opened (opened w ∖ {[ fd ]}) w)).
Proof.
  intros [Ho Hi] Hh. unfold owned, holds in *. cbn [objs opened set_objs set_opened]. split.
  - intros z. rewrite elem_of_difference, elem_of_singleton, Ho. split.
    + intros [(x & Hx & Hz) Hne]. exists x. rewrite lookup_delete_ne; [done|]. intros ->. destruct Hh. congruence.
    + intros (x & [Hox Hx]%lookup_delete_Some & Hz). split; [by exists x|]. intros ->. eauto.
  - intros x y z [[_ Hx]%lookup_delete_Some Hz] [[_ Hy]%lookup_delete_Some _]. by eapply Hi.
Qed.

Lemma owned_open w o fd :
  owned w → objs w !! o = None → 0 ≤ fd → fd ∉ opened w →
  owned (set_objs (<[o := fd]> (objs w)) (set_opened ({[ fd ]} ∪ opened w) w)).
Proof.
  intros [Ho Hi] E Hfd Hn. unfold owned, holds in *. cbn [objs opened set_objs set_opened].
  assert (∀ x, objs w !! x ≠ Some fd) as Hfresh.
  { intros x Hx. apply Hn, Ho. exists x. split; [done|lia]. }
  split.
  - intros z. rewrite elem_of_union, elem_of_singleton, Ho. split.
    + intros [->|(x & Hx & Hz)]; [exists o; rewrite lookup_insert_eq; split; [done|lia]|].
      exists x. rewrite lookup_insert_ne by congruence. done.
    + intros (x & [[<- <-]|[Hox Hx]]%lookup_insert_Some & Hz); eauto.
  - intros x y z [[[<- <-]|[? Hx]]%lookup_insert_Some Hz] [[[<- E']|[? Hy]]%lookup_insert_Some _];
      [done|by destruct (Hfresh y)|subst; by destruct (Hfresh x)|by eapply Hi].
Qed.

(** Names of objects, decided. *)
Ltac by_name :=
  intros; unfold holds, exchange; cbn [objs opened set_objs];
  repeat case_decide; subst;
  repeat first [rewrite lookup_insert_eq | rewrite lookup_insert_ne by congruence
    | rewrite lookup_delete_eq | rewrite lookup_delete_ne by congruence]; intuition congruence.

Lemma owned_act a w :
  owned w → fd_legal a w →
  wp (fd_act a) (λ _ w' evs, owned w' ∧ Forall good_close evs) (λ _, False) w.
Proof.
  intros Hw Hl. destruct a as [o|o fd|o other|o other|o other|o]; cbn [fd_act fd_legal] in *.
  - unfold fd_default, set_fd. wp_steps. split; [|done].
    apply (owned_exchange w _ o o); [done..|by_name].
  - destruct Hl as [E Hfd]. unfold fd_open, from_fd, set_fd. wp_steps.
    destruct (Z.eqb_spec fd (-1)) as [->|]; wp_steps; [by split|]. split; [|done].
    destruct Hfd as [|[? ?]]; [done|]. exact (owned_open w o fd Hw E ltac:(done) ltac:(done)).
  - done.
  - destruct Hl as [E [fd E']]. unfold fd_move, set_fd. wp_steps.
    apply (wp_fd_of _ fd); [done|]. wp_steps. split; [|done].
    apply (owned_exchange w _ o other); [done..|by_name].
  - destruct Hl as [[fd E] [fd' E']]. unfold fd_move_assign, set_fd. wp_steps; [|by split].
    apply (wp_fd_of _ fd); [done|]. wp_steps. apply (wp_fd_of _ fd'); [done|]. wp_steps.
    split; [|done]. apply (owned_exchange w _ o other); [done..|by_name].
  - destruct Hl as [fd E]. unfold fd_destroy, close_. wp_steps.
    apply (wp_fd_of _ fd); [done|]. wp_steps.
    + assert (holds w o fd) as Hh by (split; [done|lia]). split; [by apply (owned_close w o fd)|].
      repeat constructor. cbn. apply bool_decide_eq_true_2, Hw. by exists o.
    + split; [|done]. assert (fd = -1) as -> by lia.
      apply (owned_exchange w _ o o); [done..|by_name].
Qed.

(** C29: however a program opens, moves, move-assigns and destroys its
    [file_desc]s, no operation fails, each call of [::close] is for a
    descriptor that is open, so that none is closed twice, the open
    descriptors are those that some object holds, each by one, and once all
    objects are destroyed none is open. *)
Theorem descriptors_closed_once w evs w' :
  owned w → fd_run w evs w' →
  Forall good_close evs ∧ owned w' ∧
  (∀ a, fd_legal a w' → ∃ w1 evs1, fd_act a w' = Ok ((), w1, evs1)) ∧
  (objs w' = ∅ → opened w' = ∅).
Proof.
  intros Hw Hrun. induction Hrun as [w|a w evs w1 evs' w' Hl Ea _ IH].
  - split_and!; [done|done| |].
    + intros a Hl. pose proof (owned_act a w Hw Hl) as Hwp. unfold wp in Hwp.
      destruct (fd_act a w) as [[[[] w1] evs1]|]; [eauto|done].
    + intros E. apply set_eq. intros fd. rewrite (proj1 Hw fd), elem_of_empty. unfold holds.
      split; [|done]. intros (o & Ho & _). by rewrite E, lookup_empty in Ho.
  - pose proof (wp_run _ _ _ _ _ _ _ (owned_act a w Hw Hl) Ea) as [Hw1 Hc].
    destruct (IH Hw1) as (? & ? & ? & ?). split_and!; [by apply Forall_app|done..].
Qed.

(** The defaulted copies break this: the second destructor closes a
    descriptor that is closed already, or that was opened in between. *)
Example copy_closes_twice :
  ∃ w, (_ ← fd_open 0 5; _ ← fd_copy 1 0; _ ← fd_destroy 1; fd_destroy 0) (mk_world ∅ ∅) =
    Ok ((), w, [FdClose 5 true; FdClose 5 false]).
Proof. eexists. vm_compute. reflexivity. Qed.

(** As [device::device] does it: opened into a temporary, moved into a member
    that was constructed without a descriptor. *)
Lemma descriptors_closed_once_witness :
  ∃ evs w', fd_run (mk_world ∅ ∅) evs w' ∧ Forall good_close evs ∧ objs w' = ∅ ∧ opened w' = ∅.
Proof.
  assert (owned (mk_world ∅ ∅)) as Hw.
  { split; [intros fd; unfold holds; cbn; rewrite elem_of_empty; split; [done|]|];
      intros; unfold holds in *; cbn in *; naive_solver. }
  pose (acts := [FdDefault 0; FdOpen 1 5; FdMoveAssign 0 1; FdDestroy 1; FdDestroy 0]).
  assert (fd_run (mk_world ∅ ∅) [FdClose 5 true] (mk_world ∅ ∅)) as Hrun.
  { apply (fd_run_cons (FdDefault 0) _ [] (mk_world {[0%nat := -1]} ∅)); [done|reflexivity|].
    apply (fd_run_cons (FdOpen 1 5) _ [] (mk_world (<[1%nat := 5]> {[0%nat := -1]}) {[5]}));
      [by split; [|right; split]|reflexivity|].
    apply (fd_run_cons (FdMoveAssign 0 1) _ [] (mk_world (<[1%nat := -1]> {[0%nat := 5]}) {[5]}));
      [by split; eexists|reflexivity|].
    apply (fd_run_cons (FdDestroy 1) _ [] (mk_world {[0%nat := 5]} {[5]}));
      [by eexists|reflexivity|].
    apply (fd_run_cons (FdDestroy 0) _ [FdClose 5 true] (mk_world ∅ ∅) []);
      [by eexists|reflexivity|]. constructor. }
  destruct (descriptors_closed_once _ _ _ Hw Hrun) as (Hc & _ & _ & He).
  exists [FdClose 5 true], (mk_world ∅ ∅). split_and!; [exact Hrun|exact Hc|done|by apply He].
Defined.
