(* ===== verification/Stack.v ===== *)
(** * netns.cpp: the layers put together

    How the constructor of [netns::impl] connects the layers, and what the
    connections make of a segment: it leaves one host through TCP, IPv4 and
    Ethernet, and comes up through the same layers of another. *)

From S2P Require Import Prelude Utils Skbuff Addr Headers Tcb TcbSend TcbState BaseProtocol.
From S2P Require Import Packets TcbManager Tcp Icmp NeighCache RoutingTable Arp Ipv4 Ethernet.

(** ** The connections *)

(** The objects of [netns::impl] that take packets from below. *)
Inductive layer : Type := LArp | LIpv4 | LIcmp | LTcp | LTcbManager.

#[export] Instance layer_eq_dec : EqDecision layer.
Proof. solve_decision. Defined.

Definition ICMP_PROTO : Z := 1.

(** The calls of [upper_proto_update]. *)
Definition eth_uppers : uppers layer :=
  bottom.upper_proto_update ARP_PROTO LArp (bottom.upper_proto_update IP_PROTO LIpv4 ∅).
Definition ipv4_uppers : uppers layer :=
  upper_proto_update PROTO LTcp (upper_proto_update ICMP_PROTO LIcmp ∅).
Definition tcp_uppers : uppers layer := upper_proto_update PROTO LTcbManager ∅.

Section Up.
Context `{Hh : Host} {Sig : Type} `{Hsig : Signal ethernetv2_frame Sig}.
Context (run_cb : nat → endpoint → endpoint → M tcp tcp_event bool).

(** [receive] of the three layers that have a layer above. *)
Definition eth_receive (skb_in : skbuff) (dev : option nat)
    : M (base (skbuff * option nat)) (base_event (skbuff * option nat))
        (option (layer * ethernetv2_frame)) :=
  bottom.receive eth_make_packet eth_uppers frame_proto skb_in dev.
Definition ip_receive (frame_in : ethernetv2_frame)
    : M (ipv4 Sig) ipv4_event (option (layer * ipv4_packet)) :=
  receive (ip_make_packet frame_in) ipv4_uppers ipp_proto.
Definition tcp_receive (pkt_in : ipv4_packet) : M tcp tcp_event (option (layer * tcp_packet)) :=
  receive (tcp_make_packet run_cb pkt_in) tcp_uppers tp_proto.
End Up.

(** ** A segment crosses *)

(** What is written does not depend on the host. *)
Lemma tcp_produce_host (H1 H2 : Host) h :
  tcp_header.produce_to_net (H := H1) h = tcp_header.produce_to_net (H := H2) h.
Proof. unfold tcp_header.produce_to_net. by autorewrite with wire. Qed.
Lemma ipv4_produce_host (H1 H2 : Host) h :
  ipv4_header.produce_to_net (H := H1) h = ipv4_header.produce_to_net (H := H2) h.
Proof. unfold ipv4_header.produce_to_net, ipv4_addr.produce_to_net. by autorewrite with wire. Qed.
Lemma eth_produce_host (H1 H2 : Host) h :
  ethernetv2_header.produce_to_net (H := H1) h = ethernetv2_header.produce_to_net (H := H2) h.
Proof. unfold ethernetv2_header.produce_to_net. by autorewrite with wire. Qed.

Definition with_tcp_chsum (c : Z) (h : tcp_header_t) : tcp_header_t :=
  mk_tcp_header (src_port h) (dst_port h) (seq_no h) (ack_no h) (data_offset h) (reserved h)
    (CWR h) (ECE h) (URG h) (ACK h) (PSH h) (RST h) (SYN h) (FIN h) (window h) c (urgent_pointer h).

Lemma tcp_with_chsum `{H : Host} c h data :
  take 16 (tcp_header.produce_to_net h ++ data) ++ be_split 2 c ++
    drop 18 (tcp_header.produce_to_net h ++ data) =
  tcp_header.produce_to_net (with_tcp_chsum c h) ++ data.
Proof.
  unfold tcp_header.produce_to_net, tcp_header.header_length_flags, with_tcp_chsum.
  cbn [src_port dst_port seq_no ack_no data_offset CWR ECE URG ACK PSH RST SYN FIN
      window chsum urgent_pointer]. autorewrite with wire.
  done.
Qed.

Lemma rfc1071_is_u buf : is_u 16 (rfc1071 buf).
Proof.
  unfold rfc1071. destruct (ones_complement_spec (be_word_sum buf)) as [Hr _];
    [apply be_word_sum_bound|ulia].
Qed.

Section Crossing.
(** The hosts at the two ends; they may differ in their byte order. *)
Context (H1 H2 : Host) {Sig : Type} `{Hsig : Signal ethernetv2_frame Sig}.
Context (run_cb : nat → endpoint → endpoint → M tcp tcp_event bool).

(** The sender's layers, from the segment [pkt] to the frame [skb_out]
    that is handed to device [d]. *)
Definition goes_down (new_addr : Z) (pkt : tcp_packet) (mac : mac_addr_t) (d : nat)
    (t : tcp) (i : ipv4 Sig) (skb_out : skbuff) : Prop :=
  ∃ dg fr fr' i',
    tcp_process (H := H1) new_addr pkt t =
      Ok ((), set_tcp_base (set_queue (packet_queue_ (tcp_base t) ++ [dg]) (tcp_base t)) t,
          [TcpBase BasePost]) ∧
    ip_process (Hh := H1) new_addr dg i = Ok ((), i', [IpArp (ArpPost fr mac)]) ∧
    (∀ j, on_resolved (Sig := Sig) fr mac j =
      Ok ((), set_ip_base (set_queue (packet_queue_ (ip_base j) ++ [fr']) (ip_base j)) j,
          [IpBase BasePost])) ∧
    (∀ b, eth_process (Hh := H1) fr' b =
      Ok ((), set_queue (packet_queue_ b ++ [(skb_out, Some d)]) b, [BasePost])).

(** The receiver's layers, from the bytes of a frame to the packet that
    reaches the connection table. *)
Definition comes_up (skb_in : skbuff) (dev : option nat) (p : tcp_packet) : Prop :=
  ∃ fr dg,
    (∀ b, eth_receive (Hh := H2) skb_in dev b = Ok (Some (LIpv4, fr), b, [])) ∧
    (∀ i : ipv4 Sig, ip_receive (Hh := H2) fr i = Ok (Some (LTcp, dg), i, [])) ∧
    (∀ t, rcv_raw_states_ t !! ends_of p = None →
       Forall (λ r, rule_matches r (ends_of p) = false) (tcp_rules_ t) →
       tcp_receive (Hh := H2) run_cb dg t = Ok (Some (LTcbManager, p), t, [])).

Lemma comes_up_intro eh iph th data skb_in dev :
  skb_wf skb_in →
  payload skb_in = ethernetv2_header.produce_to_net (H := H2) eh ++
    ipv4_header.produce_to_net (H := H2) iph ++ tcp_header.produce_to_net (H := H2) th ++ data →
  eth_header_ok eh → ipv4_header_ok iph → tcp_header_ok th →
  eth_proto eh = IP_PROTO → ip_version iph = 4 → ip_proto_type iph = PROTO →
  ∃ p, comes_up skb_in dev p ∧
    tp_remote_ep p = mk_endpoint (ip_src_addr iph) (src_port th) ∧
    tp_local_ep p = mk_endpoint (ip_dst_addr iph) (dst_port th) ∧ skb_wf (tp_skb p) ∧
    payload (tp_skb p) = tcp_header.produce_to_net (H := H2) th ++ data.
Proof.
  intros Hw Hp Heh Hiph Hth Ee Ev Ep.
  destruct (eth_make_packet_run skb_in eh _ dev Hw Hp Heh) as (skb1 & E1 & Hw1 & Hp1 & _).
  set (fr := mk_frame _ _ _ _ _) in E1.
  destruct (ip_make_packet_run (Sig := Sig) fr iph _ Hw1 Hp1 Hiph) as (skb2 & Hw2 & Hp2 & _ & E2).
  rewrite Ev in E2. cbn [Z.eqb Pos.eqb] in E2. set (dg := mk_ipv4_packet _ _ _ _) in E2.
  assert (received dg = Some (incoming dg th)) as Er.
  { unfold received, dg. cbn [ipp_skb].
    by rewrite (head_payload skb2 Hw2), Hp2, <- app_assoc, tcp_consume. }
  exists (incoming dg th). split; [|by split_and!].
  exists fr, dg. split_and!.
  - intros b. unfold eth_receive, bottom.receive, mbind at 1, M_bind. rewrite E1.
    unfold fr. by rewrite Ee.
  - intros i. unfold ip_receive, receive, mbind at 1, M_bind. rewrite E2.
    unfold dg. by rewrite Ep.
  - intros t Hraw Hrules. unfold tcp_receive, receive, mbind at 1, M_bind.
    rewrite (make_packet_detached run_cb dg (incoming dg th)) by done.
    rewrite <- (app_nil_r (tcp_rules_ t)), try_rules_skip by done. done.
Qed.

Lemma goes_down_intro new_addr pkt hdr data t i nh d src_mac mac :
  outgoing (tp_remote_ep pkt) (tp_local_ep pkt) pkt →
  payload (tp_skb pkt) = tcp_header.produce_to_net (H := H1) hdr ++ data →
  Z.even new_addr = true →
  (host_endian (Host := H1) = Big → Z.even (len data) = true) →
  rt.next_hop (addrv4 (tp_remote_ep pkt)) (rt_ i) = Some nh → rec_dev nh = Some d →
  neigh.query (from_addrv4 nh) (arp_cache_ (arp_ i)) = Some src_mac →
  neigh.query (via_addrv4 nh) (arp_cache_ (arp_ i)) = Some mac →
  ∃ skb_out dg c, goes_down new_addr pkt mac d t i skb_out ∧ skb_wf skb_out ∧
    is_u 16 c ∧ src_addrv4 dg = addrv4 (tp_local_ep pkt) ∧
    dst_addrv4 dg = addrv4 (tp_remote_ep pkt) ∧ ipp_proto dg = PROTO ∧
    payload skb_out =
      ethernetv2_header.produce_to_net (H := H1) (mk_eth_header mac src_mac IP_PROTO) ++
      ipv4_header.produce_to_net (H := H1) (sent_header (Hh := H1) dg (seq_ i)) ++
      tcp_header.produce_to_net (H := H1) (with_tcp_chsum c hdr) ++ data ∧
    rfc1071 (rfc793_pseudo (addrv4 (tp_local_ep pkt)) (addrv4 (tp_remote_ep pkt)) PROTO
      (u16 (20 + len data)) ++ tcp_header.produce_to_net (H := H1) (with_tcp_chsum c hdr) ++ data) = 0.
Proof.
  intros (Hproto & _ & _ & Hw & Hroom & Hlen) Hp Ha Hbig Hnh Hd Hsrc Hmac.
  change additional_room with 34 in Hroom. change tcp_header.fixed_size with 20 in Hlen.
  pose proof (tcp_length (H := H1) hdr) as Lh.
  assert (len (payload (tp_skb pkt)) = 20 + len data) as Lp by (rewrite Hp, length_app; lia).
  destruct (tcp_process_run (H := H1) new_addr pkt t)
    as (skb1 & c & E1 & Hw1 & Hh1 & Hp1 & Hc & Hz);
    [done|unfold pseudo_size; lia|change tcp_header.fixed_size with 20; lia|lia| | |].
  { intros HB. rewrite Lp. change 20 with (2 * 10). rewrite Z.add_comm, Z.even_add_mul_2. auto. }
  { rewrite Hroom. change 34 with (2 * 17). by rewrite Z.even_add_mul_2. }
  set (dg := datagram pkt skb1) in E1. rewrite Hp in Hp1. rewrite tcp_with_chsum in Hp1.
  destruct (ip_process_run (Hh := H1) new_addr dg i)
    as (Hz2 & skb2 & Hw2 & Hh2 & Hp2 & E2); cbn [ipp_skb dg datagram] in *.
  { done. } { rewrite Hh1, Hroom. done. }
  { rewrite Hh1, Hroom. change 34 with (2 * 17). by rewrite Z.even_add_mul_2. }
  unfold dg, datagram in E2. cbn [dst_addrv4] in E2. rewrite Hnh, Hd, Hsrc in E2.
  set (fr := mk_frame src_mac mac_addr.zero IP_PROTO skb2 (Some d)) in E2.
  set (i' := set_seq (u16 (seq_ i + 1)) i) in E2.
  assert (ip_process (Hh := H1) new_addr dg i = Ok ((), i', [IpArp (ArpPost fr mac)])) as E2'.
  { etransitivity; [exact E2|]. unfold zoom, async_resolve, mbind, M_bind. cbn [get].
    unfold i' at 1. cbn [arp_ set_seq]. rewrite Hmac. done. }
  set (fr' := mk_frame src_mac mac IP_PROTO skb2 (Some d)).
  destruct (eth_process_run (Hh := H1) fr') as (skb3 & E3 & Hw3 & _ & Hp3); [done| |done|].
  { cbn [fr' frame_skb]. rewrite Hh2, Hh1, Hroom. done. }
  exists skb3, dg, c. split_and!; [|done|rewrite Hc; apply rfc1071_is_u|done|done|done| |].
  - exists dg, fr, fr', i'. by split_and!.
  - rewrite Hp3. unfold fr'. cbn [frame_skb dst_mac_addr src_mac_addr frame_proto].
    by rewrite Hp2, Hp1.
  - by rewrite Hp1, Hproto, Lp in Hz.
Qed.

(** C7: a segment that a connection queued reaches the connection table of
    the other host as it was.  The sender's layers turn it into one frame,
    whose next hop the cache knows; a receiver that gets these bytes, with
    a byte order of its own, hands up a packet whose ends are the sender's,
    swapped, and whose contents are the header, with the checksum filled
    in, and the text.  The checksum verifies over what is received, provided
    that the sender's buffer is at an even address and, when the sender is
    big-endian, that the text has an even length: a big-endian host computes
    a wrong checksum for an odd one ([checksum_big_endian_odd]). *)
Theorem segment_crosses new_addr pkt hdr data t i nh d src_mac mac :
  let remote_ep := tp_remote_ep pkt in
  let local_ep := tp_local_ep pkt in
  outgoing remote_ep local_ep pkt → endpoint_ok remote_ep → endpoint_ok local_ep →
  payload (tp_skb pkt) = tcp_header.produce_to_net (H := H1) hdr ++ data → tcp_header_ok hdr →
  src_port hdr = addrv4_port local_ep → dst_port hdr = addrv4_port remote_ep →
  Z.even new_addr = true → (host_endian (Host := H1) = Big → Z.even (len data) = true) →
  is_u 16 (seq_ i) → rt.next_hop (addrv4 remote_ep) (rt_ i) = Some nh → rec_dev nh = Some d →
  neigh.query (from_addrv4 nh) (arp_cache_ (arp_ i)) = Some src_mac →
  neigh.query (via_addrv4 nh) (arp_cache_ (arp_ i)) = Some mac →
  ∃ skb_out c, goes_down new_addr pkt mac d t i skb_out ∧
    ∀ skb_in dev, skb_wf skb_in → payload skb_in = payload skb_out →
      ∃ p, comes_up skb_in dev p ∧ tp_remote_ep p = local_ep ∧ tp_local_ep p = remote_ep ∧
        skb_wf (tp_skb p) ∧
        payload (tp_skb p) = tcp_header.produce_to_net (H := H2) (with_tcp_chsum c hdr) ++ data ∧
        rfc1071 (rfc793_pseudo (addrv4 local_ep) (addrv4 remote_ep) PROTO (u16 (20 + len data)) ++
                 payload (tp_skb p)) = 0.
Proof.
  intros remote_ep local_ep Hout [Hra _] [Hla _] Hp Hok Hsp Hdp Ha Hbig Hseq Hnh Hd Hsrc Hmac.
  destruct (goes_down_intro new_addr pkt hdr data t i nh d src_mac mac Hout Hp Ha Hbig Hnh Hd
    Hsrc Hmac) as (skb_out & dg & c & Hdown & _ & Hc & Es & Ed & Ep & Hpo & Hz).
  exists skb_out, c. split; [done|]. intros skb_in dev Hw Hpi.
  destruct (comes_up_intro (mk_eth_header mac src_mac IP_PROTO) (sent_header (Hh := H1) dg (seq_ i))
    (with_tcp_chsum c hdr) data skb_in dev) as (p & Hup & Er & El & Hwp & Hpp).
  - done.
  - rewrite Hpi, Hpo. by rewrite (eth_produce_host H1 H2), (ipv4_produce_host H1 H2),
      (tcp_produce_host H1 H2).
  - done.
  - assert (ipv4_header_ok (ip_header dg (seq_ i))) as Hok1.
    { apply ip_header_ok; [|done]. unfold packet_ok. rewrite Es, Ed, Ep. by split_and!. }
    unfold sent_header, with_chsum, ipv4_header_ok in *. cbn -[is_u rfc1071] in *.
    destruct_and!. split_and!; try done. apply rfc1071_is_u.
  - unfold with_tcp_chsum, tcp_header_ok in *. cbn -[is_u] in *. destruct_and!. by split_and!.
  - done.
  - done.
  - exact Ep.
  - cbn [sent_header with_chsum ip_header ip_src_addr ip_dst_addr with_tcp_chsum src_port dst_port] in Er, El.
    unfold sent_header, with_chsum, ip_header in Er, El. cbn [ip_src_addr ip_dst_addr] in Er, El.
    rewrite Es, Hsp in Er. rewrite Ed, Hdp in El.
    assert (∀ e, mk_endpoint (addrv4 e) (addrv4_port e) = e) as Heta by (by intros []).
    exists p. split_and!; [done|rewrite Er; apply Heta|rewrite El; apply Heta|done|done|].
    by rewrite Hpp, (tcp_produce_host H2 H1).
Qed.
End Crossing.

(** From a little-endian host to a big-endian one. *)
Definition test_out : tcp_packet :=
  mk_tcp_packet PROTO (test_ep 167772162 80) (test_ep 167772161 4096)
    (mk_skb (replicate 34 Byte.x00 ++
             tcp_header.produce_to_net (H := test_host Little) (test_header 1000 2000 [1; 1]) ++
             [Byte.xab; Byte.xcd; Byte.xef]) 34 57).

Lemma segment_crosses_witness :
  let H1 := test_host Little in
  let H2 := test_host Big in
  let i := test_ipv4 (<[Ipv4 9 := test_mac Byte.x08]> {[ Ipv4 1 := test_mac Byte.x02 ]}) in
  ∃ skb_out c, goes_down H1 64 test_out (test_mac Byte.x08) 0 tcp_new i skb_out ∧
    ∀ skb_in dev, skb_wf skb_in → payload skb_in = payload skb_out →
      ∃ p, comes_up H2 (Sig := list ethernetv2_frame) (λ _ _ _, mret false) skb_in dev p ∧
        tp_remote_ep p = test_ep 167772161 4096 ∧ tp_local_ep p = test_ep 167772162 80 ∧
        skb_wf (tp_skb p) ∧
        payload (tp_skb p) =
          tcp_header.produce_to_net (H := H2) (with_tcp_chsum c (test_header 1000 2000 [1; 1])) ++
          [Byte.xab; Byte.xcd; Byte.xef] ∧
        rfc1071 (rfc793_pseudo (Ipv4 167772161) (Ipv4 167772162) PROTO 23 ++ payload (tp_skb p)) = 0.
Proof.
  cbv zeta.
  refine (segment_crosses (test_host Little) (test_host Big) (λ _ _ _, mret false) 64 test_out
    (test_header 1000 2000 [1; 1]) [Byte.xab; Byte.xcd; Byte.xef] tcp_new
    (test_ipv4 (<[Ipv4 9 := test_mac Byte.x08]> {[ Ipv4 1 := test_mac Byte.x02 ]}))
    test_route 0%nat (test_mac Byte.x02) (test_mac Byte.x08) _ _ _ _ _ _ _ _ _ _ _ _ _ _).
  - unfold outgoing, skb_wf; split_and!; first [reflexivity | vm_compute; discriminate].
  - unfold endpoint_ok, ipv4_ok, is_u; cbn; lia.
  - unfold endpoint_ok, ipv4_ok, is_u; cbn; lia.
  - vm_compute; reflexivity.
  - unfold tcp_header_ok, is_u; cbn; lia.
  - reflexivity.
  - reflexivity.
  - reflexivity.
  - done.
  - unfold is_u; cbn; lia.
  - reflexivity.
  - reflexivity.
  - reflexivity.
  - reflexivity.
Defined.
