(* ===== verification/Bounds.v ===== *)
(** * How long a segment and a datagram can be

    The length of a segment is bounded by the MSS of the peer and by the send
    queue, both of 16 bits, but by nothing of the layers below: not by the
    frame of 1500 bytes a device reads, and not by the 16 bits of the total
    length of a datagram. *)

From S2P Require Import Prelude Utils Skbuff Addr Headers CircularBuffer Tcb TcbFacts TcbSend.
From S2P Require Import BaseProtocol Packets Tcp Ipv4.

(** The longest text that fits a datagram with the two headers:
    65535 - 20 - 20. *)
Definition max_text : Z := 65535 - ipv4_header.fixed_size - tcp_header.fixed_size.

Section Bounds.
Context `{Hh : Host} {B : Type} `{Hc : CircularBuffer B} `{!CircularBufferSpec B}.
Context (new_addr : Z).
Implicit Types (s : tcb_t B) (t : tcp).

Lemma next_len_bound s pq :
  tcb_ok s → send_pq (send_ s) = Some pq →
  0 ≤ next_len s pq ≤ 65535 ∧ next_len s pq ≤ send_mss (send_ s) ∧
  next_len s pq ≤ cb_capacity pq.
Proof.
  intros Hok Hpq. pose proof (next_len_range s pq Hok). pose proof (length_unsent s pq).
  pose proof (unacked_range s pq). pose proof (send_capacity s pq Hok Hpq).
  split_and!; [lia|lia|unfold next_len; lia|lia].
Qed.

(** C34: however long the queue, a packet of a connection holds a header and
    at most 65535 bytes of text, never more than the peer's MSS or the window
    it announced, in a buffer with exactly the room for the headers of the
    layers below; the TCP layer hands on as many bytes.  The total length of
    the datagram is the true one as long as the text has at most 65495 bytes,
    and beyond that too small by [2 ^ 16]: the sending loop respects neither
    this limit nor an MTU. *)
Theorem datagram_length_bounds s pq t :
  tcb_ok s → send_pq (send_ s) = Some pq → Z.even new_addr = true →
  let n := next_len s pq in
  n ≤ 65535 ∧ n ≤ send_mss (send_ s) ∧ n ≤ cb_capacity pq ∧
  ∃ pkt d t', make_and_send_pkt s = Ok ((), after_packet s n, [EvEnqueue pkt]) ∧
    len (payload (tp_skb pkt)) = tcp_header.fixed_size + n ∧
    headroom (tp_skb pkt) = additional_room ∧
    tcp_process new_addr pkt t = Ok ((), t', [TcpBase BasePost]) ∧
    packet_queue_ (tcp_base t') = packet_queue_ (tcp_base t) ++ [d] ∧
    has_room additional_room (ipp_skb d) ∧
    len (payload (ipp_skb d)) = tcp_header.fixed_size + n ∧
    ∀ id, let true_length := ipv4_header.fixed_size + tcp_header.fixed_size + n in
      ip_total_length (ip_header d id) =
        if n <=? max_text then true_length else true_length - 2 ^ 16.
Proof.
  intros Hok Hpq Ha n.
  destruct (next_len_bound s pq Hok Hpq) as (Hn & Hm & Hcap). fold n in Hn, Hm, Hcap.
  split_and!; [lia|done|done|].
  destruct (make_and_send_pkt_run s pq Hok Hpq) as (pkt & E & _ & _ & _ & Hw & Hroom & Hp).
  fold n in E, Hp.
  assert (len (payload (tp_skb pkt)) = tcp_header.fixed_size + n) as Hl.
  { pose proof (wire_length (Wire := tcp_wire) (out_header s n)) as L.
    cbn [wire_produce wire_size tcp_wire] in L. rewrite Hp, length_app, length_take.
    pose proof (next_len_range s pq Hok). lia. }
  destruct (tcp_process_total new_addr additional_room pkt t) as (skb & Et & Hr & Ls);
    [by split_and!; rewrite ?Hroom|done|change tcp_header.fixed_size with 20 in *; lia|done|].
  exists pkt, (datagram pkt skb). eexists. split_and!; [done..|cbn; by rewrite Ls|].
  intros id true_length. unfold true_length. cbn [ip_header ip_total_length datagram ipp_skb].
  rewrite Ls, Hl. change max_text with 65495. change ipv4_header.fixed_size with 20.
  change tcp_header.fixed_size with 20. destruct (Z.leb_spec n 65495); ulia.
Qed.
End Bounds.

(** A connection whose peer announced an MSS and a window of 65535, with
    65500 bytes to send: the datagram of 65540 bytes claims to have four. *)
Definition jumbo_queue : reserve_buffer := mk_reserve (replicate (Z.to_nat 65500) Byte.xaa) 35.
Definition jumbo_tcb : tcb_t reserve_buffer :=
  mk_tcb (test_ep 167772161 4096) (test_ep 167772162 80) kTCPEstablished kTCPEstablished 0 []
    (mk_send 100 100 65535 65535 (Some jumbo_queue))
    (mk_receive 5000 rcv_window_init 1446 (cb_make rcv_window_init)).

Lemma datagram_length_bounds_witness :
  let H := test_host Little in
  ∃ pkt d t', make_and_send_pkt jumbo_tcb = Ok ((), after_packet jumbo_tcb 65500, [EvEnqueue pkt]) ∧
    tcp_process 64 pkt tcp_new = Ok ((), t', [TcpBase BasePost]) ∧
    packet_queue_ (tcp_base t') = [d] ∧
    len (payload (ipp_skb d)) = 65520 ∧ ip_total_length (ip_header d 7) = 4.
Proof.
  assert (tcb_ok jumbo_tcb) as Hok by test_ok.
  assert (next_len jumbo_tcb jumbo_queue = 65500) as Hn by (vm_compute; reflexivity).
  pose proof (datagram_length_bounds (Hh := test_host Little) 64 jumbo_tcb jumbo_queue tcp_new
    Hok eq_refl eq_refl) as Hb.
  rewrite Hn in Hb. destruct Hb as (_ & _ & _ & pkt & d & t' & E & _ & _ & Et & Eq & _ & L & Hi).
  exists pkt, d, t'. split_and!; [exact E|exact Et|exact Eq|exact L|exact (Hi 7)].
Defined.
