(* ===== verification/Layers.v ===== *)
(** * What the layers promise to the namespace

    A namespace relies on little of what a layer does: that its handlers
    return when they run from a posted closure, that only what a remote host
    sends can fault them, and that what they queue has room for the headers
    of the layers below and a device to leave by.  Here are these contracts,
    layer by layer. *)

From S2P Require Import Prelude Utils Skbuff Addr Headers TcbState BaseProtocol.
From S2P Require Import Packets NeighCache RoutingTable Arp Ipv4 Ethernet Icmp Device.

(** ** Faults of the header parsers *)

Section Parsers.
Context `{Hh : Host}.

Lemma mac_consume_fault ptr f : mac_addr.consume_from_net ptr = Fault f → remote_fault f.
Proof.
  intros E. destruct (decide (6 ≤ length ptr)%nat) as [Hl|Hl].
  - destruct (reads_mac ptr Hl) as [a Ea]. congruence.
  - do 6 (destruct ptr as [|? ptr]; [injection E as <-; right; by left|]). cbn in Hl. lia.
Qed.

Lemma ipv4_addr_consume_fault ptr f : ipv4_addr.consume_from_net ptr = Fault f → remote_fault f.
Proof.
  unfold ipv4_addr.consume_from_net. intros E.
  apply parser_bind_Fault in E as [E|(? & ? & ? & E)]; [by eapply consume_fault|done].
Qed.

Ltac parse_fault :=
  intros E; repeat (apply parser_bind_Fault in E as [E|(? & ? & ? & E)];
    [by eauto using consume_fault, mac_consume_fault, ipv4_addr_consume_fault|]); done.

Lemma eth_consume_fault ptr f : ethernetv2_header.consume_from_net ptr = Fault f → remote_fault f.
Proof. unfold ethernetv2_header.consume_from_net. parse_fault. Qed.
Lemma arp_consume_fault ptr f : arpv4_header.consume_from_net ptr = Fault f → remote_fault f.
Proof. unfold arpv4_header.consume_from_net. parse_fault. Qed.
Lemma icmp_consume_fault ptr f : icmp_header.consume_from_net ptr = Fault f → remote_fault f.
Proof. unfold icmp_header.consume_from_net. parse_fault. Qed.
Lemma ipv4_consume_fault ptr f : ipv4_header.consume_from_net ptr = Fault f → remote_fault f.
Proof. unfold ipv4_header.consume_from_net. parse_fault. Qed.
End Parsers.
#[export] Hint Resolve eth_consume_fault arp_consume_fault icmp_consume_fault
  ipv4_consume_fault pop_front_fault : faults.

(** ** Devices *)

(** Only frames for a device, of those in [ds], are queued. *)
Section Layers.
Context `{Hh : Host} {Sig : Type} `{Hsig : Signal ethernetv2_frame Sig}
  `{Hspec : !SignalSpec ethernetv2_frame Sig}.
Context (ds : gset nat).

Definition on_dev (d : option nat) : Prop := ∃ i, d = Some i ∧ i ∈ ds.
Definition frame_ok (f : ethernetv2_frame) : Prop :=
  has_room ethernetv2_header.size (frame_skb f) ∧ on_dev (frame_dev f).
Definition route_ok (cache : neigh_cache) (r : rt_record) : Prop :=
  on_dev (rec_dev r) ∧ is_Some (neigh.query (from_addrv4 r) cache).

Lemma dev_process_wp skb d :
  wp (dev_process skb) (λ _ _ es, ∀ s, DevReceive s ∉ es) (λ _, False) d.
Proof.
  unfold dev_process. wp_steps.
  - unfold send_front_pkt_out. wp_steps. cbn [out_skb_q_].
    destruct (out_skb_q_ d ++ [skb]) as [|x q] eqn:E; [by destruct (out_skb_q_ d)|]. wp_steps.
    intros s Hin%list_elem_of_singleton. done.
  - by intros s Hin%elem_of_nil.
Qed.

Lemma dev_written_wp ec d :
  (ec = false → out_skb_q_ d ≠ []) →
  wp (dev_written ec) (λ _ _ _, True) (λ _, False) d.
Proof.
  intros Hq. unfold dev_written. destruct ec; wp_steps; [done|].
  destruct (out_skb_q_ d) as [|x q]; [by destruct Hq|]. wp_steps; [|done].
  unfold send_front_pkt_out. wp_steps. cbn [out_skb_q_].
  destruct q; [by rewrite bool_decide_true in H|]. by wp_steps.
Qed.

Lemma dev_read_done_wp ec buf nbytes d :
  wp (dev_read_done ec buf nbytes) (λ _ d' es, d' = d ∧
    (es = [] ∨ ∃ skb, has_room 0 skb ∧ es = [DevReceive skb; DevRead 1500])) (λ _, False) d.
Proof.
  unfold dev_read_done. destruct ec; wp_steps; [by split; [|left]|].
  destruct (skb_new_Ok (take (Z.to_nat nbytes) buf) 0) as (skb & E & Hw & _ & Hr & _); [lia|].
  apply wp_lift; rewrite E; [intros ? [= <-]|done]. unfold dev_async_receive. wp_steps.
  split; [done|]. right. exists skb. unfold has_room. rewrite Hr. by split_and!.
Qed.

(** ** Ethernet *)

Lemma eth_process_wp f b :
  frame_ok f →
  wp (eth_process f) (λ _ b' es, ∃ skb, b' = set_queue (packet_queue_ b ++ [(skb, frame_dev f)]) b ∧
    es = [BasePost]) (λ _, False) b.
Proof.
  intros [(Hw & Hr & _) (i & Hd & _)]. destruct (eth_process_run f Hw Hr) as (skb & E & _); [by rewrite Hd|].
  unfold wp. rewrite E. by exists skb.
Qed.

Lemma eth_make_packet_wp k skb dev b :
  has_room k skb →
  wp (eth_make_packet skb dev) (λ out b' es, b' = b ∧ es = [] ∧
    ∃ f, out = Some f ∧ frame_dev f = dev ∧ has_room (k + 14) (frame_skb f)) remote_fault b.
Proof.
  intros Hr. unfold eth_make_packet. wp_steps. apply wp_lift; [|by eauto with faults].
  intros [h rest] _. cbv beta iota. wp_steps. apply wp_lift; [|by eauto with faults].
  intros skb' E. wp_steps. cbn [app]. split_and!; [done..|]. eexists. split_and!; [done..|].
  by apply (pop_front_room k 14 skb).
Qed.

(** ** ARP *)

(** The cache has perhaps learnt something, and has forgotten nothing. *)
Definition learnt (s s0 : arp Sig) : Prop :=
  arp_base s0 = arp_base s ∧ on_replies_ s0 = on_replies_ s ∧
  ∀ a mac, neigh.query a (arp_cache_ s) = Some mac → neigh.query a (arp_cache_ s0) = Some mac.

Lemma learnt_refl s : learnt s s.
Proof. done. Qed.
Lemma learn_learnt h s : learnt s (learn h s).
Proof.
  unfold learnt, learn. case_match; [done|]. split_and!; [done..|]. intros a mac E.
  cbn [arp_cache_ set_cache]. by rewrite neigh.lookup_update, E.
Qed.

Lemma arp_process_wp k f (s : arp Sig) :
  has_room k (frame_skb f) → 0 ≤ k → Z.even k = true →
  wp (arp_process f) (λ _ s' es, ∃ s0, learnt s s0 ∧ (
    (s' = s0 ∧ es = []) ∨
    (∃ f', s' = with_frame f' s0 ∧ es = [ArpBase BasePost] ∧
       has_room k (frame_skb f') ∧ frame_dev f' = frame_dev f) ∨
    (∃ a mac, s' = set_replies (<[a := sig_empty]> (on_replies_ s)) s0 ∧
       es = (λ cb, ArpCall cb mac) <$> sig_slots (replies_at s a)))) remote_fault s.
Proof.
  intros Hr Hk He. unfold arp_process. wp_steps. apply wp_lift; [|by eauto with faults].
  intros [h rest] _. cbv beta iota. wp_steps. apply wp_lift; [|by eauto with faults].
  intros skb E. wp_steps. cbn [app].
  apply (pop_front_room k 28) in E; [|done..].
  destruct (_ && _); [|wp_steps; eauto 6 using learnt_refl].
  destruct (oper h =? 1); [|destruct (oper h =? 2)].
  - unfold arp_process_request. wp_steps. unfold wp at 1. rewrite arp_update_run. wp_steps.
    cbn [app]. destruct (neigh.query _ _) as [mac|]; [|wp_steps; eauto 6 using learn_learnt].
    destruct (push_write_room (arpv4_header.produce_to_net (reply_header h mac)) 28 (k + 28) skb)
      as (s1 & s2 & E1 & E2 & Hr2 & _); [apply arp_length|done|lia|done|].
    unfold wp, arp_async_reply, mbind, M_bind, lift. cbn [frame_skb set_frame_skb fst snd].
    change arpv4_header.size with 28. rewrite E1. unfold reply_header in E2. rewrite E2.
    exists (learn h s). split; [apply learn_learnt|]. right. left. eexists. split_and!; [done|done| |done].
    cbn. by replace (k + 28 - 28) with k in Hr2 by lia.
  - unfold wp. rewrite arp_process_reply_run. exists (learn h s). split; [apply learn_learnt|].
    right. right. by exists (spa h), (sha h).
  - wp_steps. eauto 6 using learnt_refl.
Qed.

(** The reply queue has room for the Ethernet header, whoever asks. *)
Lemma async_request_ok from to_ dev (s : arp Sig) :
  on_dev dev →
  ∃ q, arp_async_request (CB := ethernetv2_frame) from to_ dev s = Ok ((), with_frame q s, [ArpBase BasePost]) ∧ frame_ok q.
Proof.
  intros Hd. destruct (async_request_run (CB := ethernetv2_frame) from to_ dev s)
    as (skb & E & Hw & Hroom & _).
  eexists. split; [exact E|]. split; [|done]. unfold has_room. cbn [frame_skb]. rewrite Hroom.
  by split_and!.
Qed.

(** ** IPv4 *)

(** The caller [f] waits for the address [a]. *)
Definition wait_for (a : ipv4_addr_t) (f : ethernetv2_frame) (s : arp Sig) : arp Sig :=
  set_replies (<[a := sig_connect f (replies_at s a)]> (on_replies_ s)) s.

Lemma ip_process_cases new_addr pkt (s : ipv4 Sig) :
  has_room 34 (ipp_skb pkt) → Z.even new_addr = true →
  (∀ r, rt.next_hop (dst_addrv4 pkt) (rt_ s) = Some r → route_ok (arp_cache_ (arp_ s)) r) →
  let s1 := set_seq (u16 (seq_ s + 1)) s in
  ip_process new_addr pkt s = Ok ((), s1, []) ∨
  (∃ f mac, ip_process new_addr pkt s = Ok ((), s1, [IpArp (ArpPost f mac)]) ∧ frame_ok f) ∨
  (∃ a f q, ip_process new_addr pkt s =
     Ok ((), set_arp (with_frame q (wait_for a f (arp_ s))) s1, [IpArp (ArpBase BasePost)]) ∧
     frame_ok f ∧ frame_ok q).
Proof.
  intros Hr Ha Hroute s1. pose proof Hr as (Hw & Hk & _).
  destruct (ip_process_run new_addr pkt s Hw) as (_ & skb' & Hw' & Hh' & _ & ->);
    [change ipv4_header.fixed_size with 20; lia|by eapply has_room_even|]. fold s1.
  destruct (rt.next_hop _ _) as [nh|] eqn:En; [|by left]. right.
  destruct (Hroute nh eq_refl) as [(d & Ed & Hd) [src Es]]. rewrite Ed, Es.
  set (f := mk_frame src mac_addr.zero IP_PROTO skb' (Some d)).
  assert (frame_ok f) as Hf.
  { split; [|by exists d]. change ipv4_header.fixed_size with 20 in Hh'.
    unfold has_room. cbn [frame_skb f]. rewrite Hh'. destruct Hr as (_ & _ & He).
    split_and!; [done|change ethernetv2_header.size with 14; lia|by rewrite Z.even_sub, He]. }
  unfold zoom, async_resolve, mbind, M_bind. cbn [get].
  change (arp_ s1) with (arp_ s).
  destruct (neigh.query (via_addrv4 nh) _) as [mac|].
  - left. exists f, mac. split; [|done]. unfold s1. by destruct s.
  - right. cbn [modify]. fold (wait_for (via_addrv4 nh) f (arp_ s)).
    destruct (async_request_ok (src, from_addrv4 nh) (via_addrv4 nh) (Some d)
      (wait_for (via_addrv4 nh) f (arp_ s))) as (q & E & Hq); [by exists d|].
    exists (via_addrv4 nh), f, q. rewrite E. by split.
Qed.

Lemma ip_make_packet_wp k f (s : ipv4 Sig) :
  has_room k (frame_skb f) →
  wp (ip_make_packet f) (λ out s' es, s' = s ∧ es = [] ∧ ∀ p, out = Some p →
    ipv4_ok (src_addrv4 p) ∧ ipv4_ok (dst_addrv4 p) ∧ has_room (k + 20) (ipp_skb p)) remote_fault s.
Proof.
  intros Hr. unfold ip_make_packet. wp_steps. apply wp_lift; [|by eauto with faults]. intros _ _.
  wp_steps. apply wp_lift; [|by eauto with faults]. intros fb _.
  destruct (negb _); [by wp_steps|]. wp_steps. apply wp_lift; [|by eauto with faults].
  intros [h rest] [_ Hok]%ipv4_consume_header_inv. cbv beta iota. wp_steps.
  apply wp_lift; [|by eauto with faults]. intros skb E. wp_steps. cbn [app].
  split_and!; [done..|]. intros p [= <-]. cbn [src_addrv4 dst_addrv4 ipp_skb].
  apply (pop_front_room k 20) in E; [|done..]. unfold ipv4_header_ok in Hok. by destruct_and! Hok.
Qed.

(** ** ICMP *)

Lemma icmp_process_wp new_addr k pkt b :
  has_room k (ipp_skb pkt) → 0 ≤ k → Z.even new_addr = true →
  wp (icmp_process new_addr pkt) (λ _ b' es,
    (b' = b ∧ es = []) ∨
    ∃ dg, b' = set_queue (packet_queue_ b ++ [dg]) b ∧ es = [BasePost] ∧
      has_room k (ipp_skb dg)) remote_fault b.
Proof.
  intros Hr Hk Ha. unfold icmp_process. wp_steps. apply wp_lift; [|by eauto with faults]. intros _ _.
  wp_steps. apply wp_lift; [|by eauto with faults].
  intros [h rest] _. cbv beta iota. wp_steps. apply wp_lift; [|by eauto with faults].
  intros skb E. apply (pop_front_room k 8) in E; [|done..]. cbn [app].
  destruct (icmp_proto_type h =? 8); [|wp_steps; by left].
  unfold icmp_process_request, icmp_async_reply. cbn [ipp_skb]. wp_steps.
  change icmp_header.size with 8. pose proof E as (_ & Hroom & _).
  apply wp_lift; unfold assert_; rewrite (proj2 (Z.ltb_ge _ _)) by lia; [intros _ _|done]. wp_steps.
  destruct (push_write_room (icmp_header.produce_to_net (mk_icmp_header 0 0 0 (icmp_id h)
    (icmp_seq h))) 8 (k + 8) skb) as (s1 & s2 & E1 & E2 & Hr2 & Hp2 & _);
    [apply icmp_length|done|lia|done|].
  replace (k + 8 - 8) with k in Hr2 by lia.
  apply wp_lift; rewrite E1; [intros ? [= <-]|done]. wp_steps.
  apply wp_lift; rewrite E2; [intros ? [= <-]|done]. wp_steps.
  destruct (checksum_total (new_addr + headroom s2) (payload s2)) as (c & Ec & _);
    [by eapply has_room_even|].
  apply wp_lift; rewrite Ec; [intros ? [= <-]|done]. wp_steps.
  destruct (skb_write_room k 2 (native_store 2 c) s2 Hr2) as (s3 & E3 & Hr3 & _); [lia| |].
  { rewrite length_native_store, Hp2, length_app. pose proof (icmp_length (mk_icmp_header 0 0 0 (icmp_id h) (icmp_seq h))). lia. }
  apply wp_lift; change icmp_header.offsetof_chsum with 2; rewrite E3; [intros ? [= <-]|done].
  unfold wp, enqueue. cbn. right. by eexists.
Qed.
End Layers.
