(* ===== verification/Netns.v ===== *)
(** * netns.cpp, base_protocol.hpp: one state of a whole network namespace

    The objects of [netns::impl], the devices, and the queue of the
    [io_context], whose closures are run first in, first out.  The closures
    that [base_protocol::enqueue] posts hand a packet to the layer below, by
    the connections the constructor makes; what a device reads goes up
    through the layers at once.  The layers themselves are those of the other
    files: here is what becomes of their output. *)

From S2P Require Import Prelude Utils Skbuff Addr Headers CircularBuffer Tcb TcbState BaseProtocol.
From S2P Require Import Packets TcbManager Tcp Icmp NeighCache RoutingTable Arp Ipv4 Ethernet Device.
From S2P Require Import Stack.

(** The instances of [base_protocol], and what each hands to the layer below. *)
Inductive proto : Type := PMgr | PTcp | PIcmp | PIp | PArp | PEth.

#[export] Instance proto_eq_dec : EqDecision proto.
Proof. solve_decision. Defined.

Definition under_type (p : proto) : Type :=
  match p with
  | PMgr => tcp_packet
  | PTcp | PIcmp => ipv4_packet
  | PIp | PArp => ethernetv2_frame
  | PEth => skbuff * option nat
  end.

(** The closures posted to the [io_context]. *)
Inductive closure : Type :=
| KTcb (te : two_ends_t) (t : task)                 (** by a connection *)
| KBase (p : proto)                                 (** by [enqueue] of a layer *)
| KResolved (f : ethernetv2_frame) (mac : mac_addr_t) (** by [arp::async_resolve] *)
| KRaw (cb : nat) (pkt : tcp_packet)                (** by [tcp::async_wait] *)
| KWritten (cb : nat).                              (** by [tcp::async_write] *)

Record netns (Sig B : Type) : Type := mk_netns {
  tcb_m_ : tcb_manager B;
  tcp_ : tcp;
  icmp_ : base ipv4_packet;
  ipv4_ : ipv4 Sig;         (** with the ARP layer, the cache and the routes *)
  eth_ : base (skbuff * option nat);
  devs : gmap nat device;
  io_ctx_ : list closure;
}.
Arguments mk_netns {Sig B}. Arguments tcb_m_ {Sig B}. Arguments tcp_ {Sig B}.
Arguments icmp_ {Sig B}. Arguments ipv4_ {Sig B}. Arguments eth_ {Sig B}.
Arguments devs {Sig B}. Arguments io_ctx_ {Sig B}.

Inductive net_event : Type :=
| NetTcb (te : two_ends_t) (ev : tcb_event)      (** a user's buffer or callback *)
| NetRaw (cb : nat) (pkt : tcp_packet)           (** a raw socket's callback *)
| NetWritten (cb : nat)
| NetWrite (d : nat) (buf : list byte)           (** a device starts to write, *)
| NetRead (d : nat) (size : Z).                  (** or to read *)

Section Netns.
Context `{Hh : Host} {Sig : Type} `{Hsig : Signal ethernetv2_frame Sig}.
Context {B : Type} `{Hc : CircularBuffer B}.

(** The address of the buffer of a packet, and the callbacks of the
    interception rules. *)
Context (addr_of : skbuff → Z).
Context (run_cb : nat → endpoint → endpoint → M tcp tcp_event bool).

Implicit Types n : netns Sig B.
Abbreviation NetM := (M (netns Sig B) net_event).

Definition set_tcb_m m n : netns Sig B :=
  mk_netns m (tcp_ n) (icmp_ n) (ipv4_ n) (eth_ n) (devs n) (io_ctx_ n).
Definition set_tcp t n : netns Sig B :=
  mk_netns (tcb_m_ n) t (icmp_ n) (ipv4_ n) (eth_ n) (devs n) (io_ctx_ n).
Definition set_icmp b n : netns Sig B :=
  mk_netns (tcb_m_ n) (tcp_ n) b (ipv4_ n) (eth_ n) (devs n) (io_ctx_ n).
Definition set_ipv4 i n : netns Sig B :=
  mk_netns (tcb_m_ n) (tcp_ n) (icmp_ n) i (eth_ n) (devs n) (io_ctx_ n).
Definition set_eth b n : netns Sig B :=
  mk_netns (tcb_m_ n) (tcp_ n) (icmp_ n) (ipv4_ n) b (devs n) (io_ctx_ n).
Definition set_devs d n : netns Sig B :=
  mk_netns (tcb_m_ n) (tcp_ n) (icmp_ n) (ipv4_ n) (eth_ n) d (io_ctx_ n).
Definition set_io_ctx q n : netns Sig B :=
  mk_netns (tcb_m_ n) (tcp_ n) (icmp_ n) (ipv4_ n) (eth_ n) (devs n) q.

(** ** The constructor

    Every layer has a layer below; the layers above are those of [Stack]. *)
Definition netns_new : netns Sig B :=
  mk_netns
    (mk_manager (top.under_proto_update base_new) [] ∅)
    (mk_tcp (under_proto_update base_new) [] ∅)
    (top.under_proto_update base_new)
    (mk_ipv4 (under_proto_update base_new) 0 routing_table_new
       (mk_arp (top.under_proto_update base_new) ∅ ∅))
    (bottom.under_handler_update base_new) ∅ [].

(** The [base_protocol] of a layer. *)
Definition base_of (p : proto) n : base (under_type p) :=
  match p with
  | PMgr => mgr_base (tcb_m_ n)
  | PTcp => tcp_base (tcp_ n)
  | PIcmp => icmp_ n
  | PIp => ip_base (ipv4_ n)
  | PArp => arp_base (arp_ (ipv4_ n))
  | PEth => eth_ n
  end.
Definition put_base (p : proto) : base (under_type p) → netns Sig B → netns Sig B :=
  match p with
  | PMgr => λ b n, set_tcb_m (set_base b (tcb_m_ n)) n
  | PTcp => λ b n, set_tcp (set_tcp_base b (tcp_ n)) n
  | PIcmp => set_icmp
  | PIp => λ b n, set_ipv4 (set_ip_base b (ipv4_ n)) n
  | PArp => λ b n, set_ipv4 (set_arp (set_arp_base b (arp_ (ipv4_ n))) (ipv4_ n)) n
  | PEth => set_eth
  end.

(** ** A layer in the namespace

    What it posts joins the queue of the [io_context]; what it does to the
    user and to the devices is output; its events are handed on, for the
    calls it makes to other layers. *)
Definition part {S1 E1 A} (f : netns Sig B → S1) (g : S1 → netns Sig B → netns Sig B)
    (posts : E1 → list closure) (outs : E1 → list net_event) (op : M S1 E1 A)
    : NetM (A * list E1) := λ n,
  match op (f n) with
  | Ok (x, s1, es) =>
      let n1 := g s1 n in
      Ok ((x, es), set_io_ctx (io_ctx_ n1 ++ concat (posts <$> es)) n1, concat (outs <$> es))
  | Fault e => Fault e
  end.

Definition mgr_posts (ev : mgr_event) : list closure :=
  match ev with
  | MgrBase BasePost => [KBase PMgr]
  | MgrTcb te (EvPost t) => [KTcb te t]
  | _ => []
  end.
Definition mgr_outs (ev : mgr_event) : list net_event :=
  match ev with
  | MgrTcb _ (EvPost _) | MgrBase _ => []
  | MgrTcb te ev => [NetTcb te ev]
  end.
Definition tcp_posts (ev : tcp_event) : list closure :=
  match ev with
  | TcpBase BasePost => [KBase PTcp]
  | TcpRawPost cb pkt => [KRaw cb pkt]
  | TcpWritten cb => [KWritten cb]
  | _ => []
  end.
Definition tcp_outs (ev : tcp_event) : list net_event :=
  match ev with TcpRawCall cb pkt => [NetRaw cb pkt] | _ => [] end.
Definition proto_posts {U} (p : proto) (ev : base_event U) : list closure :=
  match ev with BasePost => [KBase p] | BaseUnder _ => [] end.
Definition ip_posts (ev : ipv4_event) : list closure :=
  match ev with
  | IpBase BasePost => [KBase PIp]
  | IpArp (ArpBase BasePost) => [KBase PArp]
  | IpArp (ArpPost f mac) => [KResolved f mac]
  | _ => []
  end.
Definition dev_outs (d : nat) (ev : device_event) : list net_event :=
  match ev with
  | DevWrite buf => [NetWrite d buf]
  | _ => []
  end.
Definition silent {E1} (ev : E1) : list net_event := [].

Definition with_mgr {A} (op : M (tcb_manager B) mgr_event A) : NetM (A * list mgr_event) :=
  part tcb_m_ set_tcb_m mgr_posts mgr_outs op.
Definition with_tcp {A} (op : M tcp tcp_event A) : NetM (A * list tcp_event) :=
  part tcp_ set_tcp tcp_posts tcp_outs op.
Definition with_icmp {A} (op : M (base ipv4_packet) (base_event ipv4_packet) A)
    : NetM (A * list (base_event ipv4_packet)) :=
  part icmp_ set_icmp (proto_posts PIcmp) silent op.
Definition with_ip {A} (op : M (ipv4 Sig) ipv4_event A) : NetM (A * list ipv4_event) :=
  part ipv4_ set_ipv4 ip_posts silent op.
Definition with_eth {A} (op : M (base (skbuff * option nat)) (base_event (skbuff * option nat)) A)
    : NetM (A * list (base_event (skbuff * option nat))) :=
  part eth_ set_eth (proto_posts PEth) silent op.

(** A method of a device, which is alive as long as something refers to it. *)
Definition with_dev {A} (d : nat) (op : M device device_event A) : NetM (A * list device_event) :=
  n ← get;
  match devs n !! d with
  | None => fail NullDeref
  | Some dev => part (λ _, dev) (λ dev n, set_devs (<[d := dev]> (devs n)) n) (λ _, []) (dev_outs d) op
  end.

(** ** Down: the closures of [enqueue] *)

(** The calls of [under_proto_] among the events. *)
Fixpoint under {U} (es : list (base_event U)) (h : U → NetM unit) : NetM unit :=
  match es with
  | [] => mret ()
  | BaseUnder pkt :: es => _ ← h pkt; under es h
  | BasePost :: es => under es h
  end.

(** [receive] from above, of each layer. *)
Definition tcp_down (pkt : tcp_packet) : NetM unit :=
  _ ← with_tcp (tcp_process (addr_of (tp_skb pkt)) pkt); mret ().
Definition ip_down (pkt : ipv4_packet) : NetM unit :=
  _ ← with_ip (ip_process (addr_of (ipp_skb pkt)) pkt); mret ().
Definition eth_down (f : ethernetv2_frame) : NetM unit :=
  _ ← with_eth (eth_process f); mret ().

(** [dev->process(std::move(skb_in))] *)
Definition dev_down (out : skbuff * option nat) : NetM unit :=
  match out.2 with
  | None => fail NullDeref
  | Some d => _ ← with_dev d (dev_process out.1); mret ()
  end.

(** [under_proto_], as the constructor of [netns::impl] connects the layers. *)
Definition below (p : proto) : under_type p → NetM unit :=
  match p with
  | PMgr => tcp_down
  | PTcp | PIcmp => ip_down
  | PIp | PArp => eth_down
  | PEth => dev_down
  end.

(** The closure [enqueue] posts.  The layer below does not look at the queue
    of the layer above, so that the order of the call and the [pop] does not
    matter. *)
Definition run_base (p : proto) : NetM unit :=
  '(_, es) ← part (base_of p) (put_base p) (proto_posts p) silent run_posted;
  under es (below p).

(** ** Up: a frame is received *)

(** The callbacks of [async_resolve] among the events. *)
Fixpoint resolved_calls (es : list ipv4_event) : NetM unit :=
  match es with
  | [] => mret ()
  | IpArp (ArpCall f mac) :: es => _ ← with_ip (on_resolved f mac); resolved_calls es
  | _ :: es => resolved_calls es
  end.

(** [junk], [isn]: for the block of a new connection. *)
Definition mgr_up (junk : indeterminate) (isn : Z) (pkt : tcp_packet) : NetM unit :=
  _ ← with_mgr (mgr_process junk isn pkt); mret ().

Definition tcp_up (junk : indeterminate) (isn : Z) (pkt : ipv4_packet) : NetM unit :=
  '(out, _) ← with_tcp (tcp_receive run_cb pkt);
  match out with
  | Some (LTcbManager, p) => mgr_up junk isn p
  | _ => mret ()
  end.

Definition icmp_up (pkt : ipv4_packet) : NetM unit :=
  _ ← with_icmp (icmp_process (addr_of (ipp_skb pkt)) pkt); mret ().

Definition ip_up (junk : indeterminate) (isn : Z) (f : ethernetv2_frame) : NetM unit :=
  '(out, _) ← with_ip (ip_receive f);
  match out with
  | Some (LTcp, p) => tcp_up junk isn p
  | Some (LIcmp, p) => icmp_up p
  | _ => mret ()
  end.

Definition arp_up (f : ethernetv2_frame) : NetM unit :=
  '(_, es) ← with_ip (zoom arp_ set_arp IpArp (arp_process f));
  resolved_calls es.

Definition eth_up (junk : indeterminate) (isn : Z) (skb : skbuff) (d : nat) : NetM unit :=
  '(out, _) ← with_eth (eth_receive skb (Some d));
  match out with
  | Some (LIpv4, f) => ip_up junk isn f
  | Some (LArp, f) => arp_up f
  | _ => mret ()
  end.

(** The completion of a read of device [d]: the frame goes up, then the next
    read is started. *)
Fixpoint received_calls (junk : indeterminate) (isn : Z) (d : nat) (es : list device_event)
    : NetM unit :=
  match es with
  | [] => mret ()
  | DevReceive skb :: es => _ ← eth_up junk isn skb d; received_calls junk isn d es
  | DevRead size :: es => _ ← emit (NetRead d size); received_calls junk isn d es
  | DevWrite _ :: es => received_calls junk isn d es
  end.

Definition net_read_done (junk : indeterminate) (isn : Z) (d : nat) (ec : bool) (buf : list byte)
    (nbytes : Z) : NetM unit :=
  '(_, es) ← with_dev d (dev_read_done ec buf nbytes);
  received_calls junk isn d es.

Definition net_written (d : nat) (ec : bool) : NetM unit :=
  _ ← with_dev d (dev_written ec); mret ().

(** ** The [io_context] *)

(** [calls]: what a callback of the user calls, of its own connection. *)
Definition run_closure (k : closure) (calls : list api_call) : NetM unit :=
  match k with
  | KTcb te t => _ ← with_mgr (on_tcb te (run_task t calls)); mret ()
  | KBase p => run_base p
  | KResolved f mac => _ ← with_ip (on_resolved f mac); mret ()
  | KRaw cb pkt => emit (NetRaw cb pkt)
  | KWritten cb => emit (NetWritten cb)
  end.

Definition run_one (calls : list api_call) : NetM unit :=
  n ← get;
  match io_ctx_ n with
  | [] => mret ()
  | k :: q => _ ← modify (set_io_ctx q); run_closure k calls
  end.

(** [io_ctx.run()] without further input: [n] closures. *)
Fixpoint run_until_idle (fuel : nat) : NetM unit :=
  n ← get;
  match io_ctx_ n with
  | [] => mret ()
  | _ :: _ =>
      match fuel with
      | O => fail OutOfFuel
      | S fuel => _ ← run_one []; run_until_idle fuel
      end
  end.

(** ** What happens to a namespace

    The [io_context] runs a closure, a device completes a read or a write, or
    the program calls the layers: the sockets and acceptors of [Socket] come
    down to [NetConnect], [NetListen] and [NetCall], raw sockets and
    interceptors to the methods of the TCP layer. *)
Inductive net_action : Type :=
| NetRun (calls : list api_call)
| NetReadDone (junk : indeterminate) (isn : Z) (d : nat) (ec : bool) (buf : list byte) (nbytes : Z)
| NetWriteDone (d : nat) (ec : bool)
| NetConnect (junk : indeterminate) (isn : Z) (ports : list Z) (moved : option nat → option nat)
    (remote_ep : endpoint) (local_addr : ipv4_addr_t) (cb : nat)
| NetListen (mt : endpoint → endpoint → bool) (cb : nat)
| NetCall (te : two_ends_t) (c : api_call)
| NetSend (pkt : tcp_packet) (cb : nat)
| NetIntercept (mt : endpoint → endpoint → bool) (cb : nat)
| NetAttach (remote_ep local_ep : endpoint)
| NetDetach (remote_ep local_ep : endpoint)
| NetWait (remote_ep local_ep : endpoint) (cb : nat)
| NetRoute (o : rt.op)                      (** a method of the routing table *)
| NetNeigh (kv : ipv4_addr_t * mac_addr_t).            (** [neighs().update(kv)] *)

Definition set_rt (t : routing_table) (s : ipv4 Sig) : ipv4 Sig :=
  mk_ipv4 (ip_base s) (seq_ s) t (arp_ s).

Definition net_act (x : net_action) : NetM unit :=
  match x with
  | NetRun calls => run_one calls
  | NetReadDone junk isn d ec buf nbytes => net_read_done junk isn d ec buf nbytes
  | NetWriteDone d ec => net_written d ec
  | NetConnect junk isn ports moved remote_ep local_addr cb =>
      _ ← with_mgr (mgr_async_connect junk isn ports moved remote_ep local_addr (Some cb)); mret ()
  | NetListen mt cb => _ ← with_mgr (rule_insert_back mt cb); mret ()
  | NetCall te c => _ ← with_mgr (on_tcb te (run_call c)); mret ()
  | NetSend pkt cb => _ ← with_tcp (tcp_async_write (addr_of (tp_skb pkt)) pkt cb); mret ()
  | NetIntercept mt cb => _ ← with_tcp (tcp_rule_insert_back mt cb); mret ()
  | NetAttach remote_ep local_ep => _ ← with_tcp (attach remote_ep local_ep); mret ()
  | NetDetach remote_ep local_ep => _ ← with_tcp (detach remote_ep local_ep); mret ()
  | NetWait remote_ep local_ep cb => _ ← with_tcp (async_wait remote_ep local_ep cb); mret ()
  | NetRoute o =>
      _ ← with_ip (s ← get; t ← lift (rt.apply o (rt_ s)); modify (set_rt t)); mret ()
  | NetNeigh kv =>
      _ ← with_ip (modify (λ s,
             set_arp (set_cache (neigh.update kv (arp_cache_ (arp_ s))) (arp_ s)) s)); mret ()
  end.

Fixpoint net_acts (acts : list net_action) : NetM unit :=
  match acts with
  | [] => mret ()
  | x :: acts => _ ← net_act x; net_acts acts
  end.
End Netns.
