(* ===== verification/NetnsFacts.v ===== *)
(** * The invariant of a network namespace

    For every layer there is one closure in the [io_context] for each packet
    in its queue, so that no closure finds its queue empty; whatever is
    queued has room for the headers still to come; whatever is addressed to a
    device names one that exists; and closures of connections are those of
    connections that are past the handshake.  Every handler keeps this. *)

From S2P Require Import Prelude Utils Skbuff Addr Headers CircularBuffer Tcb TcbState BaseProtocol.
From S2P Require Import Packets TcbManager Tcp Icmp NeighCache RoutingTable Arp Ipv4 Ethernet Device.
From S2P Require Import Stack Layers Netns.

Section Facts.
Context `{Hh : Host} {Sig : Type} `{Hsig : Signal ethernetv2_frame Sig}
  `{Hspec : !SignalSpec ethernetv2_frame Sig}.
Context {B : Type} `{Hc : CircularBuffer B} `{Hs : !CircularBufferSpec B}.
Context (addr_of : skbuff → Z) (run_cb : nat → endpoint → endpoint → M tcp tcp_event bool).
(** The devices of the namespace. *)
Context (ds : gset nat).
(** [operator new[]] returns aligned memory; the callbacks of interception
    rules do not throw. *)
Context (Heven : ∀ skb, Z.even (addr_of skb) = true) (Hcb : callbacks_ok run_cb).

Implicit Types (n : netns Sig B) (p : proto) (q : list closure).
Abbreviation NM := (M (netns Sig B) net_event).
Abbreviation frame_ok := (frame_ok ds).
Abbreviation on_dev := (on_dev ds).
Abbreviation route_ok := (route_ok ds).

(** ** The invariant *)

Definition item_ok p : under_type p → Prop :=
  match p with
  | PMgr => λ pkt, has_room 34 (tp_skb pkt) ∧ tcp_header.fixed_size ≤ len (payload (tp_skb pkt))
  | PTcp | PIcmp => λ pkt, has_room 34 (ipp_skb pkt)
  | PIp | PArp => frame_ok
  | PEth => λ out, on_dev out.2
  end.

(** The closures of the layer [p] in the queue. *)
Fixpoint pending p q : nat :=
  match q with
  | [] => 0
  | KBase p' :: q => (if decide (p' = p) then 1 else 0) + pending p q
  | _ :: q => pending p q
  end.

Definition queue_ok p n : Prop :=
  under_proto_ (base_of p n) = true ∧ Forall (item_ok p) (packet_queue_ (base_of p n)) ∧
  pending p (io_ctx_ n) = length (packet_queue_ (base_of p n)).

Definition closure_ok (m : tcb_manager B) (k : closure) : Prop :=
  match k with
  | KTcb te _ => settled m te
  | KResolved f _ => frame_ok f
  | _ => True
  end.

Record ip_ok (s : ipv4 Sig) : Prop := {
  ok_waiting : ∀ a, Forall frame_ok (sig_slots (replies_at (arp_ s) a));
  ok_routes : ∀ a r, rt.query a (rt_ s) = Some r → route_ok (arp_cache_ (arp_ s)) r;
  ok_default : ∀ r, rt.query_default (rt_ s) = Some r → route_ok (arp_cache_ (arp_ s)) r;
}.

Record tables_ok n : Prop := {
  ok_mgr : mgr_inv (tcb_m_ n);
  ok_ip : ip_ok (ipv4_ n);
  ok_devs : dom (devs n) = ds;
}.

Record net_ok n : Prop := {
  ok_tables : tables_ok n;
  ok_queues : ∀ p, queue_ok p n;
  ok_closures : Forall (closure_ok (tcb_m_ n)) (io_ctx_ n);
}.

Lemma pending_app p q1 q2 : pending p (q1 ++ q2) = (pending p q1 + pending p q2)%nat.
Proof. induction q1 as [|[] q1 IH]; cbn; lia. Qed.

(** The fresh namespace, once its devices are there. *)
Lemma netns_new_ok dv : dom dv = ds → net_ok (set_devs dv netns_new).
Proof.
  intros Hd. split; [split; [| |done]|..].
  - apply map_Forall_empty.
  - split; [| |done].
    + intros a. unfold replies_at. change (on_replies_ _) with (∅ : gmap ipv4_addr_t Sig).
      rewrite lookup_empty. cbn [default]. rewrite slots_empty. apply List.Forall_nil.
    + intros a r. unfold rt.query. change (table_ _) with (∅ : gmap ipv4_addr_t rt_record).
      by rewrite lookup_empty.
  - intros []; by split_and!.
  - apply List.Forall_nil.
Qed.

(** ** Keeping it *)

(** What a handler adds to the queue of a layer, and the closures for it. *)
Definition grows p q n n' : Prop :=
  ∃ new, base_of p n' = set_queue (packet_queue_ (base_of p n) ++ new) (base_of p n) ∧
    Forall (item_ok p) new ∧ pending p q = length new.

Lemma grows_same p q n n' : base_of p n' = base_of p n → pending p q = 0%nat → grows p q n n'.
Proof.
  intros E Hq. exists []. rewrite app_nil_r, E. split_and!; [by destruct (base_of p n)|by apply List.Forall_nil|done].
Qed.

Lemma net_ok_grow q n n' :
  net_ok n → tables_ok n' → (∀ te, settled (tcb_m_ n) te → settled (tcb_m_ n') te) →
  io_ctx_ n' = io_ctx_ n ++ q → Forall (closure_ok (tcb_m_ n')) q → (∀ p, grows p q n n') → net_ok n'.
Proof.
  intros [_ Hq Hk] Ht Hset Eq Hq' Hg. split; [done| |].
  - intros p. destruct (Hq p) as (Hu & Hf & Hp), (Hg p) as (new & Eb & Hnew & Hn).
    unfold queue_ok. rewrite Eb, Eq, pending_app, Hp, Hn. cbn [packet_queue_ set_queue under_proto_].
    rewrite length_app. split_and!; [done|by apply Forall_app|done].
  - rewrite Eq. apply Forall_app. split; [|done]. eapply Forall_impl; [exact Hk|].
    intros [] Hok; try done. by apply Hset.
Qed.
(** An operation of a part keeps the invariant of the whole. *)
Definition part_keeps q n n' : Prop :=
  tables_ok n' ∧ (∀ te, settled (tcb_m_ n) te → settled (tcb_m_ n') te) ∧
  Forall (closure_ok (tcb_m_ n')) q ∧ ∀ p, grows p q n n'.

(** What the namespace gets from it: the invariant, the closures posted, and
    what else is known of the result. *)
Definition kept {A E1} (posts : E1 → list closure) (P : A → list E1 → Prop) n
    (r : A * list E1) n' : Prop :=
  net_ok n' ∧ io_ctx_ n' = io_ctx_ n ++ concat (posts <$> r.2) ∧ P r.1 r.2.

Lemma base_of_io p q n : base_of p (set_io_ctx q n) = base_of p n.
Proof. by destruct p. Qed.

Lemma part_wp {S1 E1 A} (f : netns Sig B → S1) g posts outs (op : M S1 E1 A) P F n :
  net_ok n → (∀ s1, io_ctx_ (g s1 n) = io_ctx_ n) →
  wp op (λ x s1 es, part_keeps (concat (posts <$> es)) n (g s1 n) ∧ P x es) F (f n) →
  wp (part f g posts outs op) (λ r n' _, kept posts P n r n') F n.
Proof.
  intros Hn Hio Hop. unfold wp, part in *. destruct (op (f n)) as [[[x s1] es]|]; [|done].
  destruct Hop as ((Ht & Hset & Hq & Hg) & HP). unfold kept. cbn [fst snd io_ctx_ set_io_ctx].
  rewrite Hio. split_and!; [|done|done].
  eapply (net_ok_grow (concat (posts <$> es)) n); [done| |done|done|done|].
  - by destruct Ht.
  - intros p. destruct (Hg p) as (new & Eb & ?). exists new. by rewrite base_of_io.
Qed.

(** *** The connection table *)

Lemma pending_mgr p es :
  pending p (concat (mgr_posts <$> es)) = if decide (PMgr = p) then base_posts es else 0%nat.
Proof.
  induction es as [|ev es IH]; [by case_decide|]. rewrite fmap_cons. cbn [concat].
  rewrite pending_app, IH. destruct ev as [[]|te []]; cbn; case_decide; lia.
Qed.

Lemma with_mgr_wp {A} (op : M (tcb_manager B) mgr_event A) P F n :
  net_ok n → wp op (λ x m' es, mgr_keeps (tcb_m_ n) m' es ∧ P x es) F (tcb_m_ n) →
  wp (with_mgr op) (λ r n' _, kept mgr_posts P n r n') F n.
Proof.
  intros Hn Hop. apply part_wp; [done|done|]. eapply wp_mono; [exact Hop| |done].
  intros x m' es [(Hi & (te & _ & _ & Hu & (ps & Eq & Hps & Hn') & _) & Hset & Hpost) HP].
  split; [|done]. destruct Hn as [[_ Hip Hd] _ _]. split; [by split|]. split; [done|]. split.
  - apply Forall_concat, Forall_fmap, Forall_forall. intros [[]|te' []] Hin; cbn; repeat constructor.
    by eapply Hpost.
  - intros p. destruct (decide (PMgr = p)) as [<-|Hp].
    + exists ps. rewrite pending_mgr, decide_True by done. split_and!; [|..|done].
      * change (base_of PMgr (set_tcb_m m' n)) with (mgr_base m').
        change (base_of PMgr n) with (mgr_base (tcb_m_ n)).
        destruct (mgr_base m') as [u q']. cbn in *. by subst.
      * eapply Forall_impl; [exact Hps|].
        intros pkt (_ & _ & _ & Hw & Hroom & Hl & _). split; [|done]. unfold has_room. rewrite Hroom.
        by split_and!.
    + apply grows_same; [by destruct p|]. by rewrite pending_mgr, decide_False.
Qed.

(** *** The other layers *)

(** A base that has grown by [new]. *)
Definition grown {U} (b b' : base U) (new : list U) : Prop :=
  b' = set_queue (packet_queue_ b ++ new) b.

Lemma grown_nil {U} (b : base U) : grown b b [].
Proof. unfold grown. rewrite app_nil_r. by destruct b. Qed.

Lemma pending_tcp p es : PTcp ≠ p → pending p (concat (tcp_posts <$> es)) = 0%nat.
Proof.
  intros Hp. induction es as [|ev es IH]; [done|]. rewrite fmap_cons. cbn [concat].
  rewrite pending_app, IH. destruct ev as [[]| | | | |]; cbn; try case_decide; done.
Qed.

Lemma with_tcp_wp {A} (op : M tcp tcp_event A) P F n :
  net_ok n →
  wp op (λ x s' es, (∃ new, grown (tcp_base (tcp_ n)) (tcp_base s') new ∧
    Forall (λ dg, has_room 34 (ipp_skb dg)) new ∧
    pending PTcp (concat (tcp_posts <$> es)) = length new) ∧ P x es) F (tcp_ n) →
  wp (with_tcp op) (λ r n' _, kept tcp_posts P n r n') F n.
Proof.
  intros Hn Hop. apply part_wp; [done|done|]. eapply wp_mono; [exact Hop| |done].
  intros x s' es [(new & Eb & Hnew & Hl) HP]. split; [|done].
  destruct Hn as [[Hi Hip Hd] _ _]. split; [by split|]. split; [done|]. split.
  - apply Forall_concat, Forall_fmap, Forall_true. intros [[]| | | | |]; by repeat constructor.
  - intros p. destruct (decide (PTcp = p)) as [<-|Hp]; [by exists new|].
    apply grows_same; [by destruct p|]. by apply pending_tcp.
Qed.

Lemma base_put p b n : base_of p (put_base p b n) = b.
Proof. by destruct p. Qed.
Lemma base_put_ne p p' b n : p ≠ p' → base_of p' (put_base p b n) = base_of p' n.
Proof. by destruct p, p'. Qed.
Lemma io_put p b n : io_ctx_ (put_base p b n) = io_ctx_ n.
Proof. by destruct p. Qed.
Lemma tcbs_put p b n : tcbs_ (tcb_m_ (put_base p b n)) = tcbs_ (tcb_m_ n).
Proof. by destruct p. Qed.
Lemma settled_put p b n te : settled (tcb_m_ (put_base p b n)) te ↔ settled (tcb_m_ n) te.
Proof. unfold settled. by rewrite tcbs_put. Qed.

Lemma tables_put p b n : tables_ok n → tables_ok (put_base p b n).
Proof. intros [Hi [Hw Hr Hd] Hdv]. by destruct p; (split; [|split|]). Qed.

Lemma pending_proto {U} p p' (es : list (base_event U)) :
  p ≠ p' → pending p' (concat (proto_posts p <$> es)) = 0%nat.
Proof.
  intros Hp. induction es as [|[] es IH]; [done| |done]. rewrite fmap_cons. cbn.
  by rewrite decide_False.
Qed.

(** A layer whose state is its base. *)
Lemma with_base_wp {A} p (op : M (base (under_type p)) (base_event (under_type p)) A) P F n :
  net_ok n →
  wp op (λ x b' es, (∃ new, grown (base_of p n) b' new ∧ Forall (item_ok p) new ∧
    pending p (concat (proto_posts p <$> es)) = length new) ∧ P x es) F (base_of p n) →
  wp (part (base_of p) (put_base p) (proto_posts p) silent op)
    (λ r n' _, kept (proto_posts p) P n r n') F n.
Proof.
  intros Hn Hop. apply part_wp; [done|intros; apply io_put|]. eapply wp_mono; [exact Hop| |done].
  intros x b' es [(new & Eb & Hnew & Hl) HP]. split; [|done].
  split; [by apply tables_put, Hn|]. split; [by intros te ?; apply settled_put|]. split.
  - apply Forall_concat, Forall_fmap, Forall_true. intros []; by repeat constructor.
  - intros p'. destruct (decide (p = p')) as [<-|Hp].
    + exists new. by rewrite base_put.
    + apply grows_same; [by apply base_put_ne|]. by apply pending_proto.
Qed.

(** What IPv4 and ARP keep. *)
Definition ip_keeps (s s' : ipv4 Sig) (es : list ipv4_event) : Prop :=
  ip_ok s' ∧
  Forall (λ ev, match ev with IpArp (ArpPost f _) => frame_ok f | _ => True end) es ∧
  (∃ new, grown (ip_base s) (ip_base s') new ∧ Forall frame_ok new ∧
     pending PIp (concat (ip_posts <$> es)) = length new) ∧
  (∃ new, grown (arp_base (arp_ s)) (arp_base (arp_ s')) new ∧ Forall frame_ok new ∧
     pending PArp (concat (ip_posts <$> es)) = length new).

Lemma pending_ip p es :
  PIp ≠ p → PArp ≠ p → pending p (concat (ip_posts <$> es)) = 0%nat.
Proof.
  intros H1 H2. induction es as [|ev es IH]; [done|]. rewrite fmap_cons. cbn [concat].
  rewrite pending_app, IH. destruct ev as [[]|[[]| |]]; cbn; try (rewrite decide_False by done); done.
Qed.

Lemma with_ip_wp {A} (op : M (ipv4 Sig) ipv4_event A) P F n :
  net_ok n → wp op (λ x s' es, ip_keeps (ipv4_ n) s' es ∧ P x es) F (ipv4_ n) →
  wp (with_ip op) (λ r n' _, kept ip_posts P n r n') F n.
Proof.
  intros Hn Hop. apply part_wp; [done|done|]. eapply wp_mono; [exact Hop| |done].
  intros x s' es [(Hip & Hf & Hnip & Hnarp) HP]. split; [|done].
  destruct Hn as [[Hi _ Hd] _ _]. split; [by split|]. split; [done|]. split.
  - apply Forall_concat, Forall_fmap. eapply Forall_impl; [exact Hf|].
    intros [[]|[[]| |]] Hev; first [apply List.Forall_nil | by apply Forall_singleton].
  - intros p. destruct (decide (PIp = p)) as [<-|H1]; [done|].
    destruct (decide (PArp = p)) as [<-|H2]; [done|].
    apply grows_same; [by destruct p|]. by apply pending_ip.
Qed.

(** ** Down *)

(** What a closure may still cause: those of the layers below weigh less. *)
Definition rank (k : closure) : nat :=
  match k with
  | KTcb _ _ => 0
  | KBase PMgr => 5
  | KBase PTcp | KBase PIcmp => 4
  | KResolved _ _ => 3
  | KBase PIp | KBase PArp => 2
  | KBase PEth | KRaw _ _ | KWritten _ => 1
  end.
Definition weight q : nat := sum_list (rank <$> q).
Definition is_tcb (k : closure) : bool := match k with KTcb _ _ => true | _ => false end.

(** The invariant, and that what is posted is lighter than [r]. *)
Definition after (r : nat) n n' : Prop :=
  net_ok n' ∧ ∃ q, io_ctx_ n' = io_ctx_ n ++ q ∧ Forall (λ k, is_tcb k = false) q ∧ (weight q < r)%nat.

Lemma after_none r n : net_ok n → (0 < r)%nat → after r n n.
Proof. intros Hn Hr. split; [done|]. exists []. rewrite app_nil_r. by split_and!. Qed.

Lemma after_kept {A E1} posts (P : A → list E1 → Prop) r n x n' :
  kept posts P n x n' →
  (P x.1 x.2 → Forall (λ k, is_tcb k = false) (concat (posts <$> x.2)) ∧
     (weight (concat (posts <$> x.2)) < r)%nat) →
  after r n n'.
Proof. intros (Hn & Eq & HP) Hl. split; [done|]. eexists. split; [exact Eq|]. auto. Qed.

(** Run an operation of a part and forget its result. *)
Lemma part_unit_wp {A E1} (m : NM (A * list E1)) posts P r F n :
  wp m (λ x n' _, kept posts P n x n') F n →
  (∀ x es, P x es → Forall (λ k, is_tcb k = false) (concat (posts <$> es)) ∧
     (weight (concat (posts <$> es)) < r)%nat) →
  wp (_ ← m; mret ()) (λ _ n' _, after r n n') F n.
Proof.
  intros Hm Hl. wp_step. eapply wp_mono; [exact Hm| |done]. intros x n' es Hk. wp_steps.
  eapply after_kept; [exact Hk|]. apply Hl.
Qed.

Lemma tcp_down_wp pkt n :
  net_ok n → item_ok PMgr pkt →
  wp (tcp_down addr_of pkt) (λ _ n' _, after 5 n n') (λ _, False) n.
Proof.
  intros Hn [Hr Hl]. eapply (part_unit_wp _ tcp_posts (λ _ es, es = [TcpBase BasePost])).
  - apply with_tcp_wp; [done|].
    destruct (tcp_process_total (addr_of (tp_skb pkt)) 34 pkt (tcp_ n)) as (skb & E & Hr' & _);
      [done|done|done|done|].
    unfold wp. rewrite E. split; [|done]. exists [datagram pkt skb].
    split_and!; [done|by apply Forall_singleton|done].
  - intros _ es ->. split; [by apply Forall_singleton|cbn; lia].
Qed.

Lemma ip_ok_wait s s1 a f g :
  ip_ok s → frame_ok f → rt_ s1 = rt_ s →
  ip_ok (set_arp (with_frame g (wait_for a f (arp_ s))) s1).
Proof.
  intros [Hw Hr Hd] Hf Ert. split; cbn; rewrite ?Ert; [|done..].
  intros a'. unfold replies_at, wait_for. cbn. destruct (decide (a' = a)) as [->|Hne].
  - rewrite lookup_insert_eq. cbn. rewrite slots_connect. apply Forall_app.
    split; [apply Hw|by apply Forall_singleton].
  - rewrite lookup_insert_ne by done. apply Hw.
Qed.

Lemma ip_down_wp pkt n :
  net_ok n → has_room 34 (ipp_skb pkt) →
  wp (ip_down addr_of pkt) (λ _ n' _, after 4 n n') (λ _, False) n.
Proof.
  intros Hn Hr. pose proof (ok_ip _ (ok_tables _ Hn)) as Hip.
  eapply (part_unit_wp _ ip_posts (λ _ es, es = [] ∨ (∃ f mac, es = [IpArp (ArpPost f mac)]) ∨
    es = [IpArp (ArpBase BasePost)])).
  - apply with_ip_wp; [done|]. unfold wp.
    destruct (ip_process_cases ds (addr_of (ipp_skb pkt)) pkt (ipv4_ n))
      as [-> | [(f & mac & -> & Hf) | (a & f & g & -> & Hf & Hg)]]; [done|done| | | |].
    + intros r. unfold rt.next_hop. destruct (rt.query _ _) as [r'|] eqn:Er.
      * intros [= <-]. by eapply ok_routes.
      * by apply ok_default.
    + split; [|by left]. destruct Hip as [Hw Ho Hd]. split_and!; [by split|by apply List.Forall_nil|..];
        (exists []; split_and!; [apply grown_nil|by apply List.Forall_nil|done]).
    + split; [|eauto]. destruct Hip as [Hw Ho Hd]. split_and!; [by split|by apply Forall_singleton|..];
        (exists []; split_and!; [apply grown_nil|by apply List.Forall_nil|done]).
    + split; [|eauto]. split_and!; [by apply ip_ok_wait|by apply Forall_singleton|..].
      * exists []. split_and!; [apply grown_nil|by apply List.Forall_nil|done].
      * exists [g]. split_and!; [done|by apply Forall_singleton|done].
  - intros _ es [->|[(f & mac & ->)| ->]]; cbn;
      (split; [first [by apply List.Forall_nil|by apply Forall_singleton]|lia]).
Qed.

Lemma eth_down_wp f n :
  net_ok n → frame_ok f → wp (eth_down f) (λ _ n' _, after 2 n n') (λ _, False) n.
Proof.
  intros Hn Hf. eapply (part_unit_wp _ (proto_posts PEth) (λ _ es, es = [BasePost])).
  - apply (with_base_wp PEth); [done|]. eapply wp_mono; [by apply (eth_process_wp ds)| |done].
    intros _ b' es (skb & -> & ->). split; [|done]. exists [(skb, frame_dev f)].
    split_and!; [done|apply Forall_singleton, Hf|done].
  - intros _ es ->. split; [by apply Forall_singleton|cbn; lia].
Qed.

Lemma no_posts {E1} (es : list E1) : concat ((λ _, [] : list closure) <$> es) = [].
Proof. by induction es. Qed.

(** A method of a device changes no queue but its own. *)
Lemma with_dev_wp {A} d (op : M device device_event A) P F n :
  net_ok n → d ∈ ds → (∀ dv, devs n !! d = Some dv → wp op (λ x _ es, P x es) F dv) →
  wp (with_dev d op) (λ r n' _, kept (λ _, []) P n r n') F n.
Proof.
  intros Hn Hd Hop. unfold with_dev. wp_steps.
  pose proof (ok_devs _ (ok_tables _ Hn)) as Hdom.
  destruct (devs n !! d) as [dv|] eqn:Ed.
  2: { apply not_elem_of_dom in Ed. by rewrite Hdom in Ed. }
  apply part_wp; [done|done|]. eapply wp_mono; [by apply Hop| |done].
  intros x dv' es HP. split; [|done]. destruct Hn as [[Hi Hip _] _ _].
  rewrite no_posts. split; [split; [done|done|]|split; [done|split; [by apply List.Forall_nil|]]].
  - cbn. rewrite dom_insert_L, Hdom. by apply subseteq_union_1_L, singleton_subseteq_l.
  - intros p. by apply grows_same; [destruct p|].
Qed.

Lemma dev_down_wp out n :
  net_ok n → on_dev out.2 → wp (dev_down out) (λ _ n' _, after 1 n n') (λ _, False) n.
Proof.
  intros Hn (d & Ed & Hd). unfold dev_down. rewrite Ed.
  eapply (part_unit_wp _ (λ _, []) (λ _ _, True)).
  - apply with_dev_wp; [done|done|]. intros dv _. eapply wp_mono; [apply dev_process_wp|done|done].
  - intros _ es _. rewrite no_posts. split; [by apply List.Forall_nil|cbn; lia].
Qed.

Lemma below_wp p pkt n :
  net_ok n → item_ok p pkt →
  wp (below addr_of p pkt) (λ _ n' _, after (rank (KBase p)) n n') (λ _, False) n.
Proof.
  destruct p; cbn [below item_ok rank]; intros Hn Hi;
    [by apply tcp_down_wp|by apply ip_down_wp|by apply ip_down_wp|by apply eth_down_wp
    |by apply eth_down_wp|by apply dev_down_wp].
Qed.

(** ** The closures *)

Lemma net_ok_tail k q n :
  net_ok n → io_ctx_ n = k :: q → (∀ p, k ≠ KBase p) →
  net_ok (set_io_ctx q n) ∧ closure_ok (tcb_m_ n) k.
Proof.
  intros [Ht Hq Hk] E Hne. rewrite E in Hk. apply Forall_cons in Hk as [Hk Hks].
  split; [|done]. split; [by destruct Ht| |done].
  intros p. destruct (Hq p) as (Hu & Hf & Hp). unfold queue_ok. rewrite base_of_io.
  split_and!; [done|done|]. rewrite E in Hp. rewrite <- Hp. cbn [io_ctx_ set_io_ctx].
  destruct k; try done. by destruct (Hne p0).
Qed.

(** An operation of a part, run. *)
Lemma part_run {S1 E1 A} (f : netns Sig B → S1) g posts outs (op : M S1 E1 A) n x s1 es :
  op (f n) = Ok (x, s1, es) →
  part f g posts outs op n =
    Ok ((x, es), set_io_ctx (io_ctx_ (g s1 n) ++ concat (posts <$> es)) (g s1 n),
        concat (outs <$> es)).
Proof. unfold part. by intros ->. Qed.

Lemma set_io_same n : set_io_ctx (io_ctx_ n) n = n.
Proof. by destruct n. Qed.

(** The closure of a layer, with a packet in the queue. *)
Lemma run_base_run p pkt rest n :
  under_proto_ (base_of p n) = true → packet_queue_ (base_of p n) = pkt :: rest →
  run_base addr_of p n =
    (_ ← below addr_of p pkt; mret ()) (put_base p (set_queue rest (base_of p n)) n).
Proof.
  intros Hu Eq. unfold run_base, mbind at 1, M_bind at 1.
  rewrite (part_run _ _ _ _ _ n () (set_queue rest (base_of p n)) [BaseUnder pkt]).
  2: { unfold run_posted, mbind, M_bind. cbn [get]. rewrite Hu, Eq. cbn. by rewrite Eq. }
  cbn -[below put_base]. rewrite app_nil_r, set_io_same.
  unfold mbind, M_bind. by destruct (below addr_of p pkt _) as [[[[] ?] ?]|].
Qed.

(** The closure of a layer finds a packet in its queue. *)
Lemma run_base_pops p q n :
  net_ok n → io_ctx_ n = KBase p :: q →
  ∃ pkt n1, item_ok p pkt ∧ net_ok n1 ∧ io_ctx_ n1 = q ∧
    run_base addr_of p (set_io_ctx q n) = (_ ← below addr_of p pkt; mret ()) n1.
Proof.
  intros [Ht Hq Hk] E. destruct (Hq p) as (Hu & Hf & Hp). rewrite E in Hp. cbn [pending] in Hp.
  rewrite decide_True in Hp by done.
  destruct (packet_queue_ (base_of p n)) as [|pkt rest] eqn:Eq; [cbn in Hp; lia|].
  apply Forall_cons in Hf as [Hpkt Hrest].
  set (n1 := put_base p (set_queue rest (base_of p n)) (set_io_ctx q n)).
  exists pkt, n1. assert (io_ctx_ n1 = q) as Eio by (unfold n1; by rewrite io_put).
  split_and!; [done| |done|].
  - split.
    + apply tables_put. by destruct Ht.
    + intros p'. unfold queue_ok. rewrite Eio. destruct (decide (p = p')) as [<-|Hne].
      * unfold n1. rewrite base_put. cbn [packet_queue_ set_queue under_proto_ length] in *.
        split_and!; [done|done|lia].
      * unfold n1. rewrite base_put_ne, base_of_io by done.
        destruct (Hq p') as (Hu' & Hf' & Hp'). rewrite E in Hp'. cbn [pending] in Hp'.
        rewrite decide_False in Hp' by done. by split_and!.
    + rewrite Eio. rewrite E in Hk. apply Forall_cons in Hk as [_ Hk].
      eapply Forall_impl; [exact Hk|]. intros [] Hc'; try done. cbn in *. by apply settled_put.
  - rewrite (run_base_run p pkt rest) by (by rewrite base_of_io). by rewrite base_of_io.
Qed.

(** Every closure runs, and leaves less to be done. *)
Definition closure_step k q n' : Prop :=
  net_ok n' ∧ ∃ q', io_ctx_ n' = q ++ q' ∧ Forall (λ k, is_tcb k = false) q' ∧
    (is_tcb k = true ∨ (weight q' < rank k)%nat).

Lemma after_step k q n1 n' : after (rank k) n1 n' → io_ctx_ n1 = q → closure_step k q n'.
Proof. intros (Hn & q' & E & Hq & Hw) <-. split; [done|]. exists q'. auto. Qed.

Lemma on_resolved_wp f mac r n :
  net_ok n → frame_ok f → (2 < r)%nat →
  wp (_ ← with_ip (on_resolved f mac); mret ()) (λ _ n' _, after r n n') (λ _, False) n.
Proof.
  intros Hn Hf Hr. eapply (part_unit_wp _ ip_posts (λ _ es, es = [IpBase BasePost])).
  - apply with_ip_wp; [done|]. unfold wp. cbn. split; [|done].
    destruct (ok_ip _ (ok_tables _ Hn)) as [Hw Ho Hd].
    split_and!; [by split|by apply Forall_singleton|..].
    + eexists [_]. split_and!; [done|by apply Forall_singleton|done].
    + exists []. split_and!; [apply grown_nil|by apply List.Forall_nil|done].
  - intros _ es ->. split; [by apply Forall_singleton|cbn; lia].
Qed.

Lemma run_tcb_wp te t calls n :
  net_ok n → settled (tcb_m_ n) te → Forall call_ok calls →
  wp (_ ← with_mgr (on_tcb te (run_task t calls)); mret ())
    (λ _ n' _, net_ok n' ∧ (calls = [] → ∃ q, io_ctx_ n' = io_ctx_ n ++ q ∧
      Forall (λ k, is_tcb k = false) q)) (λ f, calls ≠ [] ∧ f = AssertFail) n.
Proof.
  intros Hn (s & Es & Hop) Hcalls. wp_step.
  pose proof (ok_mgr _ (ok_tables _ Hn)) as Hm. destruct (Hm te s Es) as (Hinv & _).
  eapply wp_mono; [apply (with_mgr_wp _ (λ _ es, calls = [] → quiet es)
    (λ f, calls ≠ [] ∧ f = AssertFail)); [done|]| |done].
  - apply wp_and.
    + eapply on_tcb_keeps; [done|exact Es|by apply run_task_wp].
    + destruct calls as [|c calls].
      * eapply wp_mono with (F := λ _, False); [by eapply on_tcb_quiet; [exact Es|apply run_task_quiet]|done|done].
      * eapply wp_mono; [eapply (on_tcb_keeps te s); [done|done|by apply run_task_wp]|done|done].
  - intros [u es] n' _ (Hn' & Eq & Hquiet). wp_steps. split; [done|]. intros ->.
    exists (concat (mgr_posts <$> es)). split; [done|].
    apply Forall_concat, Forall_fmap, Forall_forall. intros ev Hev.
    destruct ev as [[]|te' []]; cbn; repeat constructor. by apply Hquiet in Hev.
Qed.

Lemma run_closure_wp k q calls n :
  net_ok n → io_ctx_ n = k :: q → Forall call_ok calls →
  wp (run_closure addr_of k calls) (λ _ n' _, net_ok n' ∧ (calls = [] → closure_step k q n'))
    (λ f, calls ≠ [] ∧ f = AssertFail) (set_io_ctx q n).
Proof.
  intros Hn E Hcalls.
  assert (∀ (m : NM unit) n1, wp m (λ _ n' _, after (rank k) n1 n') (λ _, False) n1 →
    io_ctx_ n1 = q → wp m (λ _ n' _, net_ok n' ∧ (calls = [] → closure_step k q n'))
      (λ f, calls ≠ [] ∧ f = AssertFail) n1) as Hstep.
  { intros m n1 Hm Hio. eapply wp_mono; [exact Hm| |done]. intros ? n' ? Ha.
    split; [apply Ha|]. intros _. exact (after_step k q n1 n' Ha Hio). }
  destruct k as [te t|p|f mac|cb pkt|cb].
  - destruct (net_ok_tail _ q n Hn E) as [Hn0 Hset]; [done|].
    eapply wp_mono; [by apply (run_tcb_wp te t calls)| |done].
    intros _ n' _ (Hn' & Hq). split; [done|]. intros Hnil. split; [done|].
    destruct (Hq Hnil) as (q' & Eq & Hf). exists q'. split_and!; [done|done|by left].
  - destruct (run_base_pops p q n Hn E) as (pkt & n1 & Hi & Hn1 & Eio & Er).
    unfold wp. cbn [run_closure]. rewrite Er. apply Hstep; [|done]. wp_step.
    eapply wp_mono; [by apply below_wp| |done]. intros ? n' es Ha. by wp_steps.
  - destruct (net_ok_tail _ q n Hn E) as [Hn0 Hf]; [done|].
    apply Hstep; [|done]. apply on_resolved_wp; [done|done|cbn; lia].
  - destruct (net_ok_tail _ q n Hn E) as [Hn0 _]; [done|].
    apply Hstep; [|done]. cbn [run_closure]. wp_steps. apply after_none; [done|cbn; lia].
  - destruct (net_ok_tail _ q n Hn E) as [Hn0 _]; [done|].
    apply Hstep; [|done]. cbn [run_closure]. wp_steps. apply after_none; [done|cbn; lia].
Qed.

(** ** Up *)

Lemma receive_wp {H P S E} (mk : M S E (option P)) (u : uppers H) proto Q F s :
  wp mk (λ out s' es, ∀ r, r = None ∨ (∃ h x, out = Some x ∧ r = Some (h, x)) → Q r s' es) F s →
  wp (receive mk u proto) Q F s.
Proof.
  intros Hm. unfold receive. wp_step. eapply wp_mono; [exact Hm| |done]. intros out s' es HQ.
  wp_steps. rewrite app_nil_r. apply HQ. destruct out as [p|]; [|by left]. cbn. unfold dispatch.
  destruct (u !! proto p) as [h|]; [right; by exists h, p|by left].
Qed.

Lemma mgr_up_wp junk isn pkt n :
  net_ok n → ind_ok junk → is_u 32 isn → endpoint_ok (tp_remote_ep pkt) →
  endpoint_ok (tp_local_ep pkt) →
  wp (mgr_up junk isn pkt) (λ _ n' _, net_ok n') remote_fault n.
Proof.
  intros Hn Hj Hisn Hr Hl. unfold mgr_up. wp_step.
  eapply wp_mono; [apply (with_mgr_wp _ (λ _ _, True)); [done|]| |done].
  - eapply wp_mono; [apply mgr_process_keeps; try done; apply Hn|done|done].
  - intros ? n' ? [Hn' _]. by wp_steps.
Qed.

Lemma raw_posts es : Forall raw_event es → pending PTcp (concat (tcp_posts <$> es)) = 0%nat.
Proof.
  induction 1 as [|ev es Hev _ IH]; [done|]. rewrite fmap_cons. cbn [concat].
  rewrite pending_app, IH. by destruct ev.
Qed.

(** An operation of the TCP layer that sends nothing. *)
Lemma with_tcp_raw_wp {A} (op : M tcp tcp_event A) (P : A → Prop) F n :
  net_ok n →
  wp op (λ x s' es, tcp_base s' = tcp_base (tcp_ n) ∧ Forall raw_event es ∧ P x) F (tcp_ n) →
  wp (with_tcp op) (λ r n' _, net_ok n' ∧ P r.1) F n.
Proof.
  intros Hn Hop. eapply wp_mono; [apply (with_tcp_wp op (λ x _, P x)); [done|]| |done].
  - eapply wp_mono; [exact Hop| |done]. intros x s' es (Hb & He & HP). split; [|done].
    exists []. rewrite Hb. split_and!; [apply grown_nil|by apply List.Forall_nil|by apply raw_posts].
  - by intros r n' _ (Hn' & _ & HP).
Qed.

Lemma tcp_up_wp junk isn pkt n :
  net_ok n → ind_ok junk → is_u 32 isn → ipv4_ok (src_addrv4 pkt) → ipv4_ok (dst_addrv4 pkt) →
  wp (tcp_up run_cb junk isn pkt) (λ _ n' _, net_ok n') remote_fault n.
Proof.
  intros Hn Hj Hisn Hs1 Hd. unfold tcp_up. wp_step.
  eapply wp_mono; [apply (with_tcp_raw_wp _ (λ out, ∀ h pk, out = Some (h, pk) →
    endpoint_ok (tp_remote_ep pk) ∧ endpoint_ok (tp_local_ep pk))); [done|]| |done].
  - apply receive_wp. eapply wp_mono; [by apply tcp_make_packet_wp| |done].
    intros out s' es (Hb & He & Hp) r Hr. split_and!; [done|done|]. intros h p ->.
    destruct Hr as [|(h' & p' & -> & [= -> ->])]; [done|]. by apply Hp.
  - intros [out es] n' e' [Hn' Hp]. cbn [fst] in Hp.
    destruct out as [[[] p]|]; try (by wp_steps). destruct (Hp _ _ eq_refl).
    by apply mgr_up_wp.
Qed.

Lemma icmp_up_wp pkt n :
  net_ok n → has_room 34 (ipp_skb pkt) →
  wp (icmp_up addr_of pkt) (λ _ n' _, net_ok n') remote_fault n.
Proof.
  intros Hn Hr. unfold icmp_up. wp_step.
  eapply wp_mono; [apply (with_base_wp PIcmp _ (λ _ _, True)); [done|]| |done].
  - eapply wp_mono; [by apply (icmp_process_wp _ 34)| |done].
    intros _ b' es [[-> ->]|(dg & -> & -> & Hdg)]; (split; [|done]).
    + exists []. split_and!; [apply grown_nil|by apply List.Forall_nil|done].
    + exists [dg]. split_and!; [done|by apply Forall_singleton|done].
  - intros ? n' ? [Hn' _]. by wp_steps.
Qed.

(** An operation of IPv4 that changes nothing. *)
Lemma with_ip_pure_wp {A} (op : M (ipv4 Sig) ipv4_event A) (P : A → Prop) F n :
  net_ok n → wp op (λ x s' es, s' = ipv4_ n ∧ es = [] ∧ P x) F (ipv4_ n) →
  wp (with_ip op) (λ r n' _, net_ok n' ∧ P r.1) F n.
Proof.
  intros Hn Hop. eapply wp_mono; [apply (with_ip_wp op (λ x _, P x)); [done|]| |done].
  - eapply wp_mono; [exact Hop| |done]. intros x s' es (-> & -> & HP). split; [|done].
    split_and!; [apply Hn|by apply List.Forall_nil|..];
      (exists []; split_and!; [apply grown_nil|by apply List.Forall_nil|done]).
  - by intros r n' _ (Hn' & _ & HP).
Qed.

Lemma ip_up_wp junk isn f n :
  net_ok n → ind_ok junk → is_u 32 isn → has_room 14 (frame_skb f) →
  wp (ip_up addr_of run_cb junk isn f) (λ _ n' _, net_ok n') remote_fault n.
Proof.
  intros Hn Hj Hisn Hr. unfold ip_up. wp_step.
  eapply wp_mono; [apply (with_ip_pure_wp _ (λ out, ∀ h pk, out = Some (h, pk) →
    ipv4_ok (src_addrv4 pk) ∧ ipv4_ok (dst_addrv4 pk) ∧ has_room 34 (ipp_skb pk))); [done|]| |done].
  - apply receive_wp. eapply wp_mono; [by apply (ip_make_packet_wp 14)| |done].
    intros out s' es (-> & -> & Hp) r Hr'. split_and!; [done|done|]. intros h p ->.
    destruct Hr' as [|(h' & p' & -> & [= -> ->])]; [done|]. by apply Hp.
  - intros [out es] n' e' [Hn' Hp]. cbn [fst] in Hp.
    destruct out as [[[] p]|]; try (by wp_steps); destruct (Hp _ _ eq_refl) as (? & ? & ?).
    + by apply icmp_up_wp.
    + by apply tcp_up_wp.
Qed.

(** *** ARP *)

Lemma ip_ok_arp (s : ipv4 Sig) (a' : arp Sig) :
  ip_ok s → (∀ a, Forall frame_ok (sig_slots (replies_at a' a))) →
  (∀ a mac, neigh.query a (arp_cache_ (arp_ s)) = Some mac → neigh.query a (arp_cache_ a') = Some mac) →
  ip_ok (set_arp a' s).
Proof.
  intros [Hw Hr Hd] Hw' Hc'.
  assert (∀ r, route_ok (arp_cache_ (arp_ s)) r → route_ok (arp_cache_ a') r) as Hroute.
  { intros r [Hdev [mac Hm]]. split; [done|]. exists mac. by apply Hc'. }
  split; [done|..]; cbn; eauto.
Qed.

Lemma resolved_calls_wp es n :
  net_ok n → Forall (λ ev, match ev with IpArp (ArpCall f _) => frame_ok f | _ => True end) es →
  wp (resolved_calls es) (λ _ n' _, net_ok n') (λ _, False) n.
Proof.
  intros Hn He. revert n Hn. induction He as [|ev es Hev _ IH]; intros n Hn; cbn [resolved_calls].
  { by wp_steps. }
  destruct ev as [|[| |f mac]]; try by apply IH.
  assert (wp (_ ← with_ip (on_resolved f mac); mret ()) (λ _ n' _, net_ok n') (λ _, False) n) as H1.
  { eapply wp_mono; [by apply (on_resolved_wp f mac 3); [..|lia]| |done]. by intros ? ? ? [? _]. }
  unfold wp in H1. wp_step. unfold wp, mbind, M_bind, mret, M_ret in *.
  destruct (with_ip (on_resolved f mac) n) as [[[x n1] e1]|]; [|done].
  specialize (IH n1 H1). unfold wp in IH. by destruct (resolved_calls es n1) as [[[[] ?] ?]|].
Qed.

(** The callbacks that a reply calls hold frames for a device. *)
Definition calls_ok (es : list ipv4_event) : Prop :=
  Forall (λ ev, match ev with IpArp (ArpCall f _) => frame_ok f | _ => True end) es.

Lemma arp_handler_wp f (s : ipv4 Sig) :
  ip_ok s → frame_ok f →
  wp (zoom arp_ set_arp IpArp (arp_process f)) (λ _ s' es, ip_keeps s s' es ∧ calls_ok es)
    remote_fault s.
Proof.
  intros Hip [Hr Hdev].
  apply wp_zoom. eapply wp_mono; [by apply (arp_process_wp 14)| |done].
  intros _ s' es (s0 & (Hb & Hrep & Hcache) & Hcases).
  assert (∀ a, replies_at s0 a = replies_at (arp_ s) a) as Hrep'
    by (intros a; unfold replies_at; by rewrite Hrep).
  assert (ip_ok (set_arp s0 s)) as Hs0.
  { apply ip_ok_arp; [done| |done]. intros a. rewrite Hrep'. by apply ok_waiting. }
  assert (∀ U (b : base U) (ok : U → Prop), ∃ new, grown b b new ∧ Forall ok new ∧ 0%nat = length new)
    as Hnone by (intros U b ok; exists []; split_and!; [apply grown_nil|by apply List.Forall_nil|done]).
  destruct Hcases as [[-> ->]|[(f' & -> & -> & Hf' & Hd')|(a & mac & -> & ->)]].
  - split; [|by apply List.Forall_nil].
    split_and!; [done|by apply List.Forall_nil|apply Hnone|]. cbn. rewrite Hb. apply Hnone.
  - split; [|by apply Forall_singleton].
    split_and!; [by destruct Hs0 as [Hw Ho Hd]; split|by apply Forall_singleton|apply Hnone|].
    exists [f']. cbn. rewrite Hb. split_and!; [done| |done]. apply Forall_singleton.
    split; [done|by rewrite Hd'].
  - set (calls := (λ cb, ArpCall cb mac) <$> sig_slots (replies_at (arp_ s) a)).
    assert (∀ p, pending p (concat (ip_posts <$> (IpArp <$> calls))) = 0%nat) as Hp0.
    { intros p. unfold calls. by induction (sig_slots (replies_at (arp_ s) a)). }
    split; [split_and!|].
    + apply ip_ok_arp; [done| |done]. intros a'. unfold replies_at. cbn.
      destruct (decide (a' = a)) as [->|Hne].
      * rewrite lookup_insert_eq. cbn. rewrite slots_empty. by apply List.Forall_nil.
      * rewrite lookup_insert_ne by done. by apply ok_waiting.
    + by apply Forall_fmap, Forall_fmap, Forall_true.
    + rewrite Hp0. apply Hnone.
    + rewrite Hp0. cbn. rewrite Hb. apply Hnone.
    + apply Forall_fmap, Forall_fmap. eapply Forall_impl; [by apply (ok_waiting _ Hip a)|done].
Qed.

Lemma arp_up_wp f n :
  net_ok n → frame_ok f → wp (arp_up f) (λ _ n' _, net_ok n') remote_fault n.
Proof.
  intros Hn Hf. unfold arp_up. wp_step. pose proof (ok_ip _ (ok_tables _ Hn)) as Hip.
  eapply wp_mono; [apply (with_ip_wp _ (λ _ es, calls_ok es)); [done|by apply arp_handler_wp]| |done].
  intros [u es] n' e' (Hn' & _ & He). eapply wp_mono; [by apply resolved_calls_wp|done|done].
Qed.

(** *** A frame *)

Lemma eth_up_wp junk isn skb d n :
  net_ok n → ind_ok junk → is_u 32 isn → has_room 0 skb → d ∈ ds →
  wp (eth_up addr_of run_cb junk isn skb d) (λ _ n' _, net_ok n') remote_fault n.
Proof.
  intros Hn Hj Hisn Hr Hd. unfold eth_up. wp_step.
  eapply wp_mono; [apply (with_base_wp PEth _ (λ out _, ∀ h f, out = Some (h, f) → frame_ok f));
    [done|]| |done].
  - apply receive_wp. eapply wp_mono; [by apply (eth_make_packet_wp 0)| |done].
    intros out b' es (-> & -> & f & -> & Hdev & Hroom) r Hr'. split.
    + exists []. split_and!; [apply grown_nil|by apply List.Forall_nil|done].
    + intros h f' ->. destruct Hr' as [|(h' & f'' & [= ->] & [= -> ->])]; [done|].
      split; [done|]. rewrite Hdev. by exists d.
  - intros [out es] n' e' (Hn' & _ & Hf). cbn [fst] in Hf.
    destruct out as [[[] f]|]; try (by wp_steps); destruct (Hf _ _ eq_refl) as [Hroom Hdev].
    + by apply arp_up_wp.
    + by apply ip_up_wp.
Qed.

Lemma net_read_done_wp junk isn d ec buf nbytes n :
  net_ok n → ind_ok junk → is_u 32 isn → d ∈ ds →
  wp (net_read_done addr_of run_cb junk isn d ec buf nbytes) (λ _ n' _, net_ok n') remote_fault n.
Proof.
  intros Hn Hj Hisn Hd. unfold net_read_done. wp_step.
  eapply wp_mono; [apply (with_dev_wp d _ (λ _ es, es = [] ∨
    ∃ skb, has_room 0 skb ∧ es = [DevReceive skb; DevRead 1500]) (λ _, False)); [done|done|]| |done].
  - intros dv _. eapply wp_mono; [apply dev_read_done_wp| |done]. by intros _ dv' es [_ He].
  - intros [u es] n' e' (Hn' & _ & He). cbn [snd] in He.
    destruct He as [->|(skb & Hr & ->)]; cbn [received_calls]; [by wp_steps|].
    wp_step. eapply wp_mono; [by apply eth_up_wp| |done]. intros ? n2 e2 Hn2. by wp_steps.
Qed.
End Facts.
