(* ===== verification/NetnsRun.v ===== *)
(** * The life of a network namespace

    The invariant of [NetnsFacts] holds whatever happens: closures run in the
    order they were posted, frames arrive, writes complete and the program
    calls the layers, interleaved in any way.  And the [io_context] runs out
    of work: what is posted while nothing arrives is finite. *)

From S2P Require Import Prelude Utils Skbuff Addr Headers CircularBuffer Tcb TcbFacts TcbState BaseProtocol.
From S2P Require Import Packets TcbManager Tcp Icmp NeighCache RoutingTable Arp Ipv4 Ethernet Device.
From S2P Require Import Stack Layers Netns NetnsFacts.

Section Run.
Context `{Hh : Host} {Sig : Type} `{Hsig : Signal ethernetv2_frame Sig}
  `{Hspec : !SignalSpec ethernetv2_frame Sig}.
Context {B : Type} `{Hc : CircularBuffer B} `{Hs : !CircularBufferSpec B}.
Context (addr_of : skbuff → Z) (run_cb : nat → endpoint → endpoint → M tcp tcp_event bool).
Context (ds : gset nat).
Context (Heven : ∀ skb, Z.even (addr_of skb) = true) (Hcb : callbacks_ok run_cb).
Implicit Types (n : netns Sig B) (q : list closure) (x : net_action).
Abbreviation net_ok := (net_ok ds).

(** ** Actions *)

(** What is assumed of an action: random numbers and addresses are in range,
    a write completes only when there is one, a route has a device and its
    own address is in the cache. *)
Definition action_ok x n : Prop :=
  match x with
  | NetRun calls => Forall call_ok calls
  | NetReadDone junk isn d _ _ _ => ind_ok junk ∧ is_u 32 isn ∧ d ∈ ds
  | NetWriteDone d _ => ∃ dv, devs n !! d = Some dv ∧ out_skb_q_ dv ≠ []
  | NetConnect junk isn ports _ remote_ep local_addr _ =>
      ind_ok junk ∧ is_u 32 isn ∧ Forall (is_u 16) ports ∧ endpoint_ok remote_ep ∧ ipv4_ok local_addr
  | NetCall te c => is_Some (tcbs_ (tcb_m_ n) !! te) ∧ call_ok c
  | NetSend pkt _ => item_ok ds PMgr pkt
  | NetRoute (rt.Update _ r) | NetRoute (rt.UpdateDefault r) =>
      route_ok ds (arp_cache_ (arp_ (ipv4_ n))) r
  | _ => True
  end.

(** How an action can fail. *)
Definition action_fault x (f : fault) : Prop :=
  match x with
  | NetRun calls => calls ≠ [] ∧ f = AssertFail
  | NetReadDone _ _ _ _ _ _ => remote_fault f
  | NetConnect _ _ _ _ _ _ _ => f = AssertFail ∨ f = OutOfFuel
  | NetCall _ _ => f = AssertFail ∨ f = NullDeref
  | NetAttach _ _ => f = Thrown "is already attached"
  | NetWait _ _ _ => f = Thrown "endpoint is not connected"
  | _ => False
  end.

Lemma unit_wp {A E1} (m : M (netns Sig B) net_event (A * list E1)) posts (P : A → list E1 → Prop) F n :
  wp m (λ r n' _, kept ds posts P n r n') F n → wp (_ ← m; mret ()) (λ _ n' _, net_ok n') F n.
Proof.
  intros Hm. wp_step. eapply wp_mono; [exact Hm| |done]. intros r n' e' [Hn' _]. by wp_steps.
Qed.

Lemma run_one_wp calls n :
  net_ok n → Forall call_ok calls →
  wp (run_one addr_of calls) (λ _ n' _, net_ok n') (λ f, calls ≠ [] ∧ f = AssertFail) n.
Proof.
  intros Hn Hcalls. unfold run_one. wp_steps. destruct (io_ctx_ n) as [|k q] eqn:E; [by wp_steps|].
  wp_steps. eapply wp_mono; [by apply (run_closure_wp addr_of ds Heven k q)| |done].
  by intros ? ? ? [? _].
Qed.

(** A change of the rules of the connection table. *)
Lemma net_listen_wp mt cb n :
  net_ok n → wp (_ ← with_mgr (rule_insert_back mt cb); mret ()) (λ _ n' _, net_ok n') (λ _, False) n.
Proof.
  intros [[Hm Hip Hd] Hq Hk]. cbn. split; [by split| |].
  - intros p. destruct (Hq p) as (Hu & Hf & Hp). by destruct p; cbn in *; rewrite app_nil_r.
  - cbn. by rewrite app_nil_r.
Qed.

Lemma net_call_wp te c n :
  net_ok n → is_Some (tcbs_ (tcb_m_ n) !! te) → call_ok c →
  wp (_ ← with_mgr (on_tcb te (run_call c)); mret ()) (λ _ n' _, net_ok n')
    (λ f, f = AssertFail ∨ f = NullDeref) n.
Proof.
  intros Hn [t Ht] Hcall. apply (unit_wp _ mgr_posts (λ _ _, True)).
  pose proof (ok_mgr _ _ (ok_tables _ _ Hn)) as Hm. destruct (Hm te t Ht) as (Hinv & _).
  apply (with_mgr_wp ds); [done|].
  eapply wp_mono with (F := λ f, f = AssertFail ∨ f = NullDeref);
    [eapply on_tcb_keeps; [done|exact Ht|]|done|done].
  destruct c as [sp cb|buf cb]; cbn [run_call].
  - eapply wp_mono; [by apply async_read_wp|done..].
  - eapply wp_mono; [by apply async_write_wp|done|]. intros f [|[? _]]; auto.
Qed.

Lemma net_route_wp o n :
  net_ok n → action_ok (NetRoute o) n → wp (net_act addr_of run_cb (NetRoute o)) (λ _ n' _, net_ok n')
    (λ _, False) n.
Proof.
  intros Hn Ho. pose proof (ok_ip _ _ (ok_tables _ _ Hn)) as Hip. pose proof Hip as [Hw Hr Hd].
  assert (rt.rt_inv (rt_ (ipv4_ n))) as Hinv.
  { split; [intros a r E|intros r E]; [destruct (Hr a r E) as [(d & Ed & _) _]
      |destruct (Hd r E) as [(d & Ed & _) _]]; by exists d. }
  assert (rt.op_ok o) as Hop.
  { destruct o as [a r|r|a]; cbn in *; [destruct Ho as [(d & Ed & _) _]..|done]; by exists d. }
  destruct (rt.apply_spec o _ Hinv Hop) as (t & Et & _ & Hq & Hdef).
  apply (unit_wp _ ip_posts (λ _ _, True)). apply (with_ip_wp ds); [done|].
  wp_steps. apply wp_lift; rewrite Et; [intros ? [= <-]|done]. wp_steps. cbn [app].
  split; [|done]. split_and!; [|by apply List.Forall_nil|..].
  2-3: (exists []; split_and!; [apply grown_nil|by apply List.Forall_nil|done]).
  split; cbn [arp_ rt_ set_rt]; [done|..].
  - intros a r. rewrite Hq. destruct o as [hop r'|r'|a']; cbn in Ho |- *; [|apply Hr|].
    + destruct (rt.query a _) as [r0|] eqn:E; [intros [= <-]; by apply (Hr a)|].
      case_decide; [by intros [= <-]|done].
    + case_decide; [done|apply Hr].
  - intros r. rewrite Hdef. destruct o as [hop r'|r'|a']; cbn in Ho |- *; [apply Hd| |apply Hd].
    by intros [= <-].
Qed.

Lemma net_send_wp pkt cb n :
  net_ok n → item_ok ds PMgr pkt →
  wp (_ ← with_tcp (tcp_async_write (addr_of (tp_skb pkt)) pkt cb); mret ()) (λ _ n' _, net_ok n')
    (λ _, False) n.
Proof.
  intros Hn [Hr Hl]. apply (unit_wp _ tcp_posts (λ _ _, True)). apply (with_tcp_wp ds); [done|].
  destruct (tcp_process_total (addr_of (tp_skb pkt)) 34 pkt (tcp_ n)) as (skb & E & Hr' & _); [done..|].
  unfold tcp_async_write. wp_step. unfold wp at 1. rewrite E. wp_steps. split; [|done].
  exists [datagram pkt skb]. split_and!; [done|by apply Forall_singleton|done].
Qed.

Lemma raw_unit_wp (op : M tcp tcp_event unit) (F : fault → Prop) n :
  net_ok n →
  wp op (λ _ s' es, tcp_base s' = tcp_base (tcp_ n) ∧ Forall raw_event es) F (tcp_ n) →
  wp (_ ← with_tcp op; mret ()) (λ _ n' _, net_ok n') F n.
Proof.
  intros Hn Hop. wp_step. eapply wp_mono; [apply (with_tcp_raw_wp ds op (λ _, True)); [done|]| |done].
  - eapply wp_mono; [exact Hop| |done]. by intros ? ? ? [? ?].
  - intros r n' e' [Hn' _]. by wp_steps.
Qed.

Lemma net_wait_wp remote_ep local_ep cb n :
  net_ok n →
  wp (_ ← with_tcp (async_wait remote_ep local_ep cb); mret ()) (λ _ n' _, net_ok n')
    (λ f, f = Thrown "endpoint is not connected") n.
Proof.
  intros Hn. apply raw_unit_wp; [done|]. unfold async_wait. wp_steps.
  destruct (rcv_raw_states_ (tcp_ n) !! _) as [[[|pkt pq] w]|]; cbn [raw_pq]; [wp_steps|wp_steps|done];
    (split; [done|]); [by apply List.Forall_nil|by apply Forall_singleton].
Qed.

Lemma net_act_wp x n :
  net_ok n → action_ok x n →
  wp (net_act addr_of run_cb x) (λ _ n' _, net_ok n') (action_fault x) n.
Proof.
  intros Hn Hx. destruct x; cbn [action_ok action_fault net_act] in *.
  - by apply run_one_wp.
  - destruct Hx as (? & ? & ?). by apply (net_read_done_wp _ _ ds Heven Hcb).
  - destruct Hx as (dv & Ed & Hq). apply (unit_wp _ (λ _, []) (λ _ _, True)).
    apply (with_dev_wp ds); [done| |].
    + rewrite <- (ok_devs _ _ (ok_tables _ _ Hn)). by apply elem_of_dom.
    + intros dv' Ed'. assert (dv' = dv) as -> by congruence. by apply dev_written_wp.
  - destruct Hx as (? & ? & ? & ? & ?). apply (unit_wp _ mgr_posts (λ _ _, True)).
    apply (with_mgr_wp ds); [done|]. eapply wp_mono; [apply mgr_connect_keeps; try done; apply Hn|done|done].
  - by apply net_listen_wp.
  - destruct Hx. by apply net_call_wp.
  - by apply net_send_wp.
  - apply raw_unit_wp; [done|]. cbn. by split; [|apply List.Forall_nil].
  - apply raw_unit_wp; [done|]. unfold attach. wp_steps. case_match; [done|]. wp_steps.
    by split; [|apply List.Forall_nil].
  - apply raw_unit_wp; [done|]. cbn. by split; [|apply List.Forall_nil].
  - by apply net_wait_wp.
  - by apply net_route_wp.
  - apply (unit_wp _ ip_posts (λ _ _, True)). apply (with_ip_wp ds); [done|]. wp_steps.
    split; [|done]. pose proof (ok_ip _ _ (ok_tables _ _ Hn)) as Hip.
    split_and!; [|by apply List.Forall_nil|..].
    2-3: (exists []; split_and!; [apply grown_nil|by apply List.Forall_nil|done]).
    apply ip_ok_arp; [done|apply Hip|]. intros a mac E. cbn. destruct kv as [k v].
    by rewrite neigh.lookup_update, E.
Qed.

Fixpoint acts_ok (acts : list net_action) n : Prop :=
  match acts with
  | [] => True
  | x :: acts => action_ok x n ∧
      match net_act addr_of run_cb x n with Ok (_, n', _) => acts_ok acts n' | Fault _ => True end
  end.

Lemma acts_ok_prefix acts1 acts2 n : acts_ok (acts1 ++ acts2) n → acts_ok acts1 n.
Proof.
  revert n. induction acts1 as [|x acts1 IH]; intros n; [done|]. intros [Hx Hok]. split; [done|].
  destruct (net_act addr_of run_cb x n) as [[[u n1] e1]|f]; [by apply IH|done].
Qed.

Lemma net_acts_keep acts n :
  net_ok n → acts_ok acts n →
  wp (net_acts addr_of run_cb acts) (λ _ n' _, net_ok n') (λ f, ∃ x, x ∈ acts ∧ action_fault x f) n.
Proof.
  revert n. induction acts as [|x acts IH]; intros n Hn Hok; cbn [net_acts]; [by wp_steps|].
  destruct Hok as [Hx Hok]. pose proof (net_act_wp x n Hn Hx) as H1. wp_step. unfold wp in *.
  destruct (net_act addr_of run_cb x n) as [[[u n1] e1]|f].
  - specialize (IH n1 H1 Hok). destruct (net_acts addr_of run_cb acts n1) as [[[? ?] ?]|f]; [done|].
    destruct IH as (x' & Hx' & Hf). exists x'. split; [by right|done].
  - exists x. split; [by left|done].
Qed.

(** Whatever happens to a namespace, it stays well formed.  From a fresh
    one, any interleaving of posted closures, received frames, completed
    writes, connections, calls of connections and raw sockets, rules and
    routes keeps one posted closure for each packet in the queue of each
    layer, room in every packet for the headers to come, a device for every
    frame, and connections past the handshake for the closures of
    connections.  Closures the stack posts never fault (the calls of a
    user's callback can overflow a send queue), nor do writes that complete;
    a received frame can only provoke the three faults of a parser. *)
Theorem namespace_stays_well_formed dv acts :
  dom dv = ds → acts_ok acts (set_devs dv netns_new) →
  match net_acts addr_of run_cb acts (set_devs dv netns_new) with
  | Ok (_, n, _) => net_ok n
  | Fault f => ∃ x, x ∈ acts ∧ action_fault x f
  end.
Proof.
  intros Hd Hok. exact (net_acts_keep acts _ (netns_new_ok ds dv Hd) Hok).
Qed.

(** ** The [io_context] runs dry *)

Definition conn_closures q : nat := length (List.filter is_tcb q).

Lemma conn_closures_app q1 q2 : conn_closures (q1 ++ q2) = (conn_closures q1 + conn_closures q2)%nat.
Proof. unfold conn_closures. by rewrite List.filter_app, length_app. Qed.
Lemma conn_closures_none q : Forall (λ k, is_tcb k = false) q → conn_closures q = 0%nat.
Proof. unfold conn_closures. induction 1 as [|k q Hk _ IH]; [done|]. cbn. by rewrite Hk. Qed.
Lemma conn_closures_cons k q :
  conn_closures (k :: q) = ((if is_tcb k then 1 else 0) + conn_closures q)%nat.
Proof. unfold conn_closures. cbn. by destruct (is_tcb k). Qed.
Lemma weight_cons k q : weight (k :: q) = (rank k + weight q)%nat.
Proof. done. Qed.
Lemma weight_app q1 q2 : weight (q1 ++ q2) = (weight q1 + weight q2)%nat.
Proof. unfold weight. by rewrite fmap_app, sum_list_with_app. Qed.

(** One step: fewer closures of connections, or as many and a lighter queue. *)
Lemma run_one_step k q n :
  net_ok n → io_ctx_ n = k :: q →
  ∃ n' out, run_one addr_of [] n = Ok ((), n', out) ∧ net_ok n' ∧
    ((conn_closures (io_ctx_ n') < conn_closures (io_ctx_ n))%nat ∨
     conn_closures (io_ctx_ n') = conn_closures (io_ctx_ n) ∧
     (weight (io_ctx_ n') < weight (io_ctx_ n))%nat).
Proof.
  intros Hn E. pose proof (run_closure_wp addr_of ds Heven k q [] n Hn E (List.Forall_nil _)) as Hw.
  unfold wp in Hw.
  destruct (run_closure addr_of k [] (set_io_ctx q n)) as [[[[] n'] out]|f] eqn:Er; [|by destruct Hw].
  destruct Hw as [Hn' Hstep]. destruct (Hstep eq_refl) as (_ & q' & Eq & Hq' & Hlight).
  exists n', out. split; [|split; [done|]].
  - unfold run_one. rewrite bind_get, E, bind_modify. exact Er.
  - rewrite Eq, E, conn_closures_app, (conn_closures_none q') by done. rewrite weight_app.
    rewrite conn_closures_cons, weight_cons. destruct (is_tcb k); [left; lia|].
    destruct Hlight as [|Hlight]; [done|]. right. lia.
Qed.

Lemma run_until_idle_nil fuel n :
  io_ctx_ n = [] → run_until_idle addr_of fuel n = Ok ((), n, []).
Proof. intros E. by destruct fuel; cbn [run_until_idle]; rewrite bind_get, E. Qed.

(** C11: without further input the [io_context] runs out of work, however
    many connections have something to send.  There is a number of
    closures after which it is idle; none faults; and then every queue of
    every layer is empty, so that each packet has reached a device, waits
    for an ARP reply, or was dropped for want of a route. *)
Theorem io_context_runs_dry n :
  net_ok n →
  ∃ k n' out, (∀ fuel, (k ≤ fuel)%nat → run_until_idle addr_of fuel n = Ok ((), n', out)) ∧
    io_ctx_ n' = [] ∧ net_ok n' ∧ ∀ p, packet_queue_ (base_of p n') = [].
Proof.
  assert (∀ n, net_ok n → io_ctx_ n = [] → ∀ p, packet_queue_ (base_of p n) = []) as Hempty.
  { intros n0 Hn E p. destruct (ok_queues _ _ Hn p) as (_ & _ & Hp). rewrite E in Hp.
    by destruct (packet_queue_ (base_of p n0)). }
  remember (conn_closures (io_ctx_ n)) as c eqn:Ec. revert n Ec.
  induction (lt_wf c) as [c _ IHc]. intros n.
  remember (weight (io_ctx_ n)) as w eqn:Ew. revert n Ew.
  induction (lt_wf w) as [w _ IHw]. intros n Ew Ec Hn.
  destruct (io_ctx_ n) as [|k q] eqn:E.
  { exists 0%nat, n, []. split_and!; [intros; by apply run_until_idle_nil|done..|by apply Hempty]. }
  destruct (run_one_step k q n Hn E) as (n1 & e1 & E1 & Hn1 & Hless).
  assert (∃ k n' out, (∀ fuel, (k ≤ fuel)%nat → run_until_idle addr_of fuel n1 = Ok ((), n', out)) ∧
    io_ctx_ n' = [] ∧ net_ok n' ∧ ∀ p, packet_queue_ (base_of p n') = [])
    as (m & n' & out & Hrun & Hidle & Hn' & Hq').
  { rewrite E in Hless. destruct Hless as [Hless|[Hsame Hless]].
    - by eapply IHc; [|reflexivity|]; [lia|].
    - eapply IHw; [|reflexivity|congruence|done]. lia. }
  exists (S m), n', (e1 ++ out). split; [|done]. intros [|fuel] Hfuel; [lia|].
  cbn [run_until_idle]. rewrite bind_get, E, (bind_run _ _ _ _ _ _ E1), Hrun by lia. done.
Qed.
End Run.

(** ** A concrete namespace *)

(** A ping arrives at a namespace with one device and one route, the
    answer's closures run, and its write completes. *)
Definition test_actions : list net_action :=
  let frame := ethernetv2_header.produce_to_net (H := test_host Little)
      (mk_eth_header (test_mac Byte.x02) (test_mac Byte.x08) IP_PROTO) ++
    ipv4_header.produce_to_net (H := test_host Little)
      (mk_ipv4_header 4 5 0 28 77 0 1 0 0 64 ICMP_PROTO 0 (Ipv4 7) (Ipv4 1)) ++
    icmp_header.produce_to_net (H := test_host Little) (mk_icmp_header 8 0 777 21 3) in
  [NetNeigh (Ipv4 1, test_mac Byte.x02); NetNeigh (Ipv4 9, test_mac Byte.x08);
   NetRoute (rt.UpdateDefault test_route); NetReadDone test_junk 0 0 false frame 42;
   NetRun []; NetRun []; NetRun []; NetRun []; NetWriteDone 0 false].

Definition test_netns : netns (list ethernetv2_frame) reserve_buffer :=
  set_devs {[ 0%nat := mk_device [] ]} netns_new.

Lemma no_callbacks_ok : callbacks_ok (λ _ _ _, mret false).
Proof. intros cb re le s. by split_and!; [..|apply List.Forall_nil]. Qed.

(** Evaluate an action and go on behind it. *)
Ltac next_action :=
  match goal with
  | |- match ?r with Ok _ => _ | Fault _ => _ end =>
      let v := eval vm_compute in r in replace r with v by (vm_compute; reflexivity)
  end; cbv beta iota.

Lemma test_dom : dom ({[ 0%nat := mk_device [] ]} : gmap nat device) = {[ 0%nat ]}.
Proof. apply dom_singleton_L. Qed.

Lemma test_actions_ok :
  let H := test_host Little in
  acts_ok (λ _, 64) (λ _ _ _, mret false) {[ 0%nat ]} test_actions test_netns.
Proof.
  intros H. unfold test_actions. cbn [acts_ok].
  split; [exact I|]. next_action. split; [exact I|]. next_action. split.
  { split; [exists 0%nat; split; [reflexivity|set_solver]|eexists; vm_compute; reflexivity]. }
  next_action. split.
  { split; [unfold ind_ok, is_u; cbn; lia|]. split; [unfold is_u; lia|set_solver]. }
  do 4 (next_action; split; [apply List.Forall_nil|]). next_action. split.
  { eexists. split; [vm_compute; reflexivity|discriminate]. }
  next_action. exact I.
Qed.

Lemma namespace_stays_well_formed_witness :
  let H := test_host Little in
  ∃ n out, net_acts (λ _, 64) (λ _ _ _, mret false) test_actions test_netns = Ok ((), n, out) ∧
    net_ok {[ 0%nat ]} n.
Proof.
  intros H.
  pose proof (namespace_stays_well_formed (λ _, 64) (λ _ _ _, mret false) {[ 0%nat ]}
    ltac:(reflexivity) no_callbacks_ok {[ 0%nat := mk_device [] ]} test_actions test_dom
    test_actions_ok) as P.
  fold test_netns in P.
  assert (match net_acts (λ _, 64) (λ _ _ _, mret false) test_actions test_netns with
    Ok _ => true | Fault _ => false end = true) as Hok by (vm_compute; reflexivity).
  destruct (net_acts (λ _, 64) (λ _ _ _, mret false) test_actions test_netns) as [[[[] n] out]|f];
    [|discriminate Hok].
  exists n, out. split; [reflexivity|exact P].
Defined.

(** The namespace when the ping has come up. *)
Definition test_pinged : netns (list ethernetv2_frame) reserve_buffer :=
  match net_acts (Hh := test_host Little) (λ _, 64) (λ _ _ _, mret false) (take 4 test_actions) test_netns with
  | Ok (_, n, _) => n
  | Fault _ => test_netns
  end.

Lemma test_pinged_ok : net_ok {[ 0%nat ]} test_pinged.
Proof.
  set (H := test_host Little).
  assert (acts_ok (λ _, 64) (λ _ _ _, mret false) {[ 0%nat ]} (take 4 test_actions) test_netns) as Hok.
  { apply (acts_ok_prefix _ _ _ _ (drop 4 test_actions)). apply test_actions_ok. }
  pose proof (net_acts_keep (λ _, 64) (λ _ _ _, mret false) {[ 0%nat ]} ltac:(reflexivity)
    no_callbacks_ok _ _ (netns_new_ok {[ 0%nat ]} {[ 0%nat := mk_device [] ]} test_dom) Hok) as P.
  unfold wp in P. fold test_netns in P. unfold test_pinged. fold H.
  destruct (net_acts _ _ (take 4 test_actions) test_netns) as [[[u n] out]|f]; [exact P|].
  by apply netns_new_ok, test_dom.
Qed.

Lemma io_context_runs_dry_witness :
  let H := test_host Little in
  io_ctx_ test_pinged = [KBase PIcmp] ∧
  ∃ k n' out, (∀ fuel, (k ≤ fuel)%nat → run_until_idle (λ _, 64) fuel test_pinged = Ok ((), n', out)) ∧
    io_ctx_ n' = [] ∧ net_ok {[ 0%nat ]} n' ∧ ∀ p, packet_queue_ (base_of p n') = [].
Proof.
  intros H. split; [vm_compute; reflexivity|].
  exact (io_context_runs_dry (λ _, 64) {[ 0%nat ]} ltac:(reflexivity) test_pinged test_pinged_ok).
Defined.
