(* ===== verification/Ping.v ===== *)
(** * A ping is answered

    One path through a whole namespace: a frame that a device has read goes
    up through Ethernet, IPv4 and ICMP at once, and the answer goes down by
    four closures of the [io_context], until the device writes it. *)

From S2P Require Import Prelude Utils Skbuff Addr Headers CircularBuffer Tcb TcbFacts BaseProtocol.
From S2P Require Import Packets TcbManager Tcp Icmp NeighCache RoutingTable Arp Ipv4 Ethernet Device.
From S2P Require Import Stack Layers Netns NetnsFacts.

Section Ping.
Context `{Hh : Host} {Sig : Type} `{Hsig : Signal ethernetv2_frame Sig}
  `{Hspec : !SignalSpec ethernetv2_frame Sig}.
Context {B : Type} `{Hc : CircularBuffer B}.
Context (addr_of : skbuff → Z) (run_cb : nat → endpoint → endpoint → M tcp tcp_event bool).
Context (Heven : ∀ skb, Z.even (addr_of skb) = true).
Implicit Types (n : netns Sig B) (dg : ipv4_packet).

(** Nothing is queued in any layer. *)
Definition idle n : Prop := io_ctx_ n = [] ∧ ∀ p, base_of p n = mk_base true [].

(** How the packets to [dst] leave: the route, the device, and the MAC
    addresses of both ends of the hop. *)
Definition way_out n (dst : ipv4_addr_t) (nh : rt_record) (d : nat) (src_mac mac : mac_addr_t) : Prop :=
  rt.next_hop dst (rt_ (ipv4_ n)) = Some nh ∧ rec_dev nh = Some d ∧
  neigh.query (from_addrv4 nh) (arp_cache_ (arp_ (ipv4_ n))) = Some src_mac ∧
  neigh.query (via_addrv4 nh) (arp_cache_ (arp_ (ipv4_ n))) = Some mac ∧
  devs n !! d = Some (mk_device []).

(** The bytes on the wire. *)
Definition frame_bytes (src_mac mac : mac_addr_t) dg (id : Z) : list byte :=
  ethernetv2_header.produce_to_net (mk_eth_header mac src_mac IP_PROTO) ++
  ipv4_header.produce_to_net (sent_header dg id) ++ payload (ipp_skb dg).

(** A packet left: the next one has the next identification. *)
Definition one_sent n : netns Sig B := set_ipv4 (set_seq (u16 (seq_ (ipv4_ n) + 1)) (ipv4_ n)) n.

(** One closure runs, and then the others. *)
Lemma run_step fuel k q n n1 e1 n' out :
  io_ctx_ n = k :: q → run_closure addr_of k [] (set_io_ctx q n) = Ok ((), n1, e1) →
  run_until_idle addr_of fuel n1 = Ok ((), n', out) →
  run_until_idle addr_of (S fuel) n = Ok ((), n', e1 ++ out).
Proof.
  intros E Hk Hrun. cbn [run_until_idle]. rewrite bind_get, E.
  assert (run_one addr_of [] n = Ok ((), n1, e1)) as E1 by (unfold run_one; by rewrite bind_get, E, bind_modify).
  by rewrite (bind_run _ _ _ _ _ _ E1), Hrun.
Qed.

Lemma run_more fuel k n n1 e1 n' out :
  io_ctx_ n = [k] → run_closure addr_of k [] (set_io_ctx [] n) = Ok ((), n1, e1) →
  run_until_idle addr_of fuel n1 = Ok ((), n', out) →
  run_until_idle addr_of (S fuel) n = Ok ((), n', e1 ++ out).
Proof. apply run_step. Qed.

(** The closure of a layer, whatever else is to run. *)
Lemma run_first p (x : under_type p) xs q n :
  base_of p n = mk_base true (x :: xs) →
  run_closure addr_of (KBase p) [] (set_io_ctx q n) =
    (_ ← below addr_of p x; mret ()) (put_base p (mk_base true xs) (set_io_ctx q n)).
Proof.
  intros E. cbn [run_closure].
  rewrite (run_base_run addr_of p x xs) by (by rewrite base_of_io, E). by rewrite base_of_io, E.
Qed.

(** The state in which one closure is left, of the layer [p] for [pkt]. *)
Definition one_left p (pkt : under_type p) n : netns Sig B :=
  set_io_ctx [KBase p] (put_base p (mk_base true [pkt]) n).

Lemma run_one_left p pkt n :
  idle n →
  run_closure addr_of (KBase p) [] (set_io_ctx [] (one_left p pkt n)) =
    (_ ← below addr_of p pkt; mret ()) n.
Proof.
  intros [Hio Hidle]. cbn [run_closure].
  rewrite (run_base_run addr_of p pkt []) by (unfold one_left; rewrite !base_of_io, base_put; done).
  f_equal. unfold one_left. rewrite !base_of_io, base_put. specialize (Hidle p).
  destruct n as [[] [] icmp [ib ? ? []] eth dv io]. cbn in Hio. subst io.
  destruct p; cbn in Hidle |- *; by subst.
Qed.

(** What each layer makes of its packet, when nothing else is queued. *)
Lemma unit_run {A E1} (m : M (netns Sig B) net_event (A * list E1)) n r n' out :
  m n = Ok (r, n', out) → (_ ← m; mret ()) n = Ok ((), n', out).
Proof. intros E. rewrite (bind_run _ _ _ _ _ _ E). cbn. by rewrite app_nil_r. Qed.

Lemma ip_down_queued dg n nh d src_mac mac :
  way_out n (dst_addrv4 dg) nh d src_mac mac → has_room 34 (ipp_skb dg) →
  let s1 := set_seq (u16 (seq_ (ipv4_ n) + 1)) (ipv4_ n) in
  rfc1071 (ipv4_header.produce_to_net (sent_header dg (seq_ (ipv4_ n)))) = 0 ∧
  ∃ skb, has_room 14 skb ∧
    payload skb = ipv4_header.produce_to_net (sent_header dg (seq_ (ipv4_ n))) ++ payload (ipp_skb dg) ∧
    ip_down addr_of dg n =
      Ok ((), set_io_ctx (io_ctx_ n ++ [KResolved (mk_frame src_mac mac_addr.zero IP_PROTO skb (Some d)) mac])
                (set_ipv4 s1 n), []).
Proof.
  intros (Hnh & Hd & Hsrc & Hmac & _) Hroom s1. pose proof Hroom as (Hw & Hr & He).
  destruct (ip_process_run (addr_of (ipp_skb dg)) dg (ipv4_ n) Hw)
    as (Hz & skb & Hw' & Hh' & Hp' & E);
    [change ipv4_header.fixed_size with 20; lia|by eapply has_room_even|].
  rewrite Hnh, Hd, Hsrc in E. fold s1 in E. change ipv4_header.fixed_size with 20 in Hh'.
  split; [exact Hz|]. exists skb. split; [|split; [done|]].
  - unfold has_room. rewrite Hh'. split_and!; [done|lia|by rewrite Z.even_sub, He].
  - set (f := mk_frame _ _ _ _ _) in *.
    assert (ip_process (addr_of (ipp_skb dg)) dg (ipv4_ n) = Ok ((), s1, [IpArp (ArpPost f mac)])) as E'.
    { rewrite E. unfold zoom, async_resolve. rewrite bind_get.
      change (arp_cache_ (arp_ s1)) with (arp_cache_ (arp_ (ipv4_ n))). rewrite Hmac. cbn.
      unfold s1. by destruct (ipv4_ n). }
    unfold ip_down. eapply unit_run. unfold with_ip. rewrite (part_run _ _ _ _ _ n _ _ _ E').
    reflexivity.
Qed.

Lemma ip_down_run dg n nh d src_mac mac :
  idle n → way_out n (dst_addrv4 dg) nh d src_mac mac → has_room 34 (ipp_skb dg) →
  let s1 := set_seq (u16 (seq_ (ipv4_ n) + 1)) (ipv4_ n) in
  ∃ skb, has_room 14 skb ∧
    payload skb = ipv4_header.produce_to_net (sent_header dg (seq_ (ipv4_ n))) ++ payload (ipp_skb dg) ∧
    ip_down addr_of dg n =
      Ok ((), set_io_ctx [KResolved (mk_frame src_mac mac_addr.zero IP_PROTO skb (Some d)) mac]
                (set_ipv4 s1 n), []).
Proof.
  intros [Hio _] Hway Hroom s1. destruct (ip_down_queued dg n nh d src_mac mac Hway Hroom) as (_ & skb & Hr & Hp & E).
  exists skb. by rewrite Hio in E.
Qed.

Lemma idle_ip s n :
  idle n → ip_base s = ip_base (ipv4_ n) → arp_base (arp_ s) = arp_base (arp_ (ipv4_ n)) →
  idle (set_ipv4 s n).
Proof.
  intros [Hio Hidle] E1 E2. split; [done|]. intros p. rewrite <- (Hidle p). by destruct p.
Qed.

Lemma on_resolved_queued f mac fs n :
  ip_base (ipv4_ n) = mk_base true fs →
  (_ ← with_ip (on_resolved f mac); mret ()) n =
    Ok ((), set_io_ctx (io_ctx_ n ++ [KBase PIp]) (put_base PIp (mk_base true (fs ++
      [mk_frame (src_mac_addr f) mac (frame_proto f) (frame_skb f) (frame_dev f)])) n), []).
Proof.
  intros Hb. eapply unit_run. unfold with_ip. erewrite part_run by reflexivity. cbn. by rewrite Hb.
Qed.

Lemma on_resolved_run f mac n :
  idle n →
  (_ ← with_ip (on_resolved f mac); mret ()) n =
    Ok ((), one_left PIp (mk_frame (src_mac_addr f) mac (frame_proto f) (frame_skb f) (frame_dev f)) n, []).
Proof. intros [Hio Hidle]. by rewrite (on_resolved_queued f mac [] n (Hidle PIp)), Hio. Qed.

Lemma eth_down_queued f bs n :
  has_room 14 (frame_skb f) → is_Some (frame_dev f) → eth_ n = mk_base true bs →
  ∃ skb, eth_down f n = Ok ((), set_io_ctx (io_ctx_ n ++ [KBase PEth])
      (put_base PEth (mk_base true (bs ++ [(skb, frame_dev f)])) n), []) ∧
    payload skb = ethernetv2_header.produce_to_net
      (mk_eth_header (dst_mac_addr f) (src_mac_addr f) (frame_proto f)) ++ payload (frame_skb f).
Proof.
  intros (Hw & Hr & _) Hd Hb. destruct (eth_process_run f Hw Hr Hd) as (skb & E & _ & _ & Hp).
  exists skb. split; [|done]. unfold eth_down. eapply unit_run. unfold with_eth.
  rewrite (part_run _ _ _ _ _ n _ _ _ (E (eth_ n))). by rewrite Hb.
Qed.

Lemma eth_down_run f n :
  idle n → frame_ok (dom (devs n)) f →
  ∃ skb, eth_down f n = Ok ((), one_left PEth (skb, frame_dev f) n, []) ∧
    payload skb = ethernetv2_header.produce_to_net
      (mk_eth_header (dst_mac_addr f) (src_mac_addr f) (frame_proto f)) ++ payload (frame_skb f).
Proof.
  intros [Hio Hidle] [Hr (d & Hd & _)].
  destruct (eth_down_queued f [] n Hr) as (skb & E & Hp); [by rewrite Hd|exact (Hidle PEth)|].
  exists skb. by rewrite E, Hio.
Qed.

(** The device writes at once, or when what is before was written. *)
Definition queued_at (d : nat) (q : list skbuff) n : netns Sig B := set_devs (<[d := mk_device q]> (devs n)) n.

Lemma dev_down_queued skb d x q n :
  devs n !! d = Some (mk_device (x :: q)) →
  dev_down (skb, Some d) n = Ok ((), queued_at d (x :: q ++ [skb]) n, []).
Proof.
  intros Hd. unfold dev_down. cbn [fst snd]. eapply unit_run. unfold with_dev. rewrite bind_get, Hd.
  erewrite part_run.
  2: { unfold dev_process, mbind, M_bind, when. cbn [modify get out_skb_q_].
       rewrite (proj2 (Z.eqb_neq 1 _)); [reflexivity|]. cbn [app]. cbn [length]. rewrite length_app. cbn [length]. lia. }
  cbn. rewrite app_nil_r. reflexivity.
Qed.

Lemma written_queued d x y q n :
  devs n !! d = Some (mk_device (x :: y :: q)) →
  net_written d false n = Ok ((), queued_at d (skb_moved y :: q) n, [NetWrite d (payload y)]).
Proof.
  intros Hd. unfold net_written. eapply unit_run. unfold with_dev. rewrite bind_get, Hd.
  erewrite part_run by reflexivity. cbn. rewrite app_nil_r. reflexivity.
Qed.

Lemma dev_down_run skb d n :
  devs n !! d = Some (mk_device []) →
  dev_down (skb, Some d) n = Ok ((), queued_at d [skb_moved skb] n, [NetWrite d (payload skb)]).
Proof.
  intros Hd. unfold dev_down. cbn [fst snd]. eapply unit_run. unfold with_dev.
  rewrite bind_get, Hd. erewrite part_run by reflexivity. cbn.
  rewrite app_nil_r. reflexivity.
Qed.

(** A frame that is queued above Ethernet is written by two closures. *)
Lemma eth_leaves p f n n' d :
  io_ctx_ n' = [KBase p] → run_closure addr_of (KBase p) [] (set_io_ctx [] n') = (_ ← eth_down f; mret ()) n →
  idle n → frame_ok (dom (devs n)) f → frame_dev f = Some d → devs n !! d = Some (mk_device []) →
  ∃ skb, run_until_idle addr_of 2 n' = Ok ((), set_devs (<[d := mk_device [skb]]> (devs n)) n,
    [NetWrite d (ethernetv2_header.produce_to_net
       (mk_eth_header (dst_mac_addr f) (src_mac_addr f) (frame_proto f)) ++ payload (frame_skb f))]).
Proof.
  intros Hio' Hrun Hidle Hf Hd Hdev. pose proof Hidle as [Hio _].
  destruct (eth_down_run f n Hidle Hf) as (skb & Eeth & Hp). rewrite <- Hp.
  pose proof (dev_down_run skb d n Hdev) as Edev. exists (skb_moved skb).
  change [NetWrite d (payload skb)] with ([] ++ [NetWrite d (payload skb)] ++ []).
  eapply run_more; [done| |].
  { rewrite Hrun, (bind_run _ _ _ _ _ _ Eeth). reflexivity. }
  eapply run_more; [done| |].
  { rewrite run_one_left by done. cbn [below]. rewrite Hd, (bind_run _ _ _ _ _ _ Edev). reflexivity. }
  cbn [run_until_idle]. rewrite bind_get. cbn. by rewrite Hio.
Qed.

(** Three more closures, and the frame is written. *)
Lemma resolved_leaves f mac n d :
  idle n → frame_ok (dom (devs n)) f → frame_dev f = Some d → devs n !! d = Some (mk_device []) →
  ∃ skb, run_until_idle addr_of 3 (set_io_ctx [KResolved f mac] n) =
      Ok ((), set_devs (<[d := mk_device [skb]]> (devs n)) n,
          [NetWrite d (ethernetv2_header.produce_to_net
        (mk_eth_header mac (src_mac_addr f) (frame_proto f)) ++ payload (frame_skb f))]).
Proof.
  intros Hidle Hf Hd Hdev. pose proof Hidle as [Hio _].
  set (f' := mk_frame (src_mac_addr f) mac (frame_proto f) (frame_skb f) (frame_dev f)).
  destruct (eth_leaves PIp f' n (one_left PIp f' n) d) as (skb & Erun); try done.
  { by rewrite run_one_left. }
  exists skb. apply (run_more 2 (KResolved f mac) _ (one_left PIp f' n) []); [done| |exact Erun].
  cbn [run_closure]. change (set_io_ctx [] (set_io_ctx [KResolved f mac] n)) with (set_io_ctx [] n).
  rewrite <- Hio, set_io_same. by apply on_resolved_run.
Qed.

(** The write of the only frame completes. *)
Lemma written_run d skb n :
  devs n !! d = Some (mk_device [skb]) →
  net_written d false n = Ok ((), set_devs (<[d := mk_device []]> (devs n)) n, []).
Proof.
  intros Hd. unfold net_written. eapply unit_run. unfold with_dev. rewrite bind_get, Hd.
  erewrite part_run by reflexivity. cbn. rewrite app_nil_r. reflexivity.
Qed.

(** ** Up *)

(** An operation that changes and does nothing. *)
Lemma part_pure {S1 E1 A} (f : netns Sig B → S1) g posts outs (op : M S1 E1 A) n x :
  op (f n) = Ok (x, f n, []) → g (f n) n = n → part f g posts outs op n = Ok ((x, []), n, []).
Proof. intros E Hg. rewrite (part_run _ _ _ _ _ _ _ _ _ E), Hg. cbn. by rewrite app_nil_r, set_io_same. Qed.

(** The frames with an echo request. *)
Definition echo_request eh iph h (data : list byte) : list byte :=
  ethernetv2_header.produce_to_net eh ++ ipv4_header.produce_to_net iph ++
  icmp_header.produce_to_net h ++ data.
Definition request_ok (eh : ethernetv2_header_t) (iph : ipv4_header_t) (h : icmp_header_t) : Prop :=
  eth_header_ok eh ∧ ipv4_header_ok iph ∧ icmp_header_ok h ∧
  eth_proto eh = IP_PROTO ∧ ip_version iph = 4 ∧ ip_proto_type iph = ICMP_PROTO ∧ icmp_proto_type h = 8.

(** The datagram that ICMP queues in answer. *)
Definition reply_to iph h data dg : Prop :=
  src_addrv4 dg = ip_dst_addr iph ∧ dst_addrv4 dg = ip_src_addr iph ∧ ipp_proto dg = ICMP_PROTO ∧
  ∃ c, payload (ipp_skb dg) =
      be_split 2 0 ++ be_split 2 c ++ be_split 2 (icmp_id h) ++ be_split 2 (icmp_seq h) ++ data ∧
    rfc1071 (payload (ipp_skb dg)) = 0.

Lemma icmp_up_run pkt h data n :
  idle n → skb_wf (ipp_skb pkt) → headroom (ipp_skb pkt) = 34 →
  payload (ipp_skb pkt) = icmp_header.produce_to_net h ++ data → icmp_header_ok h →
  icmp_proto_type h = 8 → sum_ok (icmp_header.produce_to_net h ++ data) →
  ∃ skb c, icmp_up addr_of pkt n =
      Ok ((), one_left PIcmp (mk_ipv4_packet (dst_addrv4 pkt) (src_addrv4 pkt) (ipp_proto pkt) skb) n, []) ∧
    has_room 34 skb ∧ payload skb =
      be_split 2 0 ++ be_split 2 c ++ be_split 2 (icmp_id h) ++ be_split 2 (icmp_seq h) ++ data ∧
    rfc1071 (payload skb) = 0.
Proof.
  intros [Hio Hidle] Hw Hroom Hp Hok Ht Hsum.
  destruct (icmp_process_echo (addr_of (ipp_skb pkt)) h data pkt (icmp_ n) Hw Hp Hok Ht)
    as (skb & c & E & Hw' & Hr' & Hp' & _ & Hz); [by rewrite Hp|by rewrite Z.even_add, Heven, Hroom|].
  exists skb, c. split_and!; [|unfold has_room; by rewrite Hr', Hroom|done|done].
  unfold icmp_up. eapply unit_run. unfold with_icmp. rewrite (part_run _ _ _ _ _ n _ _ _ E).
  assert (icmp_ n = mk_base true []) as -> by apply (Hidle PIcmp). cbn. by rewrite Hio.
Qed.

Lemma request_up junk isn eh iph h data skb d n :
  idle n → skb_wf skb → headroom skb = 0 → payload skb = echo_request eh iph h data →
  request_ok eh iph h → sum_ok (icmp_header.produce_to_net h ++ data) →
  ∃ dg, eth_up addr_of run_cb junk isn skb d n = Ok ((), one_left PIcmp dg n, []) ∧
    has_room 34 (ipp_skb dg) ∧ reply_to iph h data dg.
Proof.
  intros Hidle Hw Hroom Hp (Heh & Hiph & Hok & Ee & Ev & Ep & Et) Hsum.
  destruct (eth_make_packet_run skb eh _ (Some d) Hw Hp Heh) as (skb1 & E1 & Hw1 & Hp1 & Hh1).
  set (fr := mk_frame _ _ _ _ _) in E1.
  destruct (ip_make_packet_run (Sig := Sig) fr iph _ Hw1 Hp1 Hiph) as (skb2 & Hw2 & Hp2 & Hh2 & E2).
  rewrite Ev in E2. cbn [Z.eqb Pos.eqb] in E2. set (pkt := mk_ipv4_packet _ _ _ skb2) in E2.
  assert (headroom skb2 = 34) as H34.
  { rewrite Hh2. cbn [frame_skb fr]. rewrite Hh1, Hroom. done. }
  destruct (icmp_up_run pkt h data n Hidle Hw2 H34 Hp2 Hok Et Hsum) as (skb' & c & E3 & Hr & Hp' & Hz).
  exists (mk_ipv4_packet (dst_addrv4 pkt) (src_addrv4 pkt) (ipp_proto pkt) skb').
  split; [|split; [exact Hr|]].
  - unfold eth_up, with_eth, eth_receive. rewrite (bind_run _ _ _ (Some (LIpv4, fr), []) n []).
    2: { apply part_pure; [|by destruct n]. unfold bottom.receive. rewrite (bind_run _ _ _ _ _ _ (E1 _)).
         unfold fr. by rewrite Ee. }
    unfold ip_up, with_ip, ip_receive. rewrite (bind_run _ _ _ (Some (LIcmp, pkt), []) n []).
    2: { apply part_pure; [|by destruct n]. unfold receive. rewrite (bind_run _ _ _ _ _ _ (E2 _)).
         unfold pkt. by rewrite Ep. }
    by rewrite E3.
  - unfold reply_to. cbn [src_addrv4 dst_addrv4 ipp_proto ipp_skb pkt]. split_and!; [done..|by exists c].
Qed.

(** A read completes with a frame, and the next is started. *)
Lemma frame_read junk isn d buf n :
  is_Some (devs n !! d) →
  ∃ skb, skb_wf skb ∧ headroom skb = 0 ∧ payload skb = buf ∧
    ∀ n' es, eth_up addr_of run_cb junk isn skb d n = Ok ((), n', es) →
      net_read_done addr_of run_cb junk isn d false buf (len buf) n = Ok ((), n', es ++ [NetRead d 1500]).
Proof.
  intros [dv Hdv].
  destruct (skb_new_Ok (take (Z.to_nat (len buf)) buf) 0) as (skb & Eskb & Hw & Hp & Hroom & _); [lia|].
  rewrite Nat2Z.id, firstn_all in Eskb, Hp. rewrite drop_0 in Hp.
  exists skb. split_and!; [done..|]. intros n' es Hup.
  unfold net_read_done. rewrite (bind_run _ _ n ((), [DevReceive skb; DevRead 1500]) n []).
  - cbn [received_calls]. rewrite (bind_run _ _ _ _ _ _ Hup). reflexivity.
  - unfold with_dev. rewrite bind_get, Hdv.
    rewrite (part_run _ _ _ _ _ n () dv [DevReceive skb; DevRead 1500]).
    + cbn. rewrite app_nil_r, insert_id by done. by destruct n.
    + unfold dev_read_done, mbind, M_bind, lift. by rewrite Nat2Z.id, firstn_all, Eskb.
Qed.

(** C12: a ping is answered.  When nothing is queued and a device has read a
    frame with an echo request, the frame goes up at once, the next read is
    started, and four closures later the answer is written to the device of
    the route to the sender: one frame, with the MAC addresses of that hop,
    an IPv4 header with the addresses swapped, the next identification and a
    valid checksum, and an echo reply with the identifier, sequence number
    and data of the request and a valid checksum.  Then nothing is left to be
    done.  The request has at most 131070 bytes, which any frame satisfies,
    and on a big-endian host an even number of them: there the code answers
    data of odd length with a wrong checksum ([checksum_big_endian_odd]). *)
Theorem ping_is_answered junk isn eh iph h data d nh d' src_mac mac n :
  idle n → is_Some (devs n !! d) → way_out n (ip_src_addr iph) nh d' src_mac mac →
  request_ok eh iph h → sum_ok (icmp_header.produce_to_net h ++ data) →
  let buf := echo_request eh iph h data in
  let id := seq_ (ipv4_ n) in
  ∃ n' dg, (_ ← net_read_done addr_of run_cb junk isn d false buf (len buf);
            run_until_idle addr_of 4) n =
      Ok ((), n', [NetRead d 1500; NetWrite d' (frame_bytes src_mac mac dg id)]) ∧
    io_ctx_ n' = [] ∧ reply_to iph h data dg ∧
    rfc1071 (ipv4_header.produce_to_net (sent_header dg id)) = 0.
Proof.
  intros Hidle Hdv Hway Hok Hsum buf id.
  destruct (frame_read junk isn d buf n Hdv) as (skb & Hw & Hroom & Hp & Hread).
  destruct (request_up junk isn eh iph h data skb d n Hidle Hw Hroom Hp Hok Hsum)
    as (dg & Eup & Hr & Hreply).
  pose proof Hreply as (_ & Hdst & _). rewrite <- Hdst in Hway.
  destruct (ip_down_run dg n nh d' src_mac mac Hidle Hway Hr) as (skb1 & Hr1 & Hp1 & Edown).
  destruct (ip_process_run (addr_of (ipp_skb dg)) dg (ipv4_ n)) as (Hz & _);
    [apply Hr|change ipv4_header.fixed_size with 20; destruct Hr; lia|by eapply has_room_even|].
  set (n1 := set_ipv4 (set_seq (u16 (seq_ (ipv4_ n) + 1)) (ipv4_ n)) n) in *.
  set (f := mk_frame src_mac mac_addr.zero IP_PROTO skb1 (Some d')) in *.
  destruct Hway as (_ & _ & _ & _ & Hdev').
  assert (idle n1) as Hidle1 by by apply idle_ip.
  destruct (resolved_leaves f mac n1 d' Hidle1) as (skb' & Eleave); [|done|done|].
  { split; [exact Hr1|]. exists d'. split; [done|]. apply elem_of_dom. by exists (mk_device []). }
  exists (set_devs (<[d' := mk_device [skb']]> (devs n1)) n1), dg.
  split_and!; [|apply Hidle|done|done].
  pose proof (Hread _ _ Eup) as Eread.
  assert (run_closure addr_of (KBase PIcmp) [] (set_io_ctx [] (one_left PIcmp dg n)) =
    Ok ((), set_io_ctx [KResolved f mac] n1, [])) as Estep.
  { rewrite run_one_left by done. cbn [below]. rewrite (bind_run _ _ _ _ _ _ Edown). reflexivity. }
  pose proof (run_more 3 (KBase PIcmp) (one_left PIcmp dg n) _ _ _ _ eq_refl Estep Eleave) as Erun.
  rewrite (bind_run _ _ _ _ _ _ Eread), Erun. unfold frame_bytes, id. by rewrite <- Hp1.
Qed.
End Ping.

(** ** A concrete namespace *)

(** One device; the neighbour 9 is the gateway to everything. *)
Definition test_net : netns (list ethernetv2_frame) reserve_buffer :=
  set_ipv4 (test_ipv4 (<[Ipv4 9 := test_mac Byte.x08]> {[ Ipv4 1 := test_mac Byte.x02 ]}))
    (set_devs {[ 0%nat := mk_device [] ]} netns_new).
Definition test_eth : ethernetv2_header_t := mk_eth_header (test_mac Byte.x02) (test_mac Byte.x08) IP_PROTO.
Definition test_ping_ip : ipv4_header_t :=
  mk_ipv4_header 4 5 0 30 77 0 1 0 0 64 ICMP_PROTO 0 (Ipv4 7) (Ipv4 1).
Definition test_ping : icmp_header_t := mk_icmp_header 8 0 777 21 3.

Lemma ping_is_answered_witness :
  let H := test_host Little in
  let data := [Byte.x61; Byte.x62] in
  let buf := echo_request test_eth test_ping_ip test_ping data in
  ∃ n' dg, (_ ← net_read_done (λ _, 64) (λ _ _ _, mret false) test_junk 0 0 false buf (len buf);
            run_until_idle (λ _, 64) 4) test_net =
      Ok ((), n', [NetRead 0 1500;
                   NetWrite 0 (frame_bytes (test_mac Byte.x02) (test_mac Byte.x08) dg 65535)]) ∧
    io_ctx_ n' = [] ∧ reply_to test_ping_ip test_ping data dg ∧
    rfc1071 (ipv4_header.produce_to_net (sent_header dg 65535)) = 0.
Proof.
  intros H data buf.
  refine (ping_is_answered (λ _, 64) (λ _ _ _, mret false) _ test_junk 0 test_eth test_ping_ip test_ping
    data 0 test_route 0 (test_mac Byte.x02) (test_mac Byte.x08) test_net _ _ _ _ _).
  - reflexivity.
  - split; [reflexivity|]. intros []; reflexivity.
  - eexists; reflexivity.
  - unfold way_out. split_and!; reflexivity.
  - unfold request_ok, eth_header_ok, ipv4_header_ok, icmp_header_ok, ipv4_ok, is_u.
    split_and!; first [reflexivity | vm_compute; discriminate].
  - split; [vm_compute; discriminate|discriminate].
Defined.
