(* ===== verification/Pipeline.v ===== *)
(** * Many packets on their way down

    When several packets are queued above TCP they go down together: the
    closures of a layer take them one by one to the next, and the closures of
    that layer come after.  The device writes the first frame, and keeps the
    others until it is written. *)

From S2P Require Import Prelude Utils Skbuff Addr Headers CircularBuffer Tcb TcbFacts BaseProtocol.
From S2P Require Import Packets TcbManager Tcp NeighCache RoutingTable Arp Ipv4 Ethernet Device.
From S2P Require Import Stack Layers Netns NetnsFacts Ping.

(** ** A stage *)

Section Stage.
Context `{Hh : Host} {Sig : Type} `{Hsig : Signal ethernetv2_frame Sig} {B : Type} `{Hc : CircularBuffer B}.
Context (addr_of : skbuff → Z).
Abbreviation netns := (netns Sig B).
(** The packets above and below, the closures they wait for, and where they
    are queued. *)
Context {X Y F : Type} (ku : X → closure) (up : list X → netns → netns).
Context (kl : Y → closure) (low : list Y → netns → netns).
(** What a packet changes besides; what must hold for it; what it is and what
    is made of it. *)
Context (next : netns → netns) (I : netns → Prop) (P : netns → X → F → Prop) (Q : Y → F → Prop).

Definition stage xs ys (n : netns) : netns := set_io_ctx ((ku <$> xs) ++ (kl <$> ys)) (up xs (low ys n)).
Fixpoint each n xs fs : Prop :=
  match xs, fs with
  | [], [] => True
  | x :: xs, f :: fs => P n x f ∧ each (next n) xs fs
  | _, _ => False
  end.
Fixpoint after_all (k : nat) n : netns := match k with O => n | S k => after_all k (next n) end.

Context (Hnext : ∀ n, I n → I (next n)).
Context (Hstep : ∀ n x xs ys f q, I n → P n x f →
  ∃ y, Q y f ∧ run_closure addr_of (ku x) [] (set_io_ctx q (up (x :: xs) (low ys n))) =
    Ok ((), set_io_ctx (q ++ [kl y]) (up xs (low (ys ++ [y]) (next n))), [])).

Lemma stage_run xs : ∀ ys n fs,
  I n → each n xs fs →
  ∃ ys', Forall2 Q ys' fs ∧ ∀ fuel n2 es,
    run_until_idle addr_of fuel (stage [] (ys ++ ys') (after_all (length xs) n)) = Ok ((), n2, es) →
    run_until_idle addr_of (length xs + fuel) (stage xs ys n) = Ok ((), n2, es).
Proof.
  induction xs as [|x xs IH]; intros ys n fs Hn Heach; destruct fs as [|f fs]; try done.
  { exists []. split; [constructor|]. by rewrite app_nil_r. }
  destruct Heach as [Hx Hxs]. set (q := (ku <$> xs) ++ (kl <$> ys)).
  destruct (Hstep n x xs ys f q Hn Hx) as (y & Hy & E).
  destruct (IH (ys ++ [y]) (next n) fs (Hnext _ Hn) Hxs) as (ys' & Hys & Hrun).
  exists (y :: ys'). split; [by constructor|]. intros fuel n2 es Hend. cbn [length Nat.add].
  eapply (run_step addr_of (length xs + fuel) (ku x) q _ _ []); [done|exact E|].
  assert (set_io_ctx (q ++ [kl y]) (up xs (low (ys ++ [y]) (next n))) = stage xs (ys ++ [y]) (next n)) as ->.
  { unfold stage, q. by rewrite fmap_app, app_assoc. }
  apply Hrun. by rewrite <- app_assoc.
Qed.
End Stage.

(** ** From TCP to the device *)

Section Descent.
Context `{Hh : Host} {Sig : Type} `{Hsig : Signal ethernetv2_frame Sig}.
Context {B : Type} `{Hc : CircularBuffer B}.
Context (addr_of : skbuff → Z) (Heven : ∀ skb, Z.even (addr_of skb) = true).
(** The route of the packets. *)
Context (dst : ipv4_addr_t) (nh : rt_record) (d : nat) (src_mac mac : mac_addr_t).
Implicit Types (n : netns Sig B) (dg : ipv4_packet) (dgs : list ipv4_packet) (f : ethernetv2_frame).
Implicit Types (fr : list byte) (frs : list (list byte)) (bs : list (skbuff * option nat)).

Abbreviation many_sent := (after_all one_sent).

Definition queue_at p (xs : list (under_type p)) n : netns Sig B := put_base p (mk_base true xs) n.

Lemma queue_none p n : base_of p n = mk_base true [] → queue_at p [] n = n.
Proof. unfold queue_at. intros E. destruct n as [[] [] ? [? ? ? []] ? ? ?], p; cbn in *; by subst. Qed.

(** What the frame of a datagram is, before and after Ethernet. *)
Definition eth_bytes m f : list byte :=
  ethernetv2_header.produce_to_net (mk_eth_header m (src_mac_addr f) (frame_proto f)) ++ payload (frame_skb f).
Definition to_leave n dg fr : Prop :=
  has_room 34 (ipp_skb dg) ∧ dst_addrv4 dg = dst ∧ fr = frame_bytes src_mac mac dg (seq_ (ipv4_ n)).
Definition resolved f fr : Prop := has_room 14 (frame_skb f) ∧ frame_dev f = Some d ∧ eth_bytes mac f = fr.
Definition addressed f fr : Prop :=
  has_room 14 (frame_skb f) ∧ frame_dev f = Some d ∧ eth_bytes (dst_mac_addr f) f = fr.
Definition to_write (b : skbuff * option nat) fr : Prop := b.2 = Some d ∧ payload b.1 = fr.

(** What the layers of a namespace do not look at. *)
Lemma each_map {X F} (g : netns Sig B → netns Sig B) (R : netns Sig B → X → F → Prop) xs : ∀ fs n,
  (∀ n, one_sent (g n) = g (one_sent n)) → (∀ n x (y : F), R n x y → R (g n) x y) →
  each one_sent R n xs fs → each one_sent R (g n) xs fs.
Proof.
  induction xs as [|x xs IH]; intros [|f fs] n Hg HR; try done. intros [Hx Hxs].
  split; [by apply HR|]. rewrite Hg. by apply IH.
Qed.
Lemma after_all_map (g : netns Sig B → netns Sig B) k : ∀ n,
  (∀ n, one_sent (g n) = g (one_sent n)) → many_sent k (g n) = g (many_sent k n).
Proof. induction k as [|k IH]; intros n Hg; [done|]. cbn [after_all]. by rewrite Hg, IH. Qed.

Lemma each_same {X F} (R : X → F → Prop) (n : netns Sig B) xs fs :
  Forall2 R xs fs → each id (λ _, R) n xs fs.
Proof. induction 1; by cbn. Qed.
Lemma after_same k n : after_all id k n = n.
Proof. by induction k. Qed.

Lemma datagrams_resolve dgs n frs :
  way_out n dst nh d src_mac mac → each one_sent to_leave n dgs frs →
  ∃ fs, Forall2 resolved fs frs ∧ ∀ fuel n2 es,
    run_until_idle addr_of fuel (set_io_ctx ((λ f, KResolved f mac) <$> fs)
      (queue_at PTcp [] (many_sent (length dgs) n))) = Ok ((), n2, es) →
    run_until_idle addr_of (length dgs + fuel)
      (set_io_ctx ((λ _, KBase PTcp) <$> dgs) (queue_at PTcp dgs n)) = Ok ((), n2, es).
Proof.
  intros Hway Heach.
  destruct (stage_run addr_of (λ _, KBase PTcp) (queue_at PTcp) (λ f, KResolved f mac) (λ _ n, n) one_sent
    (λ n, way_out n dst nh d src_mac mac) to_leave resolved) with (xs := dgs) (ys := @nil ethernetv2_frame)
    (n := n) (fs := frs) as (fs & Hfs & Hrun); [done| |done|done|].
  - clear n dgs frs Hway Heach. intros n dg dgs _ fr q Hway (Hroom & Hdst & ->). rewrite <- Hdst in Hway.
    set (n1 := set_io_ctx q (queue_at PTcp dgs n)).
    destruct (ip_down_queued addr_of Heven dg n1 nh d src_mac mac Hway Hroom) as (_ & skb & Hr & Hp & E).
    exists (mk_frame src_mac mac_addr.zero IP_PROTO skb (Some d)). split; [split; [exact Hr|split; [done|]]|].
    + unfold frame_bytes, eth_bytes. cbn [frame_skb src_mac_addr frame_proto]. by rewrite Hp.
    + rewrite (run_first addr_of PTcp dg dgs q) by done. cbn [below].
      change (put_base PTcp (mk_base true dgs) (set_io_ctx q (queue_at PTcp (dg :: dgs) n))) with n1.
      by rewrite (bind_run _ _ _ _ _ _ E).
  - exists fs. split; [done|]. intros fuel n2 es E. unfold stage in Hrun. rewrite app_nil_r in Hrun. by apply Hrun.
Qed.

Lemma frames_are_addressed fs n frs :
  Forall2 resolved fs frs → ip_base (ipv4_ n) = mk_base true [] →
  ∃ fs', Forall2 addressed fs' frs ∧ ∀ fuel n2 es,
    run_until_idle addr_of fuel (set_io_ctx ((λ _, KBase PIp) <$> fs') (queue_at PIp fs' n)) = Ok ((), n2, es) →
    run_until_idle addr_of (length fs + fuel) (set_io_ctx ((λ f, KResolved f mac) <$> fs) n) = Ok ((), n2, es).
Proof.
  intros Hfs Hb.
  destruct (stage_run addr_of (λ f, KResolved f mac) (λ _ n, n) (λ _, KBase PIp) (queue_at PIp) id
    (λ _, True) (λ _, resolved) addressed) with (xs := fs) (ys := @nil ethernetv2_frame) (n := n) (fs := frs)
    as (fs' & Hfs' & Hrun); [done| |done|by apply each_same|].
  - clear n fs frs Hfs Hb. intros n f _ fs fr q _ (Hr & Hd & Hfr).
    exists (mk_frame (src_mac_addr f) mac (frame_proto f) (frame_skb f) (frame_dev f)).
    split; [by split_and!|]. cbn [run_closure]. by rewrite (on_resolved_queued f mac fs) by done.
  - exists fs'. split; [done|]. intros fuel n2 es E. unfold stage in Hrun. rewrite app_nil_r, after_same in Hrun.
    assert (queue_at PIp (@nil ethernetv2_frame) n = n) as E' by by apply queue_none.
    rewrite E' in Hrun. by apply Hrun.
Qed.

Lemma frames_are_framed fs n frs :
  Forall2 addressed fs frs → eth_ n = mk_base true [] → ip_base (ipv4_ n) = mk_base true [] →
  ∃ bs, Forall2 to_write bs frs ∧ ∀ fuel n2 es,
    run_until_idle addr_of fuel (set_io_ctx ((λ _, KBase PEth) <$> bs) (queue_at PEth bs n)) = Ok ((), n2, es) →
    run_until_idle addr_of (length fs + fuel) (set_io_ctx ((λ _, KBase PIp) <$> fs) (queue_at PIp fs n)) =
      Ok ((), n2, es).
Proof.
  intros Hfs Hb Hb'.
  destruct (stage_run addr_of (λ _, KBase PIp) (queue_at PIp) (λ _, KBase PEth) (queue_at PEth) id
    (λ _, True) (λ _, addressed) to_write) with (xs := fs) (ys := @nil (skbuff * option nat)) (n := n) (fs := frs)
    as (bs & Hbs & Hrun); [done| |done|by apply each_same|].
  - clear n fs frs Hfs Hb Hb'. intros n f fs bs fr q _ (Hr & Hd & Hfr).
    set (n1 := set_io_ctx q (queue_at PIp fs (queue_at PEth bs n))).
    destruct (eth_down_queued f bs n1 Hr) as (skb & E & Hp); [by rewrite Hd|done|].
    exists (skb, frame_dev f). split; [by split; [|rewrite <- Hfr]|].
    rewrite (run_first addr_of PIp f fs q) by done. cbn [below].
    change (put_base PIp (mk_base true fs) (set_io_ctx q (queue_at PIp (f :: fs) (queue_at PEth bs n)))) with n1.
    by rewrite (bind_run _ _ _ _ _ _ E).
  - exists bs. split; [done|]. intros fuel n2 es E. unfold stage in Hrun. rewrite after_same in Hrun.
    assert (queue_at PEth (@nil (skbuff * option nat)) n = n) as E1 by by apply queue_none.
    rewrite E1, app_nil_r in Hrun. apply Hrun.
    pose proof (queue_none PIp (queue_at PEth bs n) Hb') as E2.
    exact (eq_trans (f_equal (λ n, run_until_idle addr_of fuel (set_io_ctx _ n)) E2) E).
Qed.

(** The device takes one frame, and keeps the others. *)
Lemma device_keeps bs : ∀ x q n,
  Forall (λ b, b.2 = Some d) bs → devs n !! d = Some (mk_device (x :: q)) → eth_ n = mk_base true [] →
  run_until_idle addr_of (length bs) (set_io_ctx ((λ _, KBase PEth) <$> bs) (queue_at PEth bs n)) =
    Ok ((), set_io_ctx [] (queued_at d (x :: q ++ bs.*1) n), []).
Proof.
  induction bs as [|[skb dv] bs IH]; intros x q n Hbs Hdev Hb.
  - cbn. rewrite app_nil_r. unfold queued_at. rewrite insert_id by done. unfold mret, M_ret. do 3 f_equal.
    unfold queue_at. cbn. rewrite <- Hb. by destruct n.
  - inversion Hbs as [|? ? Hd Hrest]; subst. cbn in Hd. subst dv.
    set (n1 := set_io_ctx ((λ _, KBase PEth) <$> bs) (queue_at PEth bs n)).
    pose proof (dev_down_queued skb d x q n1 Hdev) as E.
    eapply (run_step addr_of (length bs) (KBase PEth) ((λ _, KBase PEth) <$> bs) _ _ []); [done| |].
    + rewrite (run_first addr_of PEth (skb, Some d) bs) by done. cbn [below].
      change (put_base PEth (mk_base true bs) (set_io_ctx _ (set_io_ctx _ _))) with n1.
      rewrite (bind_run _ _ _ _ _ _ E). reflexivity.
    + specialize (IH x (q ++ [skb]) (queued_at d (x :: q ++ [skb]) n) Hrest).
      rewrite <- app_assoc in IH. unfold queued_at in IH |- *. cbn [devs set_devs] in IH.
      rewrite insert_insert_eq in IH. apply IH; [apply lookup_insert_eq|done].
Qed.

(** All of it. *)
Lemma many_sent_keeps (I : netns Sig B → Prop) k : ∀ n, (∀ n, I n → I (one_sent n)) → I n → I (many_sent k n).
Proof. induction k as [|k IH]; intros n Hone Hn; cbn [after_all]; auto. Qed.

Lemma each_length dgs : ∀ n frs, each one_sent to_leave n dgs frs → length dgs = length frs.
Proof.
  induction dgs as [|dg dgs IH]; intros n [|fr frs]; try done. intros [_ Hrest]. cbn. f_equal. by eapply IH.
Qed.

Lemma datagrams_leave dgs n fr frs :
  idle n → way_out n dst nh d src_mac mac → each one_sent to_leave n dgs (fr :: frs) →
  ∃ x skbs, payload <$> skbs = frs ∧
    run_until_idle addr_of (4 * length dgs) (set_io_ctx ((λ _, KBase PTcp) <$> dgs) (queue_at PTcp dgs n)) =
      Ok ((), queued_at d (x :: skbs) (many_sent (length dgs) n), [NetWrite d fr]).
Proof.
  intros Hidle Hway Heach. pose proof (each_length _ _ _ Heach) as Hl.
  set (n' := many_sent (length dgs) n).
  assert (idle n') as Hidle'.
  { apply many_sent_keeps; [|done]. intros m Hm. by apply idle_ip. }
  assert (devs n' !! d = Some (mk_device [])) as Hdev.
  { apply (many_sent_keeps (λ m, devs m !! d = Some (mk_device []))); [done|apply Hway]. }
  destruct (datagrams_resolve dgs n (fr :: frs) Hway Heach) as (fs & Hfs & R1).
  destruct (frames_are_addressed fs n' _ Hfs) as (fs' & Hfs' & R2); [exact (proj2 Hidle' PIp)|].
  destruct (frames_are_framed fs' n' _ Hfs') as (bs & Hbs & R3);
    [exact (proj2 Hidle' PEth)|exact (proj2 Hidle' PIp)|].
  apply Forall2_length in Hfs as L1. apply Forall2_length in Hfs' as L2. apply Forall2_length in Hbs as L3.
  apply Forall2_cons_inv_r in Hbs as ([skb dv] & bs' & [Hd Hp] & Hrest & ->). cbn [fst snd] in Hd, Hp. subst dv fr.
  exists (skb_moved skb), bs'.*1. split.
  { clear -Hrest. induction Hrest as [|b fr bs frs [_ Hp] _ IH]; [done|]. cbn. by rewrite Hp, IH. }
  replace (4 * length dgs)%nat with (length dgs + (length fs + (length fs' + S (length bs'))))%nat by (cbn in *; lia).
  apply R1. refine (eq_trans (f_equal (λ m, run_until_idle addr_of _ (set_io_ctx _ m)) (queue_none PTcp n' (proj2 Hidle' PTcp))) _).
  apply R2, R3.
  eapply (run_step addr_of (length bs') (KBase PEth) _ _
    (set_io_ctx ((λ _, KBase PEth) <$> bs') (queue_at PEth bs' (queued_at d [skb_moved skb] n'))) [NetWrite d _]); [done| |].
  - rewrite (run_first addr_of PEth (skb, Some d) bs') by done. cbn [below].
    erewrite bind_run; [|by apply dev_down_run]. done.
  - assert (set_io_ctx [] (queued_at d (skb_moved skb :: bs'.*1) n') = queued_at d (skb_moved skb :: bs'.*1) n') as <-.
    { destruct Hidle' as [Hio _]. clearbody n'. destruct n'. cbn in Hio. by subst. }
    pose proof (device_keeps bs' (skb_moved skb) [] (queued_at d [skb_moved skb] n')) as E.
    unfold queued_at in E |- *. cbn [devs set_devs app] in E. rewrite insert_insert_eq in E. apply E.
    + clear -Hrest. induction Hrest as [|b fr bs frs [Hd _] _ IH]; by constructor.
    + apply lookup_insert_eq.
    + exact (proj2 Hidle' PEth).
Qed.
End Descent.
