(* ===== verification/Resolve.v ===== *)
(** * A neighbour is found

    A datagram for a next hop whose MAC address the cache does not know: a
    request is broadcast, the host that has the address answers from its
    cache, and the datagram leaves for it.  Both hosts have learnt the other,
    so that what follows needs no request. *)

From S2P Require Import Prelude Utils Skbuff Addr Headers CircularBuffer Tcb TcbFacts BaseProtocol.
From S2P Require Import Packets TcbManager Tcp NeighCache RoutingTable Arp Ipv4 Ethernet Device.
From S2P Require Import Stack Layers Netns NetnsFacts Ping.

(** What is written does not depend on the host. *)
Lemma arp_produce_host (H1 H2 : Host) h :
  arpv4_header.produce_to_net (H := H1) h = arpv4_header.produce_to_net (H := H2) h.
Proof. unfold arpv4_header.produce_to_net, ipv4_addr.produce_to_net. by autorewrite with wire. Qed.

(** The question who has [to_], and the answer that [mac] does. *)
Definition question (src_mac : mac_addr_t) (from_ to_ : ipv4_addr_t) : arpv4_header_t :=
  mk_arp_header 1 2048 6 4 1 src_mac from_ mac_addr.zero to_.

(** An address that is learnt. *)
Definition learnable (m : mac_addr_t) : Prop := mac_addr.is_broadcast m || mac_addr.is_zero m = false.

Section Frames.
Context `{Hh : Host}.

Definition arp_frame (dst src : mac_addr_t) (h : arpv4_header_t) : list byte :=
  ethernetv2_header.produce_to_net (mk_eth_header dst src ARP_PROTO) ++ arpv4_header.produce_to_net h.

Lemma length_arp_frame dst src h : len (arp_frame dst src h) = 42.
Proof.
  unfold arp_frame. pose proof (eth_length (mk_eth_header dst src ARP_PROTO)). pose proof (arp_length h).
  rewrite length_app. lia.
Qed.
End Frames.

Section Resolve.
Context `{Hh : Host} {Sig : Type} `{Hsig : Signal ethernetv2_frame Sig}
  `{Hspec : !SignalSpec ethernetv2_frame Sig}.
Context {B : Type} `{Hc : CircularBuffer B}.
Context (addr_of : skbuff → Z) (run_cb : nat → endpoint → endpoint → M tcp tcp_event bool).
Context (Heven : ∀ skb, Z.even (addr_of skb) = true).
Implicit Types (n : netns Sig B) (dg : ipv4_packet) (f : ethernetv2_frame).

Definition cache n : neigh_cache := arp_cache_ (arp_ (ipv4_ n)).
Definition waiting n a : list ethernetv2_frame := sig_slots (replies_at (arp_ (ipv4_ n)) a).

(** The route is known, and the device is free; the next hop is not. *)
Definition unknown_hop n (dst : ipv4_addr_t) (nh : rt_record) (d : nat) (src_mac : mac_addr_t) : Prop :=
  rt.next_hop dst (rt_ (ipv4_ n)) = Some nh ∧ rec_dev nh = Some d ∧
  neigh.query (from_addrv4 nh) (cache n) = Some src_mac ∧ neigh.query (via_addrv4 nh) (cache n) = None ∧
  devs n !! d = Some (mk_device []) ∧ waiting n (via_addrv4 nh) = [].

(** ** The question *)

(** [f] waits for the address [a]. *)
Definition with_waiting f a n : netns Sig B :=
  set_ipv4 (set_arp (set_replies (<[a := sig_connect f (replies_at (arp_ (ipv4_ n)) a)]>
    (on_replies_ (arp_ (ipv4_ n)))) (arp_ (ipv4_ n))) (ipv4_ n)) n.

Lemma idle_waiting f a n : idle n → idle (with_waiting f a n).
Proof. intros Hidle. by apply idle_ip. Qed.

Lemma waiting_with f a n : waiting n a = [] → waiting (with_waiting f a n) a = [f].
Proof.
  unfold waiting, with_waiting, replies_at. intros E. cbn. rewrite lookup_insert_eq. cbn.
  by rewrite slots_connect, E.
Qed.

Lemma ip_asks dg n nh d src_mac :
  idle n → unknown_hop n (dst_addrv4 dg) nh d src_mac → has_room 34 (ipp_skb dg) →
  let n1 := set_ipv4 (set_seq (u16 (seq_ (ipv4_ n) + 1)) (ipv4_ n)) n in
  ∃ skb skb_q, let f := mk_frame src_mac mac_addr.zero IP_PROTO skb (Some d) in
    let q := mk_frame src_mac mac_addr.broadcast ARP_PROTO skb_q (Some d) in
    has_room 14 skb ∧ has_room 14 skb_q ∧
    payload skb = ipv4_header.produce_to_net (sent_header dg (seq_ (ipv4_ n))) ++ payload (ipp_skb dg) ∧
    rfc1071 (ipv4_header.produce_to_net (sent_header dg (seq_ (ipv4_ n)))) = 0 ∧
    payload skb_q = arpv4_header.produce_to_net (question src_mac (from_addrv4 nh) (via_addrv4 nh)) ∧
    ip_down addr_of dg n = Ok ((), one_left PArp q (with_waiting f (via_addrv4 nh) n1), []).
Proof.
  intros [Hio Hidle] (Hnh & Hd & Hsrc & Hmac & _) Hroom n1. pose proof Hroom as (Hw & Hr & He).
  destruct (ip_process_run (addr_of (ipp_skb dg)) dg (ipv4_ n) Hw)
    as (Hz & skb & Hw' & Hh' & Hp' & E);
    [change ipv4_header.fixed_size with 20; lia|by eapply has_room_even|].
  unfold cache in Hsrc, Hmac. rewrite Hnh, Hd, Hsrc in E. change ipv4_header.fixed_size with 20 in Hh'.
  set (f := mk_frame src_mac mac_addr.zero IP_PROTO skb (Some d)) in *.
  set (i1 := set_seq (u16 (seq_ (ipv4_ n) + 1)) (ipv4_ n)) in *.
  set (a0 := set_replies (<[via_addrv4 nh := sig_connect f (replies_at (arp_ i1) (via_addrv4 nh))]>
    (on_replies_ (arp_ i1))) (arp_ i1)).
  destruct (async_request_run (CB := ethernetv2_frame) (src_mac, from_addrv4 nh) (via_addrv4 nh) (Some d) a0)
    as (skb_q & Eq & Hwq & Hhq & Hpq).
  exists skb, skb_q. cbv zeta. fold f.
  split; [|split; [|split; [done|split; [done|split; [exact Hpq|]]]]].
  - unfold has_room. rewrite Hh'. split_and!; [done|lia|by rewrite Z.even_sub, He].
  - unfold has_room. rewrite Hhq. by split_and!.
  - unfold ip_down. eapply unit_run. unfold with_ip. erewrite part_run.
    2: { rewrite E. unfold zoom, async_resolve. rewrite bind_get.
         change (arp_cache_ (arp_ i1)) with (arp_cache_ (arp_ (ipv4_ n))). rewrite Hmac.
         rewrite bind_modify. fold a0. rewrite Eq. reflexivity. }
    cbn. rewrite Hio. pose proof (Hidle PArp) as Hb. cbn in Hb.
    unfold one_left, with_waiting, n1, with_frame, a0. cbn. by rewrite Hb.
Qed.

(** A frame leaves, and its write completes. *)
Lemma leaves_and_done p f n n' d :
  io_ctx_ n' = [KBase p] → run_closure addr_of (KBase p) [] (set_io_ctx [] n') = (_ ← eth_down f; mret ()) n →
  idle n → frame_ok (dom (devs n)) f → frame_dev f = Some d → devs n !! d = Some (mk_device []) →
  ∃ n2, run_until_idle addr_of 2 n' = Ok ((), n2,
      [NetWrite d (ethernetv2_header.produce_to_net
         (mk_eth_header (dst_mac_addr f) (src_mac_addr f) (frame_proto f)) ++ payload (frame_skb f))]) ∧
    net_written d false n2 = Ok ((), n, []).
Proof.
  intros Hio Hrun Hidle Hf Hd Hdev.
  destruct (eth_leaves addr_of p f n n' d Hio Hrun Hidle Hf Hd Hdev) as (skb & E).
  eexists. split; [exact E|]. rewrite (written_run d skb _ (lookup_insert_eq _ _ _)). cbn.
  rewrite insert_insert_eq, insert_id by done. by destruct n.
Qed.

Lemma on_known_dev n d f :
  has_room 14 (frame_skb f) → frame_dev f = Some d → is_Some (devs n !! d) → frame_ok (dom (devs n)) f.
Proof. intros Hr Hd Hdev. split; [exact Hr|]. exists d. split; [done|]. by apply elem_of_dom. Qed.

Lemma question_leaves dg n nh d src_mac :
  idle n → unknown_hop n (dst_addrv4 dg) nh d src_mac → has_room 34 (ipp_skb dg) →
  let n1 := set_ipv4 (set_seq (u16 (seq_ (ipv4_ n) + 1)) (ipv4_ n)) n in
  ∃ skb n2, let f := mk_frame src_mac mac_addr.zero IP_PROTO skb (Some d) in
    has_room 14 skb ∧
    payload skb = ipv4_header.produce_to_net (sent_header dg (seq_ (ipv4_ n))) ++ payload (ipp_skb dg) ∧
    rfc1071 (ipv4_header.produce_to_net (sent_header dg (seq_ (ipv4_ n)))) = 0 ∧
    run_until_idle addr_of 3 (one_left PTcp dg n) = Ok ((), n2,
      [NetWrite d (arp_frame mac_addr.broadcast src_mac (question src_mac (from_addrv4 nh) (via_addrv4 nh)))]) ∧
    net_written d false n2 = Ok ((), with_waiting f (via_addrv4 nh) n1, []).
Proof.
  intros Hidle Hhop Hroom n1.
  destruct (ip_asks dg n nh d src_mac Hidle Hhop Hroom) as (skb & skb_q & Hr & Hrq & Hp & Hz & Hpq & E).
  fold n1 in E. set (f := mk_frame src_mac mac_addr.zero IP_PROTO skb (Some d)) in *.
  set (q := mk_frame src_mac mac_addr.broadcast ARP_PROTO skb_q (Some d)) in *.
  assert (idle n1) as Hidle1 by by apply idle_ip.
  assert (idle (with_waiting f (via_addrv4 nh) n1)) as Hidle2 by by apply idle_waiting.
  destruct Hhop as (_ & _ & _ & _ & Hdev & _).
  destruct (leaves_and_done PArp q (with_waiting f (via_addrv4 nh) n1)
    (one_left PArp q (with_waiting f (via_addrv4 nh) n1)) d) as (n2 & Erun & Ew); try done.
  { by rewrite run_one_left. }
  { by apply (on_known_dev _ d). }
  exists skb, n2. split; [done|split; [done|split; [done|split; [|exact Ew]]]].
  apply (run_more addr_of 2 (KBase PTcp) _ (one_left PArp q (with_waiting f (via_addrv4 nh) n1)) []); [done| |].
  - rewrite run_one_left by done. cbn [below]. by rewrite (bind_run _ _ _ _ _ _ E).
  - rewrite Erun. unfold arp_frame. by rewrite <- Hpq.
Qed.

(** ** The answer *)

(** A frame is read, and the closure that is posted makes the device write
    another; when that is written, what is left is [n']. *)
Definition answered_by junk isn d (buf : list byte) n n' (frame : list byte) : Prop :=
  ∃ p (x : under_type p) n2,
    net_read_done addr_of run_cb junk isn d false buf (len buf) n = Ok ((), one_left p x n', [NetRead d 1500]) ∧
    run_until_idle addr_of 2 (one_left p x n') = Ok ((), n2, [NetWrite d frame]) ∧
    net_written d false n2 = Ok ((), n', []).

(** An ARP packet comes up. *)
Lemma arp_comes_up junk isn skb dst src h d n :
  skb_wf skb → headroom skb = 0 → payload skb = arp_frame dst src h →
  ∃ skb', skb_wf skb' ∧ headroom skb' = 14 ∧ payload skb' = arpv4_header.produce_to_net h ∧
    eth_up addr_of run_cb junk isn skb d n = arp_up (mk_frame src dst ARP_PROTO skb' (Some d)) n.
Proof.
  intros Hw Hroom Hp.
  destruct (eth_make_packet_run skb (mk_eth_header dst src ARP_PROTO) _ (Some d) Hw Hp) as (skb1 & E1 & Hw1 & Hp1 & Hh1);
    [done|]. exists skb1. split_and!; [done|by rewrite Hh1, Hroom|done|].
  unfold eth_up, with_eth, eth_receive. set (fr := mk_frame _ _ _ _ _) in E1.
  rewrite (bind_silent _ _ _ (Some (LArp, fr), []) n); [done|].
  apply part_pure; [|by destruct n]. unfold bottom.receive. by rewrite (bind_run _ _ _ _ _ _ (E1 _)).
Qed.

(** [a] has the MAC address [mac], unless it is known to have another. *)
Definition knows a mac n : netns Sig B :=
  set_ipv4 (set_arp (set_cache (neigh.update (a, mac) (cache n)) (arp_ (ipv4_ n))) (ipv4_ n)) n.

Lemma idle_knows a mac n : idle n → idle (knows a mac n).
Proof. intros Hidle. by apply idle_ip. Qed.

Lemma question_answered junk isn src_mac from_ to_ mac d n :
  idle n → devs n !! d = Some (mk_device []) → neigh.query to_ (cache n) = Some mac →
  ipv4_ok from_ → ipv4_ok to_ → learnable src_mac →
  let buf := arp_frame mac_addr.broadcast src_mac (question src_mac from_ to_) in
  answered_by junk isn d buf n (knows from_ src_mac n)
    (arp_frame src_mac mac (reply_header (question src_mac from_ to_) mac)).
Proof.
  intros Hidle Hdev Hq Hfrom Hto Hlearn buf. set (h := question src_mac from_ to_) in *.
  destruct (frame_read addr_of run_cb junk isn d buf n) as (skb & Hw & Hroom & Hp & Hread); [by eexists|].
  destruct (arp_comes_up junk isn skb mac_addr.broadcast src_mac h d n Hw Hroom Hp) as (skb' & Hw' & Hh' & Hp' & Eup).
  set (f := mk_frame src_mac mac_addr.broadcast ARP_PROTO skb' (Some d)) in *.
  assert (learn h (arp_ (ipv4_ n)) = set_cache (neigh.update (from_, src_mac) (cache n)) (arp_ (ipv4_ n))) as Elearn.
  { unfold learn, h, question. cbn [sha spa]. unfold learnable in Hlearn. by rewrite Hlearn. }
  pose proof (arp_process_cases (CB := ethernetv2_frame) f h [] (arp_ (ipv4_ n)) Hw') as Hcases.
  rewrite app_nil_r in Hcases. specialize (Hcases Hp').
  rewrite bool_decide_eq_true_2, decide_True in Hcases by done. rewrite Elearn in Hcases.
  change (tpa h) with to_ in Hcases. cbn [arp_cache_ set_cache] in Hcases. rewrite neigh.lookup_update, Hq in Hcases.
  destruct Hcases as (skb_r & E & Hwr & Hhr & Hpr); [by split_and!|]. rewrite app_nil_r in Hpr.
  set (r := mk_frame mac (sha h) ARP_PROTO skb_r (Some d)) in *.
  assert (has_room 14 skb_r) as Hrr by (unfold has_room; rewrite Hhr; cbn [frame_skb f]; rewrite Hh'; by split_and!).
  set (n1 := knows from_ src_mac n).
  assert (arp_up f n = Ok ((), one_left PArp r n1, [])) as Earp.
  { pose proof Hidle as [Hio Hb]. specialize (Hb PArp). cbn in Hb. unfold arp_up.
    rewrite (bind_run _ _ _ ((), [IpArp (ArpBase BasePost)]) (one_left PArp r n1) []); [done|].
    unfold with_ip. erewrite part_run; [|unfold zoom; rewrite E; reflexivity].
    cbn. rewrite Hio. unfold one_left, n1, knows, with_frame. cbn. by rewrite Hb. }
  rewrite Earp in Eup. specialize (Hread _ _ Eup).
  destruct (leaves_and_done PArp r n1 (one_left PArp r n1) d) as (n2 & Erun & Ew); try done.
  { rewrite run_one_left; [done|by apply idle_knows]. }
  { by apply (on_known_dev _ d). }
  exists PArp, r, n2. split; [exact Hread|]. split; [|exact Ew]. rewrite Erun. unfold arp_frame. by rewrite <- Hpr.
Qed.

(** ** The answer is taken *)

(** Nobody waits for [a] any more. *)
Definition without_waiting a n : netns Sig B :=
  set_ipv4 (set_arp (set_replies (<[a := sig_empty]> (on_replies_ (arp_ (ipv4_ n)))) (arp_ (ipv4_ n))) (ipv4_ n)) n.

Lemma answer_taken junk isn src_mac from_ to_ mac f d n :
  idle n → devs n !! d = Some (mk_device []) → waiting n to_ = [f] →
  has_room 14 (frame_skb f) → frame_dev f = Some d → ipv4_ok from_ → ipv4_ok to_ → learnable mac →
  let buf := arp_frame src_mac mac (reply_header (question src_mac from_ to_) mac) in
  answered_by junk isn d buf n (without_waiting to_ (knows to_ mac n))
    (ethernetv2_header.produce_to_net (mk_eth_header mac (src_mac_addr f) (frame_proto f)) ++ payload (frame_skb f)).
Proof.
  intros Hidle Hdev Hwait Hr Hd Hfrom Hto Hlearn buf. set (h := reply_header (question src_mac from_ to_) mac) in *.
  destruct (frame_read addr_of run_cb junk isn d buf n) as (skb & Hw & Hroom & Hp & Hread); [by eexists|].
  destruct (arp_comes_up junk isn skb src_mac mac h d n Hw Hroom Hp) as (skb' & Hw' & Hh' & Hp' & Eup).
  set (g := mk_frame mac src_mac ARP_PROTO skb' (Some d)) in *.
  assert (learn h (arp_ (ipv4_ n)) = set_cache (neigh.update (to_, mac) (cache n)) (arp_ (ipv4_ n))) as Elearn.
  { unfold learn, h, reply_header, question. cbn [sha spa tpa]. unfold learnable in Hlearn. by rewrite Hlearn. }
  pose proof (arp_process_cases (CB := ethernetv2_frame) g h [] (arp_ (ipv4_ n)) Hw') as Hcases.
  rewrite app_nil_r in Hcases. specialize (Hcases Hp').
  rewrite bool_decide_eq_true_2, decide_False, decide_True in Hcases by done. rewrite Elearn in Hcases.
  change (spa h) with to_ in Hcases. change (sha h) with mac in Hcases.
  unfold waiting in Hwait. rewrite Hwait in Hcases. cbn [fmap list_fmap] in Hcases.
  set (n1 := without_waiting to_ (knows to_ mac n)).
  set (f' := mk_frame (src_mac_addr f) mac (frame_proto f) (frame_skb f) (frame_dev f)).
  assert (idle n1) as Hidle1 by by apply (idle_ip _ (knows to_ mac n)).
  assert (arp_up g n = Ok ((), one_left PIp f' n1, [])) as Earp.
  { unfold arp_up. rewrite (bind_run _ _ _ ((), [IpArp (ArpCall f mac)]) n1 []).
    - cbn [resolved_calls]. by rewrite (on_resolved_run f mac n1 Hidle1).
    - unfold with_ip. erewrite part_run; [|unfold zoom; rewrite Hcases; [reflexivity|by split_and!]].
      cbn. rewrite app_nil_r. by destruct n as [? ? ? [] ? ? ?]. }
  rewrite Earp in Eup. specialize (Hread _ _ Eup).
  destruct (leaves_and_done PIp f' n1 (one_left PIp f' n1) d) as (n2 & Erun & Ew); try done.
  { by rewrite run_one_left. }
  { by apply (on_known_dev _ d). }
  by exists PIp, f', n2.
Qed.

(** What is left: nobody waits, and the way is known. *)
Lemma resolved_way f n dst nh d src_mac mac :
  unknown_hop n dst nh d src_mac →
  let n' := without_waiting (via_addrv4 nh) (knows (via_addrv4 nh) mac (with_waiting f (via_addrv4 nh) n)) in
  waiting n' (via_addrv4 nh) = [] ∧ way_out n' dst nh d src_mac mac.
Proof.
  intros (Hnh & Hd & Hsrc & Hmac & Hdev & _). split.
  - unfold waiting, without_waiting, replies_at. cbn. rewrite lookup_insert_eq. apply slots_empty.
  - unfold way_out. cbn. unfold cache in *. rewrite !neigh.lookup_update. cbn.
    by rewrite Hsrc, Hmac, decide_True.
Qed.
End Resolve.

(** ** Two hosts *)

Section Neighbours.
Context {H1 H2 : Host} {Sig : Type} `{Hsig : Signal ethernetv2_frame Sig}
  `{Hspec : !SignalSpec ethernetv2_frame Sig}.
Context {B : Type} `{Hc : CircularBuffer B}.
Context (addr_of : skbuff → Z) (run_cb : nat → endpoint → endpoint → M tcp tcp_event bool).
Context (Heven : ∀ skb, Z.even (addr_of skb) = true).
Implicit Types (n m : netns Sig B) (dg : ipv4_packet).

(** What a host reads is read and all that follows is done. *)
Definition reads (H : Host) junk isn d (buf : list byte) : M (netns Sig B) net_event () :=
  _ ← net_read_done (Hh := H) addr_of run_cb junk isn d false buf (len buf);
  run_until_idle (Hh := H) addr_of 2.

Lemma arp_frame_host dst src h : arp_frame (Hh := H1) dst src h = arp_frame (Hh := H2) dst src h.
Proof. unfold arp_frame. by rewrite (eth_produce_host H1 H2), (arp_produce_host H1 H2). Qed.

(** C13: a neighbour is found.  A host that has a datagram for a next hop of
    unknown MAC address broadcasts a request, with its own addresses and the
    address it asks for, and keeps the datagram.  Any host on the link that
    has this address in its cache, of either byte order, answers with one
    frame to the host that asked; when that host reads the answer, the
    datagram leaves for the MAC address found, with the identification it got
    first and a valid header checksum.  Nothing faults, nothing is left to be
    done on either side and nobody waits any more; the next datagram to this
    hop leaves without a request, and the host that answered has learnt the
    MAC address of the other, unless it had one for it. *)
Theorem neighbour_is_found junk isn junk' isn' dg n nh d src_mac mac m d' :
  idle n → unknown_hop n (dst_addrv4 dg) nh d src_mac → has_room 34 (ipp_skb dg) →
  ipv4_ok (from_addrv4 nh) → ipv4_ok (via_addrv4 nh) → learnable src_mac → learnable mac →
  idle m → devs m !! d' = Some (mk_device []) → neigh.query (via_addrv4 nh) (cache m) = Some mac →
  let q := question src_mac (from_addrv4 nh) (via_addrv4 nh) in
  let request := arp_frame (Hh := H1) mac_addr.broadcast src_mac q in
  let answer := arp_frame (Hh := H2) src_mac mac (reply_header q mac) in
  let id := seq_ (ipv4_ n) in
  ∃ n1 n2 n3 n4 m1 m2,
    (run_until_idle (Hh := H1) addr_of 3 (one_left PTcp dg n) = Ok ((), n1, [NetWrite d request]) ∧
     net_written d false n1 = Ok ((), n2, [])) ∧
    (reads H2 junk' isn' d' request m = Ok ((), m1, [NetRead d' 1500; NetWrite d' answer]) ∧
     net_written d' false m1 = Ok ((), m2, [])) ∧
    (reads H1 junk isn d answer n2 =
       Ok ((), n3, [NetRead d 1500; NetWrite d (frame_bytes (Hh := H1) src_mac mac dg id)]) ∧
     net_written d false n3 = Ok ((), n4, [])) ∧
    rfc1071 (ipv4_header.produce_to_net (H := H1) (sent_header (Hh := H1) dg id)) = 0 ∧
    (idle n4 ∧ waiting n4 (via_addrv4 nh) = [] ∧ way_out n4 (dst_addrv4 dg) nh d src_mac mac) ∧
    idle m2 ∧
    ∀ a, neigh.query a (cache m2) =
      match neigh.query a (cache m) with
      | Some x => Some x
      | None => if decide (a = from_addrv4 nh) then Some src_mac else None
      end.
Proof.
  intros Hidle Hhop Hroom Hfrom Hvia Hls Hlm Hidm Hdm Hq q request answer id.
  pose proof Hhop as (_ & Hd & _ & _ & Hdev & Hwait).
  destruct (question_leaves (Hh := H1) addr_of Heven dg n nh d src_mac Hidle Hhop Hroom)
    as (skb & n1 & Hr & Hp & Hz & E1 & W1).
  set (f := mk_frame src_mac mac_addr.zero IP_PROTO skb (Some d)) in *.
  set (n1' := set_ipv4 _ _) in W1. set (n2 := with_waiting f _ n1') in W1.
  destruct (question_answered (Hh := H2) addr_of run_cb junk' isn' src_mac _ _ mac d' m
    Hidm Hdm Hq Hfrom Hvia Hls) as (pm & xm & m1 & R2 & E2 & W2).
  assert (waiting n2 (via_addrv4 nh) = [f]) as Hf by by apply waiting_with.
  destruct (answer_taken (Hh := H1) addr_of run_cb junk isn src_mac (from_addrv4 nh) (via_addrv4 nh) mac f d n2)
    as (pn & xn & n3 & R3 & E3 & W3); try done.
  set (n4 := without_waiting _ _) in W3.
  exists n1, n2, n3, n4, m1, (knows (from_addrv4 nh) src_mac m).
  split; [|split; [|split; [|split; [exact Hz|split; [split|split]]]]].
  - exact (conj E1 W1).
  - split; [|exact W2]. unfold request. rewrite arp_frame_host.
    exact (bind_run_Ok _ _ _ () _ [_] () m1 [_] R2 E2).
  - split; [|exact W3]. unfold answer, frame_bytes, id. rewrite <- arp_frame_host, <- Hp.
    exact (bind_run_Ok _ _ _ () _ [_] () n3 [_] R3 E3).
  - done.
  - by apply (resolved_way f n1').
  - by apply idle_knows.
  - intros a. unfold knows, cache. cbn. by rewrite neigh.lookup_update.
Qed.
End Neighbours.

(** ** A concrete link *)

(** A host that knows only itself, and its neighbour. *)
Definition asking : netns (list ethernetv2_frame) reserve_buffer :=
  set_ipv4 (test_ipv4 {[ Ipv4 1 := test_mac Byte.x02 ]}) (set_devs {[ 0%nat := mk_device [] ]} netns_new).
Definition neighbour : netns (list ethernetv2_frame) reserve_buffer :=
  set_ipv4 (test_ipv4 {[ Ipv4 9 := test_mac Byte.x08 ]}) (set_devs {[ 0%nat := mk_device [] ]} netns_new).

Lemma neighbour_is_found_witness :
  let H1 := test_host Little in let H2 := test_host Big in
  let addr_of := λ _, 64 in let run_cb := λ _ _ _, mret false in
  let q := question (test_mac Byte.x02) (Ipv4 1) (Ipv4 9) in
  let request := arp_frame (Hh := H1) mac_addr.broadcast (test_mac Byte.x02) q in
  let answer := arp_frame (Hh := H2) (test_mac Byte.x02) (test_mac Byte.x08) (reply_header q (test_mac Byte.x08)) in
  ∃ n1 n2 n3 n4 m1 m2,
    (run_until_idle (Hh := H1) addr_of 3 (one_left PTcp test_ip_packet asking) =
       Ok ((), n1, [NetWrite 0 request]) ∧
     net_written 0 false n1 = Ok ((), n2, [])) ∧
    (reads addr_of run_cb H2 test_junk 0 0 request neighbour =
       Ok ((), m1, [NetRead 0 1500; NetWrite 0 answer]) ∧
     net_written 0 false m1 = Ok ((), m2, [])) ∧
    (reads addr_of run_cb H1 test_junk 0 0 answer n2 =
       Ok ((), n3, [NetRead 0 1500; NetWrite 0
         (frame_bytes (Hh := H1) (test_mac Byte.x02) (test_mac Byte.x08) test_ip_packet 65535)]) ∧
     net_written 0 false n3 = Ok ((), n4, [])) ∧
    rfc1071 (ipv4_header.produce_to_net (H := H1) (sent_header (Hh := H1) test_ip_packet 65535)) = 0 ∧
    (idle n4 ∧ waiting n4 (Ipv4 9) = [] ∧
     way_out n4 (Ipv4 7) test_route 0 (test_mac Byte.x02) (test_mac Byte.x08)) ∧
    idle m2 ∧
    ∀ a, neigh.query a (cache m2) =
      match neigh.query a (cache neighbour) with
      | Some x => Some x
      | None => if decide (a = Ipv4 1) then Some (test_mac Byte.x02) else None
      end.
Proof.
  intros H1 H2 addr_of run_cb.
  refine (neighbour_is_found (H1 := H1) (H2 := H2) addr_of run_cb _ test_junk 0 test_junk 0 test_ip_packet asking
    test_route 0 (test_mac Byte.x02) (test_mac Byte.x08) neighbour 0 _ _ _ _ _ _ _ _ _ _).
  - reflexivity.
  - split; [reflexivity|]. intros []; reflexivity.
  - unfold unknown_hop. split_and!; reflexivity.
  - unfold has_room, skb_wf. split_and!; first [reflexivity | vm_compute; discriminate].
  - split; [vm_compute; discriminate|reflexivity].
  - split; [vm_compute; discriminate|reflexivity].
  - reflexivity.
  - reflexivity.
  - split; [reflexivity|]. intros []; reflexivity.
  - reflexivity.
  - reflexivity.
Defined.
