(* ===== verification/Incoming.v ===== *)
(** * Which segment a frame carries

    The bytes of a frame that say whether it is for TCP, and for which
    connection, as RFC 791, RFC 793 and Ethernet number them; and that the
    layers go by them.  Downwards: what the TCP layer makes of a packet. *)

From S2P Require Import Prelude Utils Skbuff Addr Headers Tcb BaseProtocol Packets TcbManager Tcp Arp.
From S2P Require Import Ipv4 Ethernet Device Stack Netns.

(** The number in the [n] bytes from [off] on. *)
Definition field (off n : nat) (bs : list byte) : Z := be_combine (take n (drop off bs)).

(** The ends of a segment, seen from the receiver, and its bytes. *)
Definition segment : Type := (endpoint * endpoint * list byte)%type.
Definition segment_of (pkt : tcp_packet) : segment :=
  (tp_remote_ep pkt, tp_local_ep pkt, payload (tp_skb pkt)).

(** IPv4 in Ethernet, version 4, and TCP in IPv4, behind headers of 14 and of
    20 bytes. *)
Definition frame_segment (frame : list byte) : option segment :=
  if (field 12 2 frame =? 2048) && (field 14 1 frame / 16 =? 4) && (field 23 1 frame =? 6) then
    Some (mk_endpoint (Ipv4 (field 26 4 frame)) (field 34 2 frame),
          mk_endpoint (Ipv4 (field 30 4 frame)) (field 36 2 frame), drop 34 frame)
  else None.

Lemma field_drop k off n bs : field off n (drop k bs) = field (k + off) n bs.
Proof. unfold field. by rewrite drop_drop. Qed.

Section Parse.
Context `{Hh : Host}.

Lemma consume_field n ptr z rest :
  consume_from_net n ptr = Ok (z, rest) → z = field 0 n ptr ∧ rest = drop n ptr.
Proof.
  intros E. assert (n ≤ length ptr)%nat as Hn by (unfold consume_from_net in E; by case_decide).
  rewrite consume_from_net_be in E by done. by injection E as <- <-.
Qed.
Lemma consume_address ptr a rest :
  ipv4_addr.consume_from_net ptr = Ok (a, rest) → a = Ipv4 (field 0 4 ptr) ∧ rest = drop 4 ptr.
Proof.
  unfold ipv4_addr.consume_from_net. intros E.
  apply parser_bind_inv in E as (z & ? & [-> ->]%consume_field & E). by injection E as <- <-.
Qed.
Lemma consume_mac ptr m rest :
  mac_addr.consume_from_net ptr = Ok (m, rest) → rest = drop 6 ptr.
Proof. intros ->%mac_consume_inv. by destruct m. Qed.

Ltac field_step E :=
  let E1 := fresh "E1" in
  apply parser_bind_inv in E as (? & ? & E1 & E);
  first [ apply consume_field in E1 as [-> ->] | apply consume_address in E1 as [-> ->]
        | apply consume_mac in E1 as -> ]; cbv zeta in E.

Lemma eth_fields ptr h rest :
  ethernetv2_header.consume_from_net ptr = Ok (h, rest) → eth_proto h = field 12 2 ptr.
Proof.
  unfold ethernetv2_header.consume_from_net. intros E. repeat field_step E.
  injection E as <- <-. cbn [eth_proto]. by rewrite !field_drop.
Qed.
Lemma ip_fields ptr h rest :
  ipv4_header.consume_from_net ptr = Ok (h, rest) →
  ip_proto_type h = field 9 1 ptr ∧ ip_src_addr h = Ipv4 (field 12 4 ptr) ∧
  ip_dst_addr h = Ipv4 (field 16 4 ptr).
Proof.
  unfold ipv4_header.consume_from_net. intros E. repeat field_step E.
  injection E as <- <-. cbn [ip_proto_type ip_src_addr ip_dst_addr]. by rewrite !field_drop.
Qed.
Lemma tcp_fields ptr h rest :
  tcp_header.consume_from_net ptr = Ok (h, rest) →
  src_port h = field 0 2 ptr ∧ dst_port h = field 2 2 ptr.
Proof.
  unfold tcp_header.consume_from_net. intros E. repeat field_step E.
  injection E as <- <-. cbn [src_port dst_port]. by rewrite !field_drop.
Qed.
End Parse.

(** ** What each layer hands up *)

(** The buffer holds [bs], and nothing behind it. *)
Definition whole (skb : skbuff) (bs : list byte) : Prop :=
  skb_wf skb ∧ payload skb = bs ∧ head skb = bs.

Lemma whole_pop n skb skb' bs :
  whole skb bs → pop_front (Z.of_nat n) skb = Ok skb' → whole skb' (drop n bs).
Proof.
  intros (Hw & Hp & Hhd) E. apply pop_front_Ok in E as (Hw' & Hp' & _ & _ & _ & Hhd'); [|done|lia].
  rewrite Nat2Z.id in *. split; [done|]. by rewrite Hp', Hhd', Hp, Hhd.
Qed.
Lemma whole_new bs skb : skb_new bs 0 = Ok skb → whole skb bs.
Proof.
  intros E. destruct (skb_new_Ok bs 0) as (skb' & E' & Hw & Hp & Hr & Hcap); [lia|].
  rewrite E in E'. injection E' as <-. split; [done|]. split; [done|].
  unfold headroom in Hr. unfold head. rewrite Hr. unfold payload in Hp. rewrite Hr in Hp.
  unfold skb_new in E. rewrite (proj2 (Z.ltb_ge _ _)) in E by lia. cbn in E. by injection E as <-.
Qed.

Section Up.
Context `{Hh : Host} {Sig : Type} `{Hsig : Signal ethernetv2_frame Sig}.
Context (run_cb : nat → endpoint → endpoint → M tcp tcp_event bool).

Lemma eth_receive_inv skb dev b out b' es frame :
  whole skb frame → eth_receive skb dev b = Ok (out, b', es) →
  ∃ f, out = (h ← eth_uppers !! field 12 2 frame; Some (h, f)) ∧ whole (frame_skb f) (drop 14 frame).
Proof.
  intros Hw. pose proof Hw as (_ & _ & Hhd). unfold eth_receive, bottom.receive, eth_make_packet.
  unfold mbind, M_bind, lift. rewrite Hhd.
  destruct (ethernetv2_header.consume_from_net frame) as [[h rest]|] eqn:Ec; [|done].
  destruct (pop_front ethernetv2_header.size skb) as [skb1|] eqn:Ep; [|done].
  intros [= <- <- <-]. eexists. split.
  - cbn. unfold bottom.dispatch. cbn [frame_proto]. rewrite <- (eth_fields _ _ _ Ec). reflexivity.
  - exact (whole_pop 14 _ _ _ Hw Ep).
Qed.

Lemma ip_receive_inv f s out s' es dg :
  whole (frame_skb f) dg → ip_receive (Sig := Sig) f s = Ok (out, s', es) →
  if field 0 1 dg / 16 =? 4 then
    ∃ p, out = (h ← ipv4_uppers !! field 9 1 dg; Some (h, p)) ∧ whole (ipp_skb p) (drop 20 dg) ∧
      src_addrv4 p = Ipv4 (field 12 4 dg) ∧ dst_addrv4 p = Ipv4 (field 16 4 dg)
  else out = None.
Proof.
  intros Hw. pose proof Hw as (_ & Hp & Hhd). unfold ip_receive, receive, ip_make_packet.
  unfold mbind, M_bind, lift. destruct (assert_ _); [|done].
  destruct (span_at 0 (payload (frame_skb f))) as [fb|] eqn:Efb; [|done].
  assert (Z.land (Z.shiftr (byte.unsigned fb) 4) 15 = field 0 1 dg / 16) as ->.
  { rewrite Hp in Efb. destruct dg as [|b0 dg]; [done|]. cbn in Efb. injection Efb as <-.
    change (field 0 1 (b0 :: dg)) with (le_combine [b0]). rewrite le_combine_1.
    pose proof (byte_range b0). change 15 with (Z.ones 4). rewrite Z.land_ones, Z.shiftr_div_pow2 by lia.
    change (2 ^ 4) with 16. apply Z.mod_small. ulia. }
  rewrite (Z.eqb_sym 4). destruct (_ =? 4); cbn [negb]; [|by intros [= <- <- <-]].
  rewrite Hhd. destruct (ipv4_header.consume_from_net dg) as [[h rest]|] eqn:Ec; [|done].
  destruct (pop_front ipv4_header.fixed_size (frame_skb f)) as [skb1|] eqn:Ep; [|done].
  intros [= <- <- <-]. destruct (ip_fields _ _ _ Ec) as (E1 & E2 & E3). eexists. split; [|split; [|split]].
  - cbn. unfold dispatch. cbn [ipp_proto]. rewrite E1. reflexivity.
  - exact (whole_pop 20 _ _ _ Hw Ep).
  - done.
  - done.
Qed.

(** The TCP layer has neither raw sockets nor interceptors. *)
Definition plain (t : tcp) : Prop := rcv_raw_states_ t = ∅ ∧ tcp_rules_ t = [].

Lemma tcp_receive_inv p t out t' es seg :
  plain t → whole (ipp_skb p) seg → tcp_receive run_cb p t = Ok (out, t', es) →
  t' = t ∧ es = [] ∧ ∃ pkt, out = Some (LTcbManager, pkt) ∧
    segment_of pkt = (mk_endpoint (src_addrv4 p) (field 0 2 seg), mk_endpoint (dst_addrv4 p) (field 2 2 seg), seg).
Proof.
  intros [Hraw Hrules] (_ & Hp & Hhd). unfold tcp_receive, receive, tcp_make_packet.
  unfold mbind, M_bind, lift. rewrite Hhd.
  destruct (tcp_header.consume_from_net seg) as [[h rest]|] eqn:Ec; [|done].
  cbn [get]. rewrite Hraw, lookup_empty, Hrules. cbn [try_rules mret M_ret].
  intros [= <- <- <-]. split; [done|]. split; [done|]. destruct (tcp_fields _ _ _ Ec) as [E1 E2].
  eexists. split; [reflexivity|]. unfold segment_of, incoming. cbn. by rewrite E1, E2, Hp.
Qed.
End Up.

(** ** What the TCP layer hands down *)

Section Down.
Context `{Hh : Host} (new_addr : Z).

(** The packet is queued, for the addresses of its ends; but for the two bytes
    of the checksum its bytes are what they were. *)
Definition queued_as (pkt : tcp_packet) (t t' : tcp) : Prop :=
  ∃ skb, packet_queue_ (tcp_base t') = packet_queue_ (tcp_base t) ++ [datagram pkt skb] ∧
    (skb_wf (tp_skb pkt) → ∃ c, len c = 2 ∧
      payload skb = take 16 (payload (tp_skb pkt)) ++ c ++ drop 18 (payload (tp_skb pkt))).

Lemma tcp_process_inv pkt t x t' es :
  tcp_process new_addr pkt t = Ok (x, t', es) →
  rcv_raw_states_ t' = rcv_raw_states_ t ∧ tcp_rules_ t' = tcp_rules_ t ∧ queued_as pkt t t'.
Proof.
  unfold tcp_process. unfold mbind, M_bind, lift. cbv zeta. unfold assert_ at 1.
  destruct (len (payload (tp_skb pkt)) <? tcp_header.fixed_size) eqn:El; [done|]. cbn [negb].
  destruct (skb_write tcp_header.offsetof_chsum (native_store 2 0) (tp_skb pkt)) as [skb1|] eqn:E1; [|done].
  unfold assert_ at 1. destruct (headroom skb1 <? pseudo_size) eqn:Er; [done|]. cbn [negb].
  set (ps := tcp_pseudo_header pkt (len (payload skb1))).
  destruct (push_front pseudo_size skb1) as [skb2|] eqn:E2; [|done].
  destruct (skb_write 0 ps skb2) as [skb3|] eqn:E3; [|done].
  destruct (checksum _ (payload skb3) 0) as [c|]; [|done].
  destruct (pop_front pseudo_size skb3) as [skb4|] eqn:E4; [|done].
  destruct (skb_write tcp_header.offsetof_chsum (native_store 2 c) skb4) as [skb5|] eqn:E5; [|done].
  rewrite process_raw_run. intros [= _ <- _]. split; [done|]. split; [done|]. exists skb5. split; [done|].
  intros Hw. apply Z.ltb_ge in El, Er.
  assert (len ps = pseudo_size) as Lps
    by (unfold ps; by rewrite tcp_pseudo_header_rfc793, length_rfc793_pseudo).
  assert (headroom skb1 = headroom (tp_skb pkt)) as Hr1.
  { change tcp_header.fixed_size with 20 in El.
    destruct (skb_write_Ok 16 (native_store 2 0) (tp_skb pkt) Hw) as (s & Es & _ & _ & Hr & _);
      [lia|rewrite length_native_store; lia|].
    unfold tcp_header.offsetof_chsum in E1. rewrite E1 in Es. by injection Es as <-. }
  destruct (tcp_checksum_buffer (tp_skb pkt) ps Hw Lps)
    as (s1 & s2 & s3 & s4 & F1 & _ & _ & F2 & F3 & _ & _ & F4 & W4 & _ & P4); [lia|done|].
  rewrite E1 in F1. injection F1 as <-. rewrite E2 in F2. injection F2 as <-.
  rewrite E3 in F3. injection F3 as <-. rewrite E4 in F4. injection F4 as <-.
  change tcp_header.fixed_size with 20 in El.
  assert (len (payload skb4) = len (payload (tp_skb pkt))) as L4
    by (rewrite P4, !length_app, length_be_split, length_take, length_drop; lia).
  destruct (skb_write_Ok 16 (native_store 2 c) skb4 W4) as (s5 & F5 & _ & P5 & _);
    [lia|rewrite length_native_store, L4; lia|].
  unfold tcp_header.offsetof_chsum in E5. rewrite E5 in F5. injection F5 as <-.
  exists (native_store 2 c). split; [by rewrite length_native_store|].
  rewrite P5, P4, length_native_store. change (Z.to_nat 16 + 2)%nat with 18%nat. change (Z.to_nat 16) with 16%nat.
  rewrite take_app_length' by (rewrite length_take; lia). do 2 f_equal.
  rewrite app_assoc, drop_app_length'; [done|]. rewrite length_app, length_be_split, length_take. lia.
Qed.
End Down.
