(* ===== verification/Program.v ===== *)
(** * A whole program: a namespace and the sockets above it

    [Netns] has the layers, the devices and the [io_context]; [Socket] the
    sockets, acceptors and closures of an application over the connection
    table.  A program is both.  The connection table and the posted closures
    are those of the namespace: the application has them while it runs, and
    its own fields for them are set for that time.  What a closure of a
    connection calls is what the application handed to it. *)

From S2P Require Import Prelude Utils Skbuff Addr Headers CircularBuffer Tcb TcbState BaseProtocol.
From S2P Require Import Packets TcbManager Socket Tcp RoutingTable Arp Ipv4 Device Stack Netns.

Record program (Sig B : Type) : Type := mk_program { net_ : netns Sig B; app_ : application B }.
Arguments mk_program {Sig B}. Arguments net_ {Sig B}. Arguments app_ {Sig B}.

Inductive prog_event : Type :=
| OfNet (ev : net_event)
| OfApp (ev : app_event).

(** The calls an application makes outside of its callbacks. *)
Inductive app_op : Type :=
| OpCall (c : user_call)
| OpConnect (junk : indeterminate) (isn : Z) (ports : list Z) (moved : option nat → option nat)
    (sk : nat) (remote_ep : endpoint) (local_addr : ipv4_addr_t) (cb : done_cb)
| OpSocket (junk_port : Z)                             (** a socket is constructed *)
| OpBuffer (l : list byte)                             (** a buffer is allocated *)
| OpAcceptor (mt : endpoint → endpoint → bool)         (** an acceptor is constructed *)
| OpServe (junk_port : Z) (local_ep : endpoint).       (** the call of [do_accept] in [main] *)

Section Program.
Context `{Hh : Host} {Sig : Type} `{Hsig : Signal ethernetv2_frame Sig}.
Context {B : Type} `{Hc : CircularBuffer B}.
Context (addr_of : skbuff → Z).
Context (run_cb : nat → endpoint → endpoint → M tcp tcp_event bool).

Abbreviation NetM := (M (netns Sig B) net_event).
Abbreviation AM := (M (application B) app_event).
Abbreviation PM := (M (program Sig B) prog_event).

(** [main], from the construction of the acceptor on. *)
Definition main_serve (junk_port : Z) (local_ep : endpoint) : AM unit :=
  acc ← allocate;
  _ ← acceptor_new_at local_ep acc;
  do_accept junk_port acc.

Definition run_app_op (o : app_op) : AM unit :=
  match o with
  | OpCall c => run_user_call c
  | OpConnect junk isn ports moved sk remote_ep local_addr cb =>
      socket_async_connect junk isn ports moved sk remote_ep local_addr cb
  | OpSocket junk_port =>
      sk ← allocate; modify (λ a, set_sockets (<[sk := socket_new junk_port]> (sockets a)) a)
  | OpBuffer l => buf ← allocate; modify (λ a, set_memory (<[buf := l]> (memory a)) a)
  | OpAcceptor mt => acc ← allocate; acceptor_new mt acc
  | OpServe junk_port local_ep => main_serve junk_port local_ep
  end.

(** ** One state, two views *)

(** What a layer writes into a buffer of the application. *)
Fixpoint net_fills (es : list net_event) (mem : memory_t) : memory_t :=
  match es with
  | [] => mem
  | NetTcb _ (EvFill sp bs) :: es => net_fills es (fill sp bs mem)
  | _ :: es => net_fills es mem
  end.
Definition net_out (ev : net_event) : list prog_event :=
  match ev with NetTcb _ _ => [] | ev => [OfNet ev] end.

Definition call_net {A} (op : NetM A) : PM A := λ s,
  match op (net_ s) with
  | Ok (x, n, es) =>
      Ok (x, mk_program n (set_memory (net_fills es (memory (app_ s))) (app_ s)),
          concat (net_out <$> es))
  | Fault f => Fault f
  end.

(** What the application posts, by the blocks and the manager. *)
Definition app_posts (ev : app_event) : list closure :=
  match ev with
  | AppBase BasePost => [KBase PMgr]
  | AppPost te t => [KTcb te t]
  | _ => []
  end.
Definition app_out (ev : app_event) : list prog_event :=
  match ev with AppBase _ | AppPost _ _ => [] | ev => [OfApp ev] end.

Definition app_of (s : program Sig B) : application B :=
  set_tasks [] (set_mngr (tcb_m_ (net_ s)) (app_ s)).

Definition call_app {A} (op : AM A) : PM A := λ s,
  match op (app_of s) with
  | Ok (x, a, es) =>
      let n := set_tcb_m (mngr a) (net_ s) in
      Ok (x, mk_program (set_io_ctx (io_ctx_ n ++ concat (app_posts <$> es)) n) a,
          concat (app_out <$> es))
  | Fault f => Fault f
  end.

(** ** The [io_context] *)

Definition prog_closure (junk_port : Z) (k : closure) (calls : list user_call) : PM unit :=
  match k with
  | KTcb te t => call_app (exec junk_port te t calls)
  | k => call_net (run_closure addr_of k [])
  end.

Definition prog_one (junk_port : Z) (calls : list user_call) : PM unit :=
  s ← get;
  match io_ctx_ (net_ s) with
  | [] => mret ()
  | k :: q =>
      _ ← modify (λ s, mk_program (set_io_ctx q (net_ s)) (app_ s));
      prog_closure junk_port k calls
  end.

(** [net.io_context_execution().run()] without further input. *)
Fixpoint prog_until_idle (junk_port : Z) (fuel : nat) : PM unit :=
  s ← get;
  match io_ctx_ (net_ s) with
  | [] => mret ()
  | _ :: _ =>
      match fuel with
      | O => fail OutOfFuel
      | S fuel => _ ← prog_one junk_port []; prog_until_idle junk_port fuel
      end
  end.

(** ** What happens to a program *)

(** A closure runs, a device completes a read or a write, the application
    calls, or the program calls a layer other than the connection table. *)
Inductive prog_action : Type :=
| ProgRun (junk_port : Z) (calls : list user_call)
| ProgReadDone (junk : indeterminate) (isn : Z) (d : nat) (ec : bool) (buf : list byte) (nbytes : Z)
| ProgWriteDone (d : nat) (ec : bool)
| ProgApp (o : app_op)
| ProgRoute (o : rt.op)
| ProgNeigh (kv : ipv4_addr_t * mac_addr_t).

Definition prog_act (x : prog_action) : PM unit :=
  match x with
  | ProgRun junk_port calls => prog_one junk_port calls
  | ProgReadDone junk isn d ec buf nbytes =>
      call_net (net_read_done addr_of run_cb junk isn d ec buf nbytes)
  | ProgWriteDone d ec => call_net (net_written d ec)
  | ProgApp o => call_app (run_app_op o)
  | ProgRoute o => call_net (net_act addr_of run_cb (NetRoute o))
  | ProgNeigh kv => call_net (net_act addr_of run_cb (NetNeigh kv))
  end.

Fixpoint prog_acts (acts : list prog_action) : PM unit :=
  match acts with
  | [] => mret ()
  | x :: acts => _ ← prog_act x; prog_acts acts
  end.
End Program.
