(* ===== verification/Prior.v ===== *)
(** * What an application does not look at

    No operation of the application or of the connection table looks at the
    packets the table has already queued, nor at the closures already posted:
    both are only added to.  So an operation does the same behind any such
    past; a program, in which the past has been handed on, relies on it. *)

From S2P Require Import Prelude Utils Skbuff Addr Headers CircularBuffer Tcb TcbFacts TcbState.
From S2P Require Import BaseProtocol Packets TcbManager Socket SocketFacts Netns Program.

(** ** Operations that commute with a change of the state *)

Section Natural.
Context {S E : Type}.

Definition on_state {A} (φ : S → S) (r : result (A * S * list E)) : result (A * S * list E) :=
  match r with Ok (x, s, es) => Ok (x, φ s, es) | Fault f => Fault f end.

Definition natural {A} (φ : S → S) (m : M S E A) : Prop := ∀ s, m (φ s) = on_state φ (m s).

Lemma natural_bind {A A'} φ (m : M S E A) (k : A → M S E A') :
  natural φ m → (∀ x, natural φ (k x)) → natural φ (m ≫= k).
Proof.
  intros Hm Hk s. unfold mbind, M_bind. rewrite Hm. destruct (m s) as [[[x s1] e1]|f]; [|done].
  cbn. rewrite Hk. by destruct (k x s1) as [[[y s2] e2]|f].
Qed.
Lemma natural_get {A} φ (k : S → M S E A) :
  (∀ s, k (φ s) = k s) → (∀ s, natural φ (k s)) → natural φ (get ≫= k).
Proof. intros Hφ Hk s. rewrite !bind_get, Hφ. apply Hk. Qed.
Lemma natural_ret {A} φ (x : A) : natural φ (mret x : M S E A).
Proof. done. Qed.
Lemma natural_fail {A} φ f : natural φ (fail f : M S E A).
Proof. done. Qed.
Lemma natural_emit φ e : natural φ (emit e : M S E unit).
Proof. done. Qed.
Lemma natural_lift {A} φ (r : result A) : natural φ (lift r : M S E A).
Proof. intros s. unfold lift. by destruct r. Qed.
Lemma natural_modify φ f : (∀ s, f (φ s) = φ (f s)) → natural φ (modify f : M S E unit).
Proof. intros Hf s. unfold modify. cbn. by rewrite Hf. Qed.
End Natural.

Create HintDb natural.
#[export] Hint Resolve natural_ret natural_fail natural_emit natural_lift : natural.

(** Through an operation; a hint says what its parts are. *)
Ltac natural_step :=
  lazymatch goal with
  | |- natural _ (get ≫= _) => apply natural_get; [done|intro]
  | |- natural _ (_ ≫= _) => apply natural_bind; [|intro]
  | |- natural _ (match ?x with _ => _ end) => destruct x
  | |- natural _ (if ?b then _ else _) => destruct b
  | |- natural _ (modify _) => apply natural_modify; done
  | |- natural _ _ => solve [eauto with natural]
  end.
Ltac naturally := repeat natural_step.

(** ** The packets queued before *)

Section Table.
Context `{Hh : Host} {B : Type} `{Hc : CircularBuffer B}.
Implicit Types (m : tcb_manager B) (gone : list tcp_packet).

Definition history gone m : tcb_manager B :=
  set_base (set_queue (gone ++ packet_queue_ (mgr_base m)) (mgr_base m)) m.

Lemma history_nil m : history [] m = m.
Proof. by destruct m as [[] ? ?]. Qed.

Lemma forward_natural gone te evs : natural (history gone) (forward te evs).
Proof.
  intros m. rewrite !forward_run. cbn. unfold history, set_base. cbn. by rewrite app_assoc.
Qed.

Lemma on_tcb_natural gone te op : natural (history gone) (on_tcb (B := B) te op).
Proof.
  unfold on_tcb. naturally. apply forward_natural.
Qed.
#[local] Hint Resolve on_tcb_natural : natural.

Lemma mgr_process_natural gone junk isn pkt :
  natural (history gone) (mgr_process (B := B) junk isn pkt).
Proof. unfold mgr_process. naturally. Qed.

Lemma mgr_async_connect_natural gone junk isn ports moved re la cb :
  natural (history gone) (mgr_async_connect (B := B) junk isn ports moved re la cb).
Proof.
  revert cb. induction ports as [|port ports IH]; intros cb; cbn [mgr_async_connect]; naturally.
Qed.

Lemma rule_insert_back_natural gone mt cb :
  natural (history gone) (rule_insert_back (B := B) mt cb).
Proof. unfold rule_insert_back. naturally. Qed.
End Table.
#[export] Hint Resolve on_tcb_natural mgr_process_natural mgr_async_connect_natural
  rule_insert_back_natural : natural.

(** ** The closures of connections *)

Definition tcb_tasks (q : list closure) : list (two_ends_t * task) :=
  omap (λ k, match k with KTcb te t => Some (te, t) | _ => None end) q.

Lemma tcb_tasks_app q1 q2 : tcb_tasks (q1 ++ q2) = tcb_tasks q1 ++ tcb_tasks q2.
Proof. apply omap_app. Qed.

(** The closures of connections among the events of the table, and of the
    application. *)
Definition mgr_tasks (es : list mgr_event) : list (two_ends_t * task) :=
  tcb_tasks (concat (mgr_posts <$> es)).
Definition app_tasks (es : list app_event) : list (two_ends_t * task) :=
  tcb_tasks (concat (app_posts <$> es)).

Lemma mgr_tasks_cons ev es : mgr_tasks (ev :: es) = tcb_tasks (mgr_posts ev) ++ mgr_tasks es.
Proof. apply tcb_tasks_app. Qed.
Lemma app_tasks_cons ev es : app_tasks (ev :: es) = tcb_tasks (app_posts ev) ++ app_tasks es.
Proof. apply tcb_tasks_app. Qed.
Lemma app_tasks_app es1 es2 : app_tasks (es1 ++ es2) = app_tasks es1 ++ app_tasks es2.
Proof. unfold app_tasks. by rewrite fmap_app, concat_app, tcb_tasks_app. Qed.

(** ** The table, called by the application *)

Section App.
Context `{Hh : Host} {B : Type} `{Hc : CircularBuffer B}.
Implicit Types (a : application B) (gone : list tcp_packet) (q : list (two_ends_t * task)).
Abbreviation AM := (M (application B) app_event).

(** What the application hears of the table. *)
Definition heard (ev : mgr_event) : list app_event :=
  match ev with
  | MgrBase ev => [AppBase ev]
  | MgrTcb te (EvPost t) => [AppPost te t]
  | MgrTcb _ _ => []
  end.

Lemma heard_tasks es : app_tasks (concat (heard <$> es)) = mgr_tasks es.
Proof.
  induction es as [|ev es IH]; [done|]. rewrite fmap_cons, mgr_tasks_cons. cbn [concat].
  rewrite app_tasks_app, IH. f_equal. by destruct ev as [[]|te []].
Qed.
Lemma heard_posts es : concat (app_posts <$> concat (heard <$> es)) = concat (mgr_posts <$> es).
Proof.
  induction es as [|ev es IH]; [done|]. rewrite !fmap_cons. cbn [concat].
  rewrite fmap_app, concat_app, IH. f_equal. by destruct ev as [[]|te []].
Qed.
Lemma heard_invisible es : visible (concat (heard <$> es)) = [].
Proof.
  induction es as [|ev es IH]; [done|]. rewrite fmap_cons. cbn [concat].
  rewrite visible_app, IH. by destruct ev as [[]|te []].
Qed.

(** The application with the table [m], which has put out [es]. *)
Definition handed m (es : list mgr_event) a : application B :=
  set_memory (net_fills (concat (mgr_outs <$> es)) (memory a))
    (set_tasks (tasks a ++ mgr_tasks es) (set_mngr m a)).

Lemma absorb_run es a :
  absorb es a = Ok ((), handed (mngr a) es a, concat (heard <$> es)).
Proof.
  revert a. induction es as [|ev es IH]; intros a.
  { unfold handed. destruct a. cbn. by rewrite app_nil_r. }
  destruct ev as [ev|te [p|t|sp bs|cb n|cb re le]]; cbn [absorb fmap list_fmap heard concat].
  - apply bind_emit. rewrite IH. unfold handed. rewrite mgr_tasks_cons. by destruct ev.
  - exact (IH a).
  - run. apply bind_emit. rewrite IH. unfold handed. rewrite mgr_tasks_cons. cbn.
    by rewrite <- app_assoc.
  - run. by rewrite IH.
  - exact (IH a).
  - exact (IH a).
Qed.

Lemma with_mngr_run {A} (op : M (tcb_manager B) mgr_event A) a x m es :
  op (mngr a) = Ok (x, m, es) → with_mngr op a = Ok (x, handed m es a, concat (heard <$> es)).
Proof.
  intros E. unfold with_mngr. run. cbv beta iota. run.
  rewrite (bind_run _ _ _ _ _ _ (absorb_run _ _)). cbn. by rewrite app_nil_r.
Qed.

(** ** The closures posted before *)

Definition prior gone q a : application B :=
  set_tasks (q ++ tasks a) (set_mngr (history gone (mngr a)) a).

(** An operation that does not look at the past, and posts the closures its
    events name. *)
Definition posts_named {A} (op : AM A) : Prop := ∀ a x a' es,
  op a = Ok (x, a', es) → tasks a' = tasks a ++ app_tasks es.
Definition blind {A} (op : AM A) : Prop :=
  (∀ gone q, natural (prior gone q) op) ∧ posts_named op.

Lemma blind_bind {A A'} (m : AM A) (k : A → AM A') :
  blind m → (∀ x, blind (k x)) → blind (m ≫= k).
Proof.
  intros [Hm Pm] Hk. split; [intros; apply natural_bind; [done|]; intros x; apply Hk|].
  intros a x a' es. unfold mbind, M_bind. destruct (m a) as [[[y a1] e1]|f] eqn:E1; [|done].
  destruct (k y a1) as [[[z a2] e2]|f] eqn:E2; [|done]. intros [= <- <- <-].
  rewrite app_tasks_app, app_assoc, <- (Pm _ _ _ _ E1). by eapply Hk.
Qed.
Lemma blind_get {A} (k : application B → AM A) :
  (∀ gone q a, k (prior gone q a) = k a) → (∀ a, blind (k a)) → blind (get ≫= k).
Proof.
  intros Hφ Hk. split; [intros; apply natural_get; [done|]; intros; apply Hk|].
  intros a x a' es. rewrite bind_get. by apply Hk.
Qed.
Lemma blind_ret {A} (x : A) : blind (mret x : AM A).
Proof. split; [done|]. intros a y a' es [= <- <- <-]. by rewrite app_nil_r. Qed.
Lemma blind_fail {A} f : blind (fail f : AM A).
Proof. by split. Qed.
Lemma blind_lift {A} (r : result A) : blind (lift r : AM A).
Proof.
  split; [intros; apply natural_lift|]. intros a y a' es. unfold lift. destruct r; [|done].
  intros [= <- <- <-]. by rewrite app_nil_r.
Qed.
Lemma blind_emit ev : app_posts ev = [] → blind (emit ev).
Proof.
  intros Hev. split; [done|]. intros a y a' es [= <- <- <-].
  rewrite app_tasks_cons, Hev. by rewrite app_nil_r.
Qed.
Lemma blind_modify f :
  (∀ gone q a, f (prior gone q a) = prior gone q (f a)) → (∀ a, tasks (f a) = tasks a) →
  blind (modify f).
Proof.
  intros Hf Ht. split; [intros; by apply natural_modify|]. intros a y a' es [= <- <- <-].
  by rewrite Ht, app_nil_r.
Qed.
Lemma blind_with_mngr {A} (op : M (tcb_manager B) mgr_event A) :
  (∀ gone, natural (history gone) op) → blind (with_mngr op).
Proof.
  intros Hop. split.
  - intros gone q a. destruct (op (mngr a)) as [[[x m] es]|f] eqn:E.
    + pose proof (Hop gone (mngr a)) as E'. rewrite E in E'.
      rewrite (with_mngr_run op a x m es E).
      rewrite (with_mngr_run op (prior gone q a) x (history gone m) es E').
      cbn. unfold handed, prior. cbn. by rewrite <- app_assoc.
    + pose proof (Hop gone (mngr a)) as E'. rewrite E in E'.
      unfold with_mngr. rewrite !bind_get. by rewrite !(bind_lift_Fault _ f).
  - intros a x a' es. destruct (op (mngr a)) as [[[y m] e]|f] eqn:E.
    + rewrite (with_mngr_run op a y m e E). intros [= <- <- <-]. by rewrite heard_tasks.
    + unfold with_mngr. rewrite bind_get. by rewrite (bind_lift_Fault _ f).
Qed.

(** *** Every operation of the application is blind *)

#[local] Hint Resolve blind_ret blind_fail blind_lift : natural.
#[local] Hint Extern 1 (blind (with_mngr _)) =>
  (apply blind_with_mngr; intro; eauto with natural) : natural.
#[local] Hint Extern 1 (blind (emit _)) => (by apply blind_emit) : natural.
#[local] Hint Extern 1 (blind (modify _)) => (by apply blind_modify) : natural.

Ltac blind_step :=
  lazymatch goal with
  | |- blind (get ≫= _) => apply blind_get; [done|intro]
  | |- blind (_ ≫= _) => apply blind_bind; [|intro]
  | |- blind (match ?x with _ => _ end) => destruct x
  | |- blind (if ?b then _ else _) => destruct b
  | |- blind _ => solve [eauto with natural]
  end.
Ltac blindly := repeat blind_step.

Lemma register_io_blind cb : blind (register_io (B := B) cb).
Proof. unfold register_io. blindly. Qed.
Lemma register_conn_blind cb : blind (register_conn (B := B) cb).
Proof. unfold register_conn. blindly. Qed.
Lemma allocate_blind : blind (allocate (B := B)).
Proof. unfold allocate. blindly. Qed.
Lemma this_socket_blind sk : blind (this_socket (B := B) sk).
Proof. unfold this_socket. blindly. Qed.
#[local] Hint Resolve register_io_blind register_conn_blind allocate_blind this_socket_blind : natural.

Lemma locked_blind sk : blind (locked (B := B) sk).
Proof. unfold locked, lock. blindly. Qed.
#[local] Hint Resolve locked_blind : natural.
Lemma uncaught_blind m : blind m → blind (uncaught (B := B) m).
Proof. intros Hm. unfold uncaught. blindly. Qed.
#[local] Hint Resolve uncaught_blind : natural.

Lemma try_read_some_blind sk buf cb : blind (try_async_read_some (B := B) sk buf cb).
Proof. unfold try_async_read_some. blindly. Qed.
Lemma try_write_blind sk buf cb : blind (try_async_write (B := B) sk buf cb).
Proof. unfold try_async_write. blindly. Qed.
#[local] Hint Resolve try_read_some_blind try_write_blind : natural.
Lemma read_some_blind sk buf cb : blind (socket_async_read_some (B := B) sk buf cb).
Proof. apply uncaught_blind. blindly. Qed.
Lemma read_complete_blind sk buf cb : blind (async_read_complete (B := B) sk buf cb).
Proof. apply uncaught_blind. unfold try_async_read_complete. blindly. Qed.
Lemma read_blind sk buf cb : blind (socket_async_read (B := B) sk buf cb).
Proof. apply uncaught_blind. unfold try_async_read, try_async_read_complete. blindly. Qed.
Lemma write_blind sk buf cb : blind (socket_async_write (B := B) sk buf cb).
Proof. apply uncaught_blind. blindly. Qed.
Lemma accept_blind acc sk cb : blind (async_accept (B := B) acc sk cb).
Proof. unfold async_accept. blindly. Qed.
#[local] Hint Resolve read_some_blind read_complete_blind read_blind write_blind accept_blind : natural.
Lemma do_accept_blind jp acc : blind (do_accept (B := B) jp acc).
Proof. unfold do_accept. blindly. Qed.
#[local] Hint Resolve do_accept_blind : natural.

Lemma run_user_call_blind c : blind (run_user_call (B := B) c).
Proof. destruct c; cbn [run_user_call]; blindly. Qed.
#[local] Hint Resolve run_user_call_blind : natural.
Lemma run_user_calls_blind calls : blind (run_user_calls (B := B) calls).
Proof. induction calls; cbn [run_user_calls]; blindly. Qed.
#[local] Hint Resolve run_user_calls_blind : natural.

Lemma run_io_blind cb ec nbytes calls : blind (run_io (B := B) cb ec nbytes calls).
Proof.
  revert ec nbytes. induction cb; intros; cbn [run_io];
    unfold async_read_and_echo; blindly.
Qed.
#[local] Hint Resolve run_io_blind : natural.
Lemma run_done_blind jp cb ec calls : blind (run_done (B := B) jp cb ec calls).
Proof. destruct cb; cbn [run_done]; unfold async_read_and_echo; blindly. Qed.
#[local] Hint Resolve run_done_blind : natural.
Lemma run_conn_blind jp cb ec le te calls : blind (run_conn (B := B) jp cb ec le te calls).
Proof. unfold run_conn, bind_socket. blindly. Qed.
#[local] Hint Resolve run_conn_blind : natural.

Lemma exec_blind jp te t calls : blind (exec (B := B) jp te t calls).
Proof. unfold exec. blindly. Qed.

Lemma run_app_op_blind o : blind (run_app_op (B := B) o).
Proof.
  destruct o; cbn [run_app_op]; unfold socket_async_connect, main_serve, acceptor_new_at, acceptor_new;
    blindly.
Qed.

Lemma packet_blind junk isn pkt : blind (with_mngr (B := B) (mgr_process junk isn pkt)).
Proof. blindly. Qed.
End App.
