(* ===== verification/ProgramFacts.v ===== *)
(** * A program does what its application does

    The layers below the connection table, the devices and the order in which
    the [io_context] runs closures of different layers make no difference to
    the application: a program refines the application of [Socket], for which
    packets just arrive and whose own closures are all there are. *)

From S2P Require Import Prelude Utils Skbuff Addr Headers CircularBuffer Tcb TcbFacts TcbState.
From S2P Require Import BaseProtocol Packets TcbManager Socket SocketFacts Tcp Icmp RoutingTable Arp.
From S2P Require Import Ipv4 Ethernet Device Stack Netns NetnsFacts NetnsRun Incoming Program Prior.

(** ** The application alone *)

Inductive app_move : Type :=
| APacket (junk : indeterminate) (isn : Z) (pkt : tcp_packet)   (** a packet arrives *)
| ANext (junk_port : Z) (calls : list user_call)                (** the closure posted first runs *)
| ACall (o : app_op).                                           (** a call of the application *)

(** The events of the application in a program. *)
Definition of_app (es : list prog_event) : list app_event :=
  omap (λ ev, match ev with OfApp ev => Some ev | OfNet _ => None end) es.

Lemma of_app_app e1 e2 : of_app (e1 ++ e2) = of_app e1 ++ of_app e2.
Proof. apply omap_app. Qed.
Lemma of_app_net es : of_app (concat (net_out <$> es)) = [].
Proof. by induction es as [|[] es IH]. Qed.
Lemma of_app_visible es : of_app (concat (app_out <$> es)) = visible es.
Proof.
  induction es as [|ev es IH]; [done|]. rewrite fmap_cons. cbn [concat].
  rewrite of_app_app, IH. by destruct ev.
Qed.

Lemma net_fills_app e1 e2 mem : net_fills (e1 ++ e2) mem = net_fills e2 (net_fills e1 mem).
Proof. revert mem. induction e1 as [|[? []| | | |] e1 IH]; intros mem; cbn; auto. Qed.

Section Refinement.
Context `{Hh : Host} {Sig : Type} `{Hsig : Signal ethernetv2_frame Sig}.
Context {B : Type} `{Hc : CircularBuffer B}.
Context (addr_of : skbuff → Z) (run_cb : nat → endpoint → endpoint → M tcp tcp_event bool).
Implicit Types (n : netns Sig B) (s : program Sig B) (gone : list tcp_packet).
Abbreviation AM := (M (application B) app_event).
Abbreviation NM := (M (netns Sig B) net_event).

Definition run_move (mv : app_move) : AM unit :=
  match mv with
  | APacket junk isn pkt => with_mngr (mgr_process junk isn pkt)
  | ANext junk_port calls => run_next junk_port calls
  | ACall o => run_app_op o
  end.
Fixpoint run_moves (mvs : list app_move) : AM unit :=
  match mvs with
  | [] => mret ()
  | mv :: mvs => _ ← run_move mv; run_moves mvs
  end.

Lemma run_moves_app mv1 mv2 a a1 e1 a2 e2 :
  run_moves mv1 a = Ok ((), a1, e1) → run_moves mv2 a1 = Ok ((), a2, e2) →
  run_moves (mv1 ++ mv2) a = Ok ((), a2, e1 ++ e2).
Proof.
  revert a e1. induction mv1 as [|mv mv1 IH]; intros a e1; [by intros [= <- <-]|].
  cbn [run_moves app]. unfold mbind, M_bind. destruct (run_move mv a) as [[[u a'] e']|]; [|done].
  destruct (run_moves mv1 a') as [[[[] a1'] e1']|] eqn:E; [|done]. intros [= <- <-] E2.
  rewrite (IH _ _ E E2). by rewrite app_assoc.
Qed.

(** The application of a program, when the packets [gone] have been handed to
    the TCP layer: it has what is still queued behind them, and the closures
    of connections among all closures. *)
Definition view gone s : application B :=
  set_tasks (tcb_tasks (io_ctx_ (net_ s))) (set_mngr (history gone (tcb_m_ (net_ s))) (app_ s)).

Lemma view_prior gone s : view gone s = prior gone (tcb_tasks (io_ctx_ (net_ s))) (app_of s).
Proof. unfold prior, app_of, view. cbn. by rewrite app_nil_r. Qed.

(** ** Below the application *)

(** Nothing happens to the application, but that the table has handed on
    [gone']. *)
Definition apart gone' n n' (es : list net_event) : Prop :=
  (∀ gone, history (gone ++ gone') (tcb_m_ n') = history gone (tcb_m_ n)) ∧
  tcb_tasks (io_ctx_ n') = tcb_tasks (io_ctx_ n) ∧ (∀ mem, net_fills es mem = mem) ∧
  (plain (tcp_ n) → plain (tcp_ n')).

(** The packets [pkts] reach the application. *)
Definition fed (pkts : list tcp_packet) (junk : indeterminate) (isn : Z) n n' (es : list net_event) : Prop :=
  (∀ gone (a : application B), ∃ evs,
    run_moves (APacket junk isn <$> pkts) (view gone (mk_program n a)) =
      Ok ((), view gone (mk_program n' (set_memory (net_fills es (memory a)) a)), evs) ∧
    visible evs = []) ∧
  (plain (tcp_ n) → plain (tcp_ n')).

Lemma apart_refl n : apart [] n n [].
Proof. split_and!; [intros; by rewrite app_nil_r|done..]. Qed.
Lemma apart_trans g1 g2 n n1 n2 e1 e2 :
  apart g1 n n1 e1 → apart g2 n1 n2 e2 → apart (g1 ++ g2) n n2 (e1 ++ e2).
Proof.
  intros (H1 & T1 & F1 & P1) (H2 & T2 & F2 & P2). split_and!; [|congruence| |by auto].
  - intros gone. by rewrite app_assoc, H2, H1.
  - intros mem. by rewrite net_fills_app, F1, F2.
Qed.

Lemma apart_view gone gone' n n' es a :
  apart gone' n n' es →
  view (gone ++ gone') (mk_program n' (set_memory (net_fills es (memory a)) a)) =
    view gone (mk_program n a).
Proof. intros (Hm & Ht & Hf & _). unfold view. cbn. rewrite Hm, Ht, Hf. by destruct a. Qed.

Lemma apart_fed junk isn n n' es : apart [] n n' es → fed [] junk isn n n' es.
Proof.
  intros Ha. split; [|apply Ha]. intros gone a. exists []. split; [|done]. cbn.
  by rewrite <- (apart_view gone [] n n' es a Ha), app_nil_r.
Qed.

Lemma fed_trans p1 p2 junk isn n n1 n2 e1 e2 :
  fed p1 junk isn n n1 e1 → fed p2 junk isn n1 n2 e2 → fed (p1 ++ p2) junk isn n n2 (e1 ++ e2).
Proof.
  intros [H1 P1] [H2 P2]. split; [|by auto]. intros gone a.
  destruct (H1 gone a) as (v1 & E1 & V1).
  destruct (H2 gone (set_memory (net_fills e1 (memory a)) a)) as (v2 & E2 & V2).
  exists (v1 ++ v2). rewrite fmap_app, net_fills_app. split; [by eapply run_moves_app|].
  by rewrite visible_app, V1, V2.
Qed.

(** Operations that do one or the other. *)
Definition aside {A} (m : NM A) : Prop := ∀ n, wp m (λ _ n' es, apart [] n n' es) (λ _, True) n.
(** What reaches the application is [segs]. *)
Definition feeds (segs : list segment) junk isn {A} (m : NM A) : Prop :=
  ∀ n, plain (tcp_ n) →
    wp m (λ _ n' es, ∃ pkts, segment_of <$> pkts = segs ∧ fed pkts junk isn n n' es) (λ _, True) n.

Lemma aside_feeds junk isn {A} (m : NM A) : aside m → feeds [] junk isn m.
Proof.
  intros Hm n _. eapply wp_mono; [apply Hm| |done]. intros. exists []. split; [done|]. by apply apart_fed.
Qed.
Lemma aside_bind {A A'} (m : NM A) (k : A → NM A') : aside m → (∀ x, aside (k x)) → aside (m ≫= k).
Proof.
  intros Hm Hk n. wp_step. eapply wp_mono; [apply Hm| |done]. intros x n1 e1 H1.
  eapply wp_mono; [apply Hk| |done]. intros y n2 e2 H2. exact (apart_trans [] [] _ _ _ _ _ H1 H2).
Qed.
Lemma aside_ret {A} (x : A) : aside (mret x).
Proof. intros n. wp_step. apply apart_refl. Qed.
Lemma aside_fail {A} f : aside (fail f : NM A).
Proof. done. Qed.
(** First what leaves the application alone and tells what comes up, then
    what the layer above does with it; and the other way round. *)
Lemma feeds_bind segs junk isn {A A'} (m : NM A) (P : A → Prop) (k : A → NM A') :
  aside m → (∀ n, plain (tcp_ n) → wp m (λ x _ _, P x) (λ _, True) n) → (∀ x, P x → feeds segs junk isn (k x)) →
  feeds segs junk isn (m ≫= k).
Proof.
  intros Hm Hp Hk n Hn. wp_step. eapply wp_mono; [exact (wp_and _ _ _ _ _ (Hm n) (Hp n Hn))| |done].
  intros x n1 e1 [H1 Hx]. eapply wp_mono; [apply (Hk x Hx), H1, Hn| |done].
  intros y n2 e2 (pkts & Hs & H2). exists pkts. split; [done|].
  exact (fed_trans [] pkts _ _ _ _ _ _ _ (apart_fed _ _ _ _ _ H1) H2).
Qed.
Lemma feeds_then segs junk isn {A A'} (m : NM A) (k : A → NM A') :
  feeds segs junk isn m → (∀ x, aside (k x)) → feeds segs junk isn (m ≫= k).
Proof.
  intros Hm Hk n Hn. wp_step. eapply wp_mono; [exact (Hm n Hn)| |done].
  intros x n1 e1 (pkts & Hs & H1). eapply wp_mono; [apply Hk| |done]. intros y n2 e2 H2.
  exists pkts. split; [done|]. rewrite <- (app_nil_r pkts).
  exact (fed_trans pkts [] _ _ _ _ _ _ _ H1 (apart_fed _ _ _ _ _ H2)).
Qed.

(** *** The layers *)

Lemma part_aside {S1 E1 A} (f : netns Sig B → S1) g posts outs (op : M S1 E1 A) :
  (∀ y n, tcb_m_ (g y n) = tcb_m_ n ∧ io_ctx_ (g y n) = io_ctx_ n) →
  (∀ n, plain (tcp_ n) → wp op (λ _ y _, plain (tcp_ (g y n))) (λ _, True) (f n)) →
  (∀ ev, tcb_tasks (posts ev) = []) → (∀ ev mem, net_fills (outs ev) mem = mem) →
  aside (part f g posts outs op).
Proof.
  intros Hg Hpl Hp Ho n. specialize (Hpl n). unfold wp, part in *.
  destruct (op (f n)) as [[[x s1] es]|]; [|done].
  destruct (Hg s1 n) as [Em Eio]. split_and!; cbn.
  - intros gone. by rewrite app_nil_r, Em.
  - rewrite tcb_tasks_app, Eio. replace (tcb_tasks (concat (posts <$> es))) with ([] : list (two_ends_t * task)).
    { apply app_nil_r. }
    induction es as [|ev es IH]; [done|]. rewrite fmap_cons. cbn [concat].
    by rewrite tcb_tasks_app, Hp, <- IH.
  - induction es as [|ev es IH]; [done|]. intros mem. rewrite fmap_cons. cbn [concat].
    by rewrite net_fills_app, Ho, IH.
  - exact Hpl.
Qed.

(** A layer that is not TCP leaves the TCP layer alone. *)
Lemma plain_kept {S1 E1 A} (f : netns Sig B → S1) (g : S1 → netns Sig B → netns Sig B) (op : M S1 E1 A) :
  (∀ y n, tcp_ (g y n) = tcp_ n) →
  ∀ n, plain (tcp_ n) → wp op (λ _ y _, plain (tcp_ (g y n))) (λ _, True) (f n).
Proof. intros Hg n Hn. unfold wp. destruct (op (f n)) as [[[? y] ?]|]; [|done]. by rewrite Hg. Qed.

Lemma with_tcp_aside {A} (op : M tcp tcp_event A) :
  (∀ t, plain t → wp op (λ _ t' _, plain t') (λ _, True) t) → aside (with_tcp op).
Proof. intros Hop. apply part_aside; [done|by intros n; apply Hop|intros [[]| | | | |]; done|intros []; done]. Qed.
Lemma with_ip_aside {A} (op : M (ipv4 Sig) ipv4_event A) : aside (with_ip op).
Proof. apply part_aside; [done|exact (plain_kept ipv4_ set_ipv4 op (λ _ _, eq_refl))|by intros [[]|[[]| |]]|done]. Qed.
Lemma with_icmp_aside {A} op : aside (with_icmp (A := A) op).
Proof. apply part_aside; [done|exact (plain_kept icmp_ set_icmp op (λ _ _, eq_refl))|by intros []|done]. Qed.
Lemma with_eth_aside {A} op : aside (with_eth (A := A) op).
Proof. apply part_aside; [done|exact (plain_kept eth_ set_eth op (λ _ _, eq_refl))|by intros []|done]. Qed.
Lemma with_dev_aside {A} d (op : M device device_event A) : aside (with_dev d op).
Proof.
  intros n. unfold with_dev. wp_steps. destruct (devs n !! d) as [dv|]; [|exact I].
  apply (part_aside (λ _, dv) (λ dev n, set_devs (<[d := dev]> (devs n)) n)); [done| |done|by intros []].
  exact (plain_kept (λ _, dv) (λ dev n, set_devs (<[d := dev]> (devs n)) n) op (λ _ _, eq_refl)).
Qed.
Lemma tcp_process_plain new_addr pkt t :
  plain t → wp (tcp_process new_addr pkt) (λ _ t' _, plain t') (λ _, True) t.
Proof.
  intros [Hr Hl]. unfold wp. destruct (tcp_process new_addr pkt t) as [[[x t'] es]|] eqn:E; [|done].
  destruct (tcp_process_inv _ _ _ _ _ _ E) as (Er & El & _). split; congruence.
Qed.
#[local] Hint Resolve with_ip_aside with_icmp_aside with_eth_aside with_dev_aside
  aside_ret aside_fail : natural.

Ltac aside_step :=
  lazymatch goal with
  | |- aside (_ ≫= _) => apply aside_bind; [|intro]
  | |- aside (match ?x with _ => _ end) => destruct x
  | |- aside _ => solve [eauto with natural]
  end.

Lemma emit_aside ev : (∀ mem, net_fills [ev] mem = mem) → aside (emit ev).
Proof. intros Hev n. wp_step. split_and!; [intros; by rewrite app_nil_r|done..]. Qed.

Lemma below_aside p pkt : p ≠ PMgr → aside (below addr_of p pkt).
Proof.
  intros Hp. destruct p; [done|..]; cbn [below]; unfold ip_down, eth_down, dev_down; repeat aside_step.
Qed.
Lemma under_aside {U} (es : list (base_event U)) h : (∀ pkt, aside (h pkt)) → aside (under es h).
Proof. intros Hd. induction es as [|[]]; cbn [under]; repeat aside_step; auto. Qed.
Lemma tcp_down_aside pkt : aside (tcp_down addr_of pkt).
Proof.
  unfold tcp_down. apply aside_bind; [|intro; apply aside_ret]. apply with_tcp_aside. intros t.
  apply tcp_process_plain.
Qed.

Lemma run_base_aside p : p ≠ PMgr → aside (run_base addr_of p).
Proof.
  intros Hp. unfold run_base. apply aside_bind.
  - apply part_aside; [by destruct p| |by intros []|done]. intros n Hn. unfold wp.
    destruct (run_posted (base_of p n)) as [[[? y] ?]|]; [|done]. by destruct p.
  - intros [u es]. apply under_aside. intros pkt. by apply below_aside.
Qed.

(** The closure of the table hands on the packet at the front. *)
Lemma pop_apart pkt rest n :
  mgr_base (tcb_m_ n) = mk_base true (pkt :: rest) →
  apart [pkt] n (put_base PMgr (mk_base true rest) n) [].
Proof.
  intros Eb. split_and!; [|done..]. intros gone. unfold history. cbn. rewrite Eb. cbn.
  by rewrite <- app_assoc.
Qed.
Definition mgr_hands n gone' n' : Prop :=
  if under_proto_ (mgr_base (tcb_m_ n)) then
    ∃ pkt rest, packet_queue_ (mgr_base (tcb_m_ n)) = pkt :: rest ∧ gone' = [pkt] ∧
      queued_as pkt (tcp_ n) (tcp_ n')
  else gone' = [].

Lemma tcp_down_queued pkt n :
  wp (tcp_down addr_of pkt) (λ _ n' _, queued_as pkt (tcp_ n) (tcp_ n')) (λ _, True) n.
Proof.
  unfold wp, tcp_down, with_tcp, part, mbind, M_bind.
  destruct (tcp_process (addr_of (tp_skb pkt)) pkt (tcp_ n)) as [[[x t'] es]|] eqn:E; [|done].
  cbn. by destruct (tcp_process_inv _ _ _ _ _ _ E) as (_ & _ & Hq).
Qed.

Lemma run_base_mgr n :
  wp (run_base addr_of PMgr) (λ _ n' es, ∃ gone', mgr_hands n gone' n' ∧ apart gone' n n' es) (λ _, True) n.
Proof.
  unfold mgr_hands. destruct (mgr_base (tcb_m_ n)) as [[] q] eqn:Eb; cbn [under_proto_ packet_queue_].
  2: { assert (run_base addr_of PMgr n = Ok ((), n, [])) as E;
         [|unfold wp; rewrite E; exists []; split; [done|apply apart_refl]].
       unfold run_base, mbind, M_bind, part, run_posted. cbn [base_of]. rewrite Eb. cbn.
       rewrite bind_get. destruct n as [[] ? ? ? ? ? ?]. cbn in *. subst. cbn. by rewrite app_nil_r. }
  destruct q as [|pkt rest].
  { unfold wp, run_base, part, mbind at 1, M_bind at 1, run_posted. cbn [base_of].
    rewrite bind_get, Eb. exact I. }
  unfold wp. rewrite (run_base_run addr_of PMgr pkt rest) by (cbn; by rewrite Eb).
  cbn [base_of]. rewrite Eb. change (set_queue rest _) with (mk_base true rest).
  pose proof (pop_apart pkt rest n Eb) as H1. set (n1 := put_base _ _ _) in *. cbn [below].
  pose proof (wp_and _ _ _ _ _ (tcp_down_aside pkt n1) (tcp_down_queued pkt n1)) as H2. unfold wp in H2.
  unfold mbind, M_bind. destruct (tcp_down addr_of pkt n1) as [[[u n'] es]|]; [|done].
  destruct H2 as [H2 Hq]. exists [pkt]. split; [by exists pkt, rest|].
  cbn. rewrite app_nil_r. exact (apart_trans [pkt] [] _ _ _ [] es H1 H2).
Qed.

(** No closure of a layer is the application's, and only that of the table
    takes something from it. *)
Lemma closure_aside k :
  (∀ te t, k ≠ KTcb te t) → k ≠ KBase PMgr → aside (run_closure addr_of k []).
Proof.
  intros Hk Hm. destruct k as [te t|p|f mac|cb pkt|cb].
  - by destruct (Hk te t).
  - apply run_base_aside. by intros ->.
  - cbn [run_closure]. repeat aside_step.
  - by apply emit_aside.
  - by apply emit_aside.
Qed.

(** A closure that is not of a connection, at any rate. *)
Lemma closure_apart k n :
  (∀ te t, k ≠ KTcb te t) →
  wp (run_closure addr_of k []) (λ _ n' es, ∃ gone', apart gone' n n' es) (λ _, True) n.
Proof.
  intros Hk. assert (k = KBase PMgr ∨ k ≠ KBase PMgr) as [->|Hm]
    by (destruct k as [| [] | | |]; first [by left|by right]).
  - eapply wp_mono; [apply run_base_mgr| |done]. intros [] n' es (gone' & _ & Ha). by exists gone'.
  - eapply wp_mono; [by apply closure_aside| |done]. intros [] n' es Ha. by exists [].
Qed.

(** *** Up *)

(** A packet that reaches the table reaches the application. *)
Lemma mgr_up_feeds junk isn pkt : feeds [segment_of pkt] junk isn (mgr_up junk isn pkt).
Proof.
  intros n Hn. unfold mgr_up. wp_step. unfold wp, with_mgr, part.
  destruct (mgr_process junk isn pkt (tcb_m_ n)) as [[[[] m] es]|f] eqn:E; [|done].
  cbn. exists [pkt]. split; [done|]. split; [|done]. intros gone a.
  exists (concat (heard <$> es)). split; [|apply heard_invisible].
  rewrite app_nil_r. cbn [fmap list_fmap run_moves run_move].
  pose proof (mgr_process_natural gone junk isn pkt (tcb_m_ n)) as En. rewrite E in En.
  rewrite (bind_run _ _ _ _ _ _ (with_mngr_run _ (view gone (mk_program n a)) () _ es En)).
  cbn. rewrite app_nil_r. unfold handed, view. cbn. by rewrite tcb_tasks_app.
Qed.

Lemma resolved_calls_aside es : aside (resolved_calls es).
Proof.
  induction es as [|[|[| |]] es IH]; cbn [resolved_calls]; try exact IH; repeat aside_step.
Qed.
#[local] Hint Resolve resolved_calls_aside : natural.

Section Up.
Context (junk : indeterminate) (isn : Z).

(** A datagram with the segment [seg] in it. *)
Lemma tcp_up_feeds p seg :
  whole (ipp_skb p) seg →
  feeds [(mk_endpoint (src_addrv4 p) (field 0 2 seg), mk_endpoint (dst_addrv4 p) (field 2 2 seg), seg)]
    junk isn (tcp_up run_cb junk isn p).
Proof.
  intros Hw n Hn. unfold tcp_up. wp_step. unfold wp at 1, with_tcp, part.
  destruct (tcp_receive run_cb p (tcp_ n)) as [[[out t'] es]|] eqn:E; [|done].
  destruct (tcp_receive_inv run_cb p _ _ _ _ seg Hn Hw E) as (-> & -> & pkt & -> & <-). cbn.
  destruct n as [m t ic i e ds q]. cbn. rewrite app_nil_r. exact (mgr_up_feeds junk isn pkt _ Hn).
Qed.

Definition datagram_segment (dg : list byte) : option segment :=
  if (field 0 1 dg / 16 =? 4) && (field 9 1 dg =? 6) then
    Some (mk_endpoint (Ipv4 (field 12 4 dg)) (field 20 2 dg),
          mk_endpoint (Ipv4 (field 16 4 dg)) (field 22 2 dg), drop 20 dg)
  else None.

(** What a layer's packet is dispatched to. *)
Lemma ip_dispatch x : ipv4_uppers !! x = if x =? 6 then Some LTcp else if x =? 1 then Some LIcmp else None.
Proof.
  transitivity ((<[6 := LTcp]> (<[1 := LIcmp]> (∅ : gmap Z layer)) : gmap Z layer) !! x); [reflexivity|].
  destruct (Z.eqb_spec x 6) as [->|]; [reflexivity|]. rewrite lookup_insert_ne by done.
  destruct (Z.eqb_spec x 1) as [->|]; [reflexivity|]. by rewrite lookup_insert_ne by done.
Qed.
Lemma eth_dispatch x :
  eth_uppers !! x = if x =? 2048 then Some LIpv4 else if x =? 2054 then Some LArp else None.
Proof.
  transitivity ((<[2054 := LArp]> (<[2048 := LIpv4]> (∅ : gmap Z layer)) : gmap Z layer) !! x); [reflexivity|].
  destruct (Z.eqb_spec x 2048) as [->|]; [reflexivity|].
  destruct (Z.eqb_spec x 2054) as [->|]; [reflexivity|]. by rewrite !lookup_insert_ne by done.
Qed.

Lemma ip_up_feeds f dg :
  whole (frame_skb f) dg →
  feeds (option_list (datagram_segment dg)) junk isn (ip_up addr_of run_cb junk isn f).
Proof.
  intros Hw. unfold ip_up. apply (feeds_bind _ _ _ _ (λ x,
    if field 0 1 dg / 16 =? 4 then
      ∃ p, x.1 = (h ← ipv4_uppers !! field 9 1 dg; Some (h, p)) ∧ whole (ipp_skb p) (drop 20 dg) ∧
        src_addrv4 p = Ipv4 (field 12 4 dg) ∧ dst_addrv4 p = Ipv4 (field 16 4 dg)
    else x.1 = None)).
  - eauto with natural.
  - intros n _. unfold wp, with_ip, part.
    destruct (ip_receive f (ipv4_ n)) as [[[out s'] es]|] eqn:E; [|done]. exact (ip_receive_inv _ _ _ _ _ _ Hw E).
  - intros [out es]. cbn [fst]. unfold datagram_segment. destruct (_ =? 4); [|intros ->; apply aside_feeds, aside_ret].
    intros (p & -> & Hwp & Es & Ed). rewrite ip_dispatch. cbn [andb].
    destruct (field 9 1 dg =? 6).
    + cbn. pose proof (tcp_up_feeds p (drop 20 dg) Hwp) as Hf. by rewrite !field_drop, Es, Ed in Hf.
    + destruct (field 9 1 dg =? 1); cbn; [|apply aside_feeds, aside_ret].
      apply aside_feeds. unfold icmp_up. repeat aside_step.
Qed.

Lemma frame_datagram frame :
  frame_segment frame = if field 12 2 frame =? 2048 then datagram_segment (drop 14 frame) else None.
Proof.
  unfold frame_segment, datagram_segment. rewrite !field_drop, drop_drop.
  by destruct (field 12 2 frame =? 2048).
Qed.

Lemma eth_up_feeds skb d frame :
  whole skb frame → feeds (option_list (frame_segment frame)) junk isn (eth_up addr_of run_cb junk isn skb d).
Proof.
  intros Hw. unfold eth_up. apply (feeds_bind _ _ _ _ (λ x,
    ∃ f, x.1 = (h ← eth_uppers !! field 12 2 frame; Some (h, f)) ∧ whole (frame_skb f) (drop 14 frame))).
  - eauto with natural.
  - intros n _. unfold wp, with_eth, part.
    destruct (eth_receive skb (Some d) (eth_ n)) as [[[out s'] es]|] eqn:E; [|done].
    exact (eth_receive_inv _ _ _ _ _ _ _ Hw E).
  - intros [out es]. cbn [fst]. intros (f & -> & Hwf). rewrite eth_dispatch, frame_datagram.
    destruct (field 12 2 frame =? 2048); [by apply ip_up_feeds|].
    destruct (field 12 2 frame =? 2054); cbn; [|apply aside_feeds, aside_ret].
    apply aside_feeds. unfold arp_up. repeat aside_step.
Qed.

(** What a completed read brings. *)
Definition read_segment (ec : bool) (buf : list byte) (nbytes : Z) : option segment :=
  if ec then None else frame_segment (take (Z.to_nat nbytes) buf).

Lemma net_read_done_feeds d ec buf nbytes :
  feeds (option_list (read_segment ec buf nbytes)) junk isn (net_read_done addr_of run_cb junk isn d ec buf nbytes).
Proof.
  unfold net_read_done. apply (feeds_bind _ _ _ _ (λ x,
    if ec then x.2 = [] else ∃ skb, x.2 = [DevReceive skb; DevRead 1500] ∧ whole skb (take (Z.to_nat nbytes) buf))).
  - eauto with natural.
  - intros n _. unfold wp, with_dev, mbind, M_bind. cbn [get]. destruct (devs n !! d) as [dv|]; [|done].
    unfold part, dev_read_done. destruct ec; [done|]. unfold mbind, M_bind, lift.
    destruct (skb_new (take (Z.to_nat nbytes) buf) 0) as [skb|] eqn:E; [|done].
    cbn. exists skb. split; [done|by apply whole_new].
  - intros [u es]. cbn [snd]. unfold read_segment. destruct ec.
    { intros ->. apply aside_feeds, aside_ret. }
    intros (skb & -> & Hw). cbn [received_calls]. apply feeds_then; [by apply eth_up_feeds|].
    intros _. apply aside_bind; [by apply emit_aside|intros; apply aside_ret].
Qed.
End Up.

(** ** What an action is for the application *)

(** The moves of the application, and what the table hands on meanwhile,
    when [x] happens to the namespace [n] and leaves it as [n']. *)
Definition explains (x : prog_action) n (mvs : list app_move) (gone : list tcp_packet) n' : Prop :=
  match x with
  | ProgRun junk_port calls =>
      match io_ctx_ n with
      | KTcb _ _ :: _ => mvs = [ANext junk_port calls] ∧ gone = []
      | KBase PMgr :: _ => mvs = [] ∧ mgr_hands n gone n'
      | _ => mvs = [] ∧ gone = []
      end
  | ProgReadDone junk isn _ ec buf nbytes =>
      gone = [] ∧ ∃ pkts, mvs = APacket junk isn <$> pkts ∧
        segment_of <$> pkts = option_list (read_segment ec buf nbytes)
  | ProgApp o => mvs = [ACall o] ∧ gone = []
  | ProgWriteDone _ _ | ProgRoute _ | ProgNeigh _ => mvs = [] ∧ gone = []
  end.

(** One action after the other. *)
Inductive explained : list prog_action → program Sig B → list app_move → list tcp_packet →
    program Sig B → Prop :=
| ExplainedNil s : explained [] s [] [] s
| ExplainedCons x acts s es s1 mvs gone mvs' gone' s' :
    prog_act addr_of run_cb x s = Ok ((), s1, es) → explains x (net_ s) mvs gone (net_ s1) →
    explained acts s1 mvs' gone' s' → explained (x :: acts) s (mvs ++ mvs') (gone ++ gone') s'.

(** The application makes the moves [mvs] while the table hands on [gone'],
    and the same events are seen. *)
Definition matched mvs gone' s s' (es : list prog_event) : Prop :=
  ∀ gone, ∃ evs,
    run_moves mvs (view gone s) = Ok ((), view (gone ++ gone') s', evs) ∧ of_app es = visible evs.

(** A layer: a step of the namespace that is not the application's. *)
Lemma net_matched {A} (op : NM A) s x s' es :
  call_net op s = Ok (x, s', es) →
  ∃ n' nes, op (net_ s) = Ok (x, n', nes) ∧
    s' = mk_program n' (set_memory (net_fills nes (memory (app_ s))) (app_ s)) ∧ of_app es = [].
Proof.
  unfold call_net. destruct (op (net_ s)) as [[[y n'] nes]|]; [|done]. intros [= <- <- <-].
  exists n', nes. split_and!; [done|done|apply of_app_net].
Qed.

Lemma apart_matched {A} (op : NM A) gone' s x s' es :
  call_net op s = Ok (x, s', es) →
  (∀ n' nes, op (net_ s) = Ok (x, n', nes) → apart gone' (net_ s) n' nes) →
  matched [] gone' s s' es.
Proof.
  intros E Ha. destruct (net_matched op s x s' es E) as (n' & nes & En & -> & Hv).
  specialize (Ha n' nes En). intros gone. exists []. split; [|done]. cbn.
  rewrite (apart_view gone gone' (net_ s)) by done. by destruct s.
Qed.
Lemma aside_matched {A} (op : NM A) s x s' es :
  aside op → call_net op s = Ok (x, s', es) → matched [] [] s s' es.
Proof. intros Hop E. eapply apart_matched; [exact E|]. intros n' nes En. exact (wp_run _ _ _ _ _ _ _ (Hop (net_ s)) En). Qed.

(** The application: its own step. *)
Lemma call_app_matched (op : AM unit) gone s s' es :
  blind op → call_app op s = Ok ((), s', es) →
  ∃ evs, op (view gone s) = Ok ((), view gone s', evs) ∧ of_app es = visible evs.
Proof.
  intros [Hnat Hposts]. unfold call_app.
  destruct (op (app_of s)) as [[[[] a] evs]|f] eqn:E; [|done]. intros [= <- <-]. exists evs.
  split; [|apply of_app_visible]. rewrite view_prior, Hnat, E. cbn. do 3 f_equal.
  unfold prior, view. cbn. rewrite (Hposts _ _ _ _ E), tcb_tasks_app. done.
Qed.

(** The TCP layer stays without raw sockets and interceptors. *)
Lemma aside_plain {A} (op : NM A) s x s' es :
  aside op → call_net op s = Ok (x, s', es) → plain (tcp_ (net_ s)) → plain (tcp_ (net_ s')).
Proof.
  intros Hop E. destruct (net_matched op s x s' es E) as (n' & nes & En & -> & _).
  apply (wp_run _ _ _ _ _ _ _ (Hop (net_ s)) En).
Qed.
Lemma call_app_plain (op : AM unit) s s' es :
  call_app op s = Ok ((), s', es) → plain (tcp_ (net_ s)) → plain (tcp_ (net_ s')).
Proof. unfold call_app. destruct (op (app_of s)) as [[[[] a] evs]|]; [|done]. by intros [= <- _]. Qed.

Lemma prog_one_matched jp calls s s' es :
  prog_one addr_of jp calls s = Ok ((), s', es) →
  ∃ mvs gone', explains (ProgRun jp calls) (net_ s) mvs gone' (net_ s') ∧ matched mvs gone' s s' es ∧
    (plain (tcp_ (net_ s)) → plain (tcp_ (net_ s'))).
Proof.
  unfold prog_one. rewrite bind_get. destruct (io_ctx_ (net_ s)) as [|k q] eqn:Eq.
  { intros [= <- <-]. exists [], []. cbn [explains]. rewrite Eq. split; [done|]. split; [|done].
    intros gone. exists []. by rewrite app_nil_r. }
  rewrite bind_modify. set (s1 := mk_program _ _).
  assert (∀ mvs gone', (∀ te t, k ≠ KTcb te t) → matched mvs gone' s1 s' es → matched mvs gone' s s' es) as Hview.
  { intros mvs gone' Hne Hm gone. destruct (Hm gone) as (evs & E & Hv). exists evs.
    assert (view gone s = view gone s1) as ->; [|done].
    unfold view. cbn. rewrite Eq. destruct k; try done. by destruct (Hne te t). }
  assert (k = KBase PMgr ∨ k ≠ KBase PMgr) as [->|Hm] by (destruct k as [te t|[]| | |]; auto; by right).
  - change (prog_closure addr_of jp (KBase PMgr) calls) with (call_net (run_closure addr_of (KBase PMgr) [])).
    intros E. destruct (net_matched _ s1 _ _ _ E) as (n' & nes & En & Es & _).
    destruct (wp_run _ _ _ _ _ _ _ (run_base_mgr (net_ s1)) En) as (gone' & Hg & Ha).
    exists [], gone'. cbn [explains]. rewrite Eq. split; [split; [done|]; rewrite Es; exact Hg|].
    split; [|rewrite Es; apply Ha]. apply Hview; [done|].
    eapply apart_matched; [exact E|]. intros n2 nes2 E2. by rewrite En in E2; simplify_eq.
  - assert ((∃ te t, k = KTcb te t) ∨ ∀ te t, k ≠ KTcb te t) as [(te & t & ->)|Hne]
      by (destruct k; by eauto).
    + intros E. exists [ANext jp calls], []. cbn [explains]. rewrite Eq. split; [done|]. split.
      * intros gone. destruct (call_app_matched _ gone s1 s' es (exec_blind jp te t calls) E) as (evs & Ev & Hv).
        exists evs. split; [|done]. cbn [run_moves run_move].
        assert (view gone s = set_tasks ((te, t) :: tasks (view gone s1)) (view gone s1)) as ->
          by (unfold view; cbn; by rewrite Eq).
        erewrite bind_run by (unfold run_next; rewrite bind_get; cbn [tasks set_tasks];
          rewrite bind_modify; exact Ev).
        cbn. by rewrite !app_nil_r.
      * exact (call_app_plain _ _ _ _ E).
    + assert (prog_closure addr_of jp k calls = call_net (run_closure addr_of k [])) as ->
        by (destruct k as [te t| | | |]; [by destruct (Hne te t)|done..]).
      intros E. pose proof (closure_aside k Hne Hm) as Ha. exists [], []. cbn [explains]. rewrite Eq.
      split; [destruct k as [te t|[]| | |]; try done; by destruct (Hne te t)|].
      split; [apply Hview; [done|]; by eapply aside_matched|exact (aside_plain _ _ _ _ _ Ha E)].
Qed.

Lemma prog_act_matched x s s' es :
  plain (tcp_ (net_ s)) → prog_act addr_of run_cb x s = Ok ((), s', es) →
  ∃ mvs gone', explains x (net_ s) mvs gone' (net_ s') ∧ matched mvs gone' s s' es ∧ plain (tcp_ (net_ s')).
Proof.
  intros Hpl.
  assert (∀ op : NM (), aside op → call_net op s = Ok ((), s', es) →
    matched [] [] s s' es ∧ plain (tcp_ (net_ s'))) as Haside.
  { intros op Ha E. split; [by eapply aside_matched|by eapply aside_plain]. }
  destruct x as [jp calls|junk isn d ec buf nbytes|d ec|o|o|kv]; cbn [prog_act]; intros E.
  - destruct (prog_one_matched _ _ _ _ _ E) as (mvs & gone' & Hx & Hm & Hp). exists mvs, gone'. by auto.
  - destruct (net_matched _ _ _ _ _ E) as (n' & nes & En & -> & Hv).
    destruct (wp_run _ _ _ _ _ _ _ (net_read_done_feeds junk isn d ec buf nbytes (net_ s) Hpl) En)
      as (pkts & Hs & Hp & Hpl').
    exists (APacket junk isn <$> pkts), []. split; [split; [done|by exists pkts]|]. split; [|by apply Hpl'].
    intros gone. destruct (Hp gone (app_ s)) as (evs & Er & Hvis). exists evs. rewrite app_nil_r, Hv, Hvis.
    by destruct s.
  - exists [], []. split; [done|]. refine (Haside _ _ E). unfold net_written. repeat aside_step.
  - exists [ACall o], []. split; [done|]. split.
    + intros gone. destruct (call_app_matched _ gone _ _ _ (run_app_op_blind o) E) as (evs & Ev & Hv).
      exists evs. split; [|done]. cbn [run_moves run_move]. rewrite (bind_run _ _ _ _ _ _ Ev).
      cbn. by rewrite !app_nil_r.
    + exact (call_app_plain _ _ _ _ E Hpl).
  - exists [], []. split; [done|]. refine (Haside _ _ E). cbn [net_act]. repeat aside_step.
  - exists [], []. split; [done|]. refine (Haside _ _ E). cbn [net_act]. repeat aside_step.
Qed.

(** C9: A program does what its application does.  The TCP layer has neither
    raw sockets nor interceptors, of which a program makes none.  Whatever the
    devices, the other layers and the [io_context] do in between, the sockets,
    connections, buffers and pending closures of a running program are those
    of the application alone after these moves, in the order of the actions:
    a closure of a connection that runs is one move, a call is one, and a
    frame that was read is one exactly if its bytes are a TCP segment in IPv4
    in Ethernet, which then arrives with the ends and the bytes it has in the
    frame; nothing else moves the application.  The packets that the
    application alone would have queued are those the table has handed on,
    in order, followed by those it still queues; each was handed on by one
    closure of the table, and the TCP layer then queues its bytes, but for
    the checksum, for the addresses of its ends.  And both call the same
    callbacks, with the same memory, and print the same. *)
Theorem program_refines_application acts s s' es :
  plain (tcp_ (net_ s)) → prog_acts addr_of run_cb acts s = Ok ((), s', es) →
  ∃ mvs gone', explained acts s mvs gone' s' ∧ ∀ gone, ∃ evs,
    run_moves mvs (view gone s) = Ok ((), view (gone ++ gone') s', evs) ∧
    of_app es = visible evs.
Proof.
  revert s es. induction acts as [|x acts IH]; intros s es Hpl; cbn [prog_acts].
  { intros [= <- <-]. exists [], []. split; [by constructor|]. intros gone. exists [].
    by rewrite app_nil_r. }
  unfold mbind, M_bind. destruct (prog_act addr_of run_cb x s) as [[[[] s1] e1]|] eqn:E1; [|done].
  destruct (prog_acts addr_of run_cb acts s1) as [[[[] s2] e2]|] eqn:E2; [|done].
  intros [= <- <-]. destruct (prog_act_matched _ _ _ _ Hpl E1) as (mvs & g1 & Hx & H1 & Hpl1).
  destruct (IH _ _ Hpl1 E2) as (mvss & g2 & Hxs & H2). exists (mvs ++ mvss), (g1 ++ g2).
  split; [by eapply ExplainedCons|]. intros gone. destruct (H1 gone) as (v1 & R1 & V1).
  destruct (H2 (gone ++ g1)) as (v2 & R2 & V2). exists (v1 ++ v2). rewrite app_assoc. split.
  - by eapply run_moves_app.
  - by rewrite of_app_app, visible_app, V1, V2.
Qed.
End Refinement.

(** ** The echo server, running

    A namespace with one device, an address and a default route, on which
    [main] has an acceptor: a connection is opened from the other side, two
    bytes arrive and are written back. *)

Definition test_frame (th : tcp_header_t) (rest : list byte) : list byte :=
  ethernetv2_header.produce_to_net (H := test_host Little)
    (mk_eth_header (test_mac Byte.x02) (test_mac Byte.x08) IP_PROTO) ++
  ipv4_header.produce_to_net (H := test_host Little)
    (mk_ipv4_header 4 5 0 (40 + len rest) 77 0 1 0 0 64 PROTO 0 (Ipv4 7) (Ipv4 1)) ++
  tcp_header.produce_to_net (H := test_host Little) th ++ rest.
Definition test_read (th : tcp_header_t) (rest : list byte) : prog_action :=
  ProgReadDone test_junk 5000 0 false (test_frame th rest) (54 + len rest).
Definition test_syn_hdr : tcp_header_t := mk_tcp_header 4096 80 1000 0 6 0 0 0 0 0 0 0 1 0 1000 0 0.
Definition test_ack_hdr : tcp_header_t := mk_tcp_header 4096 80 1001 5001 5 0 0 0 0 1 0 0 0 0 1000 0 0.

(** To the established connection; then two bytes arrive. *)
Definition test_opening : list prog_action :=
  [ProgNeigh (Ipv4 1, test_mac Byte.x02); ProgNeigh (Ipv4 9, test_mac Byte.x08);
   ProgRoute (rt.UpdateDefault test_route); ProgApp (OpServe 0 (mk_endpoint (Ipv4 1) 80));
   test_read test_syn_hdr [Byte.x02; Byte.x04; Byte.x05; Byte.xb4]] ++
  replicate 5 (ProgRun 0 []) ++ [ProgWriteDone 0 false; test_read test_ack_hdr []] ++
  [ProgRun 0 []].
Definition test_echoing : list prog_action :=
  test_read test_ack_hdr [Byte.x41; Byte.x42] :: replicate 8 (ProgRun 0 []).

Definition test_program : program (list ethernetv2_frame) reserve_buffer :=
  mk_program test_netns (mk_app manager_new [] [] [] ∅ ∅ ∅ 0).
Abbreviation test_run acts :=
  (prog_acts (Hh := test_host Little) (λ _, 64) (λ _ _ _, mret false) acts test_program).

Lemma test_run_ok :
  ∃ s es, test_run (test_opening ++ test_echoing) = Ok ((), s, es) ∧
    of_app es = [AppPrint [Byte.x41; Byte.x42]].
Proof.
  destruct (test_run (test_opening ++ test_echoing)) as [[[[] s] es]|f] eqn:E.
  - exists s, es. split; [reflexivity|]. cut (match test_run (test_opening ++ test_echoing) with
      | Ok (_, _, es) => of_app es | Fault _ => [] end = [AppPrint [Byte.x41; Byte.x42]]); [by rewrite E|].
    vm_compute. reflexivity.
  - cut (match test_run (test_opening ++ test_echoing) with Ok _ => true | Fault _ => false end = true);
      [by rewrite E|]. vm_compute. reflexivity.
Qed.

Lemma program_refines_application_witness :
  ∃ (s : program (list ethernetv2_frame) reserve_buffer) es mvs gone', of_app es = [AppPrint [Byte.x41; Byte.x42]] ∧
    explained (Hh := test_host Little) (λ _, 64) (λ _ _ _, mret false) (test_opening ++ test_echoing)
      test_program mvs gone' s ∧ ∀ gone, ∃ evs,
      run_moves (Hh := test_host Little) mvs (view gone test_program) =
        Ok ((), view (gone ++ gone') s, evs) ∧ of_app es = visible evs.
Proof.
  destruct test_run_ok as (s & es & E & He).
  destruct (program_refines_application (Hh := test_host Little) (λ _, 64) (λ _ _ _, mret false)
    (test_opening ++ test_echoing) test_program s es (conj eq_refl eq_refl) E) as (mvs & gone' & P).
  exists s, es, mvs, gone'. split; [exact He|exact P].
Defined.
