(* ===== verification/ProgramOk.v ===== *)
(** * A program stays well formed

    The invariant of [NetnsFacts] under an application: whatever its sockets
    and callbacks do to the connection table, the namespace below stays well
    formed, and the ways in which an action can fail are few. *)

From S2P Require Import Prelude Utils Skbuff Addr Headers CircularBuffer Tcb TcbFacts TcbState.
From S2P Require Import BaseProtocol Packets TcbManager Socket SocketFacts Tcp Icmp NeighCache RoutingTable Arp.
From S2P Require Import Ipv4 Ethernet Device Stack Layers Netns NetnsFacts NetnsRun Program Prior ProgramFacts.

Section Ok.
Context `{Hh : Host} {Sig : Type} `{Hsig : Signal ethernetv2_frame Sig}
  `{Hspec : !SignalSpec ethernetv2_frame Sig}.
Context {B : Type} `{Hc : CircularBuffer B} `{Hs : !CircularBufferSpec B}.
Context (addr_of : skbuff → Z) (run_cb : nat → endpoint → endpoint → M tcp tcp_event bool).
Context (ds : gset nat).
Context (Heven : ∀ skb, Z.even (addr_of skb) = true) (Hcb : callbacks_ok run_cb).
Implicit Types (n : netns Sig B) (s : program Sig B) (a : application B) (m : tcb_manager B).
Abbreviation AM := (M (application B) app_event).
Abbreviation net_ok := (net_ok ds).

(** ** What the application does to the table *)

(** The table is well formed, closures [q] are posted for connections past
    the handshake, and one of the table's own for each packet it queues. *)
Definition table_keeps m m' (q : list closure) : Prop :=
  mgr_inv m' ∧ (∀ te, settled m te → settled m' te) ∧ Forall (closure_ok ds m') q ∧
  ∃ new, mgr_base m' = set_queue (packet_queue_ (mgr_base m) ++ new) (mgr_base m) ∧
    Forall (item_ok ds PMgr) new ∧
    ∀ p, pending p q = if decide (PMgr = p) then length new else 0%nat.

Lemma table_keeps_refl m : mgr_inv m → table_keeps m m [].
Proof.
  intros Hm. split_and!; [done|done|by apply List.Forall_nil|]. exists [].
  split_and!; [|by apply List.Forall_nil|by intros p; case_decide].
  rewrite app_nil_r. by destruct (mgr_base m).
Qed.
Lemma table_keeps_trans m m1 m2 q1 q2 :
  table_keeps m m1 q1 → table_keeps m1 m2 q2 → table_keeps m m2 (q1 ++ q2).
Proof.
  intros (_ & S1 & C1 & n1 & E1 & I1 & P1) (H2 & S2 & C2 & n2 & E2 & I2 & P2).
  split_and!; [done|auto| |].
  - apply Forall_app. split; [|done]. eapply Forall_impl; [exact C1|]. intros []; cbn; auto.
  - exists (n1 ++ n2). split_and!; [|by apply Forall_app|].
    + rewrite E2, E1. cbn. by rewrite <- app_assoc.
    + intros p. rewrite pending_app, P1, P2, length_app. by case_decide.
Qed.

Lemma mgr_keeps_table m m' es :
  mgr_keeps m m' es → table_keeps m m' (concat (mgr_posts <$> es)).
Proof.
  intros (Hi & (te & _ & _ & Hu & (ps & Eq & Hps & Hn) & _) & Hset & Hpost).
  split_and!; [done|done| |].
  - apply Forall_concat, Forall_fmap, Forall_forall. intros [[]|te' []] Hin; cbn; repeat constructor.
    by eapply Hpost.
  - exists ps. split_and!; [|..].
    + destruct (mgr_base m'). cbn in *. by subst.
    + eapply Forall_impl; [exact Hps|]. intros pkt (_ & _ & _ & Hw & Hroom & Hl & _).
      split; [|done]. unfold has_room. rewrite Hroom. by split_and!.
    + intros p. rewrite pending_mgr, Hn. done.
Qed.

Lemma rule_keeps_table mt cb m m' es :
  mgr_inv m → rule_insert_back mt cb m = Ok ((), m', es) →
  table_keeps m m' (concat (mgr_posts <$> es)).
Proof.
  intros Hm [= <- <-]. destruct (table_keeps_refl m Hm) as (? & ? & ? & new & ? & ? & ?).
  split_and!; try done. by exists new.
Qed.

Definition app_keeps a a' (es : list app_event) : Prop :=
  table_keeps (mngr a) (mngr a') (concat (app_posts <$> es)).

(** ** Operations of the application that keep it *)

Definition sound {A} (op : AM A) : Prop :=
  ∀ a, mgr_inv (mngr a) → wp op (λ _ a' es, app_keeps a a' es) (λ _, True) a.

Lemma sound_bind {A A'} (op : AM A) (k : A → AM A') :
  sound op → (∀ x, sound (k x)) → sound (op ≫= k).
Proof.
  intros Hop Hk a Ha. wp_step. eapply wp_mono; [by apply Hop| |done]. intros x a1 e1 H1.
  eapply wp_mono; [apply Hk, H1| |done]. intros y a2 e2 H2. unfold app_keeps.
  rewrite fmap_app, concat_app. exact (table_keeps_trans _ _ _ _ _ H1 H2).
Qed.
Lemma sound_get {A} (k : application B → AM A) : (∀ a, sound (k a)) → sound (get ≫= k).
Proof. intros Hk a Ha. wp_steps. by apply Hk. Qed.
Lemma sound_same {A} (op : AM A) :
  (∀ a, wp op (λ _ a' es, mngr a' = mngr a ∧ concat (app_posts <$> es) = []) (λ _, True) a) → sound op.
Proof.
  intros Hop a Ha. eapply wp_mono; [apply Hop| |done]. intros x a' es [E Ee]. unfold app_keeps.
  rewrite E, Ee. by apply table_keeps_refl.
Qed.
Lemma sound_ret {A} (x : A) : sound (mret x).
Proof. apply sound_same. intros a. by wp_step. Qed.
Lemma sound_fail {A} f : sound (fail f : AM A).
Proof. by apply sound_same. Qed.
Lemma sound_lift {A} (r : result A) : sound (lift r).
Proof. apply sound_same. intros a. by apply wp_lift. Qed.
Lemma sound_emit ev : app_posts ev = [] → sound (emit ev).
Proof. intros E. apply sound_same. intros a. wp_step. cbn. by rewrite E. Qed.
Lemma sound_modify f : (∀ a, mngr (f a) = mngr a) → sound (modify f).
Proof. intros E. apply sound_same. intros a. by wp_step. Qed.
Lemma sound_with_mngr {A} (op : M (tcb_manager B) mgr_event A) :
  (∀ m, mgr_inv m → wp op (λ _ m' es, table_keeps m m' (concat (mgr_posts <$> es))) (λ _, True) m) →
  sound (with_mngr op).
Proof.
  intros Hop a Ha. specialize (Hop (mngr a) Ha). unfold wp in *.
  destruct (op (mngr a)) as [[[x m] es]|f] eqn:E.
  - rewrite (with_mngr_run op a x m es E). unfold app_keeps. by rewrite heard_posts.
  - unfold with_mngr. rewrite bind_get. by rewrite (bind_lift_Fault _ f).
Qed.
Lemma sound_on_tcb te op :
  (∀ t, tcb_inv t → wp op (λ _ t' evs, keeps t t' evs) (λ _, True) t) →
  sound (with_mngr (on_tcb te op)).
Proof.
  intros Hop. apply sound_with_mngr. intros m Hm. destruct (tcbs_ m !! te) as [t|] eqn:Et.
  - eapply wp_mono; [eapply (on_tcb_keeps te t); [done|done|apply Hop; by apply (Hm te t)]| |done].
    intros. by apply mgr_keeps_table.
  - unfold on_tcb. wp_steps. rewrite Et. exact I.
Qed.

Create HintDb sound.
#[local] Hint Resolve sound_ret sound_fail sound_lift : sound.
#[local] Hint Extern 1 (sound (emit _)) => (by apply sound_emit) : sound.
#[local] Hint Extern 1 (sound (modify _)) => (by apply sound_modify) : sound.

Ltac sound_step :=
  lazymatch goal with
  | |- sound (get ≫= _) => apply sound_get; intro
  | |- sound (_ ≫= _) => apply sound_bind; [|intro]
  | |- sound (match ?x with _ => _ end) => destruct x
  | |- sound (if ?b then _ else _) => destruct b
  | |- sound _ => solve [eauto with sound]
  end.
Ltac soundly := repeat sound_step.

Lemma locked_sound sk : sound (locked sk).
Proof. unfold locked, this_socket, lock. soundly. Qed.
Lemma uncaught_sound (op : AM (option string)) : sound op → sound (uncaught op).
Proof. intros Hop. unfold uncaught. soundly. Qed.
Lemma register_io_sound cb : sound (register_io cb).
Proof. unfold register_io. soundly. Qed.
Lemma register_conn_sound cb : sound (register_conn cb).
Proof. unfold register_conn. soundly. Qed.
Lemma allocate_sound : sound allocate.
Proof. unfold allocate. soundly. Qed.
#[local] Hint Resolve locked_sound register_io_sound register_conn_sound allocate_sound : sound.

Lemma read_some_sound sk buf cb : 0 ≤ sp_size buf → sound (socket_async_read_some sk buf cb).
Proof.
  intros Hb. apply uncaught_sound. unfold try_async_read_some. soundly. apply sound_on_tcb. intros b Hb0.
  eapply wp_mono; [by apply async_read_wp|done|done].
Qed.
Lemma write_sound sk buf cb : sound (socket_async_write sk buf cb).
Proof.
  apply uncaught_sound. unfold try_async_write. soundly. apply sound_on_tcb. intros b Hb0.
  eapply wp_mono; [by apply async_write_wp|done|done].
Qed.
Lemma read_complete_sound sk buf cb : 0 ≤ sp_size buf → sound (async_read_complete sk buf cb).
Proof. exact (read_some_sound sk buf (ReadComplete sk buf cb)). Qed.
Lemma read_sound sk buf cb : 0 ≤ sp_size buf → sound (socket_async_read sk buf cb).
Proof. exact (read_complete_sound sk buf (ReadAll (sp_size buf) cb)). Qed.
Lemma accept_sound acc sk cb : sound (async_accept acc sk cb).
Proof. unfold async_accept. soundly. Qed.
#[local] Hint Resolve read_some_sound read_complete_sound read_sound write_sound accept_sound : sound.
Lemma echo_read_sound sk buf : sound (async_read_and_echo sk buf).
Proof. by apply read_some_sound. Qed.
Lemma do_accept_sound jp acc : sound (do_accept jp acc).
Proof. unfold do_accept. soundly. Qed.
#[local] Hint Resolve echo_read_sound do_accept_sound : sound.

(** The calls of an application: spans have a size; the rest is C++'s. *)
Definition user_call_ok (c : user_call) : Prop :=
  match c with
  | CallReadSome _ buf _ | CallRead _ buf _ => 0 ≤ sp_size buf
  | CallWrite _ _ _ | CallAccept _ _ _ => True
  end.

Lemma run_user_call_sound c : user_call_ok c → sound (run_user_call c).
Proof.
  destruct c; cbn [run_user_call user_call_ok]; intros Hok; soundly.
Qed.
Lemma run_user_calls_sound calls : Forall user_call_ok calls → sound (run_user_calls calls).
Proof.
  induction 1 as [|c calls Hok _ IH]; cbn [run_user_calls]; [soundly|].
  apply sound_bind; [by apply run_user_call_sound|done].
Qed.
#[local] Hint Resolve run_user_calls_sound : sound.

Lemma run_io_sound cb ec nbytes calls : Forall user_call_ok calls → sound (run_io cb ec nbytes calls).
Proof.
  intros Hok. revert ec nbytes.
  induction cb as [k|nb cb IH|sk buf cb IH|sk buf|sk buf]; intros; cbn [run_io]; [soundly|soundly| |soundly|soundly].
  destruct ec; [apply IH|]. destruct (Z.ltb_spec nbytes (sp_size buf)); cbn [negb]; [|apply IH].
  apply read_some_sound. cbn. lia.
Qed.
Lemma run_done_sound jp cb ec calls : Forall user_call_ok calls → sound (run_done jp cb ec calls).
Proof. intros Hok. destruct cb; cbn [run_done]; soundly. Qed.
#[local] Hint Resolve run_done_sound : sound.
Lemma run_conn_sound jp cb ec le te calls :
  Forall user_call_ok calls → sound (run_conn jp cb ec le te calls).
Proof. intros Hok. unfold run_conn, bind_socket, this_socket. soundly. Qed.

(** A closure of a connection past the handshake. *)
Definition exec_keeps te (op : AM unit) : Prop :=
  ∀ a, mgr_inv (mngr a) → settled (mngr a) te →
  wp op (λ _ a' es, app_keeps a a' es) (λ _, True) a.

Lemma sound_exec te op : sound op → exec_keeps te op.
Proof. intros Hop a Ha _. by apply Hop. Qed.
Lemma on_tcb_exec te op F a :
  (∀ b, tcb_inv b → opening (state_ b) = false → wp op (λ _ b' evs, keeps b b' evs) F b) →
  mgr_inv (mngr a) → settled (mngr a) te →
  wp (with_mngr (on_tcb te op)) (λ _ a' es, app_keeps a a' es) F a.
Proof.
  intros Hop Ha (b & Eb & Hb). pose proof (Ha te b Eb) as (Hi & _).
  pose proof (on_tcb_keeps te b op F (mngr a) Ha Eb (Hop b Hi Hb)) as H1. unfold wp in *.
  destruct (on_tcb te op (mngr a)) as [[[u m'] es]|f] eqn:E.
  - rewrite (with_mngr_run _ a u m' es E). unfold app_keeps. rewrite heard_posts.
    by apply mgr_keeps_table.
  - unfold with_mngr. rewrite bind_get. by rewrite (bind_lift_Fault _ f).
Qed.
(** The sending loop. *)
Lemma drain_exec jp te calls a :
  mgr_inv (mngr a) → settled (mngr a) te →
  wp (exec jp te TaskDrain calls) (λ _ a' es, app_keeps a a' es) (λ _, False) a.
Proof.
  intros Ha Hset. unfold exec. wp_steps. apply on_tcb_exec; [|done|done]. intros b Hi Hb.
  eapply wp_mono; [by apply run_task_wp; [..|apply List.Forall_nil]|done|by intros f []].
Qed.

Lemma exec_sound jp te t calls :
  Forall user_call_ok calls → exec_keeps te (exec jp te t calls).
Proof.
  intros Hok. destruct t as [n nbytes|n nbytes| |].
  - intros a Ha Hset. unfold exec. wp_steps. destruct (io_cbs a !! n) as [cb|]; [|exact I].
    wp_step. eapply wp_mono; [by apply run_io_sound| |done]. intros u a1 e1 H1.
    pose proof H1 as (Ha1 & Hset1 & _).
    eapply wp_mono; [apply (on_tcb_exec te make_and_send_pkt (λ _, True))|..]; [|by auto|by auto| |done].
    + intros b [Hi Hst Hroom Hpq] Hb. pose proof Hpq as Hpq'. rewrite Hb in Hpq'.
      apply make_and_send_wp; [done..|]. intros k p _ Hsend. by apply keeps_packet.
    + intros [] a2 e2 H2. unfold app_keeps. cbn [app]. rewrite fmap_app, concat_app.
      exact (table_keeps_trans _ _ _ _ _ H1 H2).
  - apply sound_exec. unfold exec. soundly. by apply run_io_sound.
  - intros a Ha Hset. eapply wp_mono; [by apply drain_exec|done|done].
  - apply sound_exec. unfold exec. soundly. by apply run_conn_sound.
Qed.

(** *** Calls outside of callbacks *)

Definition app_op_ok (o : app_op) : Prop :=
  match o with
  | OpCall c => user_call_ok c
  | OpConnect junk isn ports _ _ remote_ep local_addr _ =>
      ind_ok junk ∧ is_u 32 isn ∧ Forall (is_u 16) ports ∧ endpoint_ok remote_ep ∧ ipv4_ok local_addr
  | OpSocket _ | OpBuffer _ | OpAcceptor _ | OpServe _ _ => True
  end.

Lemma acceptor_new_sound mt acc : sound (acceptor_new mt acc).
Proof.
  unfold acceptor_new. apply sound_bind; [soundly|intros _]. apply sound_bind; [soundly|intros k].
  apply sound_with_mngr. intros m Hm. unfold wp. by apply (rule_keeps_table mt k m).
Qed.
#[local] Hint Resolve acceptor_new_sound : sound.

Lemma run_app_op_sound o : app_op_ok o → sound (run_app_op o).
Proof.
  intros Hok. destruct o; cbn [run_app_op app_op_ok] in *; unfold main_serve, acceptor_new_at.
  2: { destruct Hok as (? & ? & ? & ? & ?). unfold socket_async_connect. soundly.
       apply sound_with_mngr. intros m Hm. eapply wp_mono; [by apply mgr_connect_keeps| |done].
       intros. by apply mgr_keeps_table. }
  { by apply run_user_call_sound. }
  all: soundly.
Qed.

(** ** The whole program *)

Lemma call_app_wp (op : AM unit) F s :
  net_ok (net_ s) → wp op (λ _ a' es, app_keeps (app_of s) a' es) F (app_of s) →
  wp (call_app op) (λ _ s' _, net_ok (net_ s')) F s.
Proof.
  intros Hn Hop. unfold wp, call_app in *. destruct (op (app_of s)) as [[[u a] es]|]; [|done].
  destruct Hop as (Hi & Hset & Hk & new & Eb & Hnew & Hp). pose proof Hn as [[_ Hip Hd] _ _].
  cbn in *. eapply (net_ok_grow ds (concat (app_posts <$> es)) (net_ s)); [done|by split|done|done|done|].
  intros p. destruct (decide (PMgr = p)) as [<-|Hne].
  - exists new. split_and!; [done|done|]. by rewrite Hp, decide_True.
  - apply grows_same; [by destruct p|]. by rewrite Hp, decide_False.
Qed.

Lemma call_net_wp {A} (op : M (netns Sig B) net_event A) F s :
  wp op (λ _ n' _, net_ok n') F (net_ s) → wp (call_net op) (λ _ s' _, net_ok (net_ s')) F s.
Proof. unfold wp, call_net. by destruct (op (net_ s)) as [[[x n'] es]|]. Qed.

(** What is assumed of an action, as for the namespace alone. *)
Definition prog_action_ok (x : prog_action) s : Prop :=
  match x with
  | ProgRun _ calls => Forall user_call_ok calls
  | ProgReadDone junk isn d ec buf nbytes => action_ok ds (NetReadDone junk isn d ec buf nbytes) (net_ s)
  | ProgWriteDone d ec => action_ok ds (NetWriteDone d ec) (net_ s)
  | ProgApp o => app_op_ok o
  | ProgRoute o => action_ok ds (NetRoute o) (net_ s)
  | ProgNeigh _ => True
  end.

(** How an action can fail: the calls of the application, and a closure in
    which one of its callbacks runs, in any way it makes them; a received
    frame with a fault of a parser; nothing else does. *)
Definition prog_fault (x : prog_action) s (f : fault) : Prop :=
  match x with
  | ProgRun _ _ => ∃ te t q, io_ctx_ (net_ s) = KTcb te t :: q ∧ t ≠ TaskDrain
  | ProgReadDone _ _ _ _ _ _ => remote_fault f
  | ProgApp _ => True
  | ProgWriteDone _ _ | ProgRoute _ | ProgNeigh _ => False
  end.

Lemma prog_one_wp jp calls s :
  net_ok (net_ s) → Forall user_call_ok calls →
  wp (prog_one addr_of jp calls) (λ _ s' _, net_ok (net_ s')) (prog_fault (ProgRun jp calls) s) s.
Proof.
  intros Hn Hok. unfold prog_one. wp_steps. destruct (io_ctx_ (net_ s)) as [|k q] eqn:E; [by wp_steps|].
  wp_steps. set (s1 := mk_program _ _). destruct k as [te t|p|f mac|cb pkt|cb]; cbn [prog_closure].
  2-5: apply call_net_wp; (eapply wp_mono;
    [by apply (run_closure_wp addr_of ds Heven _ q [] (net_ s) Hn E), List.Forall_nil
    |by intros ? ? ? [? _]|by intros ? [? _]]).
  destruct (net_ok_tail ds _ q (net_ s) Hn E) as [Hn1 Hset]; [done|].
  assert (t = TaskDrain ∨ t ≠ TaskDrain) as [->|Hne] by (destruct t; auto).
  - eapply wp_mono; [apply call_app_wp; [exact Hn1|apply drain_exec; [apply Hn1|exact Hset]]|done|done].
  - eapply wp_mono; [apply call_app_wp; [exact Hn1|apply (exec_sound jp te t calls Hok);
      [apply Hn1|exact Hset]]|done|].
    intros f _. by exists te, t, q.
Qed.

Lemma prog_act_wp x s :
  net_ok (net_ s) → prog_action_ok x s →
  wp (prog_act addr_of run_cb x) (λ _ s' _, net_ok (net_ s')) (prog_fault x s) s.
Proof.
  intros Hn Hx. destruct x as [jp calls|junk isn d ec buf nbytes|d ec|o|o|kv]; cbn [prog_act].
  - by apply prog_one_wp.
  - apply call_net_wp. exact (net_act_wp _ _ ds Heven Hcb _ _ Hn Hx).
  - apply call_net_wp. exact (net_act_wp _ _ ds Heven Hcb _ _ Hn Hx).
  - apply call_app_wp; [done|]. apply run_app_op_sound; [done|]. apply (ok_mgr _ _ (ok_tables _ _ Hn)).
  - apply call_net_wp. exact (net_act_wp _ _ ds Heven Hcb _ _ Hn Hx).
  - apply call_net_wp. exact (net_act_wp addr_of run_cb ds Heven Hcb (NetNeigh kv) _ Hn I).
Qed.

Fixpoint prog_acts_ok (acts : list prog_action) s : Prop :=
  match acts with
  | [] => True
  | x :: acts => prog_action_ok x s ∧
      match prog_act addr_of run_cb x s with Ok (_, s', _) => prog_acts_ok acts s' | Fault _ => True end
  end.

(** From the state in which [acts0] end. *)
Definition ok_behind s0 (acts0 acts : list prog_action) : Prop :=
  ∀ s es, prog_acts addr_of run_cb acts0 s0 = Ok ((), s, es) → prog_acts_ok acts s.

Lemma prog_acts_snoc acts x s s1 e1 s2 e2 :
  prog_acts addr_of run_cb acts s = Ok ((), s1, e1) → prog_act addr_of run_cb x s1 = Ok ((), s2, e2) →
  prog_acts addr_of run_cb (acts ++ [x]) s = Ok ((), s2, e1 ++ e2).
Proof.
  revert s e1. induction acts as [|y acts IH]; intros s e1; cbn [app prog_acts].
  - intros [= <- <-] E. rewrite (bind_run _ _ _ _ _ _ E). cbn. by rewrite app_nil_r.
  - unfold mbind, M_bind. destruct (prog_act addr_of run_cb y s) as [[[u s'] e']|]; [|done].
    destruct (prog_acts addr_of run_cb acts s') as [[[[] s1'] e1']|] eqn:E; [|done].
    intros [= <- <-] E2. rewrite (IH _ _ E E2). by rewrite app_assoc.
Qed.

Lemma ok_behind_step s0 acts0 x acts :
  (∀ s es, prog_acts addr_of run_cb acts0 s0 = Ok ((), s, es) → prog_action_ok x s) →
  ok_behind s0 (acts0 ++ [x]) acts → ok_behind s0 acts0 (x :: acts).
Proof.
  intros Hx Hok s es E. split; [by eapply Hx|].
  destruct (prog_act addr_of run_cb x s) as [[[[] s1] e1]|f] eqn:E1; [|done].
  eapply Hok, prog_acts_snoc; eassumption.
Qed.

(** C10: a program stays well formed.  From a fresh namespace and any
    application, every interleaving of the application's calls, its
    callbacks, posted closures, received frames, completed writes and changes
    of routes and neighbours keeps one posted closure for each packet in the
    queue of each layer, room in every packet for the headers to come, a
    device for every frame, and connections past the handshake for the
    closures of connections.  Only the application can fail in ways of its
    own: the closures of the layers and the sending loops never do, nor
    completed writes; and a received frame only by one of three faults of a
    parser. *)
Theorem program_stays_well_formed dv a acts :
  dom dv = ds → prog_acts_ok acts (mk_program (set_devs dv netns_new) a) →
  match prog_acts addr_of run_cb acts (mk_program (set_devs dv netns_new) a) with
  | Ok (_, s, _) => net_ok (net_ s)
  | Fault f => ∃ acts1 x acts2 s es, acts = acts1 ++ x :: acts2 ∧
      prog_acts addr_of run_cb acts1 (mk_program (set_devs dv netns_new) a) = Ok ((), s, es) ∧
      prog_fault x s f
  end.
Proof.
  intros Hd. set (s0 := mk_program _ a). assert (net_ok (net_ s0)) as Hn by by apply netns_new_ok.
  clearbody s0. revert s0 Hn. induction acts as [|x acts IH]; intros s Hn Hok; [done|].
  destruct Hok as [Hx Hok]. pose proof (prog_act_wp x s Hn Hx) as H1. unfold wp in H1.
  cbn [prog_acts]. destruct (prog_act addr_of run_cb x s) as [[[[] s1] e1]|f] eqn:E1.
  - rewrite (bind_run _ _ _ _ _ _ E1). specialize (IH s1 H1 Hok).
    destruct (prog_acts addr_of run_cb acts s1) as [[[u s2] e2]|f]; [done|].
    destruct IH as (acts1 & x' & acts2 & s' & es & -> & E & Hf).
    exists (x :: acts1), x', acts2, s', (e1 ++ es). split; [done|]. split; [|done].
    cbn [prog_acts]. by rewrite (bind_run _ _ _ _ _ _ E1), E.
  - rewrite (bind_fault _ _ _ _ E1). by exists [], x, acts, s, [].
Qed.
End Ok.

(** ** The echo server of [ProgramFacts] *)

(** A test of the state a run ends in. *)
Lemma test_run_state acts (b : program (list ethernetv2_frame) reserve_buffer → bool) s es :
  test_run acts = Ok ((), s, es) →
  match test_run acts with Ok (_, s, _) => b s | Fault _ => true end = true → b s = true.
Proof. by intros ->. Qed.

Lemma test_program_ok :
  prog_acts_ok (Hh := test_host Little) (λ _, 64) (λ _ _ _, mret false) {[ 0%nat ]}
    (test_opening ++ test_echoing) test_program.
Proof.
  assert (∀ th rest (s : program (list ethernetv2_frame) reserve_buffer),
    prog_action_ok {[ 0%nat ]} (test_read th rest) s) as Hread.
  { intros. split; [unfold ind_ok, is_u; cbn; lia|]. split; [unfold is_u; lia|set_solver]. }
  enough (ok_behind (Hh := test_host Little) (λ _, 64) (λ _ _ _, mret false) {[ 0%nat ]} test_program []
    (test_opening ++ test_echoing)) as Hok by by eapply Hok.
  unfold test_opening, test_echoing. cbn [app replicate].
  repeat (apply ok_behind_step; [intros s es E|cbn [app]]);
    try solve [exact I|apply List.Forall_nil|apply Hread].
  - set (b := λ s : program (list ethernetv2_frame) reserve_buffer, bool_decide
      (neigh.query (Ipv4 1) (arp_cache_ (arp_ (ipv4_ (net_ s)))) = Some (test_mac Byte.x02))).
    apply (test_run_state _ b) in E; [|vm_compute; reflexivity]. apply bool_decide_eq_true in E.
    split; [exists 0%nat; split; [reflexivity|set_solver]|eexists; exact E].
  - set (b := λ s : program (list ethernetv2_frame) reserve_buffer,
      match devs (net_ s) !! 0%nat with Some (mk_device (_ :: _)) => true | _ => false end).
    apply (test_run_state _ b) in E; [|vm_compute; reflexivity]. unfold b in E.
    destruct (devs (net_ s) !! 0%nat) as [[[|skb q]]|] eqn:Ed; try discriminate E.
    exists (mk_device (skb :: q)). split; [exact Ed|discriminate].
  - intros s es E. exact I.
Qed.

Lemma program_stays_well_formed_witness :
  ∃ (s : program (list ethernetv2_frame) reserve_buffer) es,
    of_app es = [AppPrint [Byte.x41; Byte.x42]] ∧ net_ok {[ 0%nat ]} (net_ s).
Proof.
  destruct test_run_ok as (s & es & E & He). exists s, es. split; [exact He|].
  pose proof (program_stays_well_formed (Hh := test_host Little) (λ _, 64) (λ _ _ _, mret false)
    {[ 0%nat ]} ltac:(reflexivity) no_callbacks_ok {[ 0%nat := mk_device [] ]}
    (mk_app manager_new [] [] [] ∅ ∅ ∅ 0) (test_opening ++ test_echoing) test_dom test_program_ok) as P.
  change (mk_program (set_devs {[ 0%nat := mk_device [] ]} netns_new) _) with test_program in P.
  rewrite E in P. exact P.
Defined.
