(* ===== verification/EchoFrame.v ===== *)
(** * A frame comes back

    The echo server of main.cpp from frame to frame: what a device reads goes
    up through every layer to the connection, the closures that are posted
    run, and the same bytes leave in a frame of their own. *)

From S2P Require Import Prelude Utils Skbuff Addr Headers CircularBuffer Tcb TcbFacts TcbSend TcbRecv.
From S2P Require Import TcbState BaseProtocol Packets TcbManager Socket SocketFacts Echo Tcp Icmp NeighCache.
From S2P Require Import RoutingTable Arp Ipv4 Ethernet Device Stack Layers Netns NetnsFacts NetnsRun Ping.
From S2P Require Import Program Prior ProgramFacts.

(** ** Steps of a program *)

Section Steps.
Context `{Hh : Host} {Sig : Type} `{Hsig : Signal ethernetv2_frame Sig}.
Context {B : Type} `{Hc : CircularBuffer B}.
Context (addr_of : skbuff → Z) (run_cb : nat → endpoint → endpoint → M tcp tcp_event bool).
Context (jp : Z).
Implicit Types (n : netns Sig B) (s : program Sig B) (a : application B).

(** The program has the layers of [n], the application [a], and [q] to run. *)
Definition stands s n (q : list closure) a : Prop :=
  net_ s = set_io_ctx q (set_tcb_m (mngr a) n) ∧ app_of s = set_tasks [] a.

(** What the application does leaves the layers alone. *)
Lemma app_calls {A} (op : M (application B) app_event A) s n q a x a' es :
  stands s n q a → op (set_tasks [] a) = Ok (x, a', es) →
  ∃ s', call_app op s = Ok (x, s', concat (app_out <$> es)) ∧
    stands s' n (q ++ concat (app_posts <$> es)) a'.
Proof.
  intros [En Ea] E. unfold call_app. rewrite Ea, E.
  eexists. split; [reflexivity|]. split; [by rewrite En|]. by destruct a'.
Qed.

(** A closure of a connection. *)
Lemma app_steps s n te t q a a' es :
  stands s n (KTcb te t :: q) a → exec jp te t [] (set_tasks [] a) = Ok ((), a', es) →
  ∃ s', prog_one addr_of jp [] s = Ok ((), s', concat (app_out <$> es)) ∧
    stands s' n (q ++ concat (app_posts <$> es)) a'.
Proof.
  intros [En Ea] E. unfold prog_one. rewrite bind_get, En. cbn [io_ctx_ set_io_ctx].
  rewrite bind_modify. cbn [prog_closure]. eapply app_calls; [|exact E].
  split; [by rewrite En|exact Ea].
Qed.

Lemma until_idle_steps fuel s s1 e1 s2 e2 :
  io_ctx_ (net_ s) ≠ [] → prog_one addr_of jp [] s = Ok ((), s1, e1) →
  prog_until_idle addr_of jp fuel s1 = Ok ((), s2, e2) →
  prog_until_idle addr_of jp (S fuel) s = Ok ((), s2, e1 ++ e2).
Proof.
  intros Hio E1 E2. cbn [prog_until_idle]. rewrite bind_get. destruct (io_ctx_ (net_ s)); [done|].
  by rewrite (bind_run _ _ _ _ _ _ E1), E2.
Qed.

Lemma until_idle_done fuel s : io_ctx_ (net_ s) = [] → prog_until_idle addr_of jp fuel s = Ok ((), s, []).
Proof. intros E. destruct fuel; cbn [prog_until_idle]; by rewrite bind_get, E. Qed.

(** More fuel changes nothing. *)
Lemma until_idle_more m fuel s r :
  prog_until_idle addr_of jp fuel s = Ok r → prog_until_idle addr_of jp (fuel + m) s = Ok r.
Proof.
  revert s r. induction fuel as [|fuel IH]; intros s r.
  - cbn [prog_until_idle Nat.add]. rewrite bind_get. destruct (io_ctx_ (net_ s)) eqn:E; [|done].
    intros <-. by rewrite until_idle_done.
  - cbn [prog_until_idle Nat.add]. rewrite !bind_get. destruct (io_ctx_ (net_ s)); [done|].
    unfold mbind, M_bind. destruct (prog_one addr_of jp [] s) as [[[[] s1] e1]|]; [|done].
    destruct (prog_until_idle addr_of jp fuel s1) as [r1|] eqn:E; [|done].
    by rewrite (IH _ _ E).
Qed.

(** With no closure of a connection left, the namespace runs alone. *)
Lemma net_alone fuel n n' es a :
  tcb_tasks (io_ctx_ n) = [] → run_until_idle addr_of fuel n = Ok ((), n', es) →
  prog_until_idle addr_of jp fuel (mk_program n a) = Ok ((), mk_program n' a, concat (net_out <$> es)).
Proof.
  revert n es. induction fuel as [|fuel IH]; intros n es Hq; cbn [prog_until_idle run_until_idle];
    rewrite !bind_get; cbn [net_]; destruct (io_ctx_ n) as [|k q] eqn:Eq;
    [by intros [= <- <-]|done|by intros [= <- <-]|].
  intros E. assert (∀ te t, k ≠ KTcb te t) as Hk by (intros te t ->; done).
  unfold run_one in E. unfold prog_one.
  assert (tcb_tasks q = []) as Hq' by (destruct k as [te t| | | |]; [by destruct (Hk te t)|done..]).
  pose proof (closure_apart addr_of k (set_io_ctx q n) Hk) as Ha. unfold wp in Ha.
  unfold mbind, M_bind in E |- *. cbn [get] in E |- *. rewrite Eq in E. cbn [net_]. rewrite Eq.
  assert (prog_closure addr_of jp k [] = call_net (run_closure addr_of k [])) as ->
    by (destruct k as [te t| | | |]; [by destruct (Hk te t)|done..]).
  cbn [modify] in E |- *. unfold call_net. cbn [net_ app_].
  destruct (run_closure addr_of k [] (set_io_ctx q n)) as [[[[] n1] e1]|f]; [|done].
  destruct Ha as (gone' & _ & Ht & Hf & _). cbn [app] in E |- *.
  destruct (run_until_idle addr_of fuel n1) as [[[[] n2] e2]|f] eqn:E2; [|done].
  injection E as <- <-. rewrite Hf.
  assert (set_memory (memory a) a = a) as -> by (by destruct a).
  rewrite (IH n1 e2); [|by rewrite Ht|done]. by rewrite fmap_app, concat_app.
Qed.
End Steps.

(** ** Up and down *)

Section UpDown.
Context `{Hh : Host} {Sig : Type} `{Hsig : Signal ethernetv2_frame Sig}
  `{Hspec : !SignalSpec ethernetv2_frame Sig}.
Context {B : Type} `{Hc : CircularBuffer B}.
Context (addr_of : skbuff → Z) (run_cb : nat → endpoint → endpoint → M tcp tcp_event bool).
Context (Heven : ∀ skb, Z.even (addr_of skb) = true).
Implicit Types (n : netns Sig B) (pkt : tcp_packet) (dg : ipv4_packet).

(** No raw socket and no rule of an interceptor is in the way. *)
Definition untapped (two_end : two_ends_t) (s : tcp) : Prop :=
  rcv_raw_states_ s !! two_end = None ∧
  Forall (λ r, rule_matches r two_end = false) (tcp_rules_ s).

Lemma comes_up_run junk isn skb d p n :
  comes_up Hh (Sig := Sig) run_cb skb (Some d) p → untapped (ends_of p) (tcp_ n) →
  eth_up addr_of run_cb junk isn skb d n = mgr_up junk isn p n.
Proof.
  intros (fr & dg & E1 & E2 & E3) [Hraw Hrules]. unfold eth_up, with_eth.
  rewrite (bind_silent _ _ _ (Some (LIpv4, fr), []) n) by (apply part_pure; [apply E1|by destruct n]).
  unfold ip_up, with_ip.
  rewrite (bind_silent _ _ _ (Some (LTcp, dg), []) n) by (apply part_pure; [apply E2|by destruct n]).
  unfold tcp_up, with_tcp.
  by rewrite (bind_silent _ _ _ (Some (LTcbManager, p), []) n)
    by (apply part_pure; [by apply E3|by destruct n]).
Qed.

(** The frame is read; the packet it holds goes to the table. *)
Lemma read_run junk isn d buf n m' es :
  is_Some (devs n !! d) →
  (∀ skb, skb_wf skb → payload skb = buf →
     ∃ p', comes_up Hh (Sig := Sig) run_cb skb (Some d) p' ∧ untapped (ends_of p') (tcp_ n) ∧
       mgr_process junk isn p' (tcb_m_ n) = Ok ((), m', es)) →
  net_read_done addr_of run_cb junk isn d false buf (len buf) n =
    Ok ((), set_io_ctx (io_ctx_ n ++ concat (mgr_posts <$> es)) (set_tcb_m m' n),
        concat (mgr_outs <$> es) ++ [NetRead d 1500]).
Proof.
  intros Hdv Hup. destruct (frame_read addr_of run_cb junk isn d buf n Hdv) as (skb & Hw & _ & Hp & Hread).
  destruct (Hup skb Hw Hp) as (p & Hc' & Htap & Em). apply Hread.
  rewrite (comes_up_run junk isn skb d p n Hc' Htap). unfold mgr_up. eapply unit_run.
  unfold with_mgr. by rewrite (part_run _ _ _ _ _ n _ _ _ Em).
Qed.

(** The text of a connection in a datagram. *)
Definition carries dg (local_ep remote_ep : endpoint) hdr (text : list byte) : Prop :=
  src_addrv4 dg = addrv4 local_ep ∧ dst_addrv4 dg = addrv4 remote_ep ∧ ipp_proto dg = PROTO ∧
  ∃ c, is_u 16 c ∧ payload (ipp_skb dg) = tcp_header.produce_to_net (with_tcp_chsum c hdr) ++ text ∧
    rfc1071 (rfc793_pseudo (addrv4 local_ep) (addrv4 remote_ep) PROTO (u16 (20 + len text)) ++
             payload (ipp_skb dg)) = 0.

Lemma tcp_down_run (t : tcb_t B) hdr text pkt dgs n :
  tcp_base (tcp_ n) = mk_base true dgs → packet_of t hdr text pkt → len text ≤ 65535 →
  (host_endian = Big → Z.even (len text) = true) →
  ∃ dg, tcp_down addr_of pkt n =
      Ok ((), set_io_ctx (io_ctx_ n ++ [KBase PTcp]) (put_base PTcp (mk_base true (dgs ++ [dg])) n), []) ∧
    has_room 34 (ipp_skb dg) ∧ carries dg (local_ep_ t) (remote_ep_ t) hdr text.
Proof.
  intros Hidle (Hproto & Hr & Hl & Hw & Hroom & Hp) Hlen Hbig.
  change additional_room with 34 in Hroom. pose proof (tcp_length hdr) as Lh.
  assert (len (payload (tp_skb pkt)) = 20 + len text) as Lp by (rewrite Hp, length_app; lia).
  destruct (tcp_process_run (addr_of (tp_skb pkt)) pkt (tcp_ n))
    as (skb & c & E & Hw' & Hh' & Hp' & Hc' & Hz);
    [done|unfold pseudo_size; lia|change tcp_header.fixed_size with 20; lia|lia| | |].
  { intros HB. rewrite Lp. change 20 with (2 * 10). rewrite Z.add_comm, Z.even_add_mul_2. auto. }
  { by rewrite Hroom, Z.even_add, Heven. }
  exists (datagram pkt skb). split_and!.
  - unfold tcp_down. eapply unit_run. unfold with_tcp. rewrite (part_run _ _ _ _ _ n _ _ _ E).
    by rewrite Hidle.
  - unfold has_room. cbn. by rewrite Hh', Hroom.
  - rewrite Hp, tcp_with_chsum in Hp'. unfold carries. cbn. rewrite Hl, Hr, Hproto in *.
    rewrite Lp in Hz. split_and!; [done..|]. exists c. split; [rewrite Hc'; apply rfc1071_is_u|done].
Qed.

(** A datagram, from the TCP layer to the device: four closures. *)
Lemma datagram_leaves dg n nh d src_mac mac :
  idle n → has_room 34 (ipp_skb dg) → way_out n (dst_addrv4 dg) nh d src_mac mac →
  let id := seq_ (ipv4_ n) in
  ∃ skb, rfc1071 (ipv4_header.produce_to_net (sent_header dg id)) = 0 ∧
    run_until_idle addr_of 4 (one_left PTcp dg n) =
      Ok ((), set_devs (<[d := mk_device [skb]]> (devs n)) (set_ipv4 (set_seq (u16 (id + 1)) (ipv4_ n)) n),
          [NetWrite d (frame_bytes src_mac mac dg id)]).
Proof.
  intros Hidle Hr Hway id.
  destruct (ip_down_run addr_of Heven dg n nh d src_mac mac Hidle Hway Hr) as (skb1 & Hr1 & Hp1 & Eip).
  destruct (ip_process_run (addr_of (ipp_skb dg)) dg (ipv4_ n)) as (Hz & _);
    [apply Hr|change ipv4_header.fixed_size with 20; destruct Hr; lia|by eapply has_room_even|].
  set (n1 := set_ipv4 (set_seq (u16 (seq_ (ipv4_ n) + 1)) (ipv4_ n)) n) in *.
  set (f := mk_frame src_mac mac_addr.zero IP_PROTO skb1 (Some d)) in *.
  destruct Hway as (_ & _ & _ & _ & Hdev).
  assert (idle n1) as Hidle1 by by apply idle_ip.
  destruct (resolved_leaves addr_of f mac n1 d Hidle1) as (skb & Eleave); [|done|done|].
  { split; [exact Hr1|]. exists d. split; [done|]. apply elem_of_dom. by exists (mk_device []). }
  exists skb. split; [done|]. unfold frame_bytes, id. rewrite <- Hp1.
  apply (run_more addr_of 3 (KBase PTcp) (one_left PTcp dg n) (set_io_ctx [KResolved f mac] n1) []);
    [done| |exact Eleave].
  rewrite run_one_left by done. by rewrite (bind_run _ _ _ _ _ _ Eip).
Qed.

End UpDown.

(** ** The server *)

Section Serving.
Context `{Hh : Host} {Sig : Type} `{Hsig : Signal ethernetv2_frame Sig}
  `{Hspec : !SignalSpec ethernetv2_frame Sig}.
Context {B : Type} `{Hc : CircularBuffer B} `{Hs : !CircularBufferSpec B}.
Context (addr_of : skbuff → Z) (run_cb : nat → endpoint → endpoint → M tcp tcp_event bool).
Context (Heven : ∀ skb, Z.even (addr_of skb) = true).
Context (junk : indeterminate) (isn jp : Z) (Hisn : is_u 32 isn).
(** The accepted socket, its connection and the server's buffer; the device
    that is read, and how packets for the peer leave. *)
Context (sk : nat) (te : two_ends_t) (buf d : nat).
Context (nh : rt_record) (d' : nat) (src_mac mac : mac_addr_t).
Implicit Types (n : netns Sig B) (s : program Sig B) (a : application B) (t : tcb_t B).

Definition routed n : Prop :=
  way_out n (addrv4 (te_remote_ep te)) nh d' src_mac mac ∧ is_Some (devs n !! d) ∧
  untapped te (tcp_ n).

(** The connection is established, everything written to it has been sent,
    and the server waits for text. *)
Record served a t (pq : B) : Prop := {
  sv_open : open_at sk te a t;
  sv_ends : remote_ep_ t = te_remote_ep te ∧ local_ep_ t = te_local_ep te;
  sv_flow : flow t pq;
  sv_sent : unsent t pq = [];
  sv_reads : ∃ k, on_data_receive_ t = [(echo_span buf, k)] ∧ io_cbs a !! k = Some (EchoRead sk buf);
  sv_buffered : buffered t = [];
  sv_span : span_ok (memory a) (echo_span buf);
}.

(** And nothing is queued or pending anywhere. *)
Record serving s n a t (pq : B) : Prop := {
  sv_stands : stands s n [] a;
  sv_idle : idle (set_tcb_m (mngr a) (set_io_ctx [] n));
  sv_served : served a t pq;
}.

(** What the other connections of the server see of it. *)
Record elsewhere a a' : Prop := {
  ew_blocks : ∀ te', te' ≠ te → tcbs_ (mngr a') !! te' = tcbs_ (mngr a) !! te';
  ew_rules : rules_ (mngr a') = rules_ (mngr a);
  ew_conns : conn_cbs a' = conn_cbs a;
  ew_io : ∀ k cb, io_cbs a !! k = Some cb → io_cbs a' !! k = Some cb;
  ew_spans : ∀ sp, span_ok (memory a) sp → span_ok (memory a') sp;
  ew_sockets : ∀ i so te', te' ≠ te → sockets a !! i = Some so → sk_tcb so = Some te' →
    sockets a' !! i = Some so;
}.
(** And of what waits for new ones. *)
Definition same_server a a' : Prop :=
  sockets a' = sockets a ∧ acceptors a' = acceptors a ∧ allocated a' = allocated a ∧
  ∀ i, memory a !! i = None → memory a' !! i = None.

#[export] Instance elsewhere_preorder : PreOrder elsewhere.
Proof.
  split.
  - by intros a.
  - intros a1 a2 a3 [B1 R1 C1 I1 P1 S1] [B2 R2 C2 I2 P2 S2]. split; eauto.
    + intros te' Hne. by rewrite B2, B1.
    + by rewrite R2.
    + by rewrite C2.
Qed.

Lemma elsewhere_advanced t evs a a1 :
  (∀ sp, span_ok (memory a1) sp → span_ok (fills evs (memory a1)) sp) →
  elsewhere a a1 → elsewhere a (advanced te t evs a1).
Proof.
  intros Hsp Hew. etransitivity; [exact Hew|]. split; try done.
  intros te' Hne. cbn. by rewrite lookup_insert_ne.
Qed.
Lemma elsewhere_io cbs a a1 : elsewhere a a1 → elsewhere a (set_io_cbs (io_cbs a1 ++ cbs) a1).
Proof.
  intros Hew. etransitivity; [exact Hew|]. split; try done.
  intros k cb Hk. by apply lookup_app_l_Some.
Qed.
Lemma elsewhere_tasks q a a1 : elsewhere a a1 → elsewhere a (set_tasks q a1).
Proof. by intros []. Qed.
Lemma elsewhere_mngr_base b a a1 : elsewhere a a1 → elsewhere a (set_mngr (set_base b (mngr a1)) a1).
Proof. by intros []. Qed.

(** A frame for the connection; and one with text that is the next: it
    acknowledges something sent and not more, and is not longer than a read
    of the server and a segment of the peer, nor than what is left of the
    window when the rest is still in flight. *)
Definition text_frame eh iph th (text : list byte) : list byte :=
  ethernetv2_header.produce_to_net eh ++ ipv4_header.produce_to_net iph ++
  tcp_header.produce_to_net th ++ text.
Definition frame_for eh iph th : Prop :=
  eth_header_ok eh ∧ ipv4_header_ok iph ∧ tcp_header_ok th ∧ eth_proto eh = IP_PROTO ∧
  ip_version iph = 4 ∧ ip_proto_type iph = PROTO ∧
  te = mk_two_ends (mk_endpoint (ip_src_addr iph) (src_port th))
         (mk_endpoint (ip_dst_addr iph) (dst_port th)).
Definition next_text t th (text : list byte) : Prop :=
  data_offset th = 5 ∧ ACK th = 1 ∧ RST th = 0 ∧ SYN th = 0 ∧ FIN th = 0 ∧ seq_no th = rcv_next (rcv_ t) ∧
  seq_nr_unack (send_ t) ≤ ack_no th ≤ seq_nr_next (send_ t) ∧
  rcv_next (rcv_ t) + rcv_window_init < 2 ^ 32 ∧ 0 < len text ≤ echo_size ∧
  len text ≤ send_mss (send_ t) ∧
  seq_nr_next (send_ t) - ack_no th + len text ≤ send_window (send_ t) ∧
  (host_endian = Big → Z.even (len text) = true).

Lemma stands_app s n q a : stands s n q a → app_ s = set_tasks (tasks (app_ s)) (set_mngr (mngr (app_ s)) a).
Proof.
  intros [_ E]. unfold app_of in E. destruct (app_ s), a. cbn in *.
  injection E as _ -> -> -> -> -> ->. done.
Qed.

(** *** The frame arrives *)

Lemma outs_fill evs out mem :
  net_fills (concat (mgr_outs <$> (as_mgr te <$> evs)) ++ out) mem = net_fills out (fills evs mem).
Proof. revert mem. induction evs as [|[] evs IH]; intros mem; [done|exact (IH mem)..|apply IH|exact (IH mem)|exact (IH mem)]. Qed.
Lemma outs_silent evs : concat (net_out <$> concat (mgr_outs <$> (as_mgr te <$> evs))) = [].
Proof. by induction evs as [|[] evs IH]. Qed.

(** What the table makes of the packets that hold a header and the rest. *)
Definition table_takes a th (rest : list byte) m' evs : Prop :=
  ∀ p, two_end_of p = te → skb_wf (tp_skb p) → payload (tp_skb p) = tcp_header.produce_to_net th ++ rest →
    mgr_process junk isn p (mngr a) = Ok ((), m', as_mgr te <$> evs).

(** A frame with such a packet. *)
Lemma frame_reads s n a eh iph th rest m' evs :
  stands s n [] a → routed n → frame_for eh iph th → table_takes a th rest m' evs →
  let frame := text_frame eh iph th rest in
  ∃ s', prog_act addr_of run_cb (ProgReadDone junk isn d false frame (len frame)) s =
      Ok ((), s', [OfNet (NetRead d 1500)]) ∧
    stands s' n (concat (mgr_posts <$> (as_mgr te <$> evs)))
      (set_memory (fills evs (memory a)) (set_mngr m' a)).
Proof.
  intros Hst (_ & Hdev & Htap) (Heh & Hiph & Hth & Ee & Ev & Ep & Ete) Hmgr frame.
  pose proof Hst as [En Ea]. cbn [prog_act]. unfold call_net.
  rewrite (read_run addr_of run_cb junk isn d frame (net_ s) m' (as_mgr te <$> evs)).
  - eexists. split; [by rewrite fmap_app, concat_app, outs_silent|].
    rewrite outs_fill, (stands_app s n [] a Hst), En. by split.
  - by rewrite En.
  - intros skb Hw Hp.
    destruct (comes_up_intro Hh (Sig := Sig) run_cb eh iph th rest skb (Some d))
      as (p & Hup & Er & El & Hwp & Hpp); try done.
    assert (two_end_of p = te) as Eends by (unfold two_end_of; by rewrite Er, El, Ete).
    exists p. split; [exact Hup|]. rewrite En.
    split; [by unfold ends_of; fold (two_end_of p); rewrite Eends|]. by apply Hmgr.
Qed.

(** The packet makes the block advance, or does nothing. *)
Lemma frame_arrives s n a eh iph th rest t1 evs :
  stands s n [] a → routed n → frame_for eh iph th →
  table_takes a th rest (mngr (advanced te t1 evs a)) evs →
  let frame := text_frame eh iph th rest in
  ∃ s', prog_act addr_of run_cb (ProgReadDone junk isn d false frame (len frame)) s =
      Ok ((), s', [OfNet (NetRead d 1500)]) ∧
    stands s' n (concat (mgr_posts <$> (as_mgr te <$> evs))) (advanced te t1 evs a).
Proof. intros Hst Hrt Hframe Hmgr. exact (frame_reads s n a eh iph th rest _ evs Hst Hrt Hframe Hmgr). Qed.

Lemma frame_ignored s n a eh iph th rest :
  stands s n [] a → routed n → frame_for eh iph th → table_takes a th rest (mngr a) [] →
  let frame := text_frame eh iph th rest in
  ∃ s', prog_act addr_of run_cb (ProgReadDone junk isn d false frame (len frame)) s =
      Ok ((), s', [OfNet (NetRead d 1500)]) ∧ stands s' n [] a.
Proof.
  intros Hst Hrt Hframe Hmgr.
  destruct (frame_reads s n a eh iph th rest _ [] Hst Hrt Hframe Hmgr) as (s' & E & Hst').
  exists s'. split; [exact E|]. by destruct a.
Qed.

(** The next text arrives, and a read waits that takes it whole. *)
Lemma text_arrives s n a t pq eh iph th text sp k :
  stands s n [] a → open_at sk te a t → flow t pq → buffered t = [] →
  routed n → frame_for eh iph th → next_text t th text →
  on_data_receive_ t = [(sp, k)] → len text ≤ sp_size sp →
  let t1 := text_delivered t pq th sp text in
  let evs := [EvFill (sp_take (len text) sp) text; EvPost (TaskReadDone k (len text))] in
  let frame := text_frame eh iph th text in
  ∃ s', prog_act addr_of run_cb (ProgReadDone junk isn d false frame (len frame)) s =
      Ok ((), s', [OfNet (NetRead d 1500)]) ∧
    stands s' n [KTcb te (TaskReadDone k (len text))] (advanced te t1 evs a) ∧
    open_at sk te (advanced te t1 evs a) t1 ∧ buffered t1 = [].
Proof.
  intros Hst Ho (Hpq & Hf & Hm) Hnil Hrt Hframe Htext Hk Hsize t1 evs frame.
  pose proof Hframe as (_ & _ & Hth & _).
  destruct Htext as (Hoff & HA & HR & HS & HF & Hseq & Hack & Hwrap & Hlen & Hmss & Hfit & Hbig).
  assert (filled sp text = text) as Efill by (unfold filled; apply take_ge; lia).
  assert (∀ p, skb_wf (tp_skb p) → payload (tp_skb p) = tcp_header.produce_to_net th ++ text →
    process isn p t = Ok ((), t1, evs) ∧ open_at sk te (advanced te t1 evs a) t1 ∧ buffered t1 = []) as Hproc.
  { intros p Hwp Hpp.
    destruct (process_delivered sk te isn a t pq p th text sp k) as (E & Ho' & Hb');
      [done|done|done| |done|done|lia|].
    - split; [exists []; apply (parse_payload _ th [] text Hwp Hpp Hth); [by rewrite Hoff|cbn; unfold echo_size in *; lia]|].
      rewrite Hnil. unfold echo_size, rcv_window_init in *. cbn [length]. split_and!; try done; lia.
    - rewrite Efill in E, Ho'. rewrite drop_ge in Hb' by lia. done. }
  destruct (frame_arrives s n a eh iph th text t1 evs) as (s' & E & Hst'); [done..| |].
  - intros p Eends Hwp Hpp. destruct (Hproc p Hwp Hpp) as (E & _).
    pose proof (open_block _ _ _ _ Ho) as Hb. rewrite <- Eends in Hb.
    rewrite (mgr_process_run junk isn p t t1 evs _ Hb E), (on_tcb_run _ t _ t1 evs _ Hb E).
    by rewrite Eends.
  - destruct (skb_new_Ok frame 0) as (skb0 & _ & Hskb & Hpay & _); [lia|].
    pose proof Hframe as (Heh & Hiph & _ & Ee & Ev & Ep & _).
    destruct (comes_up_intro Hh (Sig := Sig) run_cb eh iph th text skb0 (Some d))
      as (p0 & _ & _ & _ & Hw0 & Hp0); try done.
    destruct (Hproc p0 Hw0 Hp0) as (_ & Ho1 & Hb1). by exists s'.
Qed.

Lemma echo_arrives s n a t pq eh iph th text k :
  serving s n a t pq → routed n → frame_for eh iph th → next_text t th text →
  on_data_receive_ t = [(echo_span buf, k)] →
  let t1 := text_delivered t pq th (echo_span buf) text in
  let evs := [EvFill (sp_take (len text) (echo_span buf)) text; EvPost (TaskReadDone k (len text))] in
  let frame := text_frame eh iph th text in
  ∃ s', prog_act addr_of run_cb (ProgReadDone junk isn d false frame (len frame)) s =
      Ok ((), s', [OfNet (NetRead d 1500)]) ∧
    stands s' n [KTcb te (TaskReadDone k (len text))] (advanced te t1 evs a) ∧
    open_at sk te (advanced te t1 evs a) t1 ∧ buffered t1 = [].
Proof.
  intros [Hst _ [Ho _ Hflow _ _ Hnil _]] Hrt Hframe Htext Hk.
  pose proof Htext as (_ & _ & _ & _ & _ & _ & _ & _ & [_ Hlen] & _).
  exact (text_arrives s n a t pq eh iph th text _ k Hst Ho Hflow Hnil Hrt Hframe Htext Hk Hlen).
Qed.

(** *** The three closures of the connection *)

Lemma open_at_tasks q a t : open_at sk te a t → open_at sk te (set_tasks q a) t.
Proof. by intros []. Qed.

(** The block after the text was written to it and sent, and the reader put
    back. *)
Definition text_sent t (pq : B) (text : list byte) : tcb_t B :=
  after_packet (upd_send (set_send_pq (cb_insert_end text pq)) t) (len text).
Definition waits_again t (pq : B) (text : list byte) (k : nat) : tcb_t B :=
  set_on_data_receive [(echo_span buf, k)] (text_sent t pq text).

Lemma written_and_sent t pq text :
  tcb_ok t → flow t pq → unsent t pq = [] → cb_size pq + len text ≤ cb_capacity pq →
  len text ≤ send_mss (send_ t) →
  let t2 := upd_send (set_send_pq (cb_insert_end text pq)) t in
  next_len t2 (cb_insert_end text pq) = len text ∧ unsent t2 (cb_insert_end text pq) = text ∧
  flow (text_sent t pq text) (cb_insert_end text pq) ∧
  unsent (text_sent t pq text) (cb_insert_end text pq) = [].
Proof.
  intros Hok (Hpq & Hf & Hm) Hu Hfit Hmss t2.
  destruct (async_write_run t pq text 0 Hok Hpq Hfit) as (_ & _ & Hok2 & Hun).
  destruct (Hun Hf) as [Hu2 Hf2]. rewrite Hu in Hu2. cbn [app] in Hu2. fold t2 in Hok2, Hu2, Hf2.
  destruct (unsent_after_packet t2 (cb_insert_end text pq) (len text) Hok2 eq_refl Hf2) as [Hu3 Hf3];
    [rewrite Hu2; lia|].
  split_and!; [|done|by split_and!|].
  - unfold next_len. rewrite Hu2. apply Z.min_r. exact Hmss.
  - unfold text_sent. fold t2. rewrite Hu3, Hu2. apply drop_ge. lia.
Qed.

(** The sending loop finds nothing to send. *)
Lemma drain_nothing t pq :
  tcb_ok t → send_pq (send_ t) = Some pq → unsent t pq = [] →
  run_task TaskDrain [] t = Ok ((), t, []).
Proof.
  intros Hok Hpq Hu. cbn [run_task]. rewrite bind_get.
  assert (has_app_data_to_send t = Ok false) as Hno.
  { unfold has_app_data_to_send. rewrite (app_data_to_send_left_eq t pq Hok Hpq). cbn.
    unfold next_len. rewrite Hu. cbn [length]. destruct Hok as (_ & _ & (_ & _ & _ & Hm & _) & _).
    unfold is_u in Hm. rewrite Z.min_r by lia. done. }
  destruct (send_fuel t); cbn [send_loop]; by rewrite bind_get, (bind_lift_Ok _ _ _ _ Hno).
Qed.

Lemma echo_closures s n a t pq text k :
  stands s n [KTcb te (TaskReadDone k (len text))] a → open_at sk te a t → flow t pq →
  unsent t pq = [] → buffered t = [] → on_data_receive_ t = [] →
  io_cbs a !! k = Some (EchoRead sk buf) → holds (memory a) (echo_span buf) text →
  cb_size pq + len text ≤ cb_capacity pq → len text ≤ send_mss (send_ t) →
  mgr_base (mngr a) = mk_base true [] →
  ∃ s' a' p r,
    (∀ fuel s2 e2, prog_until_idle addr_of jp fuel s' = Ok ((), s2, e2) →
       prog_until_idle addr_of jp (3 + fuel) s = Ok ((), s2, OfApp (AppPrint text) :: e2)) ∧
    stands s' n [KBase PMgr] a' ∧ open_at sk te a' (waits_again t pq text r) ∧
    io_cbs a' !! r = Some (EchoRead sk buf) ∧ memory a' = memory a ∧
    mgr_base (mngr a') = mk_base true [p] ∧ elsewhere a a' ∧ same_server a a' ∧
    packet_of t (out_header (upd_send (set_send_pq (cb_insert_end text pq)) t) (len text)) text p.
Proof.
  intros Hst Ho Hflow Hu Hnil Hnone Hcb Hholds Hfit Hmss Hbase.
  pose proof (inv_ok _ (open_inv _ _ _ _ Ho)) as Hok. pose proof Hflow as (Hpq & _).
  destruct (written_and_sent t pq text Hok Hflow Hu Hfit Hmss) as (Hj & Hu2 & Hflow3 & Hu3).
  destruct (echo_writes_run jp sk te buf (set_tasks [] a) t pq k text) as (p & E1 & Ho3 & Hp);
    [by apply open_at_tasks|done..|].
  rewrite Hj in E1, Ho3, Hp. rewrite Hu2, Nat2Z.id, firstn_all in Hp.
  set (pq2 := cb_insert_end text pq) in *.
  set (t3 := after_packet (upd_send (set_send_pq pq2) t) (len text)) in *.
  change (text_sent t pq text) with t3 in *. set (a2 := advanced te t3 [EvEnqueue p] _) in *.
  destruct (app_steps addr_of jp s n te _ [] a a2 _ Hst E1) as (s2 & R1 & Hst2).
  pose proof (inv_ok _ (open_inv _ _ _ _ Ho3)) as Hok3.
  assert (exec jp te TaskDrain [] (set_tasks [] a2) = Ok ((), advanced te t3 [] (set_tasks [] a2), [])) as E2.
  { unfold exec. rewrite bind_get. apply (with_on_tcb_run te t3 _ t3 []).
    - exact (open_block _ _ _ _ Ho3).
    - destruct Hflow3 as (Hpq3 & _). by apply (drain_nothing t3 pq2). }
  set (a3 := advanced te t3 [] _) in *.
  destruct (app_steps addr_of jp s2 n te _ _ a2 a3 _ Hst2 E2) as (s3 & R2 & Hst3).
  assert (open_at sk te (set_tasks [] a3) t3) as Ho3'.
  { apply open_at_tasks, (open_advanced sk te _ t3); [by apply open_at_tasks|apply Ho3..]. }
  destruct (read_waits sk te (set_tasks [] a3) t3 (echo_span buf) (EchoRead sk buf) Ho3')
    as (E3 & Ho4 & Hcb4); [done|done|done|].
  set (r := length (io_cbs (set_tasks [] a3))) in *. set (a4 := advanced te (set_on_data_receive _ _) [] _) in *.
  assert (exec jp te (TaskWriteDone (length (io_cbs a)) (len text)) [] (set_tasks [] a3) = Ok ((), a4, [])) as E3'.
  { unfold exec. rewrite bind_get.
    assert (io_cbs (set_tasks [] a3) !! length (io_cbs a) = Some (EchoWritten sk buf)) as ->
      by (cbn; by rewrite lookup_app_r, Nat.sub_diag by lia).
    exact E3. }
  destruct (app_steps addr_of jp s3 n te _ _ a3 a4 _ Hst3 E3') as (s4 & R3 & Hst4).
  exists s4, a4, p, r. split.
  { intros fuel s5 e5 E5.
    change (OfApp (AppPrint text) :: e5) with ([OfApp (AppPrint text)] ++ [] ++ [] ++ e5).
    eapply until_idle_steps; [by rewrite (proj1 Hst)|exact R1|].
    eapply until_idle_steps; [by rewrite (proj1 Hst2)|exact R2|].
    by eapply until_idle_steps; [by rewrite (proj1 Hst3)|exact R3|]. }
  split_and!; [exact Hst4|exact Ho4|exact Hcb4|done| | |done|done].
  - cbn. by rewrite Hbase.
  - apply elsewhere_advanced, elsewhere_io, elsewhere_tasks, elsewhere_advanced, elsewhere_tasks; [done..|].
    by apply elsewhere_advanced, elsewhere_advanced, elsewhere_io, elsewhere_tasks.
Qed.

(** *** The segment leaves *)

Definition unqueued a : application B := set_mngr (set_base (mk_base true []) (mngr a)) a.

Lemma idle_unqueued n a a2 :
  idle (set_tcb_m (mngr a) (set_io_ctx [] n)) →
  idle (set_tcb_m (mngr (unqueued a2)) (set_io_ctx [] n)) ∧
  idle (set_tcb_m (mngr (unqueued a2)) (set_io_ctx [] (one_sent n))).
Proof.
  intros [_ Hidle]. split; (split; [done|]; intros p; specialize (Hidle p); by destruct p).
Qed.

(** The closure of the table's queue, whatever else is to run. *)
Lemma mgr_closure_queued s n a q t hdr text p ps dgs :
  stands s n (KBase PMgr :: q) a → mgr_base (mngr a) = mk_base true (p :: ps) →
  tcp_base (tcp_ n) = mk_base true dgs → packet_of t hdr text p → len text ≤ 65535 →
  (host_endian = Big → Z.even (len text) = true) →
  ∃ dg s', has_room 34 (ipp_skb dg) ∧ carries dg (local_ep_ t) (remote_ep_ t) hdr text ∧
    prog_one addr_of jp [] s = Ok ((), s', []) ∧
    stands s' (put_base PTcp (mk_base true (dgs ++ [dg])) n) (q ++ [KBase PTcp])
      (set_mngr (set_base (mk_base true ps) (mngr a)) a).
Proof.
  intros Hst Hq Hidle Hp Hlen Hbig.
  set (n1 := set_io_ctx q (put_base PMgr (mk_base true ps) (set_tcb_m (mngr a) n))).
  destruct (tcp_down_run addr_of Heven t hdr text p dgs n1 Hidle Hp Hlen Hbig) as (dg & E & Hroom & Hdg).
  exists dg. eexists. split; [done|]. split; [done|].
  pose proof (stands_app s n _ a Hst) as Ea. destruct Hst as [En _].
  unfold prog_one. rewrite bind_get, En. cbn [io_ctx_ set_io_ctx]. rewrite bind_modify.
  cbn [prog_closure]. unfold call_net. cbn [net_ app_]. rewrite En.
  pose proof (run_first addr_of PMgr p ps q (set_tcb_m (mngr a) n) Hq) as R.
  cbn [below] in R. rewrite (bind_run _ _ _ _ _ _ E) in R. unfold mret, M_ret in R. cbn [app] in R.
  change (set_io_ctx q (set_io_ctx (KBase PMgr :: q) (set_tcb_m (mngr a) n)))
    with (set_io_ctx q (set_tcb_m (mngr a) n)).
  rewrite R. split; [reflexivity|]. rewrite Ea. by split.
Qed.

Lemma mgr_closure_steps s n a q t hdr text p :
  stands s n (KBase PMgr :: q) a → mgr_base (mngr a) = mk_base true [p] →
  tcp_base (tcp_ n) = mk_base true [] → packet_of t hdr text p → len text ≤ 65535 →
  (host_endian = Big → Z.even (len text) = true) →
  ∃ dg s', has_room 34 (ipp_skb dg) ∧ carries dg (local_ep_ t) (remote_ep_ t) hdr text ∧
    prog_one addr_of jp [] s = Ok ((), s', []) ∧
    stands s' (put_base PTcp (mk_base true [dg]) n) (q ++ [KBase PTcp]) (unqueued a).
Proof. intros Hst Hq. exact (mgr_closure_queued s n a q t hdr text p [] [] Hst Hq). Qed.

(** The datagram leaves, and its write completes. *)
Lemma datagram_done s n a dg :
  stands s (put_base PTcp (mk_base true [dg]) n) [KBase PTcp] a →
  idle (set_tcb_m (mngr a) (set_io_ctx [] n)) → has_room 34 (ipp_skb dg) →
  way_out n (dst_addrv4 dg) nh d' src_mac mac →
  let id := seq_ (ipv4_ n) in
  ∃ s1 s2, rfc1071 (ipv4_header.produce_to_net (sent_header dg id)) = 0 ∧
    prog_until_idle addr_of jp 4 s = Ok ((), s1, [OfNet (NetWrite d' (frame_bytes src_mac mac dg id))]) ∧
    prog_act addr_of run_cb (ProgWriteDone d' false) s1 = Ok ((), s2, []) ∧ stands s2 (one_sent n) [] a.
Proof.
  intros Hst Hidle Hroom Hway id. set (n0 := set_tcb_m _ _) in Hidle.
  destruct (datagram_leaves addr_of Heven dg n0 nh d' src_mac mac Hidle Hroom Hway) as (skb & Hz & Erun).
  pose proof Hway as (_ & _ & _ & _ & Hdev). pose proof (stands_app s _ _ a Hst) as Ea.
  destruct Hst as [En _]. destruct s as [ns as_]. cbn [net_ app_] in En, Ea. subst ns.
  do 2 eexists. split; [done|]. split; [|split].
  - exact (net_alone addr_of jp 4 (one_left PTcp dg n0) _ _ as_ eq_refl Erun).
  - cbn [prog_act]. unfold call_net. cbn [net_ app_].
    rewrite (written_run d' skb _ (lookup_insert_eq _ _ _)). reflexivity.
  - cbn. rewrite Ea, insert_insert_eq, insert_id by done. by split.
Qed.

(** A segment, from the table to the device: five closures. *)
Lemma echo_leaves s n a t hdr text p :
  stands s n [KBase PMgr] a → mgr_base (mngr a) = mk_base true [p] →
  idle (set_tcb_m (mngr (unqueued a)) (set_io_ctx [] n)) → routed n → packet_of t hdr text p →
  remote_ep_ t = te_remote_ep te → len text ≤ 65535 →
  (host_endian = Big → Z.even (len text) = true) →
  let id := seq_ (ipv4_ n) in
  ∃ dg s1 s2, carries dg (local_ep_ t) (remote_ep_ t) hdr text ∧
    rfc1071 (ipv4_header.produce_to_net (sent_header dg id)) = 0 ∧
    prog_until_idle addr_of jp 5 s = Ok ((), s1, [OfNet (NetWrite d' (frame_bytes src_mac mac dg id))]) ∧
    prog_act addr_of run_cb (ProgWriteDone d' false) s1 = Ok ((), s2, []) ∧
    stands s2 (one_sent n) [] (unqueued a).
Proof.
  intros Hst Hq Hidle (Hway & _ & _) Hp Hr Hlen Hbig id.
  destruct (mgr_closure_steps s n a [] t hdr text p) as (dg & s1 & Hroom & Hdg & R1 & Hst1); [done..| |done|done|done|].
  { exact (proj2 Hidle PTcp). }
  assert (dst_addrv4 dg = addrv4 (te_remote_ep te)) as Hdst by (by rewrite <- Hr; apply Hdg).
  destruct (datagram_done s1 n (unqueued a) dg) as (s2 & s3 & Hz & R2 & E3 & Hst3); [done..|by rewrite Hdst|].
  exists dg, s2, s3. split; [done|]. split; [done|]. split; [|done].
  exact (until_idle_steps addr_of jp 4 s s1 [] s2 _ ltac:(by rewrite (proj1 Hst)) R1 R2).
Qed.

(** *** A round *)

(** The header of the answer: the next sequence number, and all that arrived
    acknowledged. *)
Definition reply_header t (text : list byte) : tcp_header_t :=
  mk_tcp_header (addrv4_port (te_local_ep te)) (addrv4_port (te_remote_ep te))
    (seq_nr_next (send_ t)) (u32 (rcv_next (rcv_ t) + len text)) 5 0 0 0 0 1 1 0 0 0 rcv_window_init 0 0.

(** The numbers of the connection after it. *)
Definition follows t th (text : list byte) t' : Prop :=
  rcv_next (rcv_ t') = u32 (rcv_next (rcv_ t) + len text) ∧
  seq_nr_unack (send_ t') = ack_no th ∧
  seq_nr_next (send_ t') = u32 (seq_nr_next (send_ t) + len text) ∧
  send_mss (send_ t') = send_mss (send_ t) ∧ send_window (send_ t') = send_window (send_ t).

(** A frame is read and the closures run; then the write completes. *)
Definition hear eh iph th (rest : list byte) : M (program Sig B) prog_event unit :=
  let frame := text_frame eh iph th rest in
  _ ← prog_act addr_of run_cb (ProgReadDone junk isn d false frame (len frame));
  prog_until_idle addr_of jp 8.
Definition exchange eh iph th (text : list byte) : M (program Sig B) prog_event unit :=
  _ ← hear eh iph th text;
  prog_act addr_of run_cb (ProgWriteDone d' false).

(** The bytes of a frame with a segment of the connection, and of the answer. *)
Definition carried n hdr (text frame : list byte) : Prop :=
  ∃ dg, frame = frame_bytes src_mac mac dg (seq_ (ipv4_ n)) ∧
    carries dg (te_local_ep te) (te_remote_ep te) hdr text ∧
    rfc1071 (ipv4_header.produce_to_net (sent_header dg (seq_ (ipv4_ n)))) = 0.
Definition answers n t (text frame : list byte) : Prop := carried n (reply_header t text) text frame.

Lemma delivered_numbers t pq th text sp :
  tcb_ok t → flow t pq → unsent t pq = [] → next_text t th text → len text ≤ sp_size sp →
  let t1 := text_delivered t pq th sp text in
  ∃ pq1, flow t1 pq1 ∧ unsent t1 pq1 = [] ∧ cb_size pq1 + len text ≤ send_window (send_ t) ∧
    rcv_next (rcv_ t1) = u32 (rcv_next (rcv_ t) + len text) ∧ seq_nr_unack (send_ t1) = ack_no th.
Proof.
  clear dependent isn. clear run_cb d'.
  intros Hok (Hpq & Hf & Hm) Hu Htext Hsize t1.
  destruct Htext as (_ & _ & _ & _ & _ & _ & Hack & _ & Hlen & _ & Hfit & _).
  destruct (after_ack_valid t pq (ack_no th) Hok Hpq Hf Hack) as (pq1 & Hpq1 & El & Hun & Hu1 & Hf1).
  exists pq1. rewrite Hu in Hu1. split_and!; try done.
  - unfold cb_size. rewrite El, length_drop. pose proof (length_unsent t pq) as Hl. rewrite Hu in Hl.
    destruct Hok as (_ & _ & (Hua & Hn & _) & _). unfold unacked, cb_size in Hl. cbn [length] in Hl.
    assert (u32 (seq_nr_next (send_ t) - seq_nr_unack (send_ t)) =
      seq_nr_next (send_ t) - seq_nr_unack (send_ t)) as E by ulia.
    lia.
  - unfold t1, text_delivered. cbn. unfold filled. rewrite take_ge; [done|].
    lia.
Qed.

Lemma reply_out t t1 pq text :
  rcv_next (rcv_ t1) = u32 (rcv_next (rcv_ t) + len text) → next_state_ t1 = kTCPEstablished →
  rcv_window (rcv_ t1) = rcv_window_init →
  remote_ep_ t1 = te_remote_ep te ∧ local_ep_ t1 = te_local_ep te ∧
    seq_nr_next (send_ t1) = seq_nr_next (send_ t) → 0 < len text →
  out_header (upd_send (set_send_pq (cb_insert_end text pq)) t1) (len text) = reply_header t text.
Proof.
  intros Hn Hst Hw (Hr & Hl & Hs') Hlen. unfold out_header, reply_header. cbn -[u32 Z.eqb Z.ltb].
  rewrite Hn, Hst, Hw, Hr, Hl, Hs'. replace (0 =? len text) with false by lia.
  by replace (0 <? len text) with true by lia.
Qed.

Lemma echo_round s n a t pq eh iph th text :
  serving s n a t pq → routed n → frame_for eh iph th → next_text t th text →
  ∃ s1 s' a' t' pq' frame,
    hear eh iph th text s = Ok ((), s1,
      [OfNet (NetRead d 1500); OfApp (AppPrint text); OfNet (NetWrite d' frame)]) ∧
    prog_act addr_of run_cb (ProgWriteDone d' false) s1 = Ok ((), s', []) ∧
    answers n t text frame ∧ follows t th text t' ∧
    serving s' (one_sent n) a' t' pq' ∧ elsewhere a a' ∧ same_server a a'.
Proof.
  intros Hsv Hrt Hframe Htext. pose proof Hsv as [Hst Hidle [Ho [Hre Hle] Hflow Hsent (k & Hk & Hcb) Hnil Hspan]].
  destruct (echo_arrives s n a t pq eh iph th text k) as (s1 & E1 & Hst1 & Ho1 & Hb1); [done..|].
  pose proof (inv_ok _ (open_inv _ _ _ _ Ho)) as Hok.
  destruct (delivered_numbers t pq th text (echo_span buf) Hok Hflow Hsent Htext) as (pq1 & Hflow1 & Hu1 & Hfit & Hrn & Hun);
    [apply Htext|].
  pose proof (inv_ok _ (open_inv _ _ _ _ Ho1)) as Hok1.
  set (t1 := text_delivered t pq th (echo_span buf) text) in *. set (a1 := advanced te t1 _ a) in *.
  pose proof Htext as (_ & _ & _ & _ & _ & _ & _ & _ & Hlen & Hmss & _ & Hbig). unfold echo_size in Hlen.
  assert (cb_capacity pq1 = send_window (send_ t)) as Hcap.
  { destruct Hok1 as (_ & _ & (_ & _ & _ & _ & Hc1) & _). destruct Hflow1 as (Hp1 & _).
    rewrite Hp1 in Hc1. exact Hc1. }
  assert (∀ sp, span_ok (memory a) sp → span_ok (memory a1) sp) as Hspans.
  { intros sp Hsp. change (memory a1) with (fill (echo_span buf) text (memory a)).
    apply fill_span_ok; [done|done|]. cbn. unfold echo_size. lia. }
  destruct (echo_closures s1 n a1 t1 pq1 text k) as (s2 & a2 & p & r & R2 & Hst2 & Ho2 & Hcb2 & Hm2 & Hq2 & Hew2 & Hsame2 & Hp2);
    try done.
  { pose proof (fill_holds (memory a) (echo_span buf) [] text Hspan (holds_nil _ _ Hspan)) as Hh'.
    rewrite sp_from_0 in Hh'. apply Hh'. cbn. unfold echo_size. lia. }
  { lia. }
  { destruct Hidle as [_ Hidle]. pose proof (Hidle PMgr) as E. cbn in E. cbn. by rewrite E. }
  destruct (written_and_sent t1 pq1 text Hok1 Hflow1 Hu1) as (_ & _ & Hflow3 & Hu3); [lia|done|].
  rewrite (reply_out t t1 pq1 text) in Hp2; [|done|by eapply open_next|by destruct Hok as (_ & _ & _ & _ & ? & _)|by split|lia].
  destruct (idle_unqueued n a a2 Hidle) as [Hidle2 Hidle3].
  destruct (echo_leaves s2 n a2 t1 (reply_header t text) text p Hst2 Hq2) as (dg & s3 & s4 & Hdg & Hz & R3 & E4 & Hst4);
    [done|done|done|done|lia|done|].
  exists s3, s4, (unqueued a2), (waits_again t1 pq1 text r), (cb_insert_end text pq1),
    (frame_bytes src_mac mac dg (seq_ (ipv4_ n))).
  split_and!.
  - eapply (bind_run_Ok _ _ _ () s1 [OfNet (NetRead d 1500)]); [exact E1|].
    exact (R2 5%nat _ _ R3).
  - exact E4.
  - exists dg. rewrite <- Hre, <- Hle. done.
  - unfold follows. rewrite <- Hrn, <- Hun. done.
  - split; [done|done|].
    split; [by destruct Ho2; split|done|done|done|by exists r|done|].
    change (memory (unqueued a2)) with (memory a2). by rewrite Hm2; apply Hspans.
  - apply elsewhere_mngr_base. etransitivity; [|exact Hew2]. by apply elsewhere_advanced.
  - destruct Hsame2 as (? & ? & ? & Hmem). split_and!; [done..|]. intros i Hi. apply Hmem.
    change (memory a1) with (fill (echo_span buf) text (memory a)). unfold fill.
    by rewrite lookup_alter_None.
Qed.

(** *** Rounds *)

Abbreviation round := (ethernetv2_header_t * ipv4_header_t * tcp_header_t * list byte)%type.

Fixpoint converse (rounds : list round) : M (program Sig B) prog_event unit :=
  match rounds with
  | [] => mret ()
  | (eh, iph, th, text) :: rounds => _ ← exchange eh iph th text; converse rounds
  end.

(** Each frame brings the next text. *)
Fixpoint in_order t (rounds : list round) : Prop :=
  match rounds with
  | [] => True
  | (eh, iph, th, text) :: rounds =>
      frame_for eh iph th ∧ next_text t th text ∧ ∀ t', follows t th text t' → in_order t' rounds
  end.

(** What is seen of each round. *)
Definition seen (r : round) (frame : list byte) : list prog_event :=
  [OfNet (NetRead d 1500); OfApp (AppPrint r.2); OfNet (NetWrite d' frame)].

(** Each frame answers its round. *)
Fixpoint answered n t (rounds : list round) (frames : list (list byte)) : Prop :=
  match rounds, frames with
  | [], [] => True
  | (_, _, th, text) :: rounds, frame :: frames =>
      answers n t text frame ∧ ∃ t', follows t th text t' ∧ answered (one_sent n) t' rounds frames
  | _, _ => False
  end.

(** What is sent to the echo server comes back.  On a program in which
    nothing is pending, with an established connection that the server
    reads, any number of frames with the next texts of the connection are
    answered one by one: for each the next read is started, the text is
    printed, and after eight closures the device of the route to the peer is
    given one frame; no handler faults, and when its write completes the
    program is as before, ready for the next.  The frame has the MAC
    addresses of the hop, an IPv4 header with the next identification and a
    valid checksum, a TCP header with the ports swapped, the next sequence
    number and the text acknowledged, whose checksum is valid too, and the
    text that was sent. *)
Theorem frames_are_echoed s n a t pq rounds :
  serving s n a t pq → routed n → in_order t rounds →
  ∃ s' frames, converse rounds s = Ok ((), s', concat (zip_with seen rounds frames)) ∧
    length frames = length rounds ∧ answered n t rounds frames ∧
    ∃ n' a' t' pq', serving s' n' a' t' pq' ∧ routed n'.
Proof.
  revert s n a t pq. induction rounds as [|[[[eh iph] th] text] rounds IH]; intros s n a t pq Hsv Hrt Hin.
  { exists s, []. split_and!; [done|done|done|]. by exists n, a, t, pq. }
  destruct Hin as (Hframe & Htext & Hrest).
  destruct (echo_round s n a t pq eh iph th text Hsv Hrt Hframe Htext)
    as (s0 & s1 & a1 & t1 & pq1 & frame & E0 & W0 & Hans & Hfol & Hsv1 & _).
  destruct (IH s1 (one_sent n) a1 t1 pq1 Hsv1 Hrt (Hrest t1 Hfol))
    as (s2 & frames & E2 & Hlen & Hanss & Hend).
  exists s2, (frame :: frames). split; [|split_and!].
  - cbn [converse]. apply (bind_run_Ok _ _ _ () s1 (seen (eh, iph, th, text) frame) _ _ _); [|exact E2].
    exact (bind_run_Ok _ _ _ () s0 _ _ _ [] E0 W0).
  - cbn. by rewrite Hlen.
  - split; [done|]. by exists t1.
  - exact Hend.
Qed.
End Serving.

(** ** A concrete server *)

(** The connection of [SocketFacts], on the namespace of [Ping]; the peer is
    behind the gateway. *)
Definition test_reader : tcb_t reserve_buffer := test_block [(mk_span 9 0 2000, 0%nat)] [].
Definition test_server_app : application reserve_buffer :=
  test_app [EchoRead 0 9] [] test_reader (replicate (Z.to_nat 2000) Byte.x00).
Definition test_server : program (list ethernetv2_frame) reserve_buffer :=
  mk_program (set_tcb_m (mngr test_server_app) test_net) test_server_app.
Definition test_text_ip (text : list byte) : ipv4_header_t :=
  mk_ipv4_header 4 5 0 (40 + len text) 77 0 1 0 0 64 PROTO 0 (Ipv4 167772162) (Ipv4 167772161).
Definition test_text_tcp (seq ack_ : Z) : tcp_header_t :=
  mk_tcp_header 4096 80 seq ack_ 5 0 0 0 0 1 0 0 0 0 1000 0 0.
Definition test_round (seq ack_ : Z) (text : list byte) :
    ethernetv2_header_t * ipv4_header_t * tcp_header_t * list byte :=
  (test_eth, test_text_ip text, test_text_tcp seq ack_, text).
Definition test_rounds := [test_round 5000 5000 [Byte.x41; Byte.x42]; test_round 5002 5002 [Byte.x43]].

Lemma test_frame_for seq ack_ text :
  is_u 32 seq → is_u 32 ack_ → len text < 1000 →
  frame_for test_te test_eth (test_text_ip text) (test_text_tcp seq ack_).
Proof.
  intros Hseq Hack Hlen. unfold is_u in *.
  assert (0 ≤ len text) by lia. change (2 ^ 32) with 4294967296 in *.
  unfold frame_for, eth_header_ok, ipv4_header_ok, tcp_header_ok, ipv4_ok, is_u, test_text_ip, test_text_tcp,
    test_eth, PROTO, IP_PROTO.
  cbn -[Z.of_nat Z.add]. split_and!; try reflexivity; lia.
Qed.

Lemma test_serving : serving 0 test_te 9 test_server test_net test_server_app test_reader (mk_reserve [] 100).
Proof.
  split.
  - by split.
  - split; [done|]. by intros [].
  - split; [apply test_open_at|by split| |reflexivity|by exists 0%nat|reflexivity|].
    { unfold flow, no_syn_in_flight. split_and!; [reflexivity|vm_compute; discriminate|reflexivity]. }
    unfold span_ok. split; [reflexivity|]. split; [split; reflexivity || discriminate|].
    eexists. split; [reflexivity|vm_compute; discriminate].
Qed.

Lemma frames_are_echoed_witness :
  ∃ s' frames,
    converse (Hh := test_host Little) (λ _, 64) (λ _ _ _, mret false) test_junk 0 0 0 0 test_rounds test_server =
      Ok ((), s', concat (zip_with (seen 0 0) test_rounds frames)) ∧
    length frames = 2%nat ∧
    answered (Hh := test_host Little) test_te (test_mac Byte.x02) (test_mac Byte.x08) test_net test_reader
      test_rounds frames ∧
    ∃ n' a' t' pq', serving 0 test_te 9 s' n' a' t' pq' ∧
      routed test_te 0 test_route 0 (test_mac Byte.x02) (test_mac Byte.x08) n'.
Proof.
  refine (frames_are_echoed (Hh := test_host Little) (λ _, 64) (λ _ _ _, mret false) _ test_junk 0 0 _
    0 test_te 9 0 test_route 0 (test_mac Byte.x02) (test_mac Byte.x08) test_server test_net
    test_server_app test_reader (mk_reserve [] 100) test_rounds test_serving _ _).
  - reflexivity.
  - unfold is_u; lia.
  - split; [unfold way_out; split_and!; reflexivity|]. split; [eexists; reflexivity|].
    split; [reflexivity|apply List.Forall_nil].
  - split; [apply test_frame_for; unfold is_u; cbn; lia|]. split.
    { unfold next_text, rcv_window_init, echo_size. cbn. split_and!; first [reflexivity|lia|discriminate]. }
    intros t' (H1 & H2 & H3 & H4 & H5).
    split; [apply test_frame_for; unfold is_u; cbn; lia|]. split; [|done].
    unfold next_text, rcv_window_init, echo_size. rewrite H1, H2, H3, H4, H5.
    vm_compute. split_and!; first [reflexivity|discriminate].
Defined.
