(* ===== verification/Segments.v ===== *)
(** * Many segments leave

    The segments that a connection has queued, through a whole program: the
    closures of the connection table and those of [Pipeline]; and the writes
    of the device, each started when the one before completes. *)

From S2P Require Import Prelude Utils Skbuff Addr Headers CircularBuffer Tcb TcbFacts TcbSend TcbRecv.
From S2P Require Import TcbState BaseProtocol Packets TcbManager Socket SocketFacts Echo Tcp Icmp NeighCache.
From S2P Require Import RoutingTable Arp Ipv4 Ethernet Device Stack Layers Netns NetnsFacts NetnsRun Ping.
From S2P Require Import Pipeline Program Prior ProgramFacts EchoFrame.

Section Segments.
Context `{Hh : Host} {Sig : Type} `{Hsig : Signal ethernetv2_frame Sig}
  `{Hspec : !SignalSpec ethernetv2_frame Sig}.
Context {B : Type} `{Hc : CircularBuffer B}.
Context (addr_of : skbuff → Z) (run_cb : nat → endpoint → endpoint → M tcp tcp_event bool).
Context (Heven : ∀ skb, Z.even (addr_of skb) = true).
Context (jp : Z) (te : two_ends_t) (nh : rt_record) (d : nat) (src_mac mac : mac_addr_t).
Implicit Types (n : netns Sig B) (s : program Sig B) (a : application B).

(** A header and a text; as a packet, and as a datagram. *)
Abbreviation segment := (tcp_header_t * list byte)%type.
Implicit Types (sg : segment) (segs : list segment).
Definition is_packet (p : tcp_packet) sg : Prop :=
  ∃ t : tcb_t B, packet_of t sg.1 sg.2 p ∧ remote_ep_ t = te_remote_ep te ∧ local_ep_ t = te_local_ep te.
Definition is_datagram (dg : ipv4_packet) sg : Prop :=
  has_room 34 (ipp_skb dg) ∧ carries dg (te_local_ep te) (te_remote_ep te) sg.1 sg.2.
Definition summable sg : Prop := len sg.2 ≤ 65535 ∧ (host_endian = Big → Z.even (len sg.2) = true).
Definition carried_by n sg frame : Prop := carried te src_mac mac n sg.1 sg.2 frame.

(** The closures of the connection table. *)
Lemma packets_go_down ps : ∀ dgs s n a q segs,
  stands s (queue_at PTcp dgs n) (((λ _, KBase PMgr) <$> ps) ++ q) a → mgr_base (mngr a) = mk_base true ps →
  Forall2 is_packet ps segs → Forall summable segs →
  ∃ dgs' s', Forall2 is_datagram dgs' segs ∧
    stands s' (queue_at PTcp (dgs ++ dgs') n) (q ++ ((λ _, KBase PTcp) <$> dgs')) (unqueued a) ∧
    ∀ fuel s2 es, prog_until_idle addr_of jp fuel s' = Ok ((), s2, es) →
      prog_until_idle addr_of jp (length ps + fuel) s = Ok ((), s2, es).
Proof.
  induction ps as [|p ps IH]; intros dgs s n a q segs Hst Hq Hps Hsum.
  { inversion Hps. exists [], s. split; [constructor|]. split; [|done]. rewrite !app_nil_r.
    unfold unqueued. rewrite <- Hq. by destruct a as [[]]. }
  apply Forall2_cons_inv_l in Hps as (sg & segs' & (t & Hp & Er & El) & Hps & ->).
  apply Forall_cons in Hsum as [[Hlen Hbig] Hsum].
  destruct (mgr_closure_queued addr_of Heven jp s (queue_at PTcp dgs n) a _ t sg.1 sg.2 p ps dgs Hst Hq)
    as (dg & s1 & Hroom & Hdg & R1 & Hst1); [done..|].
  rewrite El, Er in Hdg. rewrite <- app_assoc in Hst1.
  destruct (IH (dgs ++ [dg]) s1 n _ (q ++ [KBase PTcp]) segs' Hst1) as (dgs' & s' & Hdgs & Hst' & Hrun); [done..|].
  exists (dg :: dgs'), s'. split; [by constructor|]. split.
  - rewrite <- !app_assoc in Hst'. exact Hst'.
  - intros fuel s2 es E. cbn [length Nat.add].
    eapply (until_idle_steps addr_of jp (length ps + fuel) s s1 []); [by rewrite (proj1 Hst)|exact R1|by apply Hrun].
Qed.

(** The frames they become. *)
Lemma datagrams_framed dgs : ∀ n segs,
  Forall2 is_datagram dgs segs →
  ∃ frs, each one_sent (to_leave (addrv4 (te_remote_ep te)) src_mac mac) n dgs frs ∧
    each one_sent carried_by n segs frs.
Proof.
  induction dgs as [|dg dgs IH]; intros n segs Hdgs.
  { inversion Hdgs. by exists []. }
  apply Forall2_cons_inv_l in Hdgs as (sg & segs' & [Hroom Hdg] & Hdgs & ->).
  destruct (IH (one_sent n) segs' Hdgs) as (frs & Hleave & Hcar).
  destruct (ip_process_run (addr_of (ipp_skb dg)) dg (ipv4_ n)) as (Hz & _);
    [apply Hroom|change ipv4_header.fixed_size with 20; destruct Hroom; lia|by eapply has_room_even|].
  exists (frame_bytes src_mac mac dg (seq_ (ipv4_ n)) :: frs). split; (split; [|done]).
  - split; [done|]. split; [apply Hdg|done].
  - by exists dg.
Qed.

Lemma base_tasks {X} p (xs : list X) : tcb_tasks ((λ _, KBase p) <$> xs) = [].
Proof. by induction xs. Qed.

Lemma segments_leave s n a ps segs :
  ps ≠ [] → stands s n ((λ _, KBase PMgr) <$> ps) a → mgr_base (mngr a) = mk_base true ps →
  idle (set_tcb_m (mngr (unqueued a)) (set_io_ctx [] n)) →
  way_out n (addrv4 (te_remote_ep te)) nh d src_mac mac → Forall2 is_packet ps segs → Forall summable segs →
  ∃ fr frs s1 x skbs, payload <$> skbs = frs ∧ each one_sent carried_by n segs (fr :: frs) ∧
    prog_until_idle addr_of jp (5 * length ps) s = Ok ((), s1, [OfNet (NetWrite d fr)]) ∧
    stands s1 (queued_at d (x :: skbs) (after_all one_sent (length ps) n)) [] (unqueued a).
Proof.
  intros Hne Hst Hq Hidle Hway Hps Hsum. set (n0 := set_tcb_m _ _) in Hidle.
  assert (queue_at PTcp [] n = n) as En.
  { apply queue_none. exact (proj2 Hidle PTcp). }
  destruct (packets_go_down ps [] s n a [] segs) as (dgs & s1 & Hdgs & Hst1 & Hrun); [by rewrite En, app_nil_r|done..|].
  cbn [app] in Hst1. destruct (datagrams_framed dgs n segs Hdgs) as (frs & Hleave & Hcar).
  set (g := λ n, set_tcb_m (mngr (unqueued a)) (set_io_ctx [] n)).
  apply (each_map g) in Hleave; [|done|done]. change (g n) with n0 in Hleave.
  apply Forall2_length in Hps as L1. apply Forall2_length in Hdgs as L2.
  destruct frs as [|fr frs].
  { pose proof (each_length _ _ _ _ _ _ Hleave) as L3. destruct ps; [done|]. cbn in *. lia. }
  destruct (datagrams_leave addr_of Heven (addrv4 (te_remote_ep te)) nh d src_mac mac dgs n0 fr frs Hidle Hway Hleave)
    as (x & skbs & Hskbs & E).
  rewrite (after_all_map g _ n) in E by done.
  pose proof (stands_app s1 _ _ _ Hst1) as Ea. destruct Hst1 as [En1 _]. destruct s1 as [ns as_]. cbn [net_ app_] in *.
  subst ns. exists fr, frs. eexists. exists x, skbs. split; [exact Hskbs|]. split; [exact Hcar|]. split.
  - replace (5 * length ps)%nat with (length ps + 4 * length dgs)%nat by lia. apply Hrun.
    exact (net_alone addr_of jp _ (set_io_ctx ((λ _, KBase PTcp) <$> dgs) (queue_at PTcp dgs n0)) _
      [NetWrite d fr] as_ (base_tasks PTcp dgs) E).
  - rewrite L1, <- L2. cbn -[queued_at]. split; [|cbn; by rewrite Ea].
    unfold queued_at, g. cbn. done.
Qed.
End Segments.
