(* ===== verification/EchoOpen.v ===== *)
(** * A connection is opened

    From a SYN to the echo server of main.cpp to the frame with the SYN,ACK,
    and from the acknowledgment to the accepted socket that reads, through
    every layer; and the state of a server that waits. *)

From S2P Require Import Prelude Utils Skbuff Addr Headers TcpOptions CircularBuffer Tcb TcbFacts TcbSend.
From S2P Require Import TcbRecv TcbState TcbHandshake BaseProtocol Packets TcbManager Socket SocketFacts Echo.
From S2P Require Import Accept Tcp NeighCache RoutingTable Arp Ipv4 Ethernet Device Stack Layers Netns.
From S2P Require Import NetnsFacts NetnsRun Ping Program Prior ProgramFacts EchoFrame.

(** ** The numbers of a connection *)

Record numbers : Type := mk_numbers {
  nb_rcv : Z;     (** [RCV.NXT] *)
  nb_una : Z;     (** [SND.UNA] *)
  nb_nxt : Z;     (** [SND.NXT] *)
  nb_mss : Z;     (** what the peer takes in a segment, *)
  nb_wnd : Z;     (** and in all *)
}.
Definition numbers_of {B} (t : tcb_t B) : numbers :=
  mk_numbers (rcv_next (rcv_ t)) (seq_nr_unack (send_ t)) (seq_nr_next (send_ t))
    (send_mss (send_ t)) (send_window (send_ t)).

Section Opening.
Context `{Hh : Host} {Sig : Type} `{Hsig : Signal ethernetv2_frame Sig}
  `{Hspec : !SignalSpec ethernetv2_frame Sig}.
Context {B : Type} `{Hc : CircularBuffer B} `{Hs : !CircularBufferSpec B}.
Context (addr_of : skbuff → Z) (run_cb : nat → endpoint → endpoint → M tcp tcp_event bool).
Context (Heven : ∀ skb, Z.even (addr_of skb) = true).
Context (junk : indeterminate) (isn jp : Z) (Hjunk : ind_ok junk) (Hisn : is_u 32 isn).
(** The acceptor; the connection; the device that is read, and how packets
    for the peer leave. *)
Context (acc : nat) (te : two_ends_t) (d : nat).
Context (nh : rt_record) (d' : nat) (src_mac mac : mac_addr_t).
Implicit Types (n : netns Sig B) (s : program Sig B) (a : application B) (t : tcb_t B).

(** The acceptor waits with the socket [sk] for the next connection. *)
Record awaits a (sk : nat) : Prop := {
  aw_queue : acceptors a !! acc = Some [(sk, EchoAccepted acc sk)];
  aw_socket : ∃ so, sockets a !! sk = Some so ∧ sk_tcb so = None;
  aw_fresh : ∀ i, (allocated a ≤ i)%nat → sockets a !! i = None ∧ memory a !! i = None;
}.

(** Its rule is the one for the connection. *)
Definition admits a : Prop :=
  ∃ r, find_rule (mngr a) te = Some r ∧ conn_cbs a !! rule_cb r = Some (AcceptorRule acc).

(** The SYN was answered. *)
Record half_open a t : Prop := {
  ho_block : tcbs_ (mngr a) !! te = Some t;
  ho_inv : tcb_inv t;
  ho_state : state_ t = kTCPSynReceived;
  ho_ends : remote_ep_ t = te_remote_ep te ∧ local_ep_ t = te_local_ep te;
  ho_waits : on_data_receive_ t = [];
  ho_buffered : buffered t = [];
  ho_queue : ∃ pq, send_pq (send_ t) = Some pq ∧ cb_list pq = [];
  ho_mss : 0 < send_mss (send_ t);
  ho_conn : conn_cbs a !! on_connection_established_ t = Some (AcceptorRule acc);
}.

(** ** The SYN *)

Definition first_syn th (opts : list byte) (os : list tcp_option) : Prop :=
  RST th = 0 ∧ ACK th = 0 ∧ SYN th = 1 ∧ 4 * data_offset th = 20 + len opts ∧
  decode_options opts = Ok os ∧ 0 < options_mss os (ind_mss junk).

(** The numbers it brings, and the header of the answer. *)
Definition syn_numbers th (os : list tcp_option) : numbers :=
  mk_numbers (u32 (seq_no th + 1)) isn (u32 (isn + 1)) (options_mss os (ind_mss junk)) (window th).
Definition syn_ack_header (nb : numbers) : tcp_header_t :=
  mk_tcp_header (addrv4_port (te_local_ep te)) (addrv4_port (te_remote_ep te)) (nb_una nb) (nb_rcv nb)
    5 0 0 0 0 1 0 0 1 0 rcv_window_init 0 0.

Lemma frame_ends eh iph th : frame_for te eh iph th → endpoint_ok (te_remote_ep te) ∧ endpoint_ok (te_local_ep te).
Proof.
  intros (_ & Hiph & Hth & _ & _ & _ & ->). unfold ipv4_header_ok, tcp_header_ok, endpoint_ok in *.
  destruct_and!. by split_and!.
Qed.

(** The block that is created answers. *)
Lemma syn_process a th opts os :
  tcp_header_ok th → first_syn th opts os → tcbs_ (mngr a) !! te = None → admits a →
  endpoint_ok (te_remote_ep te) → endpoint_ok (te_local_ep te) →
  ∃ t p hdr,
    table_takes junk isn te a th opts (mngr (advanced te t [EvEnqueue p] a)) [EvEnqueue p] ∧
    packet_of t hdr [] p ∧ hdr = syn_ack_header (syn_numbers th os) ∧
    numbers_of t = syn_numbers th os ∧ half_open (advanced te t [EvEnqueue p] a) t.
Proof.
  intros Hth (HR & HA & HS & Hoff & Hdec & Hmss) Hnone (r & Hrule & Hconn) Hre Hle.
  destruct (tcb_new_inv (B := B) junk (te_remote_ep te) (te_local_ep te) kTCPListen (rule_cb r))
    as (t0 & Enew & Hinv & Er & El & Est); [done..|by left|].
  pose proof (header_ranges th Hth) as Hrange.
  destruct (listen_run isn th opts os t0 (inv_ok _ Hinv) Est Hrange Hisn HR HA HS Hdec) as (p & E & Hp).
  set (t1 := accepting isn th os t0) in *. set (t := after_packet t1 0) in *.
  assert (∀ pkt, skb_wf (tp_skb pkt) → payload (tp_skb pkt) = tcp_header.produce_to_net th ++ opts →
    process isn pkt t0 = Ok ((), t, [EvEnqueue p])) as Hproc.
  { intros pkt Hw Hpay. eapply process_run.
    - apply (parse_payload _ th opts [] Hw); [by rewrite app_nil_r|done|done|].
      destruct Hth as (_ & _ & _ & _ & (? & _) & _). unfold is_u in *. cbn. lia.
    - by apply process_parsed_listen. }
  assert (keeps t0 t [EvEnqueue p]) as Hkeep.
  { pose proof (process_parsed_wp isn th opts [] t0 Hinv Hrange Hisn) as Hw. unfold wp in Hw.
    by rewrite (process_parsed_listen isn th opts [] t0 t [EvEnqueue p] Est E) in Hw. }
  destruct Hkeep as (Hinv1 & _ & _ & (Hr1 & Hl1) & _).
  injection Enew as Enew. exists t, p, (out_header t1 0). split; [|split; [|split; [|split]]].
  - intros pkt Hte Hw Hpay. unfold mgr_process. rewrite bind_get, Hte, Hnone, Hrule.
    rewrite (bind_lift_Ok _ t0) by (unfold tcb_new; by rewrite Enew). rewrite bind_modify.
    rewrite (on_tcb_run te t0 _ t [EvEnqueue p]); [|apply lookup_insert_eq|by apply Hproc].
    cbn. by rewrite insert_insert_eq.
  - done.
  - unfold out_header, syn_ack_header, t1. rewrite <- Enew. reflexivity.
  - unfold numbers_of, t, t1, syn_numbers. rewrite <- Enew. cbn -[u32]. by rewrite Z.add_0_r, (u32_small (u32 _)) by apply u32_is_u.
  - split; try done.
    + cbn. apply lookup_insert_eq.
    + unfold t, t1. by rewrite <- Enew.
    + unfold t, t1, buffered. rewrite <- Enew. apply cb_make_list.
    + exists (cb_make (window th)). split; [done|]. apply cb_make_list.
    + unfold t, t1. rewrite <- Enew. exact Hmss.
    + unfold t, t1. by rewrite <- Enew.
Qed.

(** The SYN is answered: five closures, and the write completes. *)
Lemma syn_round s n a eh iph th opts os :
  stands s n [] a → idle (set_tcb_m (mngr a) (set_io_ctx [] n)) → routed te d nh d' src_mac mac n →
  frame_for te eh iph th → first_syn th opts os → tcbs_ (mngr a) !! te = None → admits a →
  ∃ s1 s' a' t frame,
    hear addr_of run_cb junk isn jp d eh iph th opts s =
      Ok ((), s1, [OfNet (NetRead d 1500); OfNet (NetWrite d' frame)]) ∧
    prog_act addr_of run_cb (ProgWriteDone d' false) s1 = Ok ((), s', []) ∧
    carried te src_mac mac n (syn_ack_header (syn_numbers th os)) [] frame ∧
    stands s' (one_sent n) [] a' ∧ idle (set_tcb_m (mngr a') (set_io_ctx [] (one_sent n))) ∧
    half_open a' t ∧ numbers_of t = syn_numbers th os ∧ elsewhere te a a' ∧ same_server a a'.
Proof.
  intros Hst Hidle Hrt Hframe Hsyn Hnone Hadm. destruct (frame_ends eh iph th Hframe) as [Hre Hle].
  pose proof Hframe as (_ & _ & Hth & _).
  destruct (syn_process a th opts os Hth Hsyn Hnone Hadm Hre Hle) as (t & p & hdr & Hmgr & Hp & -> & Hnb & Hho).
  set (a1 := advanced te t [EvEnqueue p] a) in *. pose proof (ho_ends _ _ Hho) as [Er El].
  destruct (frame_arrives addr_of run_cb junk isn te d nh d' src_mac mac s n a eh iph th opts t [EvEnqueue p])
    as (s1 & E1 & Hst1); [done..|]. fold a1 in Hst1.
  destruct (idle_unqueued n a a1 Hidle) as [Hidle2 Hidle3].
  destruct (echo_leaves addr_of run_cb Heven jp te d nh d' src_mac mac s1 n a1 t
    (syn_ack_header (syn_numbers th os)) [] p) as (dg & s2 & s3 & Hdg & Hz & R2 & E3 & Hst3); try done.
  { destruct Hidle as [_ Hq]. pose proof (Hq PMgr) as E. cbn in E. cbn. by rewrite E. }
  exists s2, s3, (unqueued a1), t, (frame_bytes src_mac mac dg (seq_ (ipv4_ n))). split_and!; try done.
  - apply (bind_run_Ok _ _ _ () s1 [OfNet (NetRead d 1500)] _ _ [OfNet (NetWrite d' _)] E1).
    exact (until_idle_more addr_of jp 3 5 s1 _ R2).
  - exists dg. by rewrite <- Er, <- El.
  - destruct Hho. by split.
  - apply elsewhere_mngr_base, elsewhere_advanced; done.
Qed.

(** ** The acknowledgment *)

Definition first_ack th (nb : numbers) : Prop :=
  data_offset th = 5 ∧ ACK th = 1 ∧ RST th = 0 ∧ SYN th = 0 ∧ FIN th = 0 ∧
  seq_no th = nb_rcv nb ∧ ack_no th = nb_nxt nb ∧ nb_una nb ≤ nb_nxt nb ∧
  nb_rcv nb + rcv_window_init < 2 ^ 32.
Definition ack_numbers (nb : numbers) : numbers :=
  mk_numbers (nb_rcv nb) (nb_nxt nb) (nb_nxt nb) (nb_mss nb) (nb_wnd nb).

Definition established t : tcb_t B :=
  set_next_state kTCPEstablished (set_state kTCPEstablished
    (upd_send (set_unack (seq_nr_next (send_ t))) t)).

Lemma ack_process a t th :
  half_open a t → tcp_header_ok th → first_ack th (numbers_of t) →
  let evs := [EvPost TaskEstablished] in
  table_takes junk isn te a th [] (mngr (advanced te (established t) evs a)) evs ∧
  tcb_inv (established t) ∧ ∃ pq, flow (established t) pq ∧ unsent (established t) pq = [].
Proof.
  intros Hho Hth (Hoff & HA & HR & HS & HF & Hseq & Hack & Hle & Hwrap) evs.
  destruct Hho as [Hb Hinv Hst _ _ _ (pq & Hpq & Hnil) Hmss _]. pose proof (inv_ok _ Hinv) as Hok.
  unfold rcv_window_init in Hwrap. cbn [numbers_of nb_rcv nb_una nb_nxt] in *.
  pose proof (syn_received_run th t Hok Hst (header_ranges th Hth) HA HR HS HF) as E.
  rewrite Hack in E. specialize (E ltac:(lia) ltac:(lia) Hwrap). fold (established t) evs in E.
  assert (∀ opts, process_parsed isn th opts [] t = Ok ((), established t, evs)) as Hparsed.
  { intros opts. by rewrite process_parsed_synchronized by (by rewrite Hst). }
  split; [|split].
  - intros pkt Hte Hw Hpay. rewrite <- Hte in Hb |- *.
    assert (process isn pkt t = Ok ((), established t, evs)) as Ep.
    { eapply process_run; [|apply Hparsed]. apply (parse_payload _ th [] [] Hw Hpay Hth); [|done].
      by rewrite Hoff. }
    by rewrite (mgr_process_run junk isn pkt t (established t) evs _ Hb Ep),
      (on_tcb_run _ t _ (established t) evs _ Hb Ep).
  - pose proof (process_parsed_wp isn th [] [] t Hinv (header_ranges th Hth) Hisn) as Hw.
    unfold wp in Hw. rewrite Hparsed in Hw. apply Hw.
  - exists pq. split; [|unfold unsent; by rewrite Hnil, drop_nil]. split; [done|]. split; [|exact Hmss].
    unfold no_syn_in_flight. cbn -[u32]. rewrite Z.sub_diag. change (u32 0) with 0. unfold cb_size. lia.
Qed.

(** *** The closure of the connection *)

(** The waiting socket is bound, a buffer made, the read started, and a new
    socket waits. *)
Lemma takes_connection a t pq sk :
  tcbs_ (mngr a) !! te = Some t → tcb_inv t → state_ t = kTCPEstablished →
  remote_ep_ t = te_remote_ep te ∧ local_ep_ t = te_local_ep te →
  flow t pq → unsent t pq = [] → on_data_receive_ t = [] → buffered t = [] →
  conn_cbs a !! on_connection_established_ t = Some (AcceptorRule acc) → awaits a sk →
  let buf := allocated a in
  ∃ a' k, exec jp te TaskEstablished [] a = Ok ((), a', []) ∧
    served sk te buf a' (set_on_data_receive [(echo_span buf, k)] t) pq ∧ awaits a' (S buf) ∧
    elsewhere te a a' ∧ mgr_base (mngr a') = mgr_base (mngr a).
Proof.
  intros Hb Hinv Hst Hends Hflow Hu Hnone Hnil Hconn [Hacc (so & Hso & Hfree) Hfresh] buf.
  rewrite (accept_run jp te t acc sk so _ [] [] a Hb Hconn Hacc Hso).
  set (a1 := bound sk so (Some kSocketConnected) t te (popped acc [] a)).
  set (zeros := replicate (Z.to_nat echo_size) Byte.x00).
  set (a2 := set_memory (<[buf := zeros]> (memory a)) (set_allocated (S buf) a1)).
  assert (open_at sk te a2 t) as Ho.
  { split; [done..|]. exists (mk_socket kSocketConnected (local_ep_ t) (Some te)).
    split; [cbn; apply lookup_insert_eq|done]. }
  assert (sk < allocated a)%nat as Hlt.
  { destruct (decide (sk < allocated a)%nat); [done|]. destruct (Hfresh sk) as [E _]; [lia|]. congruence. }
  destruct (read_waits sk te a2 t (echo_span buf) (EchoRead sk buf) Ho Hnone Hnil ltac:(done))
    as (E & Ho' & Hcb).
  set (k := length (io_cbs a2)) in *. set (a3 := advanced te _ [] _) in *.
  assert (acceptors a3 !! acc = Some []) as Hacc3 by apply lookup_insert_eq.
  pose proof (do_accept_run jp acc [] a3 Hacc3) as Edo. cbv zeta in Edo.
  match type of Edo with _ = Ok (_, ?x, _) => set (a4 := x) in Edo end.
  exists a4, k. split; [|split; [|split; [|split]]].
  - cbn [run_done]. rewrite (bind_silent _ _ a1 buf (set_allocated (S buf) a1)) by done.
    rewrite bind_modify. change (set_memory _ _) with a2.
    by rewrite (bind_silent _ _ a2 () a3 E).
  - split; try done; [|by exists k|].
    + destruct Ho' as [? ? ? (so' & Hso' & ?)]. split; [done..|]. exists so'. split; [|done].
      rewrite <- Hso'. cbn. apply lookup_insert_ne. lia.
    + split; [done|]. split; [done|]. exists zeros. split; [apply lookup_insert_eq|].
      unfold zeros. by rewrite length_replicate.
  - split; [apply lookup_insert_eq| |].
    + eexists. split; [apply lookup_insert_eq|done].
    + intros i Hi. cbn in Hi |- *. destruct (Hfresh i) as [E1 E2]; [lia|].
      rewrite !lookup_insert_ne by lia. done.
  - assert (elsewhere te a a2) as Hew.
    { split; try done; cbn.
      - intros sp (? & ? & l & Hl & ?). split; [done|]. split; [done|]. exists l. split; [|done].
        rewrite lookup_insert_ne; [done|]. intros Eb. destruct (Hfresh buf) as [_ E2]; [done|]. congruence.
      - intros i so' te' Hne Hi Hte'. rewrite lookup_insert_ne; [done|]. congruence. }
    assert (elsewhere te a a3) as Hew3 by (by apply elsewhere_advanced, elsewhere_io).
    destruct Hew3 as [? ? ? ? ? Hsk]. split; try done. intros i so' te' Hne Hi Hte'. cbn.
    rewrite lookup_insert_ne; [by eapply Hsk|]. intros Ei. destruct (Hfresh i) as [E1 _]; [cbn in Ei; lia|].
    congruence.
  - cbn. rewrite app_nil_r. by destruct (mngr a) as [[] ? ?].
Qed.

(** The acknowledgment opens the connection: one closure. *)
Lemma ack_round s n a t eh iph th sk :
  stands s n [] a → idle (set_tcb_m (mngr a) (set_io_ctx [] n)) → routed te d nh d' src_mac mac n →
  frame_for te eh iph th → half_open a t → first_ack th (numbers_of t) → awaits a sk →
  let buf := allocated a in
  ∃ s' a' t' pq,
    hear addr_of run_cb junk isn jp d eh iph th [] s = Ok ((), s', [OfNet (NetRead d 1500)]) ∧
    serving sk te buf s' n a' t' pq ∧ numbers_of t' = ack_numbers (numbers_of t) ∧
    awaits a' (S buf) ∧ elsewhere te a a'.
Proof.
  intros Hst Hidle Hrt Hframe Hho Hack Haw buf. pose proof Hframe as (_ & _ & Hth & _).
  destruct (ack_process a t th Hho Hth Hack) as (Hmgr & Hinv & pq & Hflow & Hu).
  set (t1 := established t) in *. set (evs := [EvPost TaskEstablished]) in *. set (a1 := advanced te t1 evs a) in *.
  destruct (frame_arrives addr_of run_cb junk isn te d nh d' src_mac mac s n a eh iph th [] t1 evs)
    as (s1 & E1 & Hst1); [done..|]. fold a1 in Hst1.
  destruct (takes_connection (set_tasks [] a1) t1 pq sk) as (a2 & k & E2 & Hserved & Haw2 & Hew & Hbase);
    try done; try by destruct Hho.
  { cbn. apply lookup_insert_eq. }
  { by destruct Haw; split. }
  destruct (app_steps addr_of jp s1 n te TaskEstablished [] a1 a2 [] Hst1 E2) as (s2 & R2 & Hst2).
  exists s2, a2, (set_on_data_receive [(echo_span buf, k)] t1), pq. split_and!.
  - apply (bind_run_Ok _ _ _ () s1 [OfNet (NetRead d 1500)] _ _ [] E1).
    eapply (until_idle_steps addr_of jp 7 s1 s2 [] s2 []); [by rewrite (proj1 Hst1)|exact R2|].
    apply until_idle_done. by rewrite (proj1 Hst2).
  - split; [exact Hst2| |exact Hserved].
    destruct Hidle as [_ Hidle]. split; [done|]. intros p. specialize (Hidle p). destruct p; try exact Hidle.
    cbn in Hidle |- *. rewrite Hbase. cbn. by rewrite Hidle.
  - done.
  - exact Haw2.
  - etransitivity; [|exact Hew]. by apply elsewhere_tasks, elsewhere_advanced.
Qed.
End Opening.

(** ** Segments that bring nothing *)

Section Quiet.
Context `{Hh : Host} {Sig : Type} `{Hsig : Signal ethernetv2_frame Sig}
  `{Hspec : !SignalSpec ethernetv2_frame Sig}.
Context {B : Type} `{Hc : CircularBuffer B} `{Hs : !CircularBufferSpec B}.
Context (addr_of : skbuff → Z) (run_cb : nat → endpoint → endpoint → M tcp tcp_event bool).
Context (junk : indeterminate) (isn jp : Z) (Hisn : is_u 32 isn).
Context (te : two_ends_t) (d : nat) (nh : rt_record) (d' : nat) (src_mac mac : mac_addr_t).
Implicit Types (n : netns Sig B) (s : program Sig B) (a : application B) (t : tcb_t B).

(** An acknowledgment without text, inside the window. *)
Definition pure_ack th (nb : numbers) : Prop :=
  data_offset th = 5 ∧ ACK th = 1 ∧ RST th = 0 ∧ SYN th = 0 ∧ FIN th = 0 ∧
  nb_rcv nb ≤ seq_no th < nb_rcv nb + rcv_window_init ∧ nb_rcv nb + rcv_window_init < 2 ^ 32 ∧
  nb_una nb ≤ ack_no th ≤ nb_nxt nb.
Definition pure_ack_numbers (nb : numbers) th : numbers :=
  mk_numbers (nb_rcv nb) (ack_no th) (nb_nxt nb) (nb_mss nb) (nb_wnd nb).

Lemma pure_ack_round s n a t pq sk buf eh iph th :
  serving sk te buf s n a t pq → routed te d nh d' src_mac mac n → frame_for te eh iph th →
  pure_ack th (numbers_of t) →
  ∃ s' a' t' pq',
    hear addr_of run_cb junk isn jp d eh iph th [] s = Ok ((), s', [OfNet (NetRead d 1500)]) ∧
    serving sk te buf s' n a' t' pq' ∧ numbers_of t' = pure_ack_numbers (numbers_of t) th ∧
    elsewhere te a a' ∧ same_server a a'.
Proof.
  intros [Hst Hidle [Ho Hends (Hpq & Hf & Hm) Hu Hreads Hnil Hspan]] Hrt Hframe
    (Hoff & HA & HR & HS & HF & Hseq & Hwrap & Hack).
  pose proof Hframe as (_ & _ & Hth & _). cbn [numbers_of nb_rcv nb_una nb_nxt] in *.
  pose proof Ho as [Hb Hinv Hest _]. pose proof (inv_ok _ Hinv) as Hok.
  set (t' := after_ack t pq (ack_no th)).
  destruct (after_ack_valid t pq (ack_no th) Hok Hpq Hf Hack) as (pq' & Hpq' & _ & Hun & Hu' & Hf').
  assert (∀ p, parse_segment (tp_skb p) = Ok (th, [], []) → process isn p t = Ok ((), t', [])) as Hproc
    by (intros p Hp; by apply (process_pure_ack isn p th [] t pq)).
  assert (∀ p, skb_wf (tp_skb p) → payload (tp_skb p) = tcp_header.produce_to_net th ++ [] →
    process isn p t = Ok ((), t', [])) as Hpay.
  { intros p Hw Hp. apply Hproc, (parse_payload _ th [] [] Hw Hp Hth); [by rewrite Hoff|done]. }
  assert (tcb_inv t') as Hinv'.
  { destruct (skb_new_Ok (tcp_header.produce_to_net th ++ []) 0) as (k0 & _ & Hw & Hp & _); [lia|].
    pose proof (process_wp isn (mk_tcp_packet PROTO (remote_ep_ t) (local_ep_ t) k0) t Hinv Hisn) as Hwp.
    unfold wp in Hwp. rewrite Hpay in Hwp; [apply Hwp|exact Hw|]. by rewrite drop_0 in Hp. }
  destruct (frame_arrives addr_of run_cb junk isn te d nh d' src_mac mac s n a eh iph th [] t' [])
    as (s' & E & Hst'); [done..| |].
  { intros p Hte Hw Hp. rewrite <- Hte in Hb |- *.
    by rewrite (mgr_process_run junk isn p t t' [] _ Hb (Hpay p Hw Hp)),
      (on_tcb_run _ t _ t' [] _ Hb (Hpay p Hw Hp)). }
  exists s', (advanced te t' [] a), t', pq'. split_and!.
  - apply (bind_run_Ok _ _ _ () s' [OfNet (NetRead d 1500)] _ _ [] E).
    apply until_idle_done. by rewrite (proj1 Hst').
  - split; [exact Hst'| |].
    + destruct Hidle as [_ Hidle]. split; [done|]. intros p. specialize (Hidle p).
      destruct p; try exact Hidle. cbn in Hidle |- *. by rewrite Hidle.
    + split; [by apply (open_advanced sk te a t)|done|by split_and!|by transitivity (unsent t pq)|done|done|done].
  - unfold numbers_of, pure_ack_numbers. cbn [nb_rcv nb_nxt nb_mss nb_wnd numbers_of]. f_equal. exact Hun.
  - by apply elsewhere_advanced.
  - done.
Qed.

(** A frame that the table ignores. *)
Lemma ignored_round s n a eh iph th rest :
  stands s n [] a → routed te d nh d' src_mac mac n → frame_for te eh iph th →
  table_takes junk isn te a th rest (mngr a) [] →
  ∃ s', hear addr_of run_cb junk isn jp d eh iph th rest s = Ok ((), s', [OfNet (NetRead d 1500)]) ∧
    stands s' n [] a.
Proof.
  intros Hst Hrt Hframe Hmgr.
  destruct (frame_ignored addr_of run_cb junk isn te d nh d' src_mac mac s n a eh iph th rest)
    as (s' & E & Hst'); [done..|].
  exists s'. split; [|done]. apply (bind_run_Ok _ _ _ () s' [OfNet (NetRead d 1500)] _ _ [] E).
  apply until_idle_done. by rewrite (proj1 Hst').
Qed.
End Quiet.

(** ** Segments the table ignores *)

Section Ignored.
Context `{Hh : Host} {B : Type} `{Hc : CircularBuffer B}.
Context (junk : indeterminate) (isn : Z) (te : two_ends_t).
Implicit Types (a : application B) (t : tcb_t B).

(** A segment of a known connection that is a reset, or lies outside the
    window; and one for an endpoint without connection and rule. *)
Definition in_window th (nb : numbers) (text : list byte) : bool :=
  let last := u32 (seq_no th + u16 (len text) - 1) in
  let edge := u32 (nb_rcv nb + rcv_window_init) in
  if u16 (len text) =? 0 then (nb_rcv nb <=? seq_no th) && (seq_no th <? edge)
  else ((nb_rcv nb <=? seq_no th) && bit edge) || ((nb_rcv nb <=? last) && (last <? edge)).

Lemma table_ignores a t th opts text :
  tcbs_ (mngr a) !! te = Some t → tcb_inv t → synchronized (state_ t) = true → tcp_header_ok th →
  4 * data_offset th = 20 + len opts → len text < 2 ^ 32 →
  RST th = 1 ∨ in_window th (numbers_of t) text = false →
  table_takes junk isn te a th (opts ++ text) (mngr a) [].
Proof.
  intros Hb Hinv Hsync Hth Hoff Hlen Hwhy p Hte Hw Hp.
  assert (parse_segment (tp_skb p) = Ok (th, opts, text)) as Hparse.
  { apply (parse_payload _ th opts text Hw Hp Hth Hoff).
    destruct Hth as (_ & _ & _ & _ & (? & _) & _). unfold is_u in *. lia. }
  assert (process isn p t = Ok ((), t, [])) as E.
  { destruct Hwhy as [HR|Hout].
    - eapply process_run; [exact Hparse|]. apply (reset_ignored isn th opts text t Hinv HR).
      intros Est. by rewrite Est in Hsync.
    - apply (process_outside isn p th opts text t Hsync Hparse).
      rewrite check_synchronized; [exact Hout|by apply inv_ok|done|]. unfold u16. ulia. }
  rewrite <- Hte in Hb. rewrite (mgr_process_run junk isn p t t [] _ Hb E), (on_tcb_run _ t _ t [] _ Hb E).
  cbn. rewrite app_nil_r, insert_id by done. by destruct (mngr a) as [[] ? ?].
Qed.

Lemma table_drops a th rest :
  tcbs_ (mngr a) !! te = None → find_rule (mngr a) te = None →
  table_takes junk isn te a th rest (mngr a) [].
Proof.
  intros Hb Hr p Hte Hw Hp. unfold mgr_process. by rewrite bind_get, Hte, Hb, Hr.
Qed.
End Ignored.
