(* ===== verification/EchoServer.v ===== *)
(** * The echo server, as its clients see it

    An abstract server keeps for each connection the five numbers a client
    can tell, and has a rule for each kind of frame: a SYN, the acknowledgment
    that opens the connection, the next text, acknowledgments without text,
    and what it ignores.
    The program of main.cpp, with its sockets, its connection table and all
    the layers below, implements it for any number of clients whose frames
    interleave. *)

From S2P Require Import Prelude Utils Skbuff Addr Headers TcpOptions CircularBuffer Tcb TcbFacts TcbSend.
From S2P Require Import TcbRecv TcbState TcbHandshake BaseProtocol Packets TcbManager Socket SocketFacts Echo.
From S2P Require Import Accept Tcp NeighCache RoutingTable Arp Ipv4 Ethernet Device Stack Layers Netns.
From S2P Require Import NetnsFacts NetnsRun Ping Program Prior ProgramFacts EchoFrame EchoOpen.

(** ** The abstract server *)

(** A frame of a client, the device that reads it, and what the program
    finds if it creates a connection: the initial sequence number it draws
    and what the memory of the block holds. *)
Record visit : Type := mk_visit {
  v_dev : nat; v_eth : ethernetv2_header_t; v_ip : ipv4_header_t; v_tcp : tcp_header_t;
  v_rest : list byte; v_isn : Z; v_junk : indeterminate;
}.
Definition ends (v : visit) : two_ends_t :=
  mk_two_ends (mk_endpoint (ip_src_addr (v_ip v)) (src_port (v_tcp v)))
    (mk_endpoint (ip_dst_addr (v_ip v)) (dst_port (v_tcp v))).

Inductive phase : Type :=
| Connecting (nb : numbers)     (** the SYN was answered *)
| Connected (nb : numbers).
Definition phase_numbers (ph : phase) : numbers :=
  match ph with Connecting nb | Connected nb => nb end.
Abbreviation connections := (gmap two_ends_t phase).

Inductive outcome : Type :=
| Answered (hdr : tcp_header_t)                       (** a segment without text goes back *)
| Silent                                              (** nothing does *)
| Echoed (hdr : tcp_header_t) (text : list byte).     (** a segment with the text does *)

Section Spec.
Context `{Hh : Host} (local_ep : endpoint).

Definition text_next (nb : numbers) (th : tcp_header_t) (text : list byte) : Prop :=
  data_offset th = 5 ∧ ACK th = 1 ∧ RST th = 0 ∧ SYN th = 0 ∧ FIN th = 0 ∧ seq_no th = nb_rcv nb ∧
  nb_una nb ≤ ack_no th ≤ nb_nxt nb ∧ nb_rcv nb + rcv_window_init < 2 ^ 32 ∧
  0 < len text ≤ echo_size ∧ len text ≤ nb_mss nb ∧ nb_nxt nb - ack_no th + len text ≤ nb_wnd nb ∧
  (host_endian = Big → Z.even (len text) = true).
Definition text_numbers (nb : numbers) (th : tcp_header_t) (text : list byte) : numbers :=
  mk_numbers (u32 (nb_rcv nb + len text)) (ack_no th) (u32 (nb_nxt nb + len text)) (nb_mss nb) (nb_wnd nb).
Definition echo_header (te : two_ends_t) (nb : numbers) (text : list byte) : tcp_header_t :=
  mk_tcp_header (addrv4_port (te_local_ep te)) (addrv4_port (te_remote_ep te)) (nb_nxt nb)
    (u32 (nb_rcv nb + len text)) 5 0 0 0 0 1 1 0 0 0 rcv_window_init 0 0.

Inductive spec_step (conns : connections) (v : visit) : connections → outcome → Prop :=
| SpecSyn os :
    te_local_ep (ends v) = local_ep → conns !! ends v = None → first_syn (v_junk v) (v_tcp v) (v_rest v) os →
    let nb := syn_numbers (v_junk v) (v_isn v) (v_tcp v) os in
    spec_step conns v (<[ends v := Connecting nb]> conns) (Answered (syn_ack_header (ends v) nb))
| SpecAck nb :
    conns !! ends v = Some (Connecting nb) → first_ack (v_tcp v) nb → v_rest v = [] →
    spec_step conns v (<[ends v := Connected (ack_numbers nb)]> conns) Silent
| SpecText nb :
    conns !! ends v = Some (Connected nb) → text_next nb (v_tcp v) (v_rest v) →
    spec_step conns v (<[ends v := Connected (text_numbers nb (v_tcp v) (v_rest v))]> conns)
      (Echoed (echo_header (ends v) nb (v_rest v)) (v_rest v))
| SpecPureAck nb :
    conns !! ends v = Some (Connected nb) → pure_ack (v_tcp v) nb → v_rest v = [] →
    spec_step conns v (<[ends v := Connected (pure_ack_numbers nb (v_tcp v))]> conns) Silent
| SpecIgnored ph opts text :             (** a reset, or a segment outside the window *)
    conns !! ends v = Some ph → v_rest v = opts ++ text → 4 * data_offset (v_tcp v) = 20 + len opts →
    len text < 2 ^ 32 → RST (v_tcp v) = 1 ∨ in_window (v_tcp v) (phase_numbers ph) text = false →
    spec_step conns v conns Silent
| SpecOther :                            (** for another endpoint *)
    te_local_ep (ends v) ≠ local_ep → spec_step conns v conns Silent.

Inductive spec_run : connections → list visit → connections → list outcome → Prop :=
| SpecNil conns : spec_run conns [] conns []
| SpecCons conns v conns1 out vs conns2 outs :
    spec_step conns v conns1 out → spec_run conns1 vs conns2 outs →
    spec_run conns (v :: vs) conns2 (out :: outs).
End Spec.

(** ** The program *)

(** The output of an operation, for its caller. *)
Definition heard {S E A} (m : M S E A) : M S E (list E) := λ s,
  match m s with Ok (_, s', es) => Ok (es, s', es) | Fault f => Fault f end.

Section Server.
Context `{Hh : Host} {Sig : Type} `{Hsig : Signal ethernetv2_frame Sig}
  `{Hspec : !SignalSpec ethernetv2_frame Sig}.
Context {B : Type} `{Hc : CircularBuffer B} `{Hs : !CircularBufferSpec B}.
Context (addr_of : skbuff → Z) (run_cb : nat → endpoint → endpoint → M tcp tcp_event bool).
Context (Heven : ∀ skb, Z.even (addr_of skb) = true).
Context (jp : Z) (local_ep : endpoint).
Implicit Types (n : netns Sig B) (s : program Sig B) (a : application B) (t : tcb_t B).
Implicit Types (te : two_ends_t) (conns : connections).
Abbreviation PM := (M (program Sig B) prog_event).

(** The writes that were started complete. *)
Fixpoint complete (es : list prog_event) : PM unit :=
  match es with
  | [] => mret ()
  | OfNet (NetWrite d _) :: es => _ ← prog_act addr_of run_cb (ProgWriteDone d false); complete es
  | _ :: es => complete es
  end.

(** A frame arrives, the closures run, and the writes complete. *)
Definition attend (v : visit) : PM unit :=
  es ← heard (hear addr_of run_cb (v_junk v) (v_isn v) jp (v_dev v) (v_eth v) (v_ip v) (v_tcp v) (v_rest v));
  complete es.
Fixpoint attend_all (vs : list visit) : PM unit :=
  match vs with [] => mret () | v :: vs => _ ← attend v; attend_all vs end.

(** The server is started, and has its clients. *)
Definition serve (vs : list visit) : PM unit :=
  _ ← prog_act addr_of run_cb (ProgApp (OpServe jp local_ep));
  attend_all vs.

(** A well-formed frame with a segment, from a client to which there is a
    route and whose packets nobody intercepts. *)
Definition fits n v : Prop :=
  frame_for (ends v) (v_eth v) (v_ip v) (v_tcp v) ∧
  is_u 32 (v_isn v) ∧ ind_ok (v_junk v) ∧
  ∃ nh d' src_mac mac, routed (ends v) (v_dev v) nh d' src_mac mac n.

(** What leaves for a client, on which device; and what is seen of a visit. *)
Definition leaves n te hdr (text : list byte) (d' : nat) (frame : list byte) : Prop :=
  ∃ nh src_mac mac, way_out n (addrv4 (te_remote_ep te)) nh d' src_mac mac ∧
    carried te src_mac mac n hdr text frame.
Definition shown n v (out : outcome) (es : list prog_event) : Prop :=
  match out with
  | Answered hdr => ∃ d' frame, es = [OfNet (NetRead (v_dev v) 1500); OfNet (NetWrite d' frame)] ∧
      leaves n (ends v) hdr [] d' frame
  | Silent => es = [OfNet (NetRead (v_dev v) 1500)]
  | Echoed hdr text => ∃ d' frame,
      es = [OfNet (NetRead (v_dev v) 1500); OfApp (AppPrint text); OfNet (NetWrite d' frame)] ∧
      leaves n (ends v) hdr text d' frame
  end.

(** The namespace after a visit: only the identification of the datagrams has
    moved. *)
Definition moved_on n (out : outcome) : netns Sig B :=
  match out with Silent => n | _ => one_sent n end.
Fixpoint all_shown n (vs : list visit) (outs : list outcome) (ess : list (list prog_event)) : Prop :=
  match vs, outs, ess with
  | [], [], [] => True
  | v :: vs, out :: outs, es :: ess => shown n v out es ∧ all_shown (moved_on n out) vs outs ess
  | _, _, _ => False
  end.

(** ** The two states *)

Context (acc : nat).

Definition conn_ok a te (ph : option phase) : Prop :=
  match ph with
  | None => tcbs_ (mngr a) !! te = None
  | Some (Connecting nb) => ∃ t, half_open acc te a t ∧ numbers_of t = nb
  | Some (Connected nb) => ∃ sk buf t pq, served sk te buf a t pq ∧ numbers_of t = nb
  end.

Record hosts s n a conns : Prop := {
  ht_stands : stands s n [] a;
  ht_idle : idle (set_tcb_m (mngr a) (set_io_ctx [] n));
  ht_awaits : ∃ sk, awaits acc a sk;
  ht_admits : ∀ te, te_local_ep te = local_ep → admits acc te a;
  ht_conns : ∀ te, te_local_ep te = local_ep → conn_ok a te (conns !! te);
  ht_others : ∀ te, te_local_ep te ≠ local_ep →
    conns !! te = None ∧ tcbs_ (mngr a) !! te = None ∧ find_rule (mngr a) te = None;
}.

Lemma hosts_known s n a conns te ph :
  hosts s n a conns → conns !! te = Some ph → te_local_ep te = local_ep ∧ conn_ok a te (Some ph).
Proof.
  intros Hh' Hph. destruct (decide (te_local_ep te = local_ep)) as [Hloc|Hne].
  - split; [done|]. rewrite <- Hph. by apply Hh'.
  - destruct (ht_others _ _ _ _ Hh' te Hne) as [E _]. congruence.
Qed.

(** What one connection does leaves the others as they are. *)
Lemma conn_elsewhere te te' a a' ph :
  te' ≠ te → elsewhere te a a' → conn_ok a te' ph → conn_ok a' te' ph.
Proof.
  intros Hne [Hb Hr Hcn Hio Hsp Hso]. destruct ph as [[nb|nb]|]; cbn.
  - intros (t & [] & Hnb). exists t. split; [|done]. split; [by rewrite Hb|try done..]. by rewrite Hcn.
  - intros (sk & buf & t & pq & [[Hbl ? ? (so & Hsk & Hte)] ? ? ? (k & ? & ?) ? ?] & Hnb).
    exists sk, buf, t, pq. split; [|done]. split; try done; eauto.
    split; [by rewrite Hb|done|done|]. exists so. split; [|done]. by eapply Hso.
  - by rewrite Hb.
Qed.
Lemma admits_elsewhere te te' a a' : elsewhere te a a' → admits acc te' a → admits acc te' a'.
Proof.
  intros [_ Hr Hcn _ _ _] (r & Hf & Hk). exists r. unfold find_rule in *. by rewrite Hr, Hcn.
Qed.
Lemma awaits_same a a' sk : same_server a a' → awaits acc a sk → awaits acc a' sk.
Proof.
  intros (Hso & Hac & Hal & Hmem) [? ? Hfresh]. split; [by rewrite Hac|by rewrite Hso|].
  rewrite Hal, Hso. intros i Hi. destruct (Hfresh i Hi). auto.
Qed.

Lemma hosts_step s n a conns te s' n' a' ph :
  hosts s n a conns → te_local_ep te = local_ep → elsewhere te a a' → stands s' n' [] a' →
  idle (set_tcb_m (mngr a') (set_io_ctx [] n')) → (∃ sk, awaits acc a' sk) → conn_ok a' te (Some ph) →
  hosts s' n' a' (<[te := ph]> conns).
Proof.
  intros [_ _ _ Hadm Hconns Hothers] Hloc Hew Hst Hidle Haw Hph. split; [done..| | |].
  - intros te' Hte'. eapply admits_elsewhere; eauto.
  - intros te' Hte'. destruct (decide (te' = te)) as [->|Hne]; [by rewrite lookup_insert_eq|].
    rewrite lookup_insert_ne by done. eapply conn_elsewhere; eauto.
  - intros te' Hte'. destruct (Hothers te' Hte') as (Hno & Hb & Hr). rewrite lookup_insert_ne by congruence.
    split; [done|]. unfold find_rule in *. rewrite (ew_rules _ _ _ Hew), (ew_blocks _ _ _ Hew) by congruence. done.
Qed.

(** A visit that changes nothing. *)
Lemma hosts_same s n a conns s' : hosts s n a conns → stands s' n [] a → hosts s' n a conns.
Proof. intros [] Hst. by split. Qed.

Lemma conn_block a te ph :
  conn_ok a te (Some ph) →
  ∃ t, tcbs_ (mngr a) !! te = Some t ∧ tcb_inv t ∧ synchronized (state_ t) = true ∧
    numbers_of t = phase_numbers ph.
Proof.
  destruct ph as [nb|nb]; cbn.
  - intros (t & [? ? Hst] & ?). exists t. by rewrite Hst.
  - intros (sk & buf & t & pq & [[? ? Hst _]] & ?). exists t. by rewrite Hst.
Qed.

(** ** A visit *)

(** The closures run, and then the writes complete without a new one. *)
Definition attends v s s' es : Prop :=
  ∃ s1, hear addr_of run_cb (v_junk v) (v_isn v) jp (v_dev v) (v_eth v) (v_ip v) (v_tcp v) (v_rest v) s =
      Ok ((), s1, es) ∧ complete es s1 = Ok ((), s', []).

Lemma attend_run v s s' es : attends v s s' es → attend v s = Ok ((), s', es).
Proof.
  intros (s1 & E & W). unfold attend, heard. unfold mbind, M_bind. rewrite E, W. by rewrite app_nil_r.
Qed.

Lemma visit_syn s n a conns v os :
  hosts s n a conns → fits n v → te_local_ep (ends v) = local_ep → conns !! ends v = None → first_syn (v_junk v) (v_tcp v) (v_rest v) os →
  let nb := syn_numbers (v_junk v) (v_isn v) (v_tcp v) os in
  ∃ s' a' es, attends v s s' es ∧ shown n v (Answered (syn_ack_header (ends v) nb)) es ∧
    hosts s' (one_sent n) a' (<[ends v := Connecting nb]> conns).
Proof.
  intros Hh' (Hframe & Hisn & Hjunk & nh & d' & src_mac & mac & Hrt) Hloc Hnone Hsyn nb.
  pose proof Hh' as [Hst Hidle (sk & Haw) Hadm Hconns _].
  pose proof (Hconns _ Hloc) as Hc0. rewrite Hnone in Hc0.
  destruct (syn_round addr_of run_cb Heven (v_junk v) (v_isn v) jp Hjunk Hisn acc (ends v) (v_dev v)
    nh d' src_mac mac s n a (v_eth v) (v_ip v) (v_tcp v) (v_rest v) os)
    as (s1 & s2 & a2 & t & frame & E & W & Hcar & Hst2 & Hidle2 & Hho & Hnb & Hew & Hsame); [by auto..|].
  exists s2, a2, [OfNet (NetRead (v_dev v) 1500); OfNet (NetWrite d' frame)]. split_and!.
  - exists s1. split; [exact E|]. cbn [complete]. exact (bind_run_Ok _ _ _ () s2 [] () s2 [] W eq_refl).
  - exists d', frame. split; [done|]. exists nh, src_mac, mac. split; [apply Hrt|exact Hcar].
  - eapply hosts_step; [exact Hh'|exact Hloc|exact Hew|done|done| |by exists t].
    exists sk. by eapply awaits_same.
Qed.

Lemma visit_ack s n a conns v nb :
  hosts s n a conns → fits n v → conns !! ends v = Some (Connecting nb) → first_ack (v_tcp v) nb →
  v_rest v = [] →
  ∃ s' a' es, attends v s s' es ∧ shown n v Silent es ∧
    hosts s' n a' (<[ends v := Connected (ack_numbers nb)]> conns).
Proof.
  intros Hh' (Hframe & Hisn & Hjunk & nh & d' & src_mac & mac & Hrt) Hnb Hack Hrest.
  pose proof Hh' as [Hst Hidle (sk & Haw) _ _ _].
  destruct (hosts_known s n a conns _ _ Hh' Hnb) as [Hloc (t & Hho & <-)].
  destruct (ack_round addr_of run_cb (v_junk v) (v_isn v) jp Hisn acc (ends v) (v_dev v)
    nh d' src_mac mac s n a t (v_eth v) (v_ip v) (v_tcp v) sk)
    as (s1 & a1 & t1 & pq & E & [Hst1 Hidle1 Hserved] & Hnb1 & Haw1 & Hew); [by auto..|].
  exists s1, a1, [OfNet (NetRead (v_dev v) 1500)]. split_and!; [|done|].
  - exists s1. by rewrite Hrest.
  - eapply hosts_step; [exact Hh'|exact Hloc|exact Hew|done|done|by eexists|]. by exists sk, (allocated a), t1, pq.
Qed.

Lemma visit_text s n a conns v nb :
  hosts s n a conns → fits n v → conns !! ends v = Some (Connected nb) →
  text_next nb (v_tcp v) (v_rest v) →
  ∃ s' a' es, attends v s s' es ∧
    shown n v (Echoed (echo_header (ends v) nb (v_rest v)) (v_rest v)) es ∧
    hosts s' (one_sent n) a' (<[ends v := Connected (text_numbers nb (v_tcp v) (v_rest v))]> conns).
Proof.
  intros Hh' (Hframe & Hisn & Hjunk & nh & d' & src_mac & mac & Hrt) Hnb Htext.
  pose proof Hh' as [Hst Hidle (sk & Haw) _ _ _].
  destruct (hosts_known s n a conns _ _ Hh' Hnb) as [Hloc (sk' & buf & t & pq & Hserved & <-)].
  destruct (echo_round addr_of run_cb Heven (v_junk v) (v_isn v) jp Hisn sk' (ends v) buf (v_dev v)
    nh d' src_mac mac s n a t pq (v_eth v) (v_ip v) (v_tcp v) (v_rest v))
    as (s1 & s2 & a2 & t2 & pq2 & frame & E & W & Hans & Hfol & [Hst2 Hidle2 Hserved2] & Hew & Hsame);
    [done..|].
  exists s2, a2, [OfNet (NetRead (v_dev v) 1500); OfApp (AppPrint (v_rest v)); OfNet (NetWrite d' frame)].
  split_and!.
  - exists s1. split; [exact E|]. cbn [complete]. exact (bind_run_Ok _ _ _ () s2 [] () s2 [] W eq_refl).
  - exists d', frame. split; [done|]. exists nh, src_mac, mac. split; [apply Hrt|exact Hans].
  - eapply hosts_step; [exact Hh'|exact Hloc|exact Hew|done|done|exists sk; by eapply awaits_same|].
    exists sk', buf, t2, pq2. split; [done|]. destruct Hfol as (F1 & F2 & F3 & F4 & F5).
    unfold numbers_of at 1. by rewrite F1, F2, F3, F4, F5.
Qed.

Lemma visit_pure_ack s n a conns v nb :
  hosts s n a conns → fits n v → conns !! ends v = Some (Connected nb) → pure_ack (v_tcp v) nb →
  v_rest v = [] →
  ∃ s' a' es, attends v s s' es ∧ shown n v Silent es ∧
    hosts s' n a' (<[ends v := Connected (pure_ack_numbers nb (v_tcp v))]> conns).
Proof.
  intros Hh' (Hframe & Hisn & Hjunk & nh & d' & src_mac & mac & Hrt) Hnb Hack Hrest.
  pose proof Hh' as [Hst Hidle (sk & Haw) _ _ _].
  destruct (hosts_known s n a conns _ _ Hh' Hnb) as [Hloc (sk' & buf & t & pq & Hserved & <-)].
  destruct (pure_ack_round addr_of run_cb (v_junk v) (v_isn v) jp Hisn (ends v) (v_dev v) nh d' src_mac mac
    s n a t pq sk' buf (v_eth v) (v_ip v) (v_tcp v))
    as (s1 & a1 & t1 & pq1 & E & [Hst1 Hidle1 Hserved1] & Hnb1 & Hew & Hsame); [done..|].
  exists s1, a1, [OfNet (NetRead (v_dev v) 1500)]. split_and!; [|done|].
  - exists s1. by rewrite Hrest.
  - eapply hosts_step; [exact Hh'|exact Hloc|exact Hew|done|done|exists sk; by eapply awaits_same|].
    by exists sk', buf, t1, pq1.
Qed.

Lemma visit_ignored s n a conns v :
  hosts s n a conns → fits n v →
  table_takes (v_junk v) (v_isn v) (ends v) a (v_tcp v) (v_rest v) (mngr a) [] →
  ∃ s' a' es, attends v s s' es ∧ shown n v Silent es ∧ hosts s' n a' conns.
Proof.
  intros Hh' (Hframe & Hisn & Hjunk & nh & d' & src_mac & mac & Hrt) Hmgr.
  destruct (ignored_round addr_of run_cb (v_junk v) (v_isn v) jp (ends v) (v_dev v) nh d' src_mac mac
    s n a (v_eth v) (v_ip v) (v_tcp v) (v_rest v)) as (s1 & E & Hst1); [by destruct Hh'|done..|].
  exists s1, a, [OfNet (NetRead (v_dev v) 1500)]. split_and!; [|done|by eapply hosts_same].
  by exists s1.
Qed.

Lemma visit_step s n a conns v conns' out :
  hosts s n a conns → fits n v → spec_step local_ep conns v conns' out →
  ∃ s' a' es, attends v s s' es ∧ shown n v out es ∧ hosts s' (moved_on n out) a' conns'.
Proof.
  intros Hh' Hv [os|nb|nb|nb|ph opts text Hph Hrest Hoff Hlen Hwhy|Hne].
  - by apply (visit_syn s n a conns v).
  - by apply (visit_ack s n a conns v).
  - by apply (visit_text s n a conns v).
  - by apply (visit_pure_ack s n a conns v).
  - apply (visit_ignored s n a conns v Hh' Hv). rewrite Hrest.
    destruct (hosts_known s n a conns _ _ Hh' Hph) as [_ Hok].
    destruct (conn_block a _ _ Hok) as (t & Hb & Hinv & Hsync & Hnb). rewrite <- Hnb in Hwhy.
    destruct Hv as ((_ & _ & Hth & _) & _). by eapply table_ignores.
  - apply (visit_ignored s n a conns v Hh' Hv). apply table_drops; by apply Hh'.
Qed.

(** [Forall] is about the first namespace, which is where the visits start. *)
Lemma fits_moved n v out : fits n v → fits (moved_on n out) v.
Proof. by destruct out. Qed.

Lemma attend_all_run s n a conns vs conns' outs :
  hosts s n a conns → spec_run local_ep conns vs conns' outs → Forall (fits n) vs →
  ∃ s' n' a' ess, attend_all vs s = Ok ((), s', concat ess) ∧ all_shown n vs outs ess ∧
    hosts s' n' a' conns'.
Proof.
  intros Hh' Hrun. revert s n a Hh'.
  induction Hrun as [conns|conns v conns1 out vs conns2 outs Hstep _ IH]; intros s n a Hh' Hfits.
  { by exists s, n, a, []. }
  apply Forall_cons in Hfits as [Hv Hfits].
  destruct (visit_step s n a conns v conns1 out Hh' Hv Hstep) as (s1 & a1 & es & E & Hsh & Hh1).
  destruct (IH s1 (moved_on n out) a1 Hh1) as (s2 & n2 & a2 & ess & E2 & Hsh2 & Hh2).
  { eapply Forall_impl; [exact Hfits|]. intros v'. apply fits_moved. }
  exists s2, n2, a2, (es :: ess). split; [|done].
  cbn [attend_all concat]. exact (bind_run_Ok _ _ _ () s1 es () s2 _ (attend_run _ _ _ _ E) E2).
Qed.
End Server.

(** ** The start *)

Section Start.
Context `{Hh : Host} {Sig : Type} `{Hsig : Signal ethernetv2_frame Sig}
  `{Hspec : !SignalSpec ethernetv2_frame Sig}.
Context {B : Type} `{Hc : CircularBuffer B} `{Hs : !CircularBufferSpec B}.
Context (addr_of : skbuff → Z) (run_cb : nat → endpoint → endpoint → M tcp tcp_event bool).
Context (Heven : ∀ skb, Z.even (addr_of skb) = true).
Context (jp : Z) (local_ep : endpoint).
Implicit Types (n : netns Sig B) (s : program Sig B) (a : application B).

(** Nothing is pending, and there is no connection and no other rule. *)
Record blank s n a : Prop := {
  bl_stands : stands s n [] a;
  bl_idle : idle (set_tcb_m (mngr a) (set_io_ctx [] n));
  bl_taken : ∀ te, tcbs_ (mngr a) !! te = None ∧ find_rule (mngr a) te = None;
  bl_fresh : ∀ i, (allocated a ≤ i)%nat → sockets a !! i = None ∧ memory a !! i = None;
}.

Lemma find_last {A} (f : A → bool) l x :
  List.find f l = None → List.find f (l ++ [x]) = if f x then Some x else None.
Proof. intros Hn. induction l as [|y l IH]; cbn in *; [done|]. destruct (f y); [done|]. by apply IH. Qed.

Lemma serve_starts s n a :
  blank s n a →
  ∃ s' a', prog_act addr_of run_cb (ProgApp (OpServe jp local_ep)) s = Ok ((), s', []) ∧
    hosts local_ep (allocated a) s' n a' ∅.
Proof.
  intros [Hst Hidle Htaken Hfresh]. set (acc := allocated a). cbn [prog_act run_app_op].
  set (mt := λ _ ep : endpoint, bool_decide (local_ep = ep)).
  set (m1 := set_rules (rules_ (mngr a) ++ [mk_rule mt (length (conn_cbs a))]) (mngr a)).
  set (a1 := set_mngr m1 (set_conn_cbs (conn_cbs a ++ [AcceptorRule acc])
               (set_acceptors (<[acc := []]> (acceptors a)) (set_allocated (S acc) (set_tasks [] a))))).
  assert (acceptors a1 !! acc = Some []) as Hacc1 by apply lookup_insert_eq.
  pose proof (do_accept_run jp acc [] a1 Hacc1) as Edo. cbv zeta in Edo.
  match type of Edo with _ = Ok (_, ?x, _) => set (a2 := x) in Edo end.
  assert (main_serve jp local_ep (set_tasks [] a) = Ok ((), a2, [])) as E.
  { unfold main_serve.
    rewrite (bind_silent _ _ _ acc (set_allocated (S acc) (set_tasks [] a))) by done.
    by rewrite (bind_silent _ _ _ () a1). }
  destruct (app_calls _ s n [] a () a2 [] Hst E) as (s' & Ecall & Hst'). exists s', a2. split; [exact Ecall|].
  split.
  - exact Hst'.
  - destruct Hidle as [_ Hidle]. split; [done|]. intros p. specialize (Hidle p). by destruct p.
  - exists (S acc). split; [apply lookup_insert_eq|eexists; split; [apply lookup_insert_eq|done]|].
    intros i Hi. cbn in Hi |- *. destruct (Hfresh i) as [E1 E2]; [unfold acc in *; lia|].
    rewrite lookup_insert_ne by lia. done.
  - intros te Hte. destruct (Htaken te) as [_ Hnone]. exists (mk_rule mt (length (conn_cbs a))).
    split; [|cbn; by rewrite lookup_app_r, Nat.sub_diag by lia].
    unfold find_rule. cbn. rewrite find_last by exact Hnone.
    unfold rule_matches, mt. cbn. by rewrite bool_decide_eq_true_2.
  - intros te Hte. cbn. by apply Htaken.
  - intros te Hte. destruct (Htaken te) as [Hb Hnone]. split; [done|]. split; [exact Hb|].
    unfold find_rule. cbn. rewrite find_last by exact Hnone.
    unfold rule_matches, mt. cbn. by rewrite bool_decide_eq_false_2 by congruence.
Qed.

(** C6: the echo server implements its specification.  The program of main,
    started on a namespace in which nothing is pending, takes the visits of
    any number of clients, in any order that the abstract server allows for
    each of them: frames with a SYN, with the acknowledgment that opens the
    connection, and with text, of different connections interleaved, and
    among them pure acknowledgments and segments that are ignored.  No
    handler faults.  For each visit the device's next read is started; a SYN
    is answered by one frame with the SYN,ACK of the abstract server, text is
    printed and answered by one frame with the segment of the abstract server
    that has the same text, both addressed to this client, with valid
    checksums, on the device of the route to it; acknowledgments, resets,
    segments outside the window and frames for other endpoints are answered
    by nothing.  At the end the connections are those of the abstract server,
    with its numbers, and the server waits for more. *)
Theorem echo_server_refines_spec s n a vs conns outs :
  blank s n a → spec_run local_ep ∅ vs conns outs → Forall (fits n) vs →
  ∃ s' ess n' a',
    serve addr_of run_cb jp local_ep vs s = Ok ((), s', concat ess) ∧ all_shown n vs outs ess ∧
    hosts local_ep (allocated a) s' n' a' conns.
Proof.
  intros Hblank Hrun Hfits. destruct (serve_starts s n a Hblank) as (s1 & a1 & E1 & Hh1).
  destruct (attend_all_run addr_of run_cb Heven jp local_ep (allocated a) s1 n a1 ∅ vs conns outs)
    as (s2 & n2 & a2 & ess & E2 & Hsh & Hh2); [done..|].
  exists s2, ess, n2, a2. split; [|done]. unfold serve.
  exact (bind_run_Ok _ _ _ () s1 [] () s2 _ E1 E2).
Qed.
End Start.

(** ** Two clients

    On the namespace of [Ping], behind its gateway: both connect, the second
    is accepted first, and their texts cross; the first acknowledges its echo,
    the second resets its connection, which the server ignores, and then
    knocks at another port. *)

Definition test_local : endpoint := mk_endpoint (Ipv4 167772161) 80.
Definition test_visit (port lport : Z) (th : tcp_header_t) (rest : list byte) : visit :=
  mk_visit 0 test_eth
    (mk_ipv4_header 4 5 0 (40 + len rest) 77 0 1 0 0 64 PROTO 0 (Ipv4 167772162) (Ipv4 167772161))
    (mk_tcp_header port lport (seq_no th) (ack_no th) (data_offset th) 0 0 0 0 (ACK th) 0 (RST th) (SYN th) 0
       1000 0 0)
    rest 5000 test_junk.
Definition test_syn (port : Z) : visit := test_visit port 80 test_syn_hdr [Byte.x02; Byte.x04; Byte.x05; Byte.xb4].
Definition test_ack (port : Z) (text : list byte) : visit := test_visit port 80 test_ack_hdr text.
Definition test_pure : visit := test_visit 4096 80 (test_header 1003 5003 [1]) [].
Definition test_reset : visit := test_visit 4097 80 (test_header 1002 5002 [1; 1]) [].
Definition test_knock : visit := test_visit 4097 81 test_syn_hdr [Byte.x02; Byte.x04; Byte.x05; Byte.xb4].
Definition test_visits : list visit :=
  [test_syn 4096; test_syn 4097; test_ack 4097 []; test_ack 4096 []; test_ack 4096 [Byte.x41; Byte.x42];
   test_ack 4097 [Byte.x43]; test_pure; test_reset; test_knock].
Definition test_blank_app : application reserve_buffer :=
  mk_app (mk_manager (mk_base true []) [] ∅) [] [] [] ∅ ∅ ∅ 0.
Definition test_blank : program (list ethernetv2_frame) reserve_buffer :=
  mk_program (set_tcb_m (mngr test_blank_app) test_net) test_blank_app.

(** What the abstract server makes of them. *)
Definition test_numbers (text : list byte) : numbers :=
  mk_numbers (1001 + len text) 5001 (5001 + len text) 1460 1000.
Definition test_outs : list outcome :=
  let te port := ends (test_syn port) in
  let nb := mk_numbers 1001 5000 5001 1460 1000 in
  [Answered (syn_ack_header (te 4096) nb); Answered (syn_ack_header (te 4097) nb); Silent; Silent;
   Echoed (echo_header (te 4096) (test_numbers []) [Byte.x41; Byte.x42]) [Byte.x41; Byte.x42];
   Echoed (echo_header (te 4097) (test_numbers []) [Byte.x43]) [Byte.x43]; Silent; Silent; Silent].
Definition test_conns : connections :=
  let te port := ends (test_syn port) in
  let nb := mk_numbers 1001 5000 5001 1460 1000 in
  <[te 4096 := Connected (mk_numbers 1003 5003 5003 1460 1000)]>
  (<[te 4097 := Connected (test_numbers [Byte.x43])]>
    (<[te 4096 := Connected (test_numbers [Byte.x41; Byte.x42])]>
      (<[te 4096 := Connected (test_numbers [])]> (<[te 4097 := Connected (test_numbers [])]>
        (<[te 4097 := Connecting nb]> (<[te 4096 := Connecting nb]> ∅)))))).

Lemma test_spec_run : spec_run (Hh := test_host Little) test_local ∅ test_visits test_conns test_outs.
Proof.
  unfold test_visits, test_conns, test_outs. cbv zeta.
  eapply SpecCons; [eapply (SpecSyn _ _ (test_syn 4096) [mss 1460]); [done|done|by split_and!]|].
  eapply SpecCons; [eapply (SpecSyn _ _ (test_syn 4097) [mss 1460]); [done|by vm_compute|by split_and!]|].
  eapply SpecCons; [eapply (SpecAck _ _ (test_ack 4097 [])); [by vm_compute|by split_and!|done]|].
  eapply SpecCons; [eapply (SpecAck _ _ (test_ack 4096 [])); [by vm_compute|by split_and!|done]|].
  eapply SpecCons; [eapply (SpecText _ _ (test_ack 4096 [Byte.x41; Byte.x42])); [by vm_compute|by split_and!]|].
  eapply SpecCons; [eapply (SpecText _ _ (test_ack 4097 [Byte.x43])); [by vm_compute|by split_and!]|].
  eapply SpecCons; [eapply (SpecPureAck _ _ test_pure); [by vm_compute|by split_and!|done]|].
  eapply SpecCons; [eapply (SpecIgnored _ _ test_reset (Connected (test_numbers [Byte.x43])) [] []);
    [by vm_compute|done|done|done|by left]|].
  eapply SpecCons; [by apply (SpecOther _ _ test_knock)|apply SpecNil].
Qed.

Lemma test_is_blank : blank test_blank test_net test_blank_app.
Proof. split; [by split|split; [done|by intros []]|by split|by split]. Qed.

Lemma test_visit_fits port lport th rest :
  is_u 16 port → is_u 16 lport → is_u 32 (seq_no th) → is_u 32 (ack_no th) → is_u 4 (data_offset th) →
  is_u 1 (ACK th) → is_u 1 (RST th) → is_u 1 (SYN th) → len rest < 1000 →
  fits test_net (test_visit port lport th rest).
Proof.
  intros Hport Hlport Hseq Hack Hoff HA HR HS Hlen. assert (0 ≤ len rest) by lia. unfold is_u in *.
  assert (ind_ok test_junk) by (vm_compute; by split_and!).
  split; [|split; [done|split; [done|]]].
  - unfold frame_for, eth_header_ok, ipv4_header_ok, tcp_header_ok, ipv4_ok, is_u, test_visit, test_eth, PROTO, IP_PROTO.
    cbn -[Z.of_nat Z.add Z.pow]. change (2 ^ 16) with 65536 in *.
    split_and!; try reflexivity; try lia; done.
  - exists test_route, 0%nat, (test_mac Byte.x02), (test_mac Byte.x08).
    split; [unfold way_out; split_and!; reflexivity|]. split; [eexists; reflexivity|].
    split; [reflexivity|apply List.Forall_nil].
Qed.

Lemma echo_server_refines_spec_witness :
  ∃ s' ess n' a',
    serve (Hh := test_host Little) (λ _, 64) (λ _ _ _, mret false) 0 test_local test_visits test_blank =
      Ok ((), s', concat ess) ∧
    all_shown (Hh := test_host Little) test_net test_visits test_outs ess ∧
    hosts test_local 0 s' n' a' test_conns.
Proof.
  refine (echo_server_refines_spec (Hh := test_host Little) (λ _, 64) (λ _ _ _, mret false) _ 0
    test_local test_blank test_net test_blank_app test_visits test_conns test_outs
    test_is_blank test_spec_run _).
  - reflexivity.
  - unfold test_visits. repeat apply List.Forall_cons; try apply List.Forall_nil;
      apply test_visit_fits; by (vm_compute; split_and!) || reflexivity.
Defined.
