(* ===== verification/ClientOpen.v ===== *)
(** * A program connects

    [socket::async_connect] in a whole program: the SYN leaves in a frame,
    the SYN,ACK of the peer comes in one, the acknowledgment leaves while the
    callback of the application is called, and the socket is connected. *)

From S2P Require Import Prelude Utils Skbuff Addr Headers TcpOptions CircularBuffer Tcb TcbFacts TcbSend.
From S2P Require Import TcbRecv TcbState TcbHandshake BaseProtocol Packets TcbManager Socket SocketFacts Echo.
From S2P Require Import Accept Tcp NeighCache RoutingTable Arp Ipv4 Ethernet Device Stack Layers Netns.
From S2P Require Import NetnsFacts NetnsRun Ping Program Prior ProgramFacts EchoFrame EchoOpen.

Section Client.
Context `{Hh : Host} {Sig : Type} `{Hsig : Signal ethernetv2_frame Sig}
  `{Hspec : !SignalSpec ethernetv2_frame Sig}.
Context {B : Type} `{Hc : CircularBuffer B} `{Hs : !CircularBufferSpec B}.
Context (addr_of : skbuff → Z) (run_cb : nat → endpoint → endpoint → M tcp tcp_event bool).
Context (Heven : ∀ skb, Z.even (addr_of skb) = true).
Context (junk : indeterminate) (isn jp : Z) (Hjunk : ind_ok junk) (Hisn : is_u 32 isn).
(** The socket and the number of its callback; the connection; the device
    that is read, and how packets for the peer leave. *)
Context (sk k : nat) (te : two_ends_t) (d : nat).
Context (nh : rt_record) (d' : nat) (src_mac mac : mac_addr_t).
Implicit Types (n : netns Sig B) (s : program Sig B) (a : application B) (t : tcb_t B).

(** The SYN was sent, and the socket waits for the answer. *)
Record syn_sent a t : Prop := {
  ss_block : tcbs_ (mngr a) !! te = Some t;
  ss_inv : tcb_inv t;
  ss_state : state_ t = kTCPSynSent;
  ss_next : next_state_ t = kTCPEstablished;
  ss_ends : remote_ep_ t = te_remote_ep te ∧ local_ep_ t = te_local_ep te;
  ss_waits : on_data_receive_ t = [];
  ss_conn : conn_cbs a !! on_connection_established_ t = Some (SocketConnected sk (UserDone k));
  ss_socket : is_Some (sockets a !! sk);
}.

(** ** The SYN *)

(** The call: the first port that the generator draws is free. *)
Definition connect (ports : list Z) (moved : option nat → option nat) : prog_action :=
  ProgApp (OpConnect junk isn (addrv4_port (te_local_ep te) :: ports) moved sk (te_remote_ep te)
    (addrv4 (te_local_ep te)) (UserDone k)).
Definition connect_header : tcp_header_t :=
  mk_tcp_header (addrv4_port (te_local_ep te)) (addrv4_port (te_remote_ep te)) isn 0
    7 0 0 0 0 0 0 0 1 0 rcv_window_init 0 0.

(** An operation of the table that makes a block advance. *)
Lemma with_mngr_takes (op : M (tcb_manager B) mgr_event unit) t evs a :
  op (mngr a) = Ok ((), mngr (advanced te t evs a), as_mgr te <$> evs) →
  with_mngr op a = Ok ((), advanced te t evs a, posts_of te evs).
Proof.
  intros E. unfold with_mngr. rewrite bind_get, (bind_lift_Ok _ _ _ _ E). cbv beta iota. run.
  rewrite (bind_run _ _ _ _ _ _ (absorb_forward te evs _)). cbn. by rewrite app_nil_r.
Qed.

Lemma connect_run a ports moved :
  tcbs_ (mngr a) !! te = None → is_Some (sockets a !! sk) →
  endpoint_ok (te_remote_ep te) → endpoint_ok (te_local_ep te) →
  ∃ a' t t0 p opts,
    run_app_op (OpConnect junk isn (addrv4_port (te_local_ep te) :: ports) moved sk (te_remote_ep te)
      (addrv4 (te_local_ep te)) (UserDone k)) a =
      Ok ((), advanced te t [EvEnqueue p] a', posts_of te [EvEnqueue p]) ∧
    a' = set_conn_cbs (conn_cbs a ++ [SocketConnected sk (UserDone k)]) a ∧
    packet_of t0 connect_header opts p ∧ (remote_ep_ t0 = te_remote_ep te ∧ local_ep_ t0 = te_local_ep te) ∧
    len opts = 8 ∧ decode_options opts = Ok [mss 1446] ∧
    syn_sent (advanced te t [EvEnqueue p] a') t ∧ nb_una (numbers_of t) = isn ∧
    nb_nxt (numbers_of t) = u32 (isn + 1) ∧ nb_mss (numbers_of t) = ind_mss junk.
Proof.
  intros Hnone Hsk Hre Hle. set (cb := length (conn_cbs a)).
  destruct (tcb_new_inv (B := B) junk (te_remote_ep te) (te_local_ep te) kTCPConnecting cb)
    as (t0 & Enew & Hinv & Er & El & Est); [done..|by right|].
  destruct (start_connecting_run isn t0) as (p & opts & E & Hp & Hlen & Hdec).
  set (t := connecting isn t0) in *. set (a1 := set_conn_cbs (conn_cbs a ++ [SocketConnected sk (UserDone k)]) a).
  assert (tcb_inv t) as Hinv1.
  { pose proof (start_connecting_wp isn t0 Hinv) as Hw. unfold wp in Hw. rewrite E in Hw. by apply Hw. }
  exists a1, t, t0, p, opts. split.
  - cbn [run_app_op]. unfold socket_async_connect.
    rewrite (bind_silent _ _ a cb a1) by done. apply with_mngr_takes.
    cbn [mgr_async_connect].
    assert (mk_two_ends (te_remote_ep te) (mk_endpoint (addrv4 (te_local_ep te)) (addrv4_port (te_local_ep te))) = te)
      as -> by (by destruct te as [? []]).
    rewrite (bind_lift_Ok _ t0) by exact Enew. rewrite bind_get.
    change (tcbs_ (mngr a1)) with (tcbs_ (mngr a)). rewrite Hnone, bind_modify.
    rewrite (on_tcb_run te t0 _ t [EvEnqueue p]); [|apply lookup_insert_eq|exact E].
    cbn. by rewrite insert_insert_eq.
  - injection Enew as Enew. split_and!; try done.
    + unfold connect_header. unfold syn_header in Hp. rewrite <- Enew in Hp |- *. exact Hp.
    + split; try done; [apply lookup_insert_eq|..].
      * unfold t. by rewrite <- Enew.
      * unfold t. rewrite <- Enew. cbn. unfold cb. by rewrite lookup_app_r, Nat.sub_diag by lia.
    + unfold t. by rewrite <- Enew.
Qed.

(** The call: the SYN is queued in the table. *)
Definition syn_queued a t p (opts : list byte) : Prop :=
  mgr_base (mngr a) = mk_base true [p] ∧ len opts = 8 ∧ decode_options opts = Ok [mss 1446] ∧
  (∃ t0, packet_of t0 connect_header opts p ∧ remote_ep_ t0 = te_remote_ep te ∧ local_ep_ t0 = te_local_ep te) ∧
  syn_sent (unqueued a) t ∧ nb_una (numbers_of t) = isn ∧ nb_nxt (numbers_of t) = u32 (isn + 1) ∧
  nb_mss (numbers_of t) = ind_mss junk.

Lemma connect_called s n a ports moved :
  stands s n [] a → idle (set_tcb_m (mngr a) (set_io_ctx [] n)) →
  tcbs_ (mngr a) !! te = None → is_Some (sockets a !! sk) →
  endpoint_ok (te_remote_ep te) → endpoint_ok (te_local_ep te) →
  ∃ s1 a1 t p opts, prog_act addr_of run_cb (connect ports moved) s = Ok ((), s1, []) ∧
    stands s1 n [KBase PMgr] a1 ∧ syn_queued a1 t p opts ∧ memory a1 = memory a.
Proof.
  intros Hst [_ Hq] Hnone Hsk Hre Hle.
  destruct (connect_run (set_tasks [] a) ports moved Hnone Hsk Hre Hle)
    as (a1 & t & t0 & p & opts & E & Ea1 & Hp & [Er El] & Hlen & Hdec & Hss & Hnb).
  set (a2 := advanced te t [EvEnqueue p] a1) in *.
  destruct (app_calls _ s n [] a () a2 _ Hst E) as (s1 & E1 & Hst1).
  exists s1, a2, t, p, opts. split; [exact E1|]. split; [exact Hst1|].
  split; [|unfold a2; by rewrite Ea1]. split.
  { pose proof (Hq PMgr) as Eq. cbn in Eq. unfold a2. rewrite Ea1. cbn. by rewrite Eq. }
  do 2 (split; [done|]). split; [by exists t0|]. split; [|done]. destruct Hss. by split.
Qed.

(** And the five closures. *)
Lemma connect_round s n a ports moved :
  stands s n [] a → idle (set_tcb_m (mngr a) (set_io_ctx [] n)) → routed te d nh d' src_mac mac n →
  tcbs_ (mngr a) !! te = None → is_Some (sockets a !! sk) →
  endpoint_ok (te_remote_ep te) → endpoint_ok (te_local_ep te) →
  ∃ s1 s2 a' t opts frame,
    (_ ← prog_act addr_of run_cb (connect ports moved); prog_until_idle addr_of jp 8) s =
      Ok ((), s1, [OfNet (NetWrite d' frame)]) ∧
    prog_act addr_of run_cb (ProgWriteDone d' false) s1 = Ok ((), s2, []) ∧
    carried te src_mac mac n connect_header opts frame ∧
    (len opts = 8 ∧ decode_options opts = Ok [mss 1446]) ∧
    stands s2 (one_sent n) [] a' ∧ idle (set_tcb_m (mngr a') (set_io_ctx [] (one_sent n))) ∧
    syn_sent a' t ∧ nb_una (numbers_of t) = isn ∧ nb_nxt (numbers_of t) = u32 (isn + 1) ∧
    nb_mss (numbers_of t) = ind_mss junk ∧ memory a' = memory a.
Proof.
  intros Hst Hidle Hrt Hnone Hsk Hre Hle.
  destruct (connect_called s n a ports moved) as (s1 & a2 & t & p & opts & E1 & Hst1 & Hsyn & Hmem); [done..|].
  destruct Hsyn as (Hq & Hlen & Hdec & (t0 & Hp & Er & El) & Hss & Hu & Hn & Hm).
  destruct (idle_unqueued n a a2 Hidle) as [Hidle2 Hidle3].
  destruct (echo_leaves addr_of run_cb Heven jp te d nh d' src_mac mac s1 n a2 t0 connect_header opts p)
    as (dg & s2 & s3 & Hdg & Hz & R2 & E3 & Hst3); [done..|lia|by rewrite Hlen|].
  exists s2, s3, (unqueued a2), t, opts, (frame_bytes src_mac mac dg (seq_ (ipv4_ n))).
  split; [|split; [done|split; [|by split_and!]]].
  - apply (bind_run_Ok _ _ _ () s1 [] () s2 [OfNet (NetWrite d' _)]); [exact E1|].
    exact (until_idle_more addr_of jp 3 5 s1 _ R2).
  - exists dg. by rewrite <- Er, <- El.
Qed.

(** ** The SYN,ACK *)

Definition syn_ack_for th (opts : list byte) (os : list tcp_option) (nb : numbers) : Prop :=
  SYN th = 1 ∧ ACK th = 1 ∧ 4 * data_offset th = 20 + len opts ∧ decode_options opts = Ok os ∧
  ack_no th = nb_nxt nb ∧ nb_una nb ≤ nb_nxt nb ∧ 0 < options_mss os (nb_mss nb).
Definition connected_numbers th (os : list tcp_option) (nb : numbers) : numbers :=
  mk_numbers (u32 (seq_no th + 1)) (nb_nxt nb) (nb_nxt nb) (options_mss os (nb_mss nb)) (window th).
Definition ack_header (nb : numbers) : tcp_header_t :=
  mk_tcp_header (addrv4_port (te_local_ep te)) (addrv4_port (te_remote_ep te)) (nb_una nb) (nb_rcv nb)
    5 0 0 0 0 1 0 0 0 0 rcv_window_init 0 0.

(** The block is established, and acknowledges. *)
Lemma syn_ack_process a t th opts os :
  syn_sent a t → tcp_header_ok th → syn_ack_for th opts os (numbers_of t) →
  ∃ t' pq p, let evs := [EvEnqueue p; EvPost TaskEstablished] in
    table_takes junk isn te a th opts (mngr (advanced te t' evs a)) evs ∧
    packet_of t' (ack_header (connected_numbers th os (numbers_of t))) [] p ∧
    tcb_inv t' ∧ state_ t' = kTCPEstablished ∧ flow t' pq ∧ unsent t' pq = [] ∧
    (remote_ep_ t' = te_remote_ep te ∧ local_ep_ t' = te_local_ep te) ∧ on_data_receive_ t' = [] ∧
    on_connection_established_ t' = on_connection_established_ t ∧ buffered t' = [] ∧
    numbers_of t' = connected_numbers th os (numbers_of t).
Proof.
  intros [Hb Hinv Hst Hnext [Er El] Hwaits Hconn Hsk] Hth (HS & HA & Hoff & Hdec & Hack & Hle & Hmss).
  cbn [numbers_of nb_nxt nb_una nb_mss] in *. pose proof (inv_ok _ Hinv) as Hok.
  pose proof (header_ranges th Hth) as Hrange.
  destruct (syn_sent_run th opts os t Hok Hst Hrange HS HA Hdec) as (p & E & Hp); [lia|].
  set (t1 := TcbHandshake.connected th os t) in *. set (t2 := after_packet t1 0) in *.
  set (evs := [EvEnqueue p; EvPost TaskEstablished]) in *.
  assert (process_parsed isn th opts [] t = Ok ((), t2, evs)) as Epar by by apply process_parsed_syn_sent.
  assert (keeps t t2 evs) as (Hinv2 & _).
  { pose proof (process_parsed_wp isn th opts [] t Hinv Hrange Hisn) as Hw. unfold wp in Hw.
    by rewrite Epar in Hw. }
  pose proof (inv_pq _ Hinv) as Hpq. rewrite Hst in Hpq. destruct Hpq as [_ Hbuf].
  exists t2, (cb_make (window th)), p. cbv zeta. fold evs. split_and!; try done.
  - intros pkt Hte Hw Hpay. rewrite <- Hte in Hb |- *.
    assert (process isn pkt t = Ok ((), t2, evs)) as Ep.
    { eapply process_run; [|exact Epar]. apply (parse_payload _ th opts [] Hw); [by rewrite app_nil_r|done|done|].
      destruct Hth as (_ & _ & _ & _ & (? & _) & _). unfold is_u in *. cbn. lia. }
    by rewrite (mgr_process_run junk isn pkt t t2 evs _ Hb Ep), (on_tcb_run _ t _ t2 evs _ Hb Ep).
  - assert (out_header t1 0 = ack_header (connected_numbers th os (numbers_of t))) as Eh; [|by rewrite <- Eh].
    destruct Hok as (_ & _ & _ & _ & Hwin & _). unfold out_header, ack_header, connected_numbers, t1, TcbHandshake.connected.
    cbn -[u32]. by rewrite Hwin, Er, El, Hack.
  - split; [done|split; [|exact Hmss]]. unfold no_syn_in_flight, t2, t1. cbn -[u32]. rewrite Hack, Z.add_0_r.
    assert (is_u 32 (seq_nr_next (send_ t))) as Hn by (destruct Hok as (_ & _ & (_ & ? & _) & _); done).
    rewrite (u32_small _ Hn), Z.sub_diag. change (u32 0) with 0. unfold cb_size. lia.
  - unfold unsent. rewrite cb_make_list. apply drop_nil.
  - unfold numbers_of, t2, t1, connected_numbers. cbn -[u32]. rewrite Hack, Z.add_0_r.
    assert (is_u 32 (seq_nr_next (send_ t))) as Hn by (destruct Hok as (_ & _ & (_ & ? & _) & _); done).
    by rewrite (u32_small _ Hn).
Qed.

(** The closure of the connection binds the socket and calls the callback. *)
Lemma connected_closure a t :
  tcbs_ (mngr a) !! te = Some t → tcb_inv t → state_ t = kTCPEstablished → is_Some (sockets a !! sk) →
  conn_cbs a !! on_connection_established_ t = Some (SocketConnected sk (UserDone k)) →
  ∃ a', exec jp te TaskEstablished [] a = Ok ((), a', [AppDone k false]) ∧ open_at sk te a' t ∧
    mngr a' = mngr a ∧ memory a' = memory a.
Proof.
  intros Hb Hinv Hst [so Hso] Hconn. exists (bound sk so None t te a). split_and!; [|split; try done|done|done].
  - rewrite (exec_established jp te t _ [] a Hb Hconn). cbn [run_conn].
    by rewrite (bind_silent _ _ _ _ _ (bind_socket_run sk so None t te a Hso)).
  - eexists. split; [apply lookup_insert_eq|done].
Qed.

(** The SYN,ACK arrives: the acknowledgment leaves, and the closure of the
    connection runs between its closures. *)
Lemma answer_round s n a t eh iph th opts os :
  stands s n [] a → idle (set_tcb_m (mngr a) (set_io_ctx [] n)) → routed te d nh d' src_mac mac n →
  frame_for te eh iph th → syn_sent a t → syn_ack_for th opts os (numbers_of t) →
  let nb := connected_numbers th os (numbers_of t) in
  ∃ s1 s2 a' t' pq frame,
    hear addr_of run_cb junk isn jp d eh iph th opts s =
      Ok ((), s1, [OfNet (NetRead d 1500); OfApp (AppDone k false); OfNet (NetWrite d' frame)]) ∧
    prog_act addr_of run_cb (ProgWriteDone d' false) s1 = Ok ((), s2, []) ∧
    carried te src_mac mac n (ack_header nb) [] frame ∧
    stands s2 (one_sent n) [] a' ∧ idle (set_tcb_m (mngr a') (set_io_ctx [] (one_sent n))) ∧
    open_at sk te a' t' ∧ flow t' pq ∧ unsent t' pq = [] ∧ on_data_receive_ t' = [] ∧ buffered t' = [] ∧
    numbers_of t' = nb ∧ (remote_ep_ t' = te_remote_ep te ∧ local_ep_ t' = te_local_ep te) ∧
    memory a' = memory a.
Proof.
  intros Hst Hidle Hrt Hframe Hss Hack nb. pose proof Hframe as (_ & _ & Hth & _).
  destruct (syn_ack_process a t th opts os Hss Hth Hack)
    as (t' & pq & p & Hmgr & Hp & Hinv & Hest & Hflow & Hu & [Er El] & Hwaits & Hcb & Hbuf & Hnb).
  set (evs := [EvEnqueue p; EvPost TaskEstablished]) in *. set (a1 := advanced te t' evs a).
  destruct (frame_arrives addr_of run_cb junk isn te d nh d' src_mac mac s n a eh iph th opts t' evs)
    as (s1 & E1 & Hst1); [done..|]. fold a1 in Hst1.
  assert (mgr_base (mngr a1) = mk_base true [p]) as Hq.
  { destruct Hidle as [_ Hq]. pose proof (Hq PMgr) as Eq. cbn in Eq. cbn. by rewrite Eq. }
  destruct (mgr_closure_steps addr_of Heven jp s1 n a1 [KTcb te TaskEstablished] t' (ack_header nb) [] p Hst1 Hq)
    as (dg & s2 & Hroom & Hdg & R2 & Hst2); [exact (proj2 Hidle PTcp)|done|done|done|].
  destruct (connected_closure (set_tasks [] (unqueued a1)) t') as (a2 & E2 & Ho & Em & Emem); [|done|done| | |].
  { cbn. apply lookup_insert_eq. } { by destruct Hss. } { cbn. rewrite Hcb. by destruct Hss. }
  destruct (app_steps addr_of jp s2 _ te TaskEstablished _ _ a2 _ Hst2 E2) as (s3 & R3 & Hst3).
  destruct (idle_unqueued n a a1 Hidle) as [Hidle2 Hidle3].
  change (mngr (unqueued a1)) with (mngr (set_tasks [] (unqueued a1))) in Hidle2, Hidle3.
  rewrite <- Em in Hidle2, Hidle3. pose proof Hdg as (_ & Hdst & _). rewrite Er in Hdst.
  destruct (datagram_done addr_of run_cb Heven jp nh d' src_mac mac s3 n a2 dg)
    as (s4 & s5 & Hz & R4 & E5 & Hst5); [done|done|done| |].
  { destruct Hrt as (Hway & _). rewrite Hdst. exact Hway. }
  exists s4, s5, a2, t', pq, (frame_bytes src_mac mac dg (seq_ (ipv4_ n))). split_and!; try done.
  - apply (bind_run_Ok _ _ _ () s1 [OfNet (NetRead d 1500)]); [exact E1|].
    apply (until_idle_more addr_of jp 2 6 s1).
    eapply (until_idle_steps addr_of jp 5 s1 s2 []); [by rewrite (proj1 Hst1)|exact R2|].
    eapply (until_idle_steps addr_of jp 4 s2 s3 [OfApp (AppDone k false)]); [by rewrite (proj1 Hst2)|exact R3|].
    exact R4.
  - exists dg. by rewrite <- Er, <- El.
Qed.

(** ** The whole *)

Definition connect_through (ports : list Z) (moved : option nat → option nat) eh iph th
    (opts : list byte) : M (program Sig B) prog_event unit :=
  _ ← (_ ← prog_act addr_of run_cb (connect ports moved); prog_until_idle addr_of jp 8);
  _ ← prog_act addr_of run_cb (ProgWriteDone d' false);
  _ ← hear addr_of run_cb junk isn jp d eh iph th opts;
  prog_act addr_of run_cb (ProgWriteDone d' false).

(** What the client has sent before the answer comes. *)
Definition first_numbers : numbers := mk_numbers 0 isn (u32 (isn + 1)) (ind_mss junk) 0.

(** C8: a program connects.  On a program in which nothing is pending, the
    call of [async_connect], the frame with the SYN,ACK of the peer and the
    closures between make the device of the route write two frames: one with
    a SYN that has the initial sequence number and the MSS option 1446, and
    one with the acknowledgment of the SYN,ACK; both have valid checksums.
    Before the second leaves, the callback is called, without an error.  No
    handler faults; in the end nothing is pending, and the socket is
    connected to an established connection with the numbers of the
    handshake, on which everything is sent and nothing has arrived.  The MSS
    of the peer is the one of the SYN,ACK, and without one whatever the
    memory of the block held. *)
Theorem client_connects s n a ports moved eh iph th opts os :
  stands s n [] a → idle (set_tcb_m (mngr a) (set_io_ctx [] n)) → routed te d nh d' src_mac mac n →
  tcbs_ (mngr a) !! te = None → is_Some (sockets a !! sk) →
  frame_for te eh iph th → syn_ack_for th opts os first_numbers →
  ∃ s' a' t pq frame1 opts1 frame2,
    connect_through ports moved eh iph th opts s =
      Ok ((), s', [OfNet (NetWrite d' frame1); OfNet (NetRead d 1500); OfApp (AppDone k false);
                   OfNet (NetWrite d' frame2)]) ∧
    carried te src_mac mac n connect_header opts1 frame1 ∧ decode_options opts1 = Ok [mss 1446] ∧
    carried te src_mac mac (one_sent n) (ack_header (connected_numbers th os first_numbers)) [] frame2 ∧
    stands s' (one_sent (one_sent n)) [] a' ∧
    idle (set_tcb_m (mngr a') (set_io_ctx [] (one_sent (one_sent n)))) ∧
    open_at sk te a' t ∧ flow t pq ∧ unsent t pq = [] ∧ on_data_receive_ t = [] ∧ buffered t = [] ∧
    numbers_of t = connected_numbers th os first_numbers.
Proof.
  intros Hst Hidle Hrt Hnone Hsk Hframe Hack. destruct (frame_ends te eh iph th Hframe) as [Hre Hle].
  destruct (connect_round s n a ports moved Hst Hidle Hrt Hnone Hsk Hre Hle)
    as (s1 & s2 & a2 & t & opts1 & frame1 & E1 & W1 & Hcar1 & [_ Hdec] & Hst2 & Hidle2 & Hss & Hu & Hn & Hm & _).
  assert (syn_ack_for th opts os (numbers_of t)) as Hack'.
  { unfold syn_ack_for, first_numbers in *. rewrite Hu, Hn, Hm. exact Hack. }
  assert (connected_numbers th os (numbers_of t) = connected_numbers th os first_numbers) as Enb
    by (unfold connected_numbers; by rewrite Hn, Hm).
  destruct (answer_round s2 (one_sent n) a2 t eh iph th opts os Hst2 Hidle2 Hrt Hframe Hss Hack')
    as (s3 & s4 & a4 & t4 & pq & frame2 & E3 & W3 & Hcar2 & Hst4 & Hidle4 & Hrest).
  rewrite Enb in Hcar2, Hrest. destruct Hrest as (Ho & Hf & Hun & Hw & Hb & Hnb & _).
  exists s4, a4, t4, pq, frame1, opts1, frame2. split; [|do 5 (split; [done|]); done].
  apply (bind_run_Ok _ _ _ () s1 [OfNet (NetWrite d' frame1)] _ _ [_; _; _] E1).
  apply (bind_run_Ok _ _ _ () s2 [] _ _ [_; _; _] W1).
  exact (bind_run_Ok _ _ _ () s3 [_; _; _] () s4 [] E3 W3).
Qed.
End Client.

(** A socket on the namespace of [Ping] connects to a peer behind the
    gateway, whose SYN,ACK has an MSS option. *)
Definition test_client_app : application reserve_buffer :=
  mk_app (mk_manager (mk_base true []) [] ∅) [] [] [] {[0%nat := socket_new 0]} ∅ ∅ 1.
Definition test_client : program (list ethernetv2_frame) reserve_buffer :=
  mk_program (set_tcb_m (mngr test_client_app) test_net) test_client_app.
Definition test_syn_ack_ip : ipv4_header_t :=
  mk_ipv4_header 4 5 0 44 77 0 1 0 0 64 PROTO 0 (Ipv4 167772162) (Ipv4 167772161).
Definition test_syn_ack : tcp_header_t := mk_tcp_header 4096 80 9000 5001 6 0 0 0 0 1 0 0 1 0 1000 0 0.

Lemma client_connects_witness :
  ∃ s' a' t pq frame1 opts1 frame2,
    connect_through (Hh := test_host Little) (λ _, 64) (λ _ _ _, mret false) test_junk 5000 0 0 7 test_te 0 0
      [] id test_eth test_syn_ack_ip test_syn_ack [Byte.x02; Byte.x04; Byte.x05; Byte.xb4] test_client =
      Ok ((), s', [OfNet (NetWrite 0 frame1); OfNet (NetRead 0 1500); OfApp (AppDone 7 false);
                   OfNet (NetWrite 0 frame2)]) ∧
    carried (Hh := test_host Little) test_te (test_mac Byte.x02) (test_mac Byte.x08) test_net
      (connect_header 5000 test_te) opts1 frame1 ∧ decode_options (H := test_host Little) opts1 = Ok [mss 1446] ∧
    carried (Hh := test_host Little) test_te (test_mac Byte.x02) (test_mac Byte.x08) (one_sent test_net)
      (ack_header test_te (mk_numbers 9001 5001 5001 1460 1000)) [] frame2 ∧
    stands s' (one_sent (one_sent test_net)) [] a' ∧
    idle (set_tcb_m (mngr a') (set_io_ctx [] (one_sent (one_sent test_net)))) ∧
    open_at 0 test_te a' t ∧ flow t pq ∧ unsent t pq = [] ∧ on_data_receive_ t = [] ∧ buffered t = [] ∧
    numbers_of t = mk_numbers 9001 5001 5001 1460 1000.
Proof.
  refine (client_connects (Hh := test_host Little) (λ _, 64) (λ _ _ _, mret false) _ test_junk 5000 0 _ _
    0 7 test_te 0 test_route 0 (test_mac Byte.x02) (test_mac Byte.x08) test_client test_net test_client_app
    [] id test_eth test_syn_ack_ip test_syn_ack [Byte.x02; Byte.x04; Byte.x05; Byte.xb4] [mss 1460]
    _ _ _ _ _ _ _).
  - reflexivity.
  - vm_compute. by split_and!.
  - done.
  - by split.
  - split; [done|by intros []].
  - split; [unfold way_out; split_and!; reflexivity|]. split; [eexists; reflexivity|].
    split; [reflexivity|apply List.Forall_nil].
  - reflexivity.
  - by eexists.
  - by vm_compute; split_and!.
  - by split_and!.
Defined.
