(* ===== verification/ClientTalk.v ===== *)
(** * A connected program writes and reads

    What [ClientOpen] leaves off with is a connected socket on which nothing
    is pending.  From there a program calls [async_write] and [async_read]:
    the text leaves in as many frames as it takes.  Each frame with a part of
    the answer is acknowledged, and when the last is read, the callback of the
    read is called. *)

From S2P Require Import Prelude Utils Skbuff Addr Headers TcpOptions CircularBuffer Tcb TcbFacts TcbSend.
From S2P Require Import TcbRecv TcbState TcbHandshake BaseProtocol Packets TcbManager Socket SocketFacts Echo.
From S2P Require Import Accept Tcp NeighCache RoutingTable Arp Ipv4 Ethernet Device Stack Layers Netns.
From S2P Require Import NetnsFacts NetnsRun Ping Pipeline Program Prior ProgramFacts EchoFrame Segments EchoOpen.
From S2P Require Import EchoServer ClientOpen.

(** ** The block sends what was written *)

Section Sends.
Context `{Hh : Host} {B : Type} `{Hc : CircularBuffer B} `{Hs : !CircularBufferSpec B}.
Implicit Types (t : tcb_t B).

(** When everything was sent, the queue has what is in flight. *)
Lemma in_flight_size t pq :
  tcb_ok t → unsent t pq = [] → cb_size pq ≤ u32 (seq_nr_next (send_ t) - seq_nr_unack (send_ t)).
Proof.
  intros Hok Hu. pose proof (length_unsent t pq) as Hl. rewrite Hu in Hl. unfold unacked, cb_size in *.
  cbn [length] in Hl. lia.
Qed.

(** The sending loop sends it all. *)
Lemma drain_all t pq text :
  tcb_ok t → send_pq (send_ t) = Some pq → no_syn_in_flight t pq → unsent t pq = text →
  0 < len text → 0 < send_mss (send_ t) →
  ∃ evs, run_task TaskDrain [] t = Ok ((), after_packet t (len text), evs) ∧
    sent t (seq_nr_next (send_ t)) text evs ∧ unsent (after_packet t (len text)) pq = [] ∧
    no_syn_in_flight (after_packet t (len text)) pq.
Proof.
  intros Hok Hpq Hf Hu Hlen Hm.
  destruct (unsent_after_packet t pq (len text) Hok Hpq Hf) as [Hu' Hf']; [rewrite Hu; lia|].
  destruct (send_loop_run (send_fuel t) t pq Hok Hpq Hm) as (evs & E & Hsent).
  { unfold send_fuel. rewrite Hpq. unfold unsent. rewrite length_drop. lia. }
  rewrite Hu in *. exists evs. split; [|split; [done|split; [|done]]].
  - cbn [run_task]. rewrite bind_get, E. unfold after_loop. rewrite Hu, decide_False; [done|].
    intros ->. cbn in Hlen. lia.
  - rewrite Hu'. apply drop_ge. lia.
Qed.
End Sends.

(** ** The socket *)

Section Talk.
Context `{Hh : Host} {Sig : Type} `{Hsig : Signal ethernetv2_frame Sig}
  `{Hspec : !SignalSpec ethernetv2_frame Sig}.
Context {B : Type} `{Hc : CircularBuffer B} `{Hs : !CircularBufferSpec B}.
Context (addr_of : skbuff → Z) (run_cb : nat → endpoint → endpoint → M tcp tcp_event bool).
Context (Heven : ∀ skb, Z.even (addr_of skb) = true).
Context (junk : indeterminate) (isn jp : Z) (Hisn : is_u 32 isn).
(** The socket and its connection; the device that is read, and how packets
    for the peer leave. *)
Context (sk : nat) (te : two_ends_t) (d : nat).
Context (nh : rt_record) (d' : nat) (src_mac mac : mac_addr_t).
Implicit Types (n : netns Sig B) (s : program Sig B) (a : application B) (t : tcb_t B).
Implicit Types (text : list byte).

(** The connection is established, everything was sent and what arrived was
    read; [waiting] are the reads that wait. *)
Record connected_with (waiting : list (span * nat)) s n a t (pq : B) : Prop := {
  cw_stands : stands s n [] a;
  cw_idle : idle (set_tcb_m (mngr a) (set_io_ctx [] n));
  cw_open : open_at sk te a t;
  cw_ends : remote_ep_ t = te_remote_ep te ∧ local_ep_ t = te_local_ep te;
  cw_flow : flow t pq;
  cw_sent : unsent t pq = [];
  cw_waits : on_data_receive_ t = waiting;
  cw_buffered : buffered t = [];
}.

(** *** The calls *)

(** What is in [wsp] is written, and as much is to be read into [rsp].  A
    segment has at least one byte, and takes five closures. *)
Definition say_fuel (wsp : span) : nat := 2 + 5 * Z.to_nat (sp_size wsp).
Definition say (wsp : span) (kw : nat) (rsp : span) (kr : nat) : M (program Sig B) prog_event unit :=
  _ ← prog_act addr_of run_cb (ProgApp (OpCall (CallWrite sk wsp kw)));
  _ ← prog_act addr_of run_cb (ProgApp (OpCall (CallRead sk rsp kr)));
  prog_until_idle addr_of jp (say_fuel wsp).

(** The closure of a read of [total] bytes, of which [rsp] are missing. *)
Definition reader (total : Z) (rsp : span) (kr : nat) : io_cb :=
  ReadComplete sk rsp (ReadAll total (UserIo kr)).

(** The header of the segment with the text. *)
Definition text_header (nb : numbers) : tcp_header_t :=
  mk_tcp_header (addrv4_port (te_local_ep te)) (addrv4_port (te_remote_ep te)) (nb_nxt nb) (nb_rcv nb)
    5 0 0 0 0 1 1 0 0 0 rcv_window_init 0 0.
Definition said_numbers (nb : numbers) (text : list byte) : numbers :=
  mk_numbers (nb_rcv nb) (nb_una nb) (u32 (nb_nxt nb + len text)) (nb_mss nb) (nb_wnd nb).

(** The segments of the texts, one after the other. *)
Fixpoint text_segments (nb : numbers) (texts : list (list byte)) : list (tcp_header_t * list byte) :=
  match texts with
  | [] => []
  | text :: texts => (text_header nb, text) :: text_segments (said_numbers nb text) texts
  end.

Lemma length_text_segments texts : ∀ nb, length (text_segments nb texts) = length texts.
Proof. induction texts as [|text texts IH]; intros nb; [done|]. cbn. by rewrite IH. Qed.

Lemma length_pieces texts m : Forall (λ text, 0 < len text ≤ m) texts → (length texts ≤ length (concat texts))%nat.
Proof. induction 1 as [|text texts H _ IH]; [done|]. cbn. rewrite length_app. lia. Qed.

Lemma summable_segments texts : ∀ nb,
  Forall (λ text, len text ≤ 65535) texts →
  (host_endian = Big → Forall (λ text, Z.even (len text) = true) texts) → Forall summable (text_segments nb texts).
Proof.
  induction texts as [|text texts IH]; intros nb Hlen Hev; [constructor|]. inversion_clear Hlen.
  constructor; [split; [done|]|apply IH; [done|]]; intros HB; specialize (Hev HB); by inversion_clear Hev.
Qed.

Lemma contents_size mem sp bs : contents mem sp = Ok bs → sp_size sp = len bs.
Proof. unfold contents. case_match; [|done]. intros E. apply subspan_Ok in E. lia. Qed.

Lemma sent_segments t nb nxt text evs :
  sent t nxt text evs → nb_nxt nb = nxt → nb_rcv nb = rcv_next (rcv_ t) →
  remote_ep_ t = te_remote_ep te → local_ep_ t = te_local_ep te → next_state_ t = kTCPEstablished →
  rcv_window (rcv_ t) = rcv_window_init →
  ∃ texts ps, evs = EvEnqueue <$> ps ∧ concat texts = text ∧
    Forall (λ text, 0 < len text ≤ send_mss (send_ t)) texts ∧
    (Z.even (send_mss (send_ t)) = true → Z.even (len text) = true → Forall (λ text, Z.even (len text) = true) texts) ∧
    Forall2 (is_packet (B := B) te) ps (text_segments nb texts).
Proof.
  intros Hsent Hn Hr Er El Hst Hw. revert nb Hn Hr.
  induction Hsent as [nxt|nxt seg rest p evs Hne Hle Hlast Hp _ IH]; intros nb Hn Hr.
  { exists [], []. by split_and!. }
  assert (0 < len seg) as Hpos by (destruct seg; [done|cbn; lia]).
  destruct (IH (said_numbers nb seg)) as (texts & ps & -> & Ec & Hlens & Hev & Hps); [by subst|done|].
  exists (seg :: texts), (p :: ps). split; [done|]. split; [cbn; by rewrite Ec|].
  split; [by constructor|]. split.
  - intros Hm Htext. rewrite length_app, Nat2Z.inj_add in Htext.
    destruct Hlast as [->|Hfull]; [|rewrite Hfull in Htext; rewrite Z.even_add, Hm in Htext].
    + constructor; [by rewrite Z.add_0_r in Htext|]. by apply Hev.
    + constructor; [by rewrite Hfull|]. apply Hev; [done|]. by destruct (Z.even (len rest)).
  - constructor; [|done]. exists t. split; [|done].
    assert (out_header (upd_send (set_next nxt) t) (len seg) = text_header nb) as <-; [|exact Hp].
    unfold out_header, text_header. cbn -[u32 Z.eqb Z.ltb]. rewrite Er, El, Hst, Hw, Hn, Hr.
    replace (0 =? len seg) with false by lia. by replace (0 <? len seg) with true by lia.
Qed.

(** Both calls, before any closure. *)
Lemma say_calls s n a t pq wsp kw rsp kr text :
  connected_with [] s n a t pq → contents (memory a) wsp = Ok text →
  cb_size pq + len text ≤ cb_capacity pq → 0 ≤ sp_size rsp →
  let k := length (io_cbs a) in
  let t1 := set_on_data_receive [(rsp, S k)] (upd_send (set_send_pq (cb_insert_end text pq)) t) in
  ∃ s2 a2,
    (∀ s' es, prog_until_idle addr_of jp (say_fuel wsp) s2 = Ok ((), s', es) →
       say wsp kw rsp kr s = Ok ((), s', es)) ∧
    stands s2 n [KTcb te TaskDrain; KTcb te (TaskWriteDone k (len text))] a2 ∧ open_at sk te a2 t1 ∧
    io_cbs a2 = io_cbs a ++ [UserIo kw; reader (sp_size rsp) rsp kr] ∧ memory a2 = memory a ∧
    mgr_base (mngr a2) = mgr_base (mngr a).
Proof.
  intros [Hst _ Ho _ (Hpq & _) _ Hw Hnil] Hbs Hfit Hsize k t1.
  set (t0 := upd_send (set_send_pq (cb_insert_end text pq)) t) in *.
  destruct (write_starts sk te (set_tasks [] a) t pq wsp text (UserIo kw)) as (E1 & Ho1);
    [by apply open_at_tasks|done..|]. change (length (io_cbs (set_tasks [] a))) with k in E1, Ho1. fold t0 in E1, Ho1.
  match type of Ho1 with open_at _ _ ?x _ => set (a1 := x) in * end.
  destruct (app_calls _ s n [] a () a1 _ Hst E1) as (s1 & R1 & Hst1).
  destruct (read_waits sk te (set_tasks [] a1) t0 rsp (reader (sp_size rsp) rsp kr)) as (E2 & Ho2 & _);
    [by apply open_at_tasks|exact Hw|exact Hnil|done|].
  assert (length (io_cbs (set_tasks [] a1)) = S k) as Ek by (cbn; rewrite length_app; cbn; unfold k; lia).
  rewrite Ek in E2, Ho2. fold t1 in E2, Ho2. match type of Ho2 with open_at _ _ ?x _ => set (a2 := x) in * end.
  destruct (app_calls _ s1 n _ a1 () a2 _ Hst1 E2) as (s2 & R2 & Hst2).
  exists s2, a2. split; [|split; [exact Hst2|split; [done|split; [|split; [done|]]]]].
  - intros s' es E. unfold say. apply (bind_run_Ok _ _ _ () s1 [] _ _ es R1).
    exact (bind_run_Ok _ _ _ () s2 [] _ _ es R2 E).
  - cbn. by rewrite <- app_assoc.
  - cbn. rewrite !app_nil_r. by destruct (mgr_base (mngr a)).
Qed.

(** What is posted for packets that are enqueued. *)
Lemma posts_enqueued (ps : list tcp_packet) :
  concat (app_posts <$> posts_of te (EvEnqueue <$> ps)) = (λ _, KBase PMgr) <$> ps ∧
  concat (app_out <$> posts_of te (EvEnqueue <$> ps)) = [] ∧ packets (EvEnqueue <$> ps) = ps.
Proof. induction ps as [|p ps (IH1 & IH2 & IH3)]; [done|]. cbn in *. by rewrite IH1, IH2, IH3. Qed.

(** The first closure sends, the second calls the callback of the write. *)
Lemma say_closures s n a t pq k kw text nb :
  stands s n [KTcb te TaskDrain; KTcb te (TaskWriteDone k (len text))] a → open_at sk te a t →
  remote_ep_ t = te_remote_ep te ∧ local_ep_ t = te_local_ep te →
  flow t pq → unsent t pq = text → 0 < len text → io_cbs a !! k = Some (UserIo kw) →
  nb_nxt nb = seq_nr_next (send_ t) → nb_rcv nb = rcv_next (rcv_ t) → mgr_base (mngr a) = mk_base true [] →
  ∃ s' a' texts ps, let t' := after_packet t (len text) in
    (∀ fuel s2 e2, prog_until_idle addr_of jp fuel s' = Ok ((), s2, e2) →
       prog_until_idle addr_of jp (2 + fuel) s =
         Ok ((), s2, OfApp (AppIo kw false (len text) (memory a)) :: e2)) ∧
    stands s' n ((λ _, KBase PMgr) <$> ps) a' ∧ mgr_base (mngr a') = mk_base true ps ∧
    open_at sk te (unqueued a') t' ∧ flow t' pq ∧ unsent t' pq = [] ∧ memory a' = memory a ∧ io_cbs a' = io_cbs a ∧
    concat texts = text ∧ Forall (λ text, 0 < len text ≤ send_mss (send_ t)) texts ∧
    (Z.even (send_mss (send_ t)) = true → Z.even (len text) = true → Forall (λ text, Z.even (len text) = true) texts) ∧
    Forall2 (is_packet (B := B) te) ps (text_segments nb texts).
Proof.
  intros Hst Ho [Er El] (Hpq & Hf & Hm) Hu Hlen Hcb Hn Hr Hbase. pose proof (open_inv _ _ _ _ Ho) as Hi.
  destruct (drain_all t pq text (inv_ok _ Hi) Hpq Hf Hu Hlen Hm) as (evs & Edrain & Hsent & Hu' & Hf').
  set (t' := after_packet t (len text)) in *.
  assert (tcb_inv t') as Hi'.
  { pose proof (send_loop_wp t Hi ltac:(by rewrite (open_state _ _ _ _ Ho))) as Hw. unfold wp in Hw.
    cbn [run_task] in Edrain. rewrite bind_get in Edrain. rewrite Edrain in Hw. apply Hw. }
  destruct (sent_segments t nb _ text evs Hsent Hn Hr Er El) as (texts & ps & -> & Hparts);
    [by eapply open_next|by destruct (inv_ok _ Hi) as (_ & _ & _ & _ & ? & _)|].
  destruct (posts_enqueued ps) as (Eposts & Eouts & Epackets).
  set (a1 := advanced te t' (EvEnqueue <$> ps) (set_tasks [] a)).
  assert (exec jp te TaskDrain [] (set_tasks [] a) = Ok ((), a1, posts_of te (EvEnqueue <$> ps))) as E1.
  { unfold exec. rewrite bind_get. apply (with_on_tcb_run te t _ t' (EvEnqueue <$> ps)); [|done].
    exact (open_block _ _ _ _ Ho). }
  destruct (app_steps addr_of jp s n te _ _ a a1 _ Hst E1) as (s1 & R1 & Hst1). rewrite Eouts in R1. rewrite Eposts in Hst1.
  assert (memory a1 = memory a) as Emem.
  { unfold a1. cbn. clear. generalize (memory a). induction ps as [|p ps IH]; [done|]. intros mem. cbn. apply IH. }
  assert (exec jp te (TaskWriteDone k (len text)) [] (set_tasks [] a1) =
    Ok ((), set_tasks [] a1, [AppIo kw false (len text) (memory a)])) as E2.
  { unfold exec. rewrite bind_get. change (io_cbs (set_tasks [] a1)) with (io_cbs a). rewrite Hcb.
    cbn [run_io]. rewrite bind_get. rewrite <- Emem. by apply bind_emit. }
  destruct (app_steps addr_of jp s1 n te _ _ a1 (set_tasks [] a1) _ Hst1 E2) as (s2 & R2 & Hst2).
  rewrite app_nil_r in Hst2.
  exists s2, (set_tasks [] a1), texts, ps. cbv zeta. fold t'. split; [|split; [exact Hst2|split; [|split; [|
    split; [by split|split; [exact Hu'|split; [exact Emem|split; [done|exact Hparts]]]]]]]].
  - intros fuel s3 e3 E3.
    eapply (until_idle_steps addr_of jp (S fuel) s s1 []); [by rewrite (proj1 Hst)|exact R1|].
    by eapply (until_idle_steps addr_of jp fuel s1 s2 [_]); [by rewrite (proj1 Hst1)|exact R2|].
  - unfold a1. cbn. by rewrite Hbase, Epackets.
  - pose proof (open_advanced sk te (set_tasks [] a) t t' (EvEnqueue <$> ps)) as Ho'.
    destruct Ho' as [? ? ? ?]; [by apply open_at_tasks|done|by eapply open_next|]. by split.
Qed.

(** The text leaves in segments: two closures of the connection, and five for
    each segment.  The device has the first frame, and the others to write. *)
Lemma say_round s n a t pq wsp kw rsp kr text :
  connected_with [] s n a t pq → routed te d nh d' src_mac mac n → contents (memory a) wsp = Ok text →
  let nb := numbers_of t in
  0 < len text → u32 (nb_nxt nb - nb_una nb) + len text ≤ nb_wnd nb →
  (host_endian = Big → Z.even (nb_mss nb) = true ∧ Z.even (len text) = true) → 0 ≤ sp_size rsp →
  ∃ texts fr frs s1 a' t' pq' k x skbs, let n' := after_all one_sent (length texts) n in
    say wsp kw rsp kr s = Ok ((), s1, [OfApp (AppIo kw false (len text) (memory a)); OfNet (NetWrite d' fr)]) ∧
    stands s1 (queued_at d' (x :: skbs) n') [] a' ∧ payload <$> skbs = frs ∧
    concat texts = text ∧ Forall (λ text, 0 < len text ≤ nb_mss nb) texts ∧
    (Z.even (nb_mss nb) = true → Z.even (len text) = true → Forall (λ text, Z.even (len text) = true) texts) ∧
    each one_sent (carried_by te src_mac mac) n (text_segments nb texts) (fr :: frs) ∧
    (∀ s2, stands s2 n' [] a' → connected_with [(rsp, k)] s2 n' a' t' pq') ∧ io_cbs a' !! k = Some (reader (sp_size rsp) rsp kr) ∧
    memory a' = memory a ∧ numbers_of t' = said_numbers nb text.
Proof.
  intros Hcw Hrt Hbs nb Hlen Hwnd Hbig Hsize.
  pose proof Hcw as [Hst Hidle Ho Hends (Hpq & Hf & Hm) Hu _ Hnil].
  pose proof (inv_ok _ (open_inv _ _ _ _ Ho)) as Hok.
  assert (cb_size pq + len text ≤ cb_capacity pq) as Hfit.
  { pose proof (in_flight_size t pq Hok Hu). destruct Hok as (_ & _ & (_ & _ & _ & _ & Hc1) & _).
    rewrite Hpq in Hc1. unfold nb, numbers_of in *. cbn [nb_nxt nb_una nb_wnd] in *. lia. }
  destruct (say_calls s n a t pq wsp kw rsp kr text Hcw Hbs Hfit Hsize)
    as (s2 & a2 & Hsay & Hst2 & Ho2 & Ecbs & Emem & Ebase).
  set (k := length (io_cbs a)) in *. set (pq1 := cb_insert_end text pq) in *.
  set (t1 := set_on_data_receive [(rsp, S k)] _) in *.
  destruct (async_write_run t pq text 0 Hok Hpq Hfit) as (_ & _ & _ & Hun).
  destruct (Hun Hf) as [Hu1 Hf1]. rewrite Hu in Hu1. cbn [app] in Hu1.
  assert (mgr_base (mngr a) = mk_base true []) as Hq by exact (proj2 Hidle PMgr).
  destruct (say_closures s2 n a2 t1 pq1 k kw text nb Hst2 Ho2)
    as (s4 & a4 & texts & ps & Hrun & Hst4 & Hq4 & Ho4 & Hflow4 & Hu4 & Emem4 & Ecbs4 & Ec & Hlens & Hev & Hps);
    [done|by split_and!|exact Hu1|exact Hlen|by rewrite Ecbs, lookup_app_r, Nat.sub_diag by done|done|done|
     by rewrite Ebase|].
  set (t3 := after_packet t1 (len text)) in *. change (send_mss (send_ t1)) with (nb_mss nb) in Hlens, Hev.
  destruct (idle_unqueued n a a4 Hidle) as [Hidle2 _].
  pose proof (Forall2_length _ _ _ Hps) as Hl. rewrite length_text_segments in Hl.
  assert (Forall summable (text_segments nb texts)) as Hsum.
  { apply summable_segments; [|intros HB; apply Hev; by apply Hbig].
    eapply Forall_impl; [exact Hlens|]. cbn. destruct Hok as (_ & _ & (_ & _ & _ & Hmss & _) & _).
    unfold nb, is_u in *. cbn. lia. }
  destruct (segments_leave addr_of Heven jp te nh d' src_mac mac s4 n a4 ps (text_segments nb texts))
    as (fr & frs & s5 & x & skbs & Hskbs & Hcar & R5 & Hst5); [|done..|apply Hrt|done|done|].
  { intros ->. destruct texts; [|done]. subst text. cbn in Hlen. lia. }
  rewrite Hl in Hst5, R5.
  exists texts, fr, frs, s5, (unqueued a4), t3, pq1, (S k), x, skbs. cbv zeta.
  split; [|split; [exact Hst5|split; [exact Hskbs|split; [exact Ec|split; [exact Hlens|split; [exact Hev|split;
    [exact Hcar|split; [|split; [|split; [by rewrite <- Emem, <- Emem4|done]]]]]]]]]].
  - apply Hsay. rewrite <- Emem. unfold say_fuel. rewrite (contents_size _ _ _ Hbs), Nat2Z.id.
    pose proof (length_pieces texts _ Hlens) as Hk. rewrite Ec in Hk.
    apply Hrun. replace (5 * length text)%nat with (5 * length texts + 5 * (length text - length texts))%nat by lia.
    apply until_idle_more. exact R5.
  - intros s6 Hst6. split; try done.
    pose proof (idle_unqueued n a a4 Hidle) as [Hid _].
    apply (many_sent_keeps (λ m, idle (set_tcb_m (mngr (unqueued a4)) (set_io_ctx [] m)))); [|done].
    intros m Hm'. exact (idle_ip (ipv4_ (one_sent m)) _ Hm' eq_refl eq_refl).
  - change (io_cbs (unqueued a4)) with (io_cbs a4). rewrite Ecbs4, Ecbs, lookup_app_r by (unfold k; lia).
    unfold k. by replace (S (length (io_cbs a)) - length (io_cbs a))%nat with 1%nat by lia.
Qed.

(** *** The answer *)

(** What a read of which [rsp] was missing does with [text]: it is complete,
    or the rest is read. *)
Definition reads_on (total : Z) (rsp : span) (kr : nat) (text : list byte) a
    (waiting : list (span * nat)) (out : list app_event) : Prop :=
  if decide (len text = sp_size rsp) then waiting = [] ∧ out = [AppIo kr false total (memory a)]
  else ∃ k, waiting = [(sp_from (len text) rsp, k)] ∧
    io_cbs a !! k = Some (reader total (sp_from (len text) rsp) kr) ∧ out = [].

(** The closure of the read, and then an acknowledgment is queued. *)
Lemma reader_runs a t rsp kr total text :
  open_at sk te a t → on_data_receive_ t = [] → buffered t = [] → len text ≤ sp_size rsp → 0 ≤ total < 2 ^ 64 →
  ∃ a' waiting out, run_io (reader total rsp kr) false (len text) [] a = Ok ((), a', out) ∧
    open_at sk te a' (set_on_data_receive waiting t) ∧ reads_on total rsp kr text a' waiting out ∧
    memory a' = memory a ∧ mgr_base (mngr a') = mgr_base (mngr a) ∧
    concat (app_posts <$> out) = [] ∧ concat (app_out <$> out) = OfApp <$> out.
Proof.
  intros Ho Hnone Hnil Hlen Htotal. unfold reader, reads_on. cbn [run_io].
  assert (set_on_data_receive [] t = t) as Enone by (destruct t; cbn in *; by subst).
  destruct (decide (len text = sp_size rsp)) as [Hfull|Hpart].
  - exists a, [], [AppIo kr false total (memory a)]. rewrite Enone. split_and!; try done.
    rewrite Hfull, Z.ltb_irrefl. cbn [negb run_io]. rewrite Z.sub_0_r.
    assert (u64 total = total) as -> by ulia. by rewrite bind_get.
  - replace (len text <? sp_size rsp) with true by lia. cbn [negb].
    destruct (read_waits sk te a t (sp_from (len text) rsp) (reader total (sp_from (len text) rsp) kr))
      as (E & Ho' & Hcb); [done..|cbn; lia|].
    eexists _, _, []. split; [exact E|]. split; [exact Ho'|]. split; [by eexists|].
    split_and!; try done. cbn. rewrite app_nil_r. by destruct (mgr_base (mngr a)).
Qed.

Lemma read_done_runs a t pq rsp k kr total text :
  open_at sk te a t → flow t pq → unsent t pq = [] → on_data_receive_ t = [] → buffered t = [] →
  io_cbs a !! k = Some (reader total rsp kr) → len text ≤ sp_size rsp → 0 ≤ total < 2 ^ 64 →
  mgr_base (mngr a) = mk_base true [] →
  ∃ p a' waiting out, let t' := set_on_data_receive waiting t in
    (∃ es, exec jp te (TaskReadDone k (len text)) [] a = Ok ((), a', es) ∧
       concat (app_posts <$> es) = [KBase PMgr] ∧ concat (app_out <$> es) = OfApp <$> out) ∧
    open_at sk te a' (after_packet t' 0) ∧ packet_of t' (out_header t' 0) [] p ∧
    flow (after_packet t' 0) pq ∧ unsent (after_packet t' 0) pq = [] ∧ mgr_base (mngr a') = mk_base true [p] ∧
    memory a' = memory a ∧ reads_on total rsp kr text a' waiting out.
Proof.
  intros Ho (Hpq & Hf & Hm) Hu Hnone Hnil Hcb Hlen Htotal Hbase.
  destruct (reader_runs a t rsp kr total text Ho Hnone Hnil Hlen Htotal)
    as (a1 & waiting & out & E1 & Ho1 & Hreads & Hmem & Hbase1 & Eposts & Eouts).
  set (t1 := set_on_data_receive waiting t) in *. pose proof (inv_ok _ (open_inv _ _ _ _ Ho1)) as Hok.
  assert (next_len t1 pq = 0) as Hn.
  { pose proof (next_len_range t1 pq Hok) as Hn. change (unsent t1 pq) with (unsent t pq) in Hn.
    rewrite Hu in Hn. cbn in Hn. lia. }
  destruct (open_sends sk te a1 t1 pq Ho1 Hpq) as (p & E & Ho' & Hp). rewrite Hn in *.
  change (unsent t1 pq) with (unsent t pq) in Hp. rewrite Hu in Hp.
  destruct (unsent_after_packet t1 pq 0 Hok Hpq Hf) as [Hu' Hf']; [lia|].
  change (unsent t1 pq) with (unsent t pq) in Hu'. rewrite Hu in Hu'.
  exists p, (advanced te (after_packet t1 0) [EvEnqueue p] a1), waiting, out. cbv zeta. fold t1.
  split; [|split; [exact Ho'|split; [exact Hp|split; [by split|split; [exact Hu'|split; [|split; [exact Hmem|]]]]]]].
  - exists (out ++ posts_of te [EvEnqueue p]). split; [|split].
    + unfold exec. rewrite bind_get, Hcb. exact (bind_run_Ok _ _ _ () a1 out _ _ _ E1 E).
    + by rewrite fmap_app, concat_app, Eposts.
    + by rewrite fmap_app, concat_app, Eouts, app_nil_r.
  - cbn. by rewrite Hbase1, Hbase.
  - exact Hreads.
Qed.

Definition told_numbers (nb : numbers) th (text : list byte) : numbers :=
  mk_numbers (u32 (nb_rcv nb + len text)) (ack_no th) (nb_nxt nb) (nb_mss nb) (nb_wnd nb).

(** The next text arrives, and acknowledges something that was sent: seven
    closures. *)
Lemma told_round s n a t pq eh iph th text rsp k kr total :
  connected_with [(rsp, k)] s n a t pq → io_cbs a !! k = Some (reader total rsp kr) → len text ≤ sp_size rsp →
  0 ≤ total < 2 ^ 64 → routed te d nh d' src_mac mac n → frame_for te eh iph th →
  text_next (numbers_of t) th text →
  let nb := told_numbers (numbers_of t) th text in
  ∃ s1 s2 a' t' pq' frame waiting out,
    hear addr_of run_cb junk isn jp d eh iph th text s =
      Ok ((), s1, OfNet (NetRead d 1500) :: (OfApp <$> out) ++ [OfNet (NetWrite d' frame)]) ∧
    prog_act addr_of run_cb (ProgWriteDone d' false) s1 = Ok ((), s2, []) ∧
    carried te src_mac mac n (ack_header te nb) [] frame ∧
    connected_with waiting s2 (one_sent n) a' t' pq' ∧ memory a' = fill rsp text (memory a) ∧
    reads_on total rsp kr text a' waiting out ∧ numbers_of t' = nb.
Proof.
  intros [Hst Hidle Ho [Er El] Hflow Hu Hw Hnil] Hcb Hsize Htotal Hrt Hframe Htext nb.
  assert (next_text t th text) as Hnext by exact Htext.
  destruct (text_arrives addr_of run_cb junk isn Hisn sk te d nh d' src_mac mac s n a t pq eh iph th text rsp k)
    as (s1 & E1 & Hst1 & Ho1 & Hnil1); [done..|].
  pose proof (inv_ok _ (open_inv _ _ _ _ Ho)) as Hok.
  destruct (delivered_numbers t pq th text rsp Hok Hflow Hu Hnext) as (pq1 & Hflow1 & Hu1 & _ & Hrn & Hun); [done|].
  set (t1 := text_delivered t pq th rsp text) in *. set (a1 := advanced te t1 _ a) in *.
  assert (mgr_base (mngr a1) = mk_base true []) as Hq.
  { pose proof (proj2 Hidle PMgr) as E. cbn in E |- *. by rewrite E. }
  destruct (read_done_runs (set_tasks [] a1) t1 pq1 rsp k kr total text)
    as (p & a2 & waiting & out & (es & E2 & Eposts & Eouts) & Ho2 & Hp & Hflow2 & Hu2 & Hq2 & Hmem2 & Hreads);
    [by apply open_at_tasks|done..|].
  set (t2 := set_on_data_receive waiting t1) in *.
  destruct (app_steps addr_of jp s1 n te _ _ a1 a2 _ Hst1 E2) as (s2 & R2 & Hst2). rewrite Eposts in Hst2. rewrite Eouts in R2.
  destruct (idle_unqueued n a a2 Hidle) as [Hidle2 Hidle3].
  destruct (echo_leaves addr_of run_cb Heven jp te d nh d' src_mac mac s2 n a2 t2 (out_header t2 0) [] p)
    as (dg & s3 & s4 & Hdg & Hz & R3 & E4 & Hst4); try done.
  exists s3, s4, (unqueued a2), (after_packet t2 0), pq1, (frame_bytes src_mac mac dg (seq_ (ipv4_ n))), waiting, out.
  assert (is_u 32 (seq_nr_next (send_ t))) as Hn by apply Hok.
  split; [|split; [exact E4|split; [|split; [|split; [exact Hmem2|split; [exact Hreads|]]]]]].
  - apply (bind_run_Ok _ _ _ () s1 [OfNet (NetRead d 1500)] _ _ _ E1).
    apply (until_idle_more addr_of jp 2 6).
    eapply (until_idle_steps addr_of jp 5 s1 s2); [by rewrite (proj1 Hst1)|exact R2|exact R3].
  - exists dg. split; [done|]. rewrite <- Er, <- El. split; [|done].
    assert (out_header t2 0 = ack_header te nb) as <-; [|exact Hdg].
    unfold out_header, ack_header, nb, told_numbers. cbn -[u32 t1]. rewrite Hun, Hrn. cbn -[u32]. rewrite Er, El.
    rewrite (open_next _ _ _ _ Ho). by destruct Hok as (_ & _ & _ & _ & -> & _).
  - split; try done. by destruct Ho2.
  - unfold numbers_of at 1, nb, told_numbers. cbn -[u32 t1]. rewrite Hrn, Hun. cbn -[u32].
    by rewrite Z.add_0_r, (u32_small _ Hn).
Qed.
End Talk.
