(* ===== verification/Neighbours.v ===== *)
(** * Programs that do not know each other

    The steps of [Resolve] in whole programs: a segment asks for the MAC
    address of its next hop, a program answers such a request, and a program
    that gets the answer sends what has waited. *)

From S2P Require Import Prelude Utils Skbuff Addr Headers TcpOptions CircularBuffer Tcb TcbFacts TcbSend.
From S2P Require Import TcbRecv TcbState BaseProtocol Packets TcbManager Socket SocketFacts Tcp NeighCache.
From S2P Require Import RoutingTable Arp Ipv4 Ethernet Device Stack Layers Netns NetnsFacts NetnsRun Ping.
From S2P Require Import Resolve Program Prior ProgramFacts EchoFrame EchoOpen ClientOpen.

Section Neighbours.
Context `{Hh : Host} {Sig : Type} `{Hsig : Signal ethernetv2_frame Sig}
  `{Hspec : !SignalSpec ethernetv2_frame Sig}.
Context {B : Type} `{Hc : CircularBuffer B} `{Hs : !CircularBufferSpec B}.
Context (addr_of : skbuff → Z) (run_cb : nat → endpoint → endpoint → M tcp tcp_event bool).
Context (Heven : ∀ skb, Z.even (addr_of skb) = true).
Context (junk : indeterminate) (isn jp : Z).
Implicit Types (n : netns Sig B) (s : program Sig B) (a : application B) (t : tcb_t B) (f : ethernetv2_frame).

(** The layers of a program that stands. *)
Abbreviation layers n a := (set_tcb_m (mngr a) (set_io_ctx [] n)).

(** ** A segment that waits *)

(** [f] holds the segment, and leaves once its MAC address is known. *)
Definition held te src_mac d n hdr (text : list byte) f : Prop :=
  has_room 14 (frame_skb f) ∧ frame_dev f = Some d ∧
  ∀ mac, carried te src_mac mac n hdr text
    (ethernetv2_header.produce_to_net (mk_eth_header mac (src_mac_addr f) (frame_proto f)) ++ payload (frame_skb f)).

Definition request (nh : rt_record) (src_mac : mac_addr_t) : list byte :=
  arp_frame mac_addr.broadcast src_mac (question src_mac (from_addrv4 nh) (via_addrv4 nh)).

(** The datagram: three closures. *)
Lemma datagram_asks s n a te t hdr text dg nh d src_mac :
  stands s (put_base PTcp (mk_base true [dg]) n) [KBase PTcp] a → idle (layers n a) →
  has_room 34 (ipp_skb dg) → carries dg (local_ep_ t) (remote_ep_ t) hdr text →
  remote_ep_ t = te_remote_ep te → local_ep_ t = te_local_ep te →
  unknown_hop n (addrv4 (te_remote_ep te)) nh d src_mac →
  ∃ s1 s2 f, prog_until_idle addr_of jp 3 s = Ok ((), s1, [OfNet (NetWrite d (request nh src_mac))]) ∧
    prog_act addr_of run_cb (ProgWriteDone d false) s1 = Ok ((), s2, []) ∧
    stands s2 (with_waiting f (via_addrv4 nh) (one_sent n)) [] a ∧ held te src_mac d n hdr text f.
Proof.
  intros Hst Hidle Hroom Hdg Er El Hhop. set (n0 := layers n a) in Hidle.
  assert (dst_addrv4 dg = addrv4 (te_remote_ep te)) as Hdst by (rewrite <- Er; apply Hdg). rewrite <- Hdst in Hhop.
  destruct (question_leaves addr_of Heven dg n0 nh d src_mac Hidle Hhop Hroom)
    as (skb & n2 & Hr & Hp & Hz & Erun & Ew).
  set (f := mk_frame src_mac mac_addr.zero IP_PROTO skb (Some d)) in *.
  pose proof (stands_app s _ _ a Hst) as Ea. destruct Hst as [En _]. destruct s as [ns as_]. cbn [net_ app_] in En, Ea.
  subst ns. exists (mk_program n2 as_). eexists. exists f. split; [|split; [|split; [|split; [done|split; [done|]]]]].
  - exact (net_alone addr_of jp 3 (one_left PTcp dg n0) _ _ as_ eq_refl Erun).
  - cbn [prog_act]. unfold call_net. cbn [net_ app_]. rewrite Ew. reflexivity.
  - cbn. rewrite Ea. by split.
  - intros mac. exists dg. rewrite <- Er, <- El. unfold frame_bytes.
    change (seq_ (ipv4_ n0)) with (seq_ (ipv4_ n)) in Hp. by rewrite <- Hp.
Qed.

(** ** A frame that is answered by one *)

Lemma answered_round s n a d buf n' frame :
  stands s n [] a → answered_by addr_of run_cb junk isn d buf (layers n a) (layers n' a) frame →
  ∃ s1 s2, (_ ← prog_act addr_of run_cb (ProgReadDone junk isn d false buf (len buf));
            prog_until_idle addr_of jp 8) s =
      Ok ((), s1, [OfNet (NetRead d 1500); OfNet (NetWrite d frame)]) ∧
    prog_act addr_of run_cb (ProgWriteDone d false) s1 = Ok ((), s2, []) ∧ stands s2 n' [] a.
Proof.
  intros Hst (p & x & n2 & Er & Erun & Ew). pose proof (stands_app s _ _ a Hst) as Ea.
  destruct Hst as [En Eapp]. destruct s as [ns as_]. cbn [net_ app_] in En, Ea. subst ns.
  assert (set_io_ctx [] (set_tcb_m (mngr a) n) = layers n a) as E0 by done.
  exists (mk_program n2 as_). eexists. split; [|split].
  - apply (bind_run_Ok _ _ _ () (mk_program (one_left p x (layers n' a)) as_) [OfNet (NetRead d 1500)] _ _
      [OfNet (NetWrite d frame)]).
    + cbn [prog_act]. unfold call_net. cbn [net_ app_]. rewrite E0, Er. cbn. by destruct as_.
    + apply (until_idle_more addr_of jp 6 2). exact (net_alone addr_of jp 2 (one_left p x (layers n' a)) n2 [NetWrite d frame] as_ eq_refl Erun).
  - cbn [prog_act]. unfold call_net. cbn [net_ app_]. rewrite Ew. reflexivity.
  - cbn. rewrite Ea. by split.
Qed.

(** The question is answered. *)
Lemma question_round s n a src_mac from_ to_ mac d :
  stands s n [] a → idle (layers n a) → devs n !! d = Some (mk_device []) → neigh.query to_ (cache n) = Some mac →
  ipv4_ok from_ → ipv4_ok to_ → learnable src_mac →
  let buf := arp_frame mac_addr.broadcast src_mac (question src_mac from_ to_) in
  ∃ s1 s2, (_ ← prog_act addr_of run_cb (ProgReadDone junk isn d false buf (len buf));
            prog_until_idle addr_of jp 8) s =
      Ok ((), s1, [OfNet (NetRead d 1500);
        OfNet (NetWrite d (arp_frame src_mac mac (Arp.reply_header (question src_mac from_ to_) mac)))]) ∧
    prog_act addr_of run_cb (ProgWriteDone d false) s1 = Ok ((), s2, []) ∧ stands s2 (knows from_ src_mac n) [] a.
Proof.
  intros Hst Hidle Hdev Hq Hfrom Hto Hlearn buf. apply answered_round with n; [done|].
  by apply (question_answered addr_of run_cb junk isn src_mac from_ to_ mac d (layers n a)).
Qed.

(** The answer is taken, and what has waited leaves. *)
Lemma reply_round s n a src_mac from_ to_ mac f d :
  stands s n [] a → idle (layers n a) → devs n !! d = Some (mk_device []) → waiting n to_ = [f] →
  has_room 14 (frame_skb f) → frame_dev f = Some d → ipv4_ok from_ → ipv4_ok to_ → learnable mac →
  let buf := arp_frame src_mac mac (Arp.reply_header (question src_mac from_ to_) mac) in
  ∃ s1 s2, (_ ← prog_act addr_of run_cb (ProgReadDone junk isn d false buf (len buf));
            prog_until_idle addr_of jp 8) s =
      Ok ((), s1, [OfNet (NetRead d 1500); OfNet (NetWrite d (ethernetv2_header.produce_to_net
        (mk_eth_header mac (src_mac_addr f) (frame_proto f)) ++ payload (frame_skb f)))]) ∧
    prog_act addr_of run_cb (ProgWriteDone d false) s1 = Ok ((), s2, []) ∧
    stands s2 (without_waiting to_ (knows to_ mac n)) [] a.
Proof.
  intros Hst Hidle Hdev Hwait Hr Hd Hfrom Hto Hlearn buf. apply answered_round with n; [done|].
  by apply (answer_taken addr_of run_cb junk isn src_mac from_ to_ mac f d (layers n a)).
Qed.

(** ** The SYN waits *)

(** [async_connect] to a peer behind an unknown next hop: the call and four
    closures. *)
Lemma connect_asks s n a te sk k nh d src_mac ports moved :
  ind_ok junk → is_u 32 isn → stands s n [] a → idle (layers n a) → unknown_hop n (addrv4 (te_remote_ep te)) nh d src_mac →
  tcbs_ (mngr a) !! te = None → is_Some (sockets a !! sk) →
  endpoint_ok (te_remote_ep te) → endpoint_ok (te_local_ep te) →
  ∃ s1 s2 a' t opts f,
    (_ ← prog_act addr_of run_cb (connect junk isn sk k te ports moved); prog_until_idle addr_of jp 8) s =
      Ok ((), s1, [OfNet (NetWrite d (request nh src_mac))]) ∧
    prog_act addr_of run_cb (ProgWriteDone d false) s1 = Ok ((), s2, []) ∧
    stands s2 (with_waiting f (via_addrv4 nh) (one_sent n)) [] a' ∧ held te src_mac d n (connect_header isn te) opts f ∧
    (len opts = 8 ∧ decode_options opts = Ok [mss 1446]) ∧ idle (layers (with_waiting f (via_addrv4 nh) (one_sent n)) a') ∧
    syn_sent sk k te a' t ∧ nb_una (numbers_of t) = isn ∧ nb_nxt (numbers_of t) = u32 (isn + 1) ∧
    nb_mss (numbers_of t) = ind_mss junk ∧ memory a' = memory a.
Proof.
  intros Hjunk Hisn Hst Hidle Hhop Hnone Hsk Hre Hle.
  destruct (connect_called addr_of run_cb junk isn Hjunk Hisn sk k te s n a ports moved)
    as (s1 & a2 & t & p & opts & E1 & Hst1 & Hsyn & Hmem); [done..|].
  destruct Hsyn as (Hq & Hlen & Hdec & (t0 & Hp & Er & El) & Hss & Hu & Hn & Hm).
  destruct (idle_unqueued n a a2 Hidle) as [Hidle2 Hidle3].
  destruct (mgr_closure_steps addr_of Heven jp s1 n a2 [] t0 (connect_header isn te) opts p Hst1 Hq)
    as (dg & s2 & Hroom & Hdg & R2 & Hst2); [exact (proj2 Hidle PTcp)|done|lia|by rewrite Hlen|].
  destruct (datagram_asks s2 n (unqueued a2) te t0 (connect_header isn te) opts dg nh d src_mac)
    as (s3 & s4 & f & R3 & E4 & Hst4 & Hheld); [done..|].
  exists s3, s4, (unqueued a2), t, opts, f. split; [|split; [done|split; [done|split; [done|split; [done|split;
    [by apply (idle_waiting f (via_addrv4 nh)) in Hidle3|by split_and!]]]]]].
  apply (bind_run_Ok _ _ _ () s1 [] () s3 [OfNet (NetWrite d _)]); [exact E1|].
  apply (until_idle_more addr_of jp 4 4 s1).
  exact (until_idle_steps addr_of jp 3 s1 s2 [] s3 _ ltac:(by rewrite (proj1 Hst1)) R2 R3).
Qed.
End Neighbours.
