(* ===== verification/Wire.v ===== *)
(** * A wire between two programs

    The frame that one end of a connection writes is, for the other, a frame
    of the same connection with its ends swapped, on a host of either byte
    order.  Two programs run beside each other; what the device of one writes
    is what the device of the other reads. *)

From S2P Require Import Prelude Utils Skbuff Addr Headers TcpOptions CircularBuffer Tcb TcbFacts TcbSend.
From S2P Require Import TcbRecv TcbState TcbHandshake BaseProtocol Packets TcbManager Socket SocketFacts Echo.
From S2P Require Import Accept Tcp NeighCache RoutingTable Arp Ipv4 Ethernet Device Stack Layers Netns.
From S2P Require Import NetnsFacts NetnsRun Ping Program Prior ProgramFacts EchoFrame EchoOpen EchoServer.

(** ** The frame of one end is a frame for the other *)

(** The connection, as the other end names it. *)
Definition mirror (te : two_ends_t) : two_ends_t := mk_two_ends (te_local_ep te) (te_remote_ep te).
Lemma mirror_mirror te : mirror (mirror te) = te.
Proof. by destruct te. Qed.

Section Link.
Context (H1 H2 : Host) {Sig : Type} `{Hsig : Signal ethernetv2_frame Sig} {B : Type}.
Implicit Types (n : netns Sig B) (te : two_ends_t) (text : list byte).

(** A header that the end [te] sends, with the next datagram of [n]. *)
Definition sendable n te hdr : Prop :=
  tcp_header_ok hdr ∧ src_port hdr = addrv4_port (te_local_ep te) ∧
  dst_port hdr = addrv4_port (te_remote_ep te) ∧ endpoint_ok (te_remote_ep te) ∧
  endpoint_ok (te_local_ep te) ∧ is_u 16 (seq_ (ipv4_ n)).

Lemma chsum_ok c hdr : is_u 16 c → tcp_header_ok hdr → tcp_header_ok (with_tcp_chsum c hdr).
Proof. intros Hc. unfold with_tcp_chsum, tcp_header_ok. cbn -[is_u]. intros ?. destruct_and!. by split_and!. Qed.

Lemma carried_is_frame te src_mac mac n hdr text frame :
  carried (Hh := H1) te src_mac mac n hdr text frame → sendable n te hdr →
  ∃ eh iph c, let th := with_tcp_chsum c hdr in
    frame = text_frame (Hh := H2) eh iph th text ∧ frame_for (mirror te) eh iph th.
Proof.
  intros (dg & -> & (Es & Ed & Ep & c & Hc & Hp & _) & _) (Hok & Hsp & Hdp & [Hr _] & [Hl _] & Hseq).
  exists (mk_eth_header mac src_mac IP_PROTO), (sent_header (Hh := H1) dg (seq_ (ipv4_ n))), c. cbv zeta.
  split.
  - unfold frame_bytes, text_frame. by rewrite Hp, (eth_produce_host H1 H2), (ipv4_produce_host H1 H2),
      (tcp_produce_host H1 H2).
  - assert (ipv4_header_ok (ip_header dg (seq_ (ipv4_ n)))) as Hok1.
    { apply ip_header_ok; [|done]. unfold packet_ok. rewrite Es, Ed, Ep. by split_and!. }
    split; [done|]. split; [|split; [by apply chsum_ok|]].
    + unfold sent_header, with_chsum, ipv4_header_ok in *. cbn -[is_u rfc1071] in *.
      destruct_and!. split_and!; try done. apply rfc1071_is_u.
    + split; [done|]. split; [done|]. split; [exact Ep|].
      unfold sent_header, with_chsum, ip_header, with_tcp_chsum, mirror. cbn. rewrite Es, Ed, Hsp, Hdp.
      by destruct te as [[] []].
Qed.

Lemma length_text_frame eh iph th text : len (text_frame (Hh := H2) eh iph th text) = 54 + len text.
Proof.
  unfold text_frame. pose proof (eth_length (H := H2) eh). pose proof (ipv4_length (H := H2) iph).
  pose proof (tcp_length (H := H2) th). rewrite !length_app. lia.
Qed.
End Link.

(** ** The wire *)

Inductive side : Type := AtClient | AtServer.
Definition other (sd : side) : side := match sd with AtClient => AtServer | AtServer => AtClient end.

(** Where a program stands: its host, the addresses of its buffers, the
    device at the wire, and what it finds when it creates a connection: the
    initial sequence number, what the memory of the block holds, and the
    port that a socket has. *)
Record place : Type := mk_place {
  pl_host : Host; pl_addr : skbuff → Z; pl_dev : nat;
  pl_isn : Z; pl_junk : indeterminate; pl_port : Z;
}.

(** The two programs, and the frames that have been written and not read,
    with where they go. *)
Record wired (Sig B : Type) : Type := mk_wired {
  client_ : program Sig B; server_ : program Sig B; wire_ : list (side * list byte);
}.
Arguments mk_wired {Sig B}. Arguments client_ {Sig B}. Arguments server_ {Sig B}. Arguments wire_ {Sig B}.

Section Wire.
Context {Sig : Type} `{Hsig : Signal ethernetv2_frame Sig} {B : Type} `{Hc : CircularBuffer B}.
Context (pl : side → place) (run_cb : nat → endpoint → endpoint → M tcp tcp_event bool).
Implicit Types (w : wired Sig B) (s : program Sig B).
Abbreviation PM := (M (program Sig B) prog_event).
Abbreviation WM := (M (wired Sig B) (side * app_event)).

Definition program_at (sd : side) w : program Sig B :=
  match sd with AtClient => client_ w | AtServer => server_ w end.
Definition put_program (sd : side) s (frames : list (side * list byte)) w : wired Sig B :=
  match sd with
  | AtClient => mk_wired s (server_ w) frames
  | AtServer => mk_wired (client_ w) s frames
  end.

(** What a program writes to a device, and what its user sees. *)
Fixpoint written (d : nat) (es : list prog_event) : list (list byte) :=
  match es with
  | [] => []
  | OfNet (NetWrite d' frame) :: es => if decide (d' = d) then frame :: written d es else written d es
  | _ :: es => written d es
  end.
Fixpoint app_seen (es : list prog_event) : list app_event :=
  match es with
  | [] => []
  | OfApp ev :: es => ev :: app_seen es
  | OfNet _ :: es => app_seen es
  end.

(** The writes complete, and those that are started then. *)
Fixpoint settle (sd : side) (fuel : nat) (es : list prog_event) : PM unit :=
  match fuel with
  | O => fail OutOfFuel
  | S fuel =>
      es' ← heard (complete (Hh := pl_host (pl sd)) (pl_addr (pl sd)) run_cb es);
      match es' with [] => mret () | _ => settle sd fuel es' end
  end.

(** A program acts, and what it writes is on the wire.  Each write of the
    device takes a packet from its queue. *)
Definition backlog (d : nat) s : nat := default 0%nat (length ∘ out_skb_q_ <$> devs (net_ s) !! d).
Definition at_side (sd : side) (op : PM unit) : WM unit := λ w,
  match (es ← heard op; s ← get; settle sd (S (backlog (pl_dev (pl sd)) s)) es) (program_at sd w) with
  | Ok (_, s, es) =>
      Ok ((), put_program sd s (wire_ w ++ (pair (other sd) <$> written (pl_dev (pl sd)) es)) w,
          pair sd <$> app_seen es)
  | Fault f => Fault f
  end.

(** The read of its device completes with a frame: at most 1500 bytes of it,
    which is what it was started for. *)
Definition hears (sd : side) (frame : list byte) : PM unit :=
  let got := take 1500 frame in
  _ ← prog_act (Hh := pl_host (pl sd)) (pl_addr (pl sd)) run_cb
    (ProgReadDone (pl_junk (pl sd)) (pl_isn (pl sd)) (pl_dev (pl sd)) false got (len got));
  prog_until_idle (Hh := pl_host (pl sd)) (pl_addr (pl sd)) (pl_port (pl sd)) 8.

(** The frame that was written first is read. *)
Definition deliver : WM unit :=
  w ← get;
  match wire_ w with
  | [] => mret ()
  | (sd, frame) :: q =>
      _ ← modify (λ w, mk_wired (client_ w) (server_ w) q);
      at_side sd (hears sd frame)
  end.
Fixpoint until_quiet (fuel : nat) : WM unit :=
  w ← get;
  match wire_ w with
  | [] => mret ()
  | _ :: _ =>
      match fuel with
      | O => fail OutOfFuel
      | S fuel => _ ← deliver; until_quiet fuel
      end
  end.

(** *** One step *)

(** What [op] does, when its writes complete without a new one. *)
Lemma at_side_run sd op w s1 s2 es :
  op (program_at sd w) = Ok ((), s1, es) →
  complete (Hh := pl_host (pl sd)) (pl_addr (pl sd)) run_cb es s1 = Ok ((), s2, []) →
  at_side sd op w =
    Ok ((), put_program sd s2 (wire_ w ++ (pair (other sd) <$> written (pl_dev (pl sd)) es)) w,
        pair sd <$> app_seen es).
Proof.
  intros E W. unfold at_side, heard. unfold mbind, M_bind. rewrite E. cbn [settle get].
  unfold heard, mbind, M_bind. rewrite W. cbn. by rewrite app_nil_r.
Qed.

(** What a device has in its queue is written, one after the other. *)
Definition writes_once (sd : side) (es : list prog_event) : Prop :=
  ∀ s, complete (Hh := pl_host (pl sd)) (pl_addr (pl sd)) run_cb es s =
    prog_act (Hh := pl_host (pl sd)) (pl_addr (pl sd)) run_cb (ProgWriteDone (pl_dev (pl sd)) false) s.
Lemma complete_one sd fr : writes_once sd [OfNet (NetWrite (pl_dev (pl sd)) fr)].
Proof.
  intros s. cbn [complete]. unfold mbind, M_bind. destruct (prog_act _ _ _ s) as [[[[] s1] es]|]; [|done].
  cbn. by rewrite app_nil_r.
Qed.
Lemma complete_app sd k ec n mem es :
  writes_once sd es → writes_once sd (OfApp (AppIo k ec n mem) :: es).
Proof. intros Hes s. exact (Hes s). Qed.

Lemma write_done_run (Hh : Host) addr_of d x skbs s (n : netns Sig B) a :
  stands s (queued_at d (x :: skbs) n) [] a → devs n !! d = Some (mk_device []) →
  ∃ s', prog_act (Hh := Hh) addr_of run_cb (ProgWriteDone d false) s =
      Ok ((), s', (λ skb, OfNet (NetWrite d (payload skb))) <$> take 1 skbs) ∧
    stands s' (match skbs with [] => n | y :: q => queued_at d (skb_moved y :: q) n end) [] a.
Proof.
  intros Hst Hdev. pose proof (stands_app s _ _ a Hst) as Ea. destruct Hst as [En _].
  destruct s as [ns as_]. cbn [net_ app_] in *. subst ns. cbn [prog_act]. unfold call_net. cbn [net_ app_].
  destruct skbs as [|y q].
  - eexists. rewrite (written_run d x _ (lookup_insert_eq _ _ _)). split; [reflexivity|].
    split; cbn; [|by rewrite Ea]. rewrite insert_insert_eq, insert_id by done. by destruct n.
  - eexists. rewrite (written_queued d x y q _ (lookup_insert_eq _ _ _)). split; [reflexivity|].
    split; cbn; [|by rewrite Ea]. unfold queued_at. cbn. by rewrite insert_insert_eq.
Qed.

Lemma settle_queue sd skbs : ∀ x s (n : netns Sig B) a es,
  writes_once sd es → stands s (queued_at (pl_dev (pl sd)) (x :: skbs) n) [] a →
  devs n !! pl_dev (pl sd) = Some (mk_device []) →
  ∃ s', settle sd (S (S (length skbs))) es s =
      Ok ((), s', (λ skb, OfNet (NetWrite (pl_dev (pl sd)) (payload skb))) <$> skbs) ∧ stands s' n [] a.
Proof.
  induction skbs as [|y skbs IH]; intros x s n a es Hes Hst Hdev; set (d := pl_dev (pl sd)) in *;
    destruct (write_done_run (pl_host (pl sd)) (pl_addr (pl sd)) d x _ s n a Hst Hdev) as (s1 & E & Hst1);
    unfold d in E; rewrite <- Hes in E.
  - exists s1. split; [|done]. cbn [length settle]. unfold heard, mbind, M_bind. by rewrite E.
  - destruct (IH (skb_moved y) s1 n a [OfNet (NetWrite d (payload y))] (complete_one sd _) Hst1 Hdev)
      as (s2 & E2 & Hst2).
    exists s2. split; [|done].
    refine (bind_run_Ok _ (λ es', match es' with [] => mret () | _ => settle sd (S (S (length skbs))) es' end)
      _ [OfNet (NetWrite d (payload y))] s1 [OfNet (NetWrite d (payload y))] () s2 _ _ E2).
    unfold heard. by rewrite E.
Qed.

(** What [op] does, when it leaves frames for the device to write. *)
Lemma at_side_queue sd op w s1 x skbs (n : netns Sig B) a es :
  op (program_at sd w) = Ok ((), s1, es) → writes_once sd es →
  stands s1 (queued_at (pl_dev (pl sd)) (x :: skbs) n) [] a → devs n !! pl_dev (pl sd) = Some (mk_device []) →
  ∃ s2, stands s2 n [] a ∧ at_side sd op w =
    Ok ((), put_program sd s2 (wire_ w ++ (pair (other sd) <$> written (pl_dev (pl sd)) es ++ (payload <$> skbs))) w,
        pair sd <$> app_seen es).
Proof.
  intros E Hes Hst Hdev. destruct (settle_queue sd skbs x s1 n a es Hes Hst Hdev) as (s2 & Esettle & Hst2).
  assert (backlog (pl_dev (pl sd)) s1 = S (length skbs)) as Eb.
  { unfold backlog. rewrite (proj1 Hst). cbn. by rewrite lookup_insert_eq. }
  exists s2. split; [done|]. unfold at_side.
  assert ((es ← heard op; s ← get; settle sd (S (backlog (pl_dev (pl sd)) s)) es) (program_at sd w) =
    Ok ((), s2, es ++ ((λ skb, OfNet (NetWrite (pl_dev (pl sd)) (payload skb))) <$> skbs))) as ->.
  { refine (bind_run_Ok _ (λ es, s ← get; settle sd (S (backlog (pl_dev (pl sd)) s)) es) _ es s1 es _ _ _ _ _).
    - unfold heard. by rewrite E.
    - by rewrite bind_get, Eb. }
  assert (∀ es1 es2, written (pl_dev (pl sd)) (es1 ++ es2) =
    written (pl_dev (pl sd)) es1 ++ written (pl_dev (pl sd)) es2) as Happ.
  { clear. intros es1 es2. induction es1 as [|[[]|] es1 IH]; cbn; try case_decide; by rewrite ?IH. }
  assert (∀ es1 es2, app_seen (es1 ++ es2) = app_seen es1 ++ app_seen es2) as Happ2.
  { clear. intros es1 es2. induction es1 as [|[|] es1 IH]; cbn; by rewrite ?IH. }
  rewrite Happ, Happ2.
  assert (written (pl_dev (pl sd)) ((λ skb, OfNet (NetWrite (pl_dev (pl sd)) (payload skb))) <$> skbs) =
    payload <$> skbs ∧ app_seen ((λ skb, OfNet (NetWrite (pl_dev (pl sd)) (payload skb))) <$> skbs) = []) as [-> ->].
  { clear. induction skbs as [|y skbs [IH1 IH2]]; [done|]. cbn. by rewrite decide_True, IH1. }
  by rewrite app_nil_r.
Qed.

(** A frame of at most 1500 bytes is delivered. *)
Lemma deliver_frame sd frame q w s1 s2 es :
  wire_ w = (sd, frame) :: q → len frame ≤ 1500 →
  (_ ← prog_act (Hh := pl_host (pl sd)) (pl_addr (pl sd)) run_cb
         (ProgReadDone (pl_junk (pl sd)) (pl_isn (pl sd)) (pl_dev (pl sd)) false frame (len frame));
   prog_until_idle (Hh := pl_host (pl sd)) (pl_addr (pl sd)) (pl_port (pl sd)) 8) (program_at sd w) =
    Ok ((), s1, es) →
  complete (Hh := pl_host (pl sd)) (pl_addr (pl sd)) run_cb es s1 = Ok ((), s2, []) →
  deliver w = Ok ((), put_program sd s2 (q ++ (pair (other sd) <$> written (pl_dev (pl sd)) es)) w,
                  pair sd <$> app_seen es).
Proof.
  intros Hw Hlen E W. unfold deliver. rewrite bind_get, Hw, bind_modify.
  rewrite (at_side_run sd _ _ s1 s2 es); [by destruct sd| |done].
  unfold hears. rewrite take_ge by lia. by destruct sd.
Qed.

(** A frame that the other end has written is delivered. *)
Lemma deliver_run sd te src_mac mac (n : netns Sig B) hdr text frame q w (P : program Sig B → list prog_event → Prop) :
  wire_ w = (sd, frame) :: q →
  carried (Hh := pl_host (pl (other sd))) te src_mac mac n hdr text frame → sendable n te hdr →
  len text ≤ 1446 →
  (∀ eh iph c, let th := with_tcp_chsum c hdr in
     frame_for (mirror te) eh iph th → ∃ s1 s2 es,
       hear (Hh := pl_host (pl sd)) (pl_addr (pl sd)) run_cb (pl_junk (pl sd)) (pl_isn (pl sd))
         (pl_port (pl sd)) (pl_dev (pl sd)) eh iph th text (program_at sd w) = Ok ((), s1, es) ∧
       complete (Hh := pl_host (pl sd)) (pl_addr (pl sd)) run_cb es s1 = Ok ((), s2, []) ∧ P s2 es) →
  ∃ s2 es, P s2 es ∧
    deliver w = Ok ((), put_program sd s2 (q ++ (pair (other sd) <$> written (pl_dev (pl sd)) es)) w,
                    pair sd <$> app_seen es).
Proof.
  intros Hw Hcar Hsend Hlen Hhear.
  destruct (carried_is_frame _ (pl_host (pl sd)) te src_mac mac n hdr text frame Hcar Hsend)
    as (eh & iph & c & -> & Hframe).
  destruct (Hhear eh iph c Hframe) as (s1 & s2 & es & E & W & HP). exists s2, es. split; [exact HP|].
  refine (deliver_frame sd _ q w s1 s2 es Hw _ E W). rewrite length_text_frame. lia.
Qed.

Lemma until_quiet_step fuel w w1 es1 w2 es2 :
  wire_ w ≠ [] → deliver w = Ok ((), w1, es1) → until_quiet fuel w1 = Ok ((), w2, es2) →
  until_quiet (S fuel) w = Ok ((), w2, es1 ++ es2).
Proof.
  intros Hw E1 E2. cbn [until_quiet]. rewrite bind_get. destruct (wire_ w); [done|].
  exact (bind_run_Ok _ _ _ () w1 es1 () w2 es2 E1 E2).
Qed.
Lemma until_quiet_done fuel w : wire_ w = [] → until_quiet fuel w = Ok ((), w, []).
Proof. intros E. destruct fuel; cbn [until_quiet]; by rewrite bind_get, E. Qed.
(** More fuel changes nothing. *)
Lemma until_quiet_more m fuel : ∀ w r, until_quiet fuel w = Ok r → until_quiet (fuel + m) w = Ok r.
Proof.
  induction fuel as [|fuel IH]; intros w r; cbn [until_quiet Nat.add]; rewrite ?bind_get.
  - destruct (wire_ w) eqn:E; [|done]. intros <-. by rewrite until_quiet_done.
  - destruct (wire_ w); [done|]. unfold mbind, M_bind. destruct (deliver w) as [[[[] w1] es]|]; [|done].
    destruct (until_quiet fuel w1) as [r1|] eqn:E; [|done]. by rewrite (IH _ _ E).
Qed.
End Wire.
