(* ===== verification/TwoPrograms.v ===== *)
(** * Two programs on a wire

    A program that connects and the echo server of main.cpp, each with its
    sockets and layers and with a byte order of its own, and between them
    what the device of one writes and that of the other reads. *)

From S2P Require Import Prelude Utils Skbuff Addr Headers TcpOptions CircularBuffer Tcb TcbFacts TcbSend.
From S2P Require Import TcbRecv TcbState TcbHandshake BaseProtocol Packets TcbManager Socket SocketFacts Echo.
From S2P Require Import Accept Tcp NeighCache RoutingTable Arp Ipv4 Ethernet Device Stack Layers Netns.
From S2P Require Import NetnsFacts NetnsRun Ping Resolve Program Prior ProgramFacts EchoFrame EchoOpen EchoServer.
From S2P Require Import ClientOpen ClientTalk Neighbours Wire.

(** ** The two ends *)

Section Two.
Context {Sig : Type} `{Hsig : Signal ethernetv2_frame Sig} `{Hspec : !SignalSpec ethernetv2_frame Sig}.
Context {B : Type} `{Hc : CircularBuffer B} `{Hs : !CircularBufferSpec B}.
Context (pl : side → place) (run_cb : nat → endpoint → endpoint → M tcp tcp_event bool).
Context (Heven : ∀ sd skb, Z.even (pl_addr (pl sd) skb) = true).
Context (Hisn : ∀ sd, is_u 32 (pl_isn (pl sd))) (Hjunk : ∀ sd, ind_ok (pl_junk (pl sd))).
(** The connection as the client names it, the client's socket, the acceptor
    of the server; how packets leave on either side. *)
Context (te : two_ends_t) (sk acc : nat).
Context (nhC nhS : rt_record) (srcC macC srcS macS : mac_addr_t).
Implicit Types (w : wired Sig B) (n : netns Sig B) (s : program Sig B) (a : application B).
Implicit Types (conns : connections) (nb : numbers) (text : list byte).
Abbreviation WM := (M (wired Sig B) (side * app_event)).

Definition client_routed n : Prop := routed te (pl_dev (pl AtClient)) nhC (pl_dev (pl AtClient)) srcC macC n.
Definition server_routed n : Prop :=
  routed (mirror te) (pl_dev (pl AtServer)) nhS (pl_dev (pl AtServer)) srcS macS n.

(** What comes back from the server after a visit. *)
Definition sent_back n (out : outcome) (frames : list (list byte)) : Prop :=
  match out with
  | Silent => frames = []
  | Answered hdr => ∃ frame, frames = [frame] ∧
      carried (Hh := pl_host (pl AtServer)) (mirror te) srcS macS n hdr [] frame
  | Echoed hdr text => ∃ frame, frames = [frame] ∧
      carried (Hh := pl_host (pl AtServer)) (mirror te) srcS macS n hdr text frame
  end.
Definition prints (out : outcome) : list app_event :=
  match out with Echoed _ text => [AppPrint text] | _ => [] end.

Lemma shown_sent_back n v out es :
  shown (Hh := pl_host (pl AtServer)) n v out es → ends v = mirror te → server_routed n →
  sent_back n out (written (pl_dev (pl AtServer)) es) ∧ app_seen es = prints out.
Proof.
  intros Hshown He ((Hnh & Hd & Hsrc & Hmac & _) & _).
  assert (∀ hdr text d' frame, leaves (Hh := pl_host (pl AtServer)) n (ends v) hdr text d' frame →
    d' = pl_dev (pl AtServer) ∧ carried (Hh := pl_host (pl AtServer)) (mirror te) srcS macS n hdr text frame)
    as Hleaves.
  { intros hdr text d' frame (nh & src_mac & mac & (Hnh' & Hd' & Hsrc' & Hmac' & _) & Hcar). rewrite He in Hnh', Hcar.
    assert (nh = nhS) as -> by congruence. assert (src_mac = srcS) as -> by congruence.
    assert (mac = macS) as -> by congruence. split; [congruence|done]. }
  destruct out as [hdr| |hdr text]; cbn in Hshown.
  - destruct Hshown as (d' & frame & -> & Hl). destruct (Hleaves _ _ _ _ Hl) as (-> & Hcar).
    split; [|done]. cbn. rewrite decide_True by done. by exists frame.
  - by subst es.
  - destruct Hshown as (d' & frame & -> & Hl). destruct (Hleaves _ _ _ _ Hl) as (-> & Hcar).
    split; [|done]. cbn. rewrite decide_True by done. by exists frame.
Qed.

(** The server reads a frame of the client, and does what the abstract
    server does. *)
Lemma server_hears w q frame src_mac mac (nC : netns Sig B) hdr text n a conns conns' out :
  wire_ w = (AtServer, frame) :: q →
  carried (Hh := pl_host (pl AtClient)) te src_mac mac nC hdr text frame → sendable nC te hdr →
  len text ≤ 1446 → hosts (te_remote_ep te) acc (server_ w) n a conns → server_routed n →
  (∀ v, ends v = mirror te → (∃ c, v_tcp v = with_tcp_chsum c hdr) → v_rest v = text →
     v_isn v = pl_isn (pl AtServer) → v_junk v = pl_junk (pl AtServer) →
     spec_step (Hh := pl_host (pl AtServer)) (te_remote_ep te) conns v conns' out) →
  ∃ s' a' frames,
    deliver pl run_cb w = Ok ((), mk_wired (client_ w) s' (q ++ (pair AtClient <$> frames)),
                              pair AtServer <$> prints out) ∧
    hosts (te_remote_ep te) acc s' (moved_on n out) a' conns' ∧ sent_back n out frames.
Proof.
  intros Hw Hcar Hsend Hlen Hh' Hrt Hspec'.
  destruct (deliver_run pl run_cb AtServer te src_mac mac nC hdr text frame q w
    (λ s' es, ∃ a', hosts (te_remote_ep te) acc s' (moved_on n out) a' conns' ∧
       sent_back n out (written (pl_dev (pl AtServer)) es) ∧ app_seen es = prints out))
    as (s' & es & (a' & Hh1 & Hsent & Happ) & E); [done..| |].
  - intros eh iph c th Hframe.
    set (v := mk_visit (pl_dev (pl AtServer)) eh iph th text (pl_isn (pl AtServer)) (pl_junk (pl AtServer))).
    assert (ends v = mirror te) as He by (by destruct Hframe as (_ & _ & _ & _ & _ & _ & ->)).
    assert (fits n v) as Hv.
    { split; [by rewrite He|]. split; [apply Hisn|]. split; [apply Hjunk|]. rewrite He.
      by exists nhS, (pl_dev (pl AtServer)), srcS, macS. }
    destruct (visit_step (Hh := pl_host (pl AtServer)) (pl_addr (pl AtServer)) run_cb (Heven AtServer)
      (pl_port (pl AtServer)) (te_remote_ep te) acc (server_ w) n a conns v conns' out Hh' Hv)
      as (s' & a' & es & (s1 & E & W) & Hshown & Hh1).
    { apply Hspec'; try done. by exists c. }
    exists s1, s', es. split; [exact E|]. split; [exact W|]. exists a'. split; [done|].
    by apply (shown_sent_back n v).
  - exists s', a', (written (pl_dev (pl AtServer)) es). rewrite E, Happ. by split.
Qed.

(** *** Connected ends *)

(** Both ends are connected: [x] is the next number that the server sends
    and the client expects, [y] that of the other direction; [m] is the MSS
    that the client believes in. *)
Record linked w (x y m : Z) (nC : netns Sig B) (aC : application B) (t : tcb_t B) (pq : B)
    (nS : netns Sig B) (aS : application B) conns : Prop := {
  lk_wire : wire_ w = [];
  lk_client : connected_with sk te [] (client_ w) nC aC t pq;
  lk_numbers : numbers_of t = mk_numbers x y y m rcv_window_init;
  lk_ways : client_routed nC ∧ server_routed nS;
  lk_ids : is_u 16 (seq_ (ipv4_ nC)) ∧ is_u 16 (seq_ (ipv4_ nS));
  lk_server : hosts (te_remote_ep te) acc (server_ w) nS aS conns;
  lk_conn : conns !! mirror te = Some (Connected (mk_numbers y x x 1446 rcv_window_init));
  lk_ends : endpoint_ok (te_remote_ep te) ∧ endpoint_ok (te_local_ep te);
}.

(** What either end sends. *)
Lemma sendable_header te' n seq ack off A P S :
  endpoint_ok (te_remote_ep te') → endpoint_ok (te_local_ep te') → is_u 16 (seq_ (ipv4_ n)) →
  is_u 32 seq → is_u 32 ack → is_u 4 off → is_u 1 A → is_u 1 P → is_u 1 S →
  sendable n te' (mk_tcp_header (addrv4_port (te_local_ep te')) (addrv4_port (te_remote_ep te'))
    seq ack off 0 0 0 0 A P 0 S 0 rcv_window_init 0 0).
Proof.
  intros Hr Hl Hid Hseq Hack Hoff HA HP HS. split; [|by split_and!]. destruct Hr, Hl.
  unfold tcp_header_ok. cbn -[is_u]. by split_and!.
Qed.

(** *** The handshake *)

(** The client knows its own MAC address and not that of its next hop; the
    server has this address, and knows the way back once it has learnt the
    client's. *)
Record strangers (nC nS : netns Sig B) : Prop := {
  sr_hop : unknown_hop nC (addrv4 (te_remote_ep te)) nhC (pl_dev (pl AtClient)) srcC;
  sr_untapped : untapped te (tcp_ nC);
  sr_addrs : ipv4_ok (from_addrv4 nhC) ∧ ipv4_ok (via_addrv4 nhC);
  sr_macs : learnable srcC ∧ learnable macC;
  sr_has : neigh.query (via_addrv4 nhC) (cache nS) = Some macC;
  sr_back : server_routed (knows (from_addrv4 nhC) srcC nS);
}.
Definition ways (nC nS : netns Sig B) : Prop := (client_routed nC ∧ server_routed nS) ∨ strangers nC nS.

(** Before: the client has its socket and nothing pending, and the server
    does not know the connection. *)
Record apart w (nC : netns Sig B) (aC : application B) (nS : netns Sig B) (aS : application B) conns : Prop := {
  ap_wire : wire_ w = [];
  ap_client : stands (client_ w) nC [] aC ∧ idle (set_tcb_m (mngr aC) (set_io_ctx [] nC));
  ap_free : tcbs_ (mngr aC) !! te = None;
  ap_socket : is_Some (sockets aC !! sk);
  ap_ways : ways nC nS;
  ap_ids : is_u 16 (seq_ (ipv4_ nC)) ∧ is_u 16 (seq_ (ipv4_ nS));
  ap_server : hosts (te_remote_ep te) acc (server_ w) nS aS conns;
  ap_unknown : conns !! mirror te = None;
  ap_ends : endpoint_ok (te_remote_ep te) ∧ endpoint_ok (te_local_ep te);
}.

(** The first numbers do not wrap within a window, and the memory of the
    client's block held an MSS. *)
Definition draws_fit : Prop :=
  0 < ind_mss (pl_junk (pl AtClient)) ∧
  ∀ sd, pl_isn (pl sd) + 1 + rcv_window_init < 2 ^ 32.

(** What the server has after the SYN. *)
Definition syn_known : numbers :=
  mk_numbers (pl_isn (pl AtClient) + 1) (pl_isn (pl AtServer)) (pl_isn (pl AtServer) + 1) 1446 rcv_window_init.

Lemma server_answers w frame src_mac mac (nC nS : netns Sig B) aS conns opts :
  draws_fit → wire_ w = [(AtServer, frame)] →
  carried (Hh := pl_host (pl AtClient)) te src_mac mac nC (connect_header (pl_isn (pl AtClient)) te) opts frame →
  len opts = 8 → decode_options (H := pl_host (pl AtClient)) opts = Ok [mss 1446] →
  is_u 16 (seq_ (ipv4_ nC)) → endpoint_ok (te_remote_ep te) → endpoint_ok (te_local_ep te) →
  hosts (te_remote_ep te) acc (server_ w) nS aS conns → server_routed nS → conns !! mirror te = None →
  ∃ sS aS' frame',
    deliver pl run_cb w = Ok ((), mk_wired (client_ w) sS [(AtClient, frame')], []) ∧
    hosts (te_remote_ep te) acc sS (one_sent nS) aS' (<[mirror te := Connecting syn_known]> conns) ∧
    carried (Hh := pl_host (pl AtServer)) (mirror te) srcS macS nS (syn_ack_header (mirror te) syn_known) [] frame'.
Proof.
  intros [_ Hdraws] Hw Hcar Hlen Hdec Hid Hre Hle Hh' Hrt Hnone.
  pose proof (Hisn AtClient) as HiC. pose proof (Hdraws AtClient). pose proof (Hdraws AtServer).
  pose proof (Hisn AtServer) as HiS. unfold rcv_window_init in *.
  assert (u32 (pl_isn (pl AtClient) + 1) = pl_isn (pl AtClient) + 1) as EC by ulia.
  assert (u32 (pl_isn (pl AtServer) + 1) = pl_isn (pl AtServer) + 1) as ES by ulia.
  destruct (server_hears w [] frame src_mac mac nC _ opts nS aS conns
    (<[mirror te := Connecting syn_known]> conns) (Answered (syn_ack_header (mirror te) syn_known)) Hw Hcar)
    as (sS & aS' & frames & E & Hh1 & (frame' & -> & Hcar')); [| |done|done| |].
  - apply sendable_header; done.
  - lia.
  - intros v He (c & Ev) Er Ei Ej. rewrite (decode_options_host _ (pl_host (pl AtServer))) in Hdec.
    assert (first_syn (Hh := pl_host (pl AtServer)) (v_junk v) (v_tcp v) (v_rest v) [mss 1446]) as Hsyn.
    { rewrite Ev, Er. unfold first_syn. cbn -[Z.mul]. split_and!; try done. rewrite Hlen. done. }
    assert (te_local_ep (ends v) = te_remote_ep te) as Hloc by by rewrite He.
    rewrite <- He in Hnone.
    pose proof (SpecSyn (Hh := pl_host (pl AtServer)) (te_remote_ep te) conns v _ Hloc Hnone Hsyn) as Hstep.
    unfold syn_numbers in Hstep. rewrite He, Ev, Ei in Hstep. cbn -[u32 syn_ack_header] in Hstep.
    rewrite EC, ES in Hstep. exact Hstep.
  - by exists sS, aS', frame'.
Qed.

Lemma server_accepts w frame src_mac mac (nC nS : netns Sig B) aS conns m :
  draws_fit → wire_ w = [(AtServer, frame)] →
  let x := pl_isn (pl AtServer) + 1 in
  let y := pl_isn (pl AtClient) + 1 in
  carried (Hh := pl_host (pl AtClient)) te src_mac mac nC (ack_header te (mk_numbers x y y m rcv_window_init)) []
    frame →
  is_u 16 (seq_ (ipv4_ nC)) → endpoint_ok (te_remote_ep te) → endpoint_ok (te_local_ep te) →
  hosts (te_remote_ep te) acc (server_ w) nS aS conns → server_routed nS →
  conns !! mirror te = Some (Connecting syn_known) →
  ∃ sS aS',
    deliver pl run_cb w = Ok ((), mk_wired (client_ w) sS [], []) ∧
    hosts (te_remote_ep te) acc sS nS aS'
      (<[mirror te := Connected (mk_numbers y x x 1446 rcv_window_init)]> conns).
Proof.
  intros [_ Hdraws] Hw x y Hcar Hid Hre Hle Hh' Hrt Hconn.
  pose proof (Hisn AtClient) as HiC. pose proof (Hdraws AtClient). pose proof (Hdraws AtServer).
  pose proof (Hisn AtServer) as HiS. unfold rcv_window_init, is_u in *.
  destruct (server_hears w [] frame src_mac mac nC _ [] nS aS conns
    (<[mirror te := Connected (mk_numbers y x x 1446 rcv_window_init)]> conns) Silent Hw Hcar)
    as (sS & aS' & frames & E & Hh1 & ->); [| |done|done| |].
  - apply sendable_header; cbn -[is_u]; try done; unfold is_u; lia.
  - done.
  - intros v He (c & Ev) Er _ _. rewrite <- He in Hconn.
    pose proof (SpecAck (Hh := pl_host (pl AtServer)) (te_remote_ep te) conns v _ Hconn) as Hstep.
    rewrite He, Ev, Er in Hstep. apply Hstep; [|done]. unfold first_ack. cbn. unfold rcv_window_init.
    split_and!; try done; lia.
  - by exists sS, aS'.
Qed.

Lemma client_accepted w frame src_mac mac (nC nS : netns Sig B) a t k :
  draws_fit → wire_ w = [(AtClient, frame)] →
  let x := pl_isn (pl AtServer) + 1 in
  let y := pl_isn (pl AtClient) + 1 in
  let m := ind_mss (pl_junk (pl AtClient)) in
  carried (Hh := pl_host (pl AtServer)) (mirror te) src_mac mac nS (syn_ack_header (mirror te) syn_known) [] frame →
  is_u 16 (seq_ (ipv4_ nS)) → endpoint_ok (te_remote_ep te) → endpoint_ok (te_local_ep te) →
  stands (client_ w) nC [] a → idle (set_tcb_m (mngr a) (set_io_ctx [] nC)) → client_routed nC →
  syn_sent sk k te a t → nb_una (numbers_of t) = pl_isn (pl AtClient) → nb_nxt (numbers_of t) = u32 y →
  nb_mss (numbers_of t) = m →
  ∃ s' a' t' pq frame',
    deliver pl run_cb w =
      Ok ((), mk_wired s' (server_ w) [(AtServer, frame')], [(AtClient, AppDone k false)]) ∧
    carried (Hh := pl_host (pl AtClient)) te srcC macC nC (ack_header te (mk_numbers x y y m rcv_window_init)) []
      frame' ∧
    connected_with sk te [] s' (one_sent nC) a' t' pq ∧ memory a' = memory a ∧
    numbers_of t' = mk_numbers x y y m rcv_window_init.
Proof.
  intros [Hmss Hdraws] Hw x y m Hcar Hid Hre Hle Hst Hidle Hrt Hss Hu Hn Hm.
  pose proof (Hisn AtClient) as HiC. pose proof (Hdraws AtClient). pose proof (Hdraws AtServer).
  pose proof (Hisn AtServer) as HiS. unfold rcv_window_init in *.
  assert (u32 y = y) as EC by (unfold y; ulia). assert (u32 x = x) as ES by (unfold x; ulia).
  rewrite EC in Hn. set (nb := mk_numbers x y y m rcv_window_init).
  destruct (deliver_run pl run_cb AtClient (mirror te) src_mac mac nS _ [] frame [] w
    (λ s' es, ∃ a' t' pq frame', es = [OfNet (NetRead (pl_dev (pl AtClient)) 1500);
         OfApp (AppDone k false); OfNet (NetWrite (pl_dev (pl AtClient)) frame')] ∧
       carried (Hh := pl_host (pl AtClient)) te srcC macC nC (ack_header te nb) [] frame' ∧
       connected_with sk te [] s' (one_sent nC) a' t' pq ∧ memory a' = memory a ∧ numbers_of t' = nb) Hw Hcar)
    as (s' & es & (a' & t' & pq & frame' & -> & Hcar' & Hcw' & Hrest) & E).
  - apply sendable_header; cbn -[is_u]; try done; unfold is_u in *; lia.
  - done.
  - intros eh iph c th Hframe. rewrite mirror_mirror in Hframe.
    destruct (answer_round (Hh := pl_host (pl AtClient)) (pl_addr (pl AtClient)) run_cb (Heven AtClient)
      (pl_junk (pl AtClient)) (pl_isn (pl AtClient)) (pl_port (pl AtClient)) (Hisn AtClient) sk k te
      (pl_dev (pl AtClient)) nhC (pl_dev (pl AtClient)) srcC macC (client_ w) nC a t eh iph th [] [])
      as (s1 & s2 & a' & t' & pq & frame' & E & W & Hcar' & Hst' & Hidle' & Ho' & Hflow & Hu' & Hwaits & Hb & Hnb' & Hends' & Hmem);
      [done..| |].
    { unfold syn_ack_for, th. cbn -[numbers_of]. rewrite Hu, Hn, Hm. split_and!; try done. unfold y. lia. }
    assert (connected_numbers th [] (numbers_of t) = nb) as Enb.
    { unfold connected_numbers, th. cbn -[u32 numbers_of]. rewrite Hn, Hm. unfold nb. by f_equal. }
    rewrite Enb in Hcar', Hnb'. exists s1, s2. eexists. split; [exact E|]. split.
    + exact (bind_run_Ok _ _ _ () s2 [] () s2 [] W eq_refl).
    + exists a', t', pq, frame'. split_and!; try done.
  - exists s', a', t', pq, frame'. split; [|done]. rewrite E. cbn. by rewrite decide_True.
Qed.

(** The client calls [async_connect], and when the wire is quiet both ends
    are connected. *)
Definition connects (k : nat) (ports : list Z) (moved : option nat → option nat) :
    M (program Sig B) prog_event unit :=
  _ ← prog_act (Hh := pl_host (pl AtClient)) (pl_addr (pl AtClient)) run_cb
        (connect (pl_junk (pl AtClient)) (pl_isn (pl AtClient)) sk k te ports moved);
  prog_until_idle (Hh := pl_host (pl AtClient)) (pl_addr (pl AtClient)) (pl_port (pl AtClient)) 8.

(** What follows the call of [async_connect], and ends with an empty wire, is
    what follows [w1], in which the SYN is on the wire. *)
Record under_way (k : nat) w w1 (nC : netns Sig B) (aC a : application B) (t : tcb_t B)
    (opts frame : list byte) (nS : netns Sig B) (aS : application B) conns (nC' : netns Sig B) : Prop := {
  uw_wire : wire_ w1 = [(AtServer, frame)];
  uw_syn : carried (Hh := pl_host (pl AtClient)) te srcC macC nC (connect_header (pl_isn (pl AtClient)) te) opts frame;
  uw_opts : len opts = 8 ∧ decode_options (H := pl_host (pl AtClient)) opts = Ok [mss 1446];
  uw_client : stands (client_ w1) nC' [] a ∧ idle (set_tcb_m (mngr a) (set_io_ctx [] nC'));
  uw_sent : syn_sent sk k te a t;
  uw_numbers : nb_una (numbers_of t) = pl_isn (pl AtClient) ∧
    nb_nxt (numbers_of t) = u32 (pl_isn (pl AtClient) + 1) ∧ nb_mss (numbers_of t) = ind_mss (pl_junk (pl AtClient));
  uw_memory : memory a = memory aC;
  uw_server : hosts (te_remote_ep te) acc (server_ w1) nS aS conns;
  uw_ways : client_routed nC' ∧ server_routed nS;
  uw_ids : is_u 16 (seq_ (ipv4_ nC)) ∧ is_u 16 (seq_ (ipv4_ nC')) ∧ is_u 16 (seq_ (ipv4_ nS));
}.
Definition opening (k : nat) (ports : list Z) (moved : option nat → option nat) : WM unit :=
  _ ← at_side pl run_cb AtClient (connects k ports moved); until_quiet pl run_cb 8.
Definition goes_on (k : nat) ports moved w (fuel : nat) w1 : Prop :=
  ∀ w' es, until_quiet pl run_cb (3 + fuel) w1 = Ok ((), w', es) → opening k ports moved w = Ok ((), w', es).

(** The next hop is known: the SYN leaves at once. *)
Lemma syn_leaves w nC aC nS aS conns k ports moved :
  apart w nC aC nS aS conns → client_routed nC → server_routed nS →
  ∃ fuel w1 a t opts frame, goes_on k ports moved w fuel w1 ∧
    under_way k w w1 nC aC a t opts frame nS aS conns (one_sent nC).
Proof.
  intros [Hw [Hst Hidle] Hfree Hsk _ [HidC HidS] Hserver Hnone [Hre Hle]] HrC HrS.
  destruct (connect_round (Hh := pl_host (pl AtClient)) (pl_addr (pl AtClient)) run_cb (Heven AtClient)
    (pl_junk (pl AtClient)) (pl_isn (pl AtClient)) (pl_port (pl AtClient)) (Hjunk AtClient) (Hisn AtClient) sk k te
    (pl_dev (pl AtClient)) nhC (pl_dev (pl AtClient)) srcC macC (client_ w) nC aC ports moved)
    as (s1 & s2 & a2 & t2 & opts & frame & E1 & W1 & Hcar & Hopts & Hst2 & Hidle2 & Hss & Hu & Hn & Hm & Hmem);
    [done..|].
  pose proof (at_side_run pl run_cb AtClient (connects k ports moved) w s1 s2 _ E1
    (bind_run_Ok _ _ _ () s2 [] () s2 [] W1 eq_refl)) as EC.
  cbn in EC. rewrite Hw, decide_True in EC by done.
  exists 5%nat, (mk_wired s2 (server_ w) [(AtServer, frame)]), a2, t2, opts, frame. split.
  - intros w' es E. exact (bind_run_Ok _ _ _ () _ [] () w' es EC E).
  - split; try done. split; [done|]. split; [apply u16_is_u|done].
Qed.

(** The next hop is not known: the client asks, the server answers, and the
    SYN leaves. *)
Lemma syn_leaves_later w nC aC nS aS conns k ports moved :
  apart w nC aC nS aS conns → strangers nC nS →
  ∃ fuel w1 a t opts frame nC', goes_on k ports moved w fuel w1 ∧
    under_way k w w1 nC aC a t opts frame (knows (from_addrv4 nhC) srcC nS) aS conns nC'.
Proof.
  intros [Hw [Hst Hidle] Hfree Hsk _ [HidC HidS] Hserver Hnone [Hre Hle]]
    [Hhop Htap [Hfrom Hvia] [Hls Hlm] Hhas Hback].
  destruct (connect_asks (Hh := pl_host (pl AtClient)) (pl_addr (pl AtClient)) run_cb (Heven AtClient)
    (pl_junk (pl AtClient)) (pl_isn (pl AtClient)) (pl_port (pl AtClient)) (client_ w) nC aC te sk k nhC
    (pl_dev (pl AtClient)) srcC ports moved (Hjunk AtClient) (Hisn AtClient))
    as (s1 & s2 & a2 & t2 & opts & f & E1 & W1 & Hst2 & (Hr & Hd & Hcar) & Hopts & Hb2 & Hss & Hu & Hn & Hm & Hmem);
    [done..|].
  set (q := question srcC (from_addrv4 nhC) (via_addrv4 nhC)).
  set (ask := request (Hh := pl_host (pl AtClient)) nhC srcC) in *.
  pose proof (at_side_run pl run_cb AtClient (connects k ports moved) w s1 s2 _ E1
    (bind_run_Ok _ _ _ () s2 [] () s2 [] W1 eq_refl)) as EC.
  cbn in EC. rewrite Hw, decide_True in EC by done.
  destruct (question_round (Hh := pl_host (pl AtServer)) (pl_addr (pl AtServer)) run_cb (pl_junk (pl AtServer))
    (pl_isn (pl AtServer)) (pl_port (pl AtServer)) (server_ w) nS aS srcC (from_addrv4 nhC) (via_addrv4 nhC) macC
    (pl_dev (pl AtServer))) as (s3 & s4 & E3 & W3 & Hst4); [by destruct Hserver..| |done|done|done|done|].
  { destruct Hback as ((_ & _ & _ & _ & Hdev) & _). exact Hdev. }
  set (answer := arp_frame (Hh := pl_host (pl AtServer)) srcC macC (Arp.reply_header q macC)) in *.
  fold q in E3. rewrite <- (arp_frame_host (H1 := pl_host (pl AtClient))) in E3. fold ask in E3.
  pose proof (deliver_frame pl run_cb AtServer ask [] (mk_wired s2 (server_ w) [(AtServer, ask)]) s3 s4 _ eq_refl
    ltac:(unfold ask, request; rewrite length_arp_frame; lia) E3 (bind_run_Ok _ _ _ () s4 [] () s4 [] W3 eq_refl)) as ES.
  cbn in ES. rewrite decide_True in ES by done.
  set (n2 := with_waiting f (via_addrv4 nhC) (one_sent nC)) in *.
  destruct (reply_round (Hh := pl_host (pl AtClient)) (pl_addr (pl AtClient)) run_cb (pl_junk (pl AtClient))
    (pl_isn (pl AtClient)) (pl_port (pl AtClient)) s2 n2 a2 srcC (from_addrv4 nhC) (via_addrv4 nhC) macC f
    (pl_dev (pl AtClient))) as (s5 & s6 & E5 & W5 & Hst6); [done..| | |done|done|done|done|done|].
  { by destruct Hhop as (_ & _ & _ & _ & Hdev & _). }
  { apply waiting_with. by destruct Hhop as (_ & _ & _ & _ & _ & Hwait). }
  set (n3 := without_waiting _ _) in Hst6. fold q in E5.
  rewrite (arp_frame_host (H2 := pl_host (pl AtServer))) in E5. fold answer in E5. set (frame := _ ++ _) in E5.
  pose proof (deliver_frame pl run_cb AtClient answer [] (mk_wired s2 s4 [(AtClient, answer)]) s5 s6 _ eq_refl
    ltac:(unfold answer; rewrite length_arp_frame; lia) E5 (bind_run_Ok _ _ _ () s6 [] () s6 [] W5 eq_refl)) as ER.
  cbn in ER. rewrite decide_True in ER by done.
  exists 3%nat, (mk_wired s6 s4 [(AtServer, frame)]), a2, t2, opts, frame, n3. split.
  - intros w' es E. apply (bind_run_Ok _ _ _ () _ [] () w' es EC).
    eapply (until_quiet_step pl run_cb 7 _ _ [] _ es); [done|exact ES|].
    by eapply (until_quiet_step pl run_cb 6 _ _ [] _ es); [|exact ER|].
  - destruct (resolved_way f (one_sent nC) (addrv4 (te_remote_ep te)) nhC (pl_dev (pl AtClient)) srcC macC Hhop)
      as [_ Hway]. split; try done.
    + destruct Hserver as [_ Hidle' ? ? ? ?]. by split.
    + split; [|done]. split; [exact Hway|]. split; [|exact Htap]. destruct Hway as (_ & _ & _ & _ & Hdev). by eexists.
    + split; [done|]. split; [apply u16_is_u|done].
Qed.

(** When the wire is quiet both ends are connected. *)
Lemma opening_finishes w w1 fuel nC aC a t opts frame nS aS conns nC' k ports moved :
  draws_fit → endpoint_ok (te_remote_ep te) → endpoint_ok (te_local_ep te) → conns !! mirror te = None →
  goes_on k ports moved w fuel w1 → under_way k w w1 nC aC a t opts frame nS aS conns nC' →
  ∃ w' nC2 aC' t' pq nS' aS' conns',
    opening k ports moved w = Ok ((), w', [(AtClient, AppDone k false)]) ∧ memory aC' = memory aC ∧
    linked w' (pl_isn (pl AtServer) + 1) (pl_isn (pl AtClient) + 1) (ind_mss (pl_junk (pl AtClient)))
      nC2 aC' t' pq nS' aS' conns'.
Proof.
  intros Hdraws Hre Hle Hnone Hon
    [Hw Hcar [Hlen Hdec] [Hst2 Hidle2] Hss (Hu & Hn & Hm) Hmem Hserver [HrC HrS] (HidC & HidC' & HidS)].
  destruct (server_answers w1 frame srcC macC nC nS aS conns opts)
    as (sS & aS2 & frame2 & E2 & Hh2 & Hcar2); [done..|].
  destruct (client_accepted (mk_wired (client_ w1) sS [(AtClient, frame2)]) frame2 srcS macS nC' nS a t k)
    as (s3 & a3 & t3 & pq3 & frame3 & E3 & Hcar3 & Hcw3 & Hmem3 & Hnb3); [done..|].
  destruct (server_accepts (mk_wired s3 sS [(AtServer, frame3)]) frame3 srcC macC nC' (one_sent nS) aS2
    (<[mirror te := Connecting syn_known]> conns) (ind_mss (pl_junk (pl AtClient))) Hdraws eq_refl Hcar3)
    as (sS4 & aS4 & E4 & Hh4); [done|done|done|exact Hh2|done|apply lookup_insert_eq|].
  rewrite Hmem in Hmem3. exists (mk_wired s3 sS4 []), (one_sent nC'), a3, t3, pq3, (one_sent nS), aS4.
  eexists. split; [|split; [exact Hmem3|]].
  - apply Hon. eapply (until_quiet_step pl run_cb (2 + fuel) _ _ [] _ [_]); [by rewrite Hw|exact E2|].
    eapply (until_quiet_step pl run_cb (1 + fuel) _ _ [_] _ []); [done|exact E3|].
    eapply (until_quiet_step pl run_cb fuel _ _ [] _ []); [done|exact E4|by apply until_quiet_done].
  - split; [done|exact Hcw3|exact Hnb3|done|split; apply u16_is_u|exact Hh4|apply lookup_insert_eq|done].
Qed.

Lemma opening_run w nC aC nS aS conns k ports moved :
  draws_fit → apart w nC aC nS aS conns →
  ∃ w' nC' aC' t pq nS' aS' conns',
    opening k ports moved w = Ok ((), w', [(AtClient, AppDone k false)]) ∧ memory aC' = memory aC ∧
    linked w' (pl_isn (pl AtServer) + 1) (pl_isn (pl AtClient) + 1) (ind_mss (pl_junk (pl AtClient)))
      nC' aC' t pq nS' aS' conns'.
Proof.
  intros Hdraws Hap. pose proof Hap as [_ _ _ _ Hways _ _ Hnone [Hre Hle]].
  destruct Hways as [[HrC HrS]|Hsr].
  - destruct (syn_leaves w nC aC nS aS conns k ports moved Hap HrC HrS) as (fuel & w1 & a & t & opts & frame & Hon & Huw).
    by apply (opening_finishes w w1 fuel nC aC a t opts frame nS aS conns (one_sent nC)).
  - destruct (syn_leaves_later w nC aC nS aS conns k ports moved Hap Hsr)
      as (fuel & w1 & a & t & opts & frame & nC' & Hon & Huw).
    by apply (opening_finishes w w1 fuel nC aC a t opts frame (knows (from_addrv4 nhC) srcC nS) aS conns nC').
Qed.
End Two.

