(* ===== verification/Exchange.v ===== *)
(** * A text goes there and back

    A client and the echo server are connected.  What the client writes goes
    in as many segments as it takes, the server prints and echoes each, and
    the client, which reads until it has as much as it wrote, acknowledges
    each. *)

From S2P Require Import Prelude Utils Skbuff Addr Headers TcpOptions CircularBuffer Tcb TcbFacts TcbSend.
From S2P Require Import TcbRecv TcbState TcbHandshake BaseProtocol Packets TcbManager Socket SocketFacts Echo.
From S2P Require Import Accept Tcp NeighCache RoutingTable Arp Ipv4 Ethernet Device Stack Layers Netns.
From S2P Require Import NetnsFacts NetnsRun Ping Pipeline Program Prior ProgramFacts EchoFrame Segments EchoOpen.
From S2P Require Import EchoServer ClientOpen ClientTalk Wire TwoPrograms.

Section Exchange.
Context {Sig : Type} `{Hsig : Signal ethernetv2_frame Sig} `{Hspec : !SignalSpec ethernetv2_frame Sig}.
Context {B : Type} `{Hc : CircularBuffer B} `{Hs : !CircularBufferSpec B}.
Context (pl : side → place) (run_cb : nat → endpoint → endpoint → M tcp tcp_event bool).
Context (Heven : ∀ sd skb, Z.even (pl_addr (pl sd) skb) = true).
Context (Hisn : ∀ sd, is_u 32 (pl_isn (pl sd))) (Hjunk : ∀ sd, ind_ok (pl_junk (pl sd))).
Context (te : two_ends_t) (sk acc : nat).
Context (nhC nhS : rt_record) (srcC macC srcS macS : mac_addr_t).
Context (Hre : endpoint_ok (te_remote_ep te)) (Hle : endpoint_ok (te_local_ep te)).
Implicit Types (w : wired Sig B) (n : netns Sig B) (s : program Sig B) (a : application B).
Implicit Types (conns : connections) (nb : numbers) (text : list byte) (texts : list (list byte)).
Abbreviation W := rcv_window_init.
Abbreviation by_client := (carried_by (Hh := pl_host (pl AtClient)) te srcC macC).
Abbreviation by_server := (carried_by (Hh := pl_host (pl AtServer)) (mirror te) srcS macS).
Abbreviation client_routed := (client_routed pl te nhC srcC macC).
Abbreviation server_routed := (server_routed pl te nhS srcS macS).

(** A segment that either host can take and send. *)
Definition piece text : Prop :=
  0 < len text ≤ 1446 ∧ ∀ sd, host_endian (Host := pl_host (pl sd)) = Big → Z.even (len text) = true.

(** *** The server echoes *)

Fixpoint echo_segments nb texts : list (tcp_header_t * list byte) :=
  match texts with
  | [] => []
  | text :: texts => (echo_header (mirror te) nb text, text) ::
      echo_segments (mk_numbers (nb_rcv nb + len text) (nb_una nb) (nb_nxt nb + len text) (nb_mss nb) (nb_wnd nb)) texts
  end.

Lemma server_echoes w q frame (nC nS : netns Sig B) u x x' y m aS conns text :
  wire_ w = (AtServer, frame) :: q → by_client nC (text_header te (mk_numbers x u y m W), text) frame →
  is_u 16 (seq_ (ipv4_ nC)) → hosts (te_remote_ep te) acc (server_ w) nS aS conns → server_routed nS →
  conns !! mirror te = Some (Connected (mk_numbers y x x' 1446 W)) → piece text →
  0 ≤ x ≤ x' → 0 ≤ y → x' + len text - x ≤ W → x' + len text + W < 2 ^ 32 → y + len text + W < 2 ^ 32 →
  ∃ sS aS' frame',
    deliver pl run_cb w =
      Ok ((), mk_wired (client_ w) sS (q ++ [(AtClient, frame')]), [(AtServer, AppPrint text)]) ∧
    hosts (te_remote_ep te) acc sS (one_sent nS) aS'
      (<[mirror te := Connected (mk_numbers (y + len text) x (x' + len text) 1446 W)]> conns) ∧
    by_server nS (echo_header (mirror te) (mk_numbers y x x' 1446 W) text, text) frame'.
Proof.
  intros Hw Hcar Hid Hh' Hrt Hconn (Hlen & Hbig) Hx Hy Hfit Hwx Hwy. unfold rcv_window_init in *.
  assert (u32 (y + len text) = y + len text) as Ey by ulia.
  assert (u32 (x' + len text) = x' + len text) as Ex by ulia.
  destruct (server_hears pl run_cb Heven Hisn Hjunk te acc nhS srcS macS w q frame srcC macC nC _ text nS aS conns
    (<[mirror te := Connected (mk_numbers (y + len text) x (x' + len text) 1446 64240)]> conns)
    (Echoed (echo_header (mirror te) (mk_numbers y x x' 1446 64240) text) text) Hw Hcar)
    as (sS & aS' & frames & E & Hh1 & (frame' & -> & Hcar')); [| |done|done| |].
  - apply sendable_header; cbn -[is_u]; try done; unfold is_u; lia.
  - lia.
  - intros v He (c & Ev) Er _ _. rewrite <- He in Hconn.
    pose proof (SpecText (Hh := pl_host (pl AtServer)) (te_remote_ep te) conns v _ Hconn) as Hstep.
    unfold text_numbers in Hstep. rewrite He, Ev, Er in Hstep. cbn -[u32 echo_header] in Hstep.
    rewrite Ey, Ex in Hstep. apply Hstep. unfold text_next. cbn -[u32]. unfold echo_size, rcv_window_init.
    pose proof (Hbig AtServer). split_and!; try done; lia.
  - by exists sS, aS', frame'.
Qed.

Lemma server_echoes_all texts : ∀ w q frs (nC nS : netns Sig B) u x x' y m aS conns,
  wire_ w = (pair AtServer <$> frs) ++ q →
  each one_sent by_client nC (text_segments te (mk_numbers x u y m W) texts) frs →
  is_u 16 (seq_ (ipv4_ nC)) → hosts (te_remote_ep te) acc (server_ w) nS aS conns → server_routed nS →
  conns !! mirror te = Some (Connected (mk_numbers y x x' 1446 W)) → Forall piece texts →
  0 ≤ x ≤ x' → 0 ≤ y → let L := len (concat texts) in
  x' + L - x ≤ W → x' + L + W < 2 ^ 32 → y + L + W < 2 ^ 32 →
  ∃ sS aS' frs',
    hosts (te_remote_ep te) acc sS (after_all one_sent (length texts) nS) aS'
      (<[mirror te := Connected (mk_numbers (y + L) x (x' + L) 1446 W)]> conns) ∧
    each one_sent by_server nS (echo_segments (mk_numbers y x x' 1446 W) texts) frs' ∧
    ∀ fuel w' es,
      until_quiet pl run_cb fuel (mk_wired (client_ w) sS (q ++ (pair AtClient <$> frs'))) = Ok ((), w', es) →
      until_quiet pl run_cb (length texts + fuel) w =
        Ok ((), w', ((λ text, (AtServer, AppPrint text)) <$> texts) ++ es).
Proof.
  induction texts as [|text texts IH];
    intros w q frs nC nS u x x' y m aS conns Hw Heach Hid Hh' Hrt Hconn Hps Hx Hy L Hfit Hwx Hwy.
  { destruct frs; [|done]. cbn in L. subst L. exists (server_ w), aS, []. rewrite !Z.add_0_r, insert_id by done.
    split; [done|split; [done|]]. cbn in Hw. rewrite app_nil_r, <- Hw. by destruct w. }
  destruct frs as [|frame frs]; [done|]. destruct Heach as [Hcar Hrest]. apply Forall_cons in Hps as [Hp Hps].
  assert (L = len text + len (concat texts)) as EL by (unfold L; cbn; rewrite length_app; lia). clearbody L.
  pose proof Hp as [Hlen _].
  set (q' := (pair AtServer <$> frs : list (side * list byte)) ++ q).
  destruct (server_echoes w q' frame nC nS u x x' y m aS conns text Hw Hcar)
    as (sS & aS1 & frame' & E & Hh1 & Hcar'); [done..|lia|lia|lia|lia|].
  match type of Hh1 with hosts _ _ _ _ _ ?c => set (conns1 := c) in * end.
  cbn [text_segments said_numbers nb_rcv nb_una nb_nxt nb_mss nb_wnd] in Hrest. unfold said_numbers in Hrest.
  cbn [nb_rcv nb_una nb_nxt nb_mss nb_wnd] in Hrest.
  assert (u32 (y + len text) = y + len text) as Ey by (unfold rcv_window_init in *; ulia). rewrite Ey in Hrest.
  destruct (IH (mk_wired (client_ w) sS (q' ++ [(AtClient, frame')])) (q ++ [(AtClient, frame')]) frs
    (one_sent nC) (one_sent nS) u x (x' + len text) (y + len text) m aS1 conns1) as (sS2 & aS2 & frs' & Hh2 & Heach' & Hrun);
    [unfold q'; by rewrite <- app_assoc|exact Hrest|apply u16_is_u|exact Hh1|done|apply lookup_insert_eq|done|lia..|].
  exists sS2, aS2, (frame' :: frs'). unfold conns1 in Hh2. rewrite insert_insert_eq in Hh2.
  replace (y + len text + len (concat texts)) with (y + L) in Hh2 by lia.
  replace (x' + len text + len (concat texts)) with (x' + L) in Hh2 by lia.
  split; [exact Hh2|]. split; [split; [exact Hcar'|exact Heach']|].
  intros fuel w' es Hend. cbn [length Nat.add fmap list_fmap].
  refine (until_quiet_step pl run_cb (length texts + fuel) w _ [(AtServer, AppPrint text)] w' _ _ E _); [by rewrite Hw|].
  apply Hrun. rewrite <- app_assoc. exact Hend.
Qed.

(** *** The client reads *)

(** Only one buffer has changed. *)
Definition same_but (i : nat) (mem mem' : memory_t) : Prop :=
  (∀ j, j ≠ i → mem' !! j = mem !! j) ∧ ∀ sp, span_ok mem sp → span_ok mem' sp.
#[export] Instance same_but_preorder i : PreOrder (same_but i).
Proof.
  split; [by intros mem|]. intros m1 m2 m3 [E1 S1] [E2 S2]. split; [|by auto].
  intros j Hj. by rewrite E2, E1.
Qed.
Lemma fill_same_but mem sp bs :
  span_ok mem sp → len bs ≤ sp_size sp → same_but (sp_buf sp) mem (fill sp bs mem).
Proof.
  intros Hsp Hbs. split; [|intros sp' Hsp'; by apply fill_span_ok].
  intros j Hj. unfold fill. by rewrite lookup_alter_ne.
Qed.

Lemma seen_out d frame out :
  let es := OfNet (NetRead d 1500) :: (OfApp <$> out) ++ [OfNet (NetWrite d frame)] in
  written d es = [frame] ∧ app_seen es = out.
Proof.
  cbn [written app_seen]. induction out as [|ev out [IH1 IH2]]; cbn; [by rewrite decide_True|].
  split; [exact IH1|]. f_equal. exact IH2.
Qed.
Lemma complete_out sd out frame s :
  complete (Hh := pl_host (pl sd)) (pl_addr (pl sd)) run_cb
    (OfNet (NetRead (pl_dev (pl sd)) 1500) :: (OfApp <$> out) ++ [OfNet (NetWrite (pl_dev (pl sd)) frame)]) s =
  prog_act (Hh := pl_host (pl sd)) (pl_addr (pl sd)) run_cb (ProgWriteDone (pl_dev (pl sd)) false) s.
Proof.
  change (complete (Hh := pl_host (pl sd)) (pl_addr (pl sd)) run_cb
    ((OfApp <$> out) ++ [OfNet (NetWrite (pl_dev (pl sd)) frame)]) s =
    prog_act (Hh := pl_host (pl sd)) (pl_addr (pl sd)) run_cb (ProgWriteDone (pl_dev (pl sd)) false) s).
  induction out as [|ev out IH]; [exact (complete_one pl run_cb sd frame s)|exact IH].
Qed.

(** The next text of those that the client expects up to [yN]. *)
Definition fits_on (x y yN m : Z) text : Prop :=
  piece text ∧ len text ≤ m ∧ 0 ≤ x ∧ 0 ≤ y ∧ y + len text ≤ yN ∧ yN - y ≤ W ∧
  x + len text + W < 2 ^ 32 ∧ yN < 2 ^ 32.

Lemma client_told w q frame (nS nC : netns Sig B) xu x y yN m a t pq rsp k kr total text :
  wire_ w = (AtClient, frame) :: q →
  by_server nS (echo_header (mirror te) (mk_numbers y xu x 1446 W) text, text) frame → is_u 16 (seq_ (ipv4_ nS)) →
  connected_with sk te [(rsp, k)] (client_ w) nC a t pq → io_cbs a !! k = Some (reader sk total rsp kr) →
  len text ≤ sp_size rsp → 0 ≤ total < 2 ^ 64 → client_routed nC → numbers_of t = mk_numbers x y yN m W →
  fits_on x y yN m text →
  let nb := mk_numbers (x + len text) (y + len text) yN m W in
  ∃ s' a' t' pq' frame' waiting out,
    deliver pl run_cb w = Ok ((), mk_wired s' (server_ w) (q ++ [(AtServer, frame')]), pair AtClient <$> out) ∧
    by_client nC (ack_header te nb, []) frame' ∧ connected_with sk te waiting s' (one_sent nC) a' t' pq' ∧
    memory a' = fill rsp text (memory a) ∧ reads_on sk total rsp kr text a' waiting out ∧ numbers_of t' = nb.
Proof.
  intros Hw Hcar Hid Hcw Hreader Hsize Htotal Hrt Hnb ((Hlen & Hbig) & Hm & Hx & Hy & HyN & Hwnd & Hwx & HyN2) nb.
  unfold rcv_window_init in Hwx, Hwnd.
  assert (u32 (y + len text) = y + len text) as Ey by ulia.
  assert (u32 (x + len text) = x + len text) as Ex by ulia.
  destruct (deliver_run pl run_cb AtClient (mirror te) srcS macS nS _ text frame q w
    (λ s' es, ∃ a' t' pq' frame' waiting out,
       es = OfNet (NetRead (pl_dev (pl AtClient)) 1500) :: (OfApp <$> out) ++ [OfNet (NetWrite (pl_dev (pl AtClient)) frame')] ∧
       by_client nC (ack_header te nb, []) frame' ∧ connected_with sk te waiting s' (one_sent nC) a' t' pq' ∧
       memory a' = fill rsp text (memory a) ∧ reads_on sk total rsp kr text a' waiting out ∧ numbers_of t' = nb) Hw Hcar)
    as (s' & es & (a' & t' & pq' & frame' & waiting & out & -> & Hcar' & Hrest) & E).
  - apply sendable_header; cbn -[u32 is_u]; try done; [unfold is_u; lia|apply u32_is_u].
  - cbn. lia.
  - intros eh iph c th Hframe. rewrite mirror_mirror in Hframe.
    destruct (told_round (Hh := pl_host (pl AtClient)) (pl_addr (pl AtClient)) run_cb (Heven AtClient)
      (pl_junk (pl AtClient)) (pl_isn (pl AtClient)) (pl_port (pl AtClient)) (Hisn AtClient) sk te
      (pl_dev (pl AtClient)) nhC (pl_dev (pl AtClient)) srcC macC (client_ w) nC a t pq eh iph th text rsp k kr total)
      as (s1 & s2 & a' & t' & pq' & frame' & waiting & out & E & Wd & Hcar' & Hcw' & Hmem & Hreads & Hnb'); try done.
    { rewrite Hnb. unfold text_next, th. cbn -[u32]. rewrite Ey. unfold echo_size, rcv_window_init.
      pose proof (Hbig AtClient). split_and!; try done; lia. }
    rewrite Hnb in Hcar', Hnb'. unfold told_numbers, th in Hcar', Hnb'.
    cbn -[u32 ack_header numbers_of] in Hcar', Hnb'. rewrite Ex, Ey in Hcar', Hnb'.
    exists s1, s2. eexists. split; [exact E|]. split; [by rewrite complete_out|].
    by exists a', t', pq', frame', waiting, out.
  - exists s', a', t', pq', frame', waiting, out. split; [|by split].
    rewrite E. destruct (seen_out (pl_dev (pl AtClient)) frame' out) as [Ew Es]. by rewrite Ew, Es.
Qed.

(** The acknowledgments of the client. *)
Fixpoint ack_segments (x y yN m : Z) texts : list (tcp_header_t * list byte) :=
  match texts with
  | [] => []
  | text :: texts => (ack_header te (mk_numbers (x + len text) (y + len text) yN m W), []) ::
      ack_segments (x + len text) (y + len text) yN m texts
  end.

(** The read that is under way: [got] has been read, and [rsp] is missing. *)
Definition reading (total : Z) (kr : nat) (rsp0 rsp : span) (k : nat) (got : list byte) a : Prop :=
  io_cbs a !! k = Some (reader sk total rsp kr) ∧ rsp = sp_from (len got) rsp0 ∧ span_ok (memory a) rsp0 ∧
  holds (memory a) rsp0 got ∧ 0 ≤ total < 2 ^ 64.

Lemma reading_on total kr rsp0 rsp k got a a' text :
  reading total kr rsp0 rsp k got a → len text ≤ sp_size rsp → memory a' = fill rsp text (memory a) →
  same_but (sp_buf rsp0) (memory a) (memory a') ∧ span_ok (memory a') rsp0 ∧ holds (memory a') rsp0 (got ++ text).
Proof.
  intros (_ & -> & Hsp & Hholds & _) Hlen ->. cbn in Hlen.
  assert (span_ok (memory a) (sp_from (len got) rsp0)) as Hsp' by (apply span_ok_from; [done|lia]).
  pose proof (fill_same_but (memory a) (sp_from (len got) rsp0) text Hsp' Hlen) as Hsame.
  split; [exact Hsame|]. split; [by apply Hsame|]. apply fill_holds; [done|done|lia].
Qed.

Lemma client_told_all texts : ∀ w q frs (nS nC : netns Sig B) xu x y yN m a t pq rsp0 rsp k kr total got,
  let L := len (concat texts) in
  texts ≠ [] → wire_ w = (pair AtClient <$> frs) ++ q →
  each one_sent by_server nS (echo_segments (mk_numbers y xu x 1446 W) texts) frs →
  is_u 16 (seq_ (ipv4_ nS)) → connected_with sk te [(rsp, k)] (client_ w) nC a t pq →
  reading total kr rsp0 rsp k got a → sp_size rsp = L → client_routed nC →
  numbers_of t = mk_numbers x y yN m W → Forall (λ text, piece text ∧ len text ≤ m) texts →
  yN = y + L → L ≤ W → 0 ≤ x → 0 ≤ y → x + L + W < 2 ^ 32 → yN < 2 ^ 32 →
  ∃ sC a' t' pq' frs',
    connected_with sk te [] sC (after_all one_sent (length texts) nC) a' t' pq' ∧
    numbers_of t' = mk_numbers (x + L) yN yN m W ∧ same_but (sp_buf rsp0) (memory a) (memory a') ∧
    holds (memory a') rsp0 (got ++ concat texts) ∧
    each one_sent by_client nC (ack_segments x y yN m texts) frs' ∧
    ∀ fuel w' es,
      until_quiet pl run_cb fuel (mk_wired sC (server_ w) (q ++ (pair AtServer <$> frs'))) = Ok ((), w', es) →
      until_quiet pl run_cb (length texts + fuel) w =
        Ok ((), w', (AtClient, AppIo kr false total (memory a')) :: es).
Proof.
  induction texts as [|text texts IH]; [done|].
  intros w q frs nS nC xu x y yN m a t pq rsp0 rsp k kr total got L _ Hw Heach Hid Hcw Hread Hsize Hrt Hnb
    Hps HyN HL Hx Hy Hwx HyN2.
  destruct frs as [|frame frs]; [done|]. destruct Heach as [Hcar Hrest].
  apply Forall_cons in Hps as [[Hp Hm] Hps].
  set (q' := (pair AtClient <$> frs : list (side * list byte)) ++ q).
  assert (L = len text + len (concat texts)) as EL by (unfold L; cbn; rewrite length_app; lia).
  pose proof Hread as (Hreader & Ersp & _ & _ & Htotal). pose proof Hp as [Hlen _].
  destruct (client_told w q' frame nS nC xu x y yN m a t pq rsp k kr total text Hw Hcar)
    as (s1 & a1 & t1 & pq1 & frame' & waiting & out & E & Hcar' & Hcw1 & Hmem1 & Hreads & Hnb1);
    [done|done|done|lia|done|done|done|split_and!; try done; lia|].
  destruct (reading_on total kr rsp0 rsp k got a a1 text Hread) as (Hsame & Hsp1 & Hholds1); [lia|done|].
  unfold reads_on in Hreads. destruct (decide (texts = [])) as [->|Hne].
  - cbn in EL. rewrite decide_True in Hreads by lia. destruct Hreads as [-> ->].
    exists s1, a1, t1, pq1, [frame']. cbn [concat length after_all ack_segments]. rewrite app_nil_r.
    replace (x + L) with (x + len text) by lia. replace (y + len text) with yN in * by lia.
    split; [exact Hcw1|]. split; [exact Hnb1|]. split; [exact Hsame|]. split; [exact Hholds1|]. split; [done|].
    destruct frs; [|done]. intros fuel w' es Hend.
    refine (until_quiet_step pl run_cb fuel w _ [_] w' _ _ E _); [by rewrite Hw|exact Hend].
  - assert (0 < len (concat texts)) as Hpos.
    { destruct texts as [|text2 texts]; [done|]. apply Forall_cons in Hps as [[[Hlen2 _] _] _].
      cbn. rewrite length_app. lia. }
    rewrite decide_False in Hreads by lia. destruct Hreads as (k' & -> & Hreader' & ->).
    destruct (IH (mk_wired s1 (server_ w) (q' ++ [(AtServer, frame')])) (q ++ [(AtServer, frame')]) frs
      (one_sent nS) (one_sent nC) xu (x + len text) (y + len text) yN m a1 t1 pq1 rsp0 (sp_from (len text) rsp) k' kr
      total (got ++ text)) as (sC & a2 & t2 & pq2 & frs' & Hcw2 & Hnb2 & Hsame2 & Hholds2 & Heach2 & Hrun);
      [done|unfold q'; by rewrite <- app_assoc|exact Hrest|apply u16_is_u|exact Hcw1| |cbn; lia|done|done|done|lia..|].
    { split; [done|]. split; [|done]. rewrite Ersp, length_app. unfold sp_from. cbn. f_equal; lia. }
    exists sC, a2, t2, pq2, (frame' :: frs'). split; [exact Hcw2|].
    replace (x + L) with (x + len text + len (concat texts)) by lia. split; [exact Hnb2|].
    split; [by etransitivity|]. cbn [concat]. rewrite app_assoc. split; [exact Hholds2|]. split; [done|].
    intros fuel w' es Hend. cbn [length Nat.add].
    refine (until_quiet_step pl run_cb (length texts + fuel) w _ [] w' _ _ E _); [by rewrite Hw|].
    apply Hrun. rewrite <- app_assoc. exact Hend.
Qed.

(** *** The server hears the acknowledgments

    They have the number of what was acknowledged last: only the last of them
    is in the window of the server, and it acknowledges everything. *)
Lemma server_takes_ack w q frame (nC nS : netns Sig B) xu x y yN xN m aS conns :
  wire_ w = (AtServer, frame) :: q → by_client nC (ack_header te (mk_numbers x y yN m W), []) frame →
  is_u 16 (seq_ (ipv4_ nC)) → hosts (te_remote_ep te) acc (server_ w) nS aS conns → server_routed nS →
  conns !! mirror te = Some (Connected (mk_numbers yN xu xN 1446 W)) →
  0 ≤ xu ≤ x → x ≤ xN < 2 ^ 32 → 0 ≤ y ≤ yN → (y = yN → x = xN) → yN + W < 2 ^ 32 →
  ∃ sS aS', deliver pl run_cb w = Ok ((), mk_wired (client_ w) sS q, []) ∧
    hosts (te_remote_ep te) acc sS nS aS'
      (<[mirror te := Connected (mk_numbers yN (if decide (y = yN) then xN else xu) xN 1446 W)]> conns).
Proof.
  intros Hw Hcar Hid Hh' Hrt Hconn Hxu Hx Hy Hlast Hwy. unfold rcv_window_init in *.
  destruct (server_hears pl run_cb Heven Hisn Hjunk te acc nhS srcS macS w q frame srcC macC nC _ [] nS aS conns
    (<[mirror te := Connected (mk_numbers yN (if decide (y = yN) then xN else xu) xN 1446 64240)]> conns) Silent Hw Hcar)
    as (sS & aS' & frames & E & Hh1 & ->); [| |done|done| |].
  - apply sendable_header; cbn -[is_u]; try done; unfold is_u; lia.
  - done.
  - intros v He (c & Ev) Er _ _. rewrite <- He in Hconn. rewrite <- He. destruct (decide (y = yN)) as [->|Hne].
    + rewrite (Hlast eq_refl) in *.
      pose proof (SpecPureAck (Hh := pl_host (pl AtServer)) (te_remote_ep te) conns v _ Hconn) as Hstep.
      unfold pure_ack_numbers in Hstep. rewrite Ev, Er in Hstep. apply Hstep; [|done].
      unfold pure_ack, rcv_window_init. cbn. split_and!; try done; lia.
    + rewrite insert_id by done.
      apply (SpecIgnored (Hh := pl_host (pl AtServer)) (te_remote_ep te) conns v _ [] [] Hconn Er); [|done|].
      * by rewrite Ev.
      * right. rewrite Ev. unfold in_window. cbn -[u32]. apply andb_false_intro1. lia.
  - exists sS, aS'. cbn in E. by rewrite app_nil_r in E.
Qed.

Lemma server_takes_acks texts : ∀ w q frs (nC nS : netns Sig B) xu x y yN xN m aS conns,
  let L := len (concat texts) in
  texts ≠ [] → wire_ w = (pair AtServer <$> frs) ++ q →
  each one_sent by_client nC (ack_segments x y yN m texts) frs → is_u 16 (seq_ (ipv4_ nC)) →
  hosts (te_remote_ep te) acc (server_ w) nS aS conns → server_routed nS →
  conns !! mirror te = Some (Connected (mk_numbers yN xu xN 1446 W)) → Forall piece texts →
  0 ≤ xu ≤ x → xN = x + L → yN = y + L → 0 ≤ y → xN < 2 ^ 32 → yN + W < 2 ^ 32 →
  ∃ sS aS',
    hosts (te_remote_ep te) acc sS nS aS' (<[mirror te := Connected (mk_numbers yN xN xN 1446 W)]> conns) ∧
    ∀ fuel w' es, until_quiet pl run_cb fuel (mk_wired (client_ w) sS q) = Ok ((), w', es) →
      until_quiet pl run_cb (length texts + fuel) w = Ok ((), w', es).
Proof.
  induction texts as [|text texts IH]; [done|].
  intros w q frs nC nS xu x y yN xN m aS conns L _ Hw Heach Hid Hh' Hrt Hconn Hps Hxu HxN HyN Hy Hw1 Hw2.
  destruct frs as [|frame frs]; [done|]. destruct Heach as [Hcar Hrest]. apply Forall_cons in Hps as [[Hlen _] Hps].
  set (q' := (pair AtServer <$> frs : list (side * list byte)) ++ q).
  assert (L = len text + len (concat texts)) as EL by (unfold L; cbn; rewrite length_app; lia).
  destruct (server_takes_ack w q' frame nC nS xu (x + len text) (y + len text) yN xN m aS conns Hw Hcar)
    as (sS & aS1 & E & Hh1); [done|done|done|done|lia..|].
  destruct (decide (texts = [])) as [->|Hne].
  - cbn in EL. rewrite decide_True in Hh1 by lia. exists sS, aS1. split; [exact Hh1|].
    destruct frs; [|done]. intros fuel w' es Hend.
    refine (until_quiet_step pl run_cb fuel w _ [] w' _ _ E _); [by rewrite Hw|exact Hend].
  - assert (0 < len (concat texts)) as Hpos.
    { destruct texts as [|text2 texts]; [done|]. apply Forall_cons in Hps as [[Hlen2 _] _].
      cbn. rewrite length_app. lia. }
    rewrite decide_False, insert_id in Hh1 by (done || lia).
    destruct (IH (mk_wired (client_ w) sS q') q frs (one_sent nC) nS xu (x + len text) (y + len text) yN xN m aS1 conns)
      as (sS2 & aS2 & Hh2 & Hrun); [done|done|exact Hrest|apply u16_is_u|done|done|done|done|lia..|].
    exists sS2, aS2. split; [exact Hh2|]. intros fuel w' es Hend. cbn [length Nat.add].
    refine (until_quiet_step pl run_cb (length texts + fuel) w _ [] w' _ _ E _); [by rewrite Hw|].
    by apply Hrun.
Qed.

(** *** The whole *)

(** A text that fits the window of either side, on either host, and after
    which the numbers have not wrapped. *)
Definition fits_window (x y m : Z) text : Prop :=
  0 < len text ≤ W ∧ m ≤ 1446 ∧
  (∀ sd, host_endian (Host := pl_host (pl sd)) = Big → Z.even m = true ∧ Z.even (len text) = true) ∧
  0 ≤ x ∧ 0 ≤ y ∧ x + len text + W < 2 ^ 32 ∧ y + len text + W < 2 ^ 32.

(** The client writes, and the segments are on the wire. *)
Lemma client_says w x y m (nC : netns Sig B) aC t pq nS aS conns wsp kw rsp kr text :
  linked pl te sk acc nhC nhS srcC macC srcS macS w x y m nC aC t pq nS aS conns →
  contents (memory aC) wsp = Ok text → 0 ≤ sp_size rsp → fits_window x y m text →
  ∃ texts frs s2 a2 t2 pq2 k,
    at_side pl run_cb AtClient (say (Hh := pl_host (pl AtClient)) (pl_addr (pl AtClient)) run_cb
      (pl_port (pl AtClient)) sk wsp kw rsp kr) w =
      Ok ((), mk_wired s2 (server_ w) (pair AtServer <$> frs), [(AtClient, AppIo kw false (len text) (memory aC))]) ∧
    concat texts = text ∧ Forall (λ text, piece text ∧ len text ≤ m) texts ∧
    each one_sent by_client nC (text_segments te (mk_numbers x y y m W) texts) frs ∧
    connected_with sk te [(rsp, k)] s2 (after_all one_sent (length texts) nC) a2 t2 pq2 ∧
    io_cbs a2 !! k = Some (reader sk (sp_size rsp) rsp kr) ∧ memory a2 = memory aC ∧
    numbers_of t2 = mk_numbers x y (y + len text) m W.
Proof.
  intros [Hw Hcw Hnb [HrC _] _ _ _ _] Htext Hsize (Hlen & Hm & Hbig & Hx & Hy & Hwx & Hwy).
  unfold rcv_window_init in Hlen, Hwx, Hwy.
  assert (u32 (y + len text) = y + len text) as Ey by ulia.
  destruct (say_round (Hh := pl_host (pl AtClient)) (pl_addr (pl AtClient)) run_cb (Heven AtClient)
    (pl_port (pl AtClient)) sk te (pl_dev (pl AtClient)) nhC (pl_dev (pl AtClient)) srcC macC
    (client_ w) nC aC t pq wsp kw rsp kr text Hcw HrC Htext)
    as (texts & fr & frs & s1 & a2 & t2 & pq2 & k & x0 & skbs & E & Hst & Hskbs & Ec & Hlens & Hev & Hcar & Hcw2 & Hreader & Hmem & Hnb2);
    [lia|rewrite Hnb; cbn; rewrite Z.sub_diag; change (u32 0) with 0; unfold rcv_window_init; lia
    |rewrite Hnb; exact (Hbig AtClient)|done|].
  rewrite Hnb in Hcar, Hnb2, Hlens, Hev. unfold said_numbers in Hnb2. cbn [nb_rcv nb_una nb_nxt nb_mss nb_wnd] in *.
  rewrite Ey in Hnb2.
  destruct (at_side_queue pl run_cb AtClient _ w s1 x0 skbs _ a2 _ E (complete_app pl run_cb AtClient _ _ _ _ _
    (complete_one pl run_cb AtClient fr)) Hst) as (s2 & Hst2 & Eside).
  { apply (many_sent_keeps (λ n, devs n !! pl_dev (pl AtClient) = Some (mk_device []))); [done|apply HrC]. }
  exists texts, (fr :: frs), s2, a2, t2, pq2, k. rewrite Eside. split.
  { rewrite Hw, Hskbs. cbn. by rewrite decide_True. }
  split; [exact Ec|]. split; [|split; [exact Hcar|split; [by apply Hcw2|done]]].
  apply Forall_forall. intros text' Hin. rewrite Forall_forall in Hlens. specialize (Hlens text' Hin).
  split; [|lia]. split; [lia|]. intros sd HB. destruct (Hbig sd HB) as [Hm2 Hl2]. specialize (Hev Hm2 Hl2).
  rewrite Forall_forall in Hev. by apply Hev.
Qed.

(** What a host sends leaves its routes, and its identification. *)
Lemma routed_on te' d nh dv src mac k n :
  routed te' d nh dv src mac n → routed te' d nh dv src mac (after_all one_sent k n).
Proof. intros Hn. by apply (many_sent_keeps (routed te' d nh dv src mac)). Qed.
Lemma ids_on k n : is_u 16 (seq_ (ipv4_ n)) → is_u 16 (seq_ (ipv4_ (after_all one_sent k n))).
Proof. intros Hn. apply (many_sent_keeps (λ n, is_u 16 (seq_ (ipv4_ n)))); [intros; apply u16_is_u|done]. Qed.

(** The client writes, the server prints and answers, and the client has
    read what it wrote. *)
Lemma exchange_run w x y m nC aC t pq nS aS conns wsp kw rsp kr text :
  linked pl te sk acc nhC nhS srcC macC srcS macS w x y m nC aC t pq nS aS conns →
  contents (memory aC) wsp = Ok text → span_ok (memory aC) rsp → sp_size rsp = len text → fits_window x y m text →
  let L := len text in
  ∃ texts w' nC' aC' t' pq' nS' aS' conns',
    (_ ← at_side pl run_cb AtClient (say (Hh := pl_host (pl AtClient)) (pl_addr (pl AtClient)) run_cb
           (pl_port (pl AtClient)) sk wsp kw rsp kr);
     until_quiet pl run_cb (3 * Z.to_nat (sp_size wsp))) w =
      Ok ((), w', (AtClient, AppIo kw false L (memory aC)) ::
                  ((λ text, (AtServer, AppPrint text)) <$> texts) ++ [(AtClient, AppIo kr false L (memory aC'))]) ∧
    concat texts = text ∧ same_but (sp_buf rsp) (memory aC) (memory aC') ∧ contents (memory aC') rsp = Ok text ∧
    linked pl te sk acc nhC nhS srcC macC srcS macS w' (x + L) (y + L) m nC' aC' t' pq' nS' aS' conns'.
Proof.
  intros Hlk Htext Hsp Hsize Hfits L.
  destruct (client_says w x y m nC aC t pq nS aS conns wsp kw rsp kr text Hlk Htext)
    as (texts & frs & s2 & a2 & t2 & pq2 & k & E1 & Ec & Hps & Hcar & Hcw2 & Hreader & Hmem2 & Hnb2); [lia|done|].
  destruct Hlk as [_ _ _ [HrC HrS] [HidC HidS] Hserver Hconn _].
  destruct Hfits as (Hlen & Hm & _ & Hx & Hy & Hwx & Hwy). pose proof (Forall_impl _ _ _ Hps (λ _ H, proj1 H)) as Hps'.
  assert (texts ≠ []) as Hne by (intros ->; subst text; cbn in Hlen; lia).
  assert (len (concat texts) = L) as EL by (by rewrite Ec).
  destruct (server_echoes_all texts (mk_wired s2 (server_ w) (pair AtServer <$> frs)) [] frs nC nS y x x y m aS conns)
    as (sS & aS2 & frs2 & Hh2 & Hcar2 & R2); [by rewrite app_nil_r|done..|lia|lia|lia|lia|lia|].
  rewrite EL in Hh2. match type of Hh2 with hosts _ _ _ _ _ ?c => set (conns2 := c) in * end.
  destruct (client_told_all texts (mk_wired s2 sS (pair AtClient <$> frs2)) [] frs2 nS
    (after_all one_sent (length texts) nC) x x y (y + L) m a2 t2 pq2 rsp rsp k kr (sp_size rsp) [])
    as (sC & a3 & t3 & pq3 & frs3 & Hcw3 & Hnb3 & Hsame & Hholds & Hcar3 & R3);
    [done|by rewrite app_nil_r|exact Hcar2|done|exact Hcw2| |lia| |done|done|lia..|].
  { unfold reading. rewrite Hmem2. split; [exact Hreader|]. split; [destruct rsp; unfold sp_from; cbn; f_equal; lia|].
    split; [exact Hsp|]. split; [by apply holds_nil|]. unfold rcv_window_init in *. lia. }
  { by apply routed_on. }
  destruct (server_takes_acks texts (mk_wired sC sS (pair AtServer <$> frs3)) [] frs3
    (after_all one_sent (length texts) nC) (after_all one_sent (length texts) nS) x x y (y + L) (x + L) m aS2 conns2)
    as (sS4 & aS4 & Hh4 & R4); [done|by rewrite app_nil_r|exact Hcar3| |exact Hh2| |apply lookup_insert_eq|done|lia..|].
  { by apply ids_on. }
  { by apply routed_on. }
  rewrite EL in Hnb3. rewrite Hmem2 in Hsame. rewrite Ec in Hholds.
  do 9 eexists. split; [|split; [exact Ec|split; [exact Hsame|split; [apply contents_all; [exact Hholds|lia]|]]]].
  - apply (bind_run_Ok _ _ _ () _ [_] _ _ (_ ++ [_]) E1).
    rewrite (contents_size _ _ _ Htext), Nat2Z.id.
    assert (length texts ≤ length text)%nat as Hk.
    { rewrite <- Ec. apply (length_pieces texts m). eapply Forall_impl; [exact Hps|]. intros ? [[? _] ?]. cbn in *. lia. }
    replace (3 * length text)%nat with (length texts + (length texts + (length texts + 0)) + 3 * (length text - length texts))%nat by lia.
    apply until_quiet_more. unfold L. rewrite <- Hsize. apply R2, R3, R4. by apply until_quiet_done.
  - split; [reflexivity|exact Hcw3| | | |exact Hh4|apply lookup_insert_eq|done].
    + exact Hnb3.
    + split; [by do 2 apply routed_on|by apply routed_on].
    + split; [by do 2 apply ids_on|by apply ids_on].
Qed.
End Exchange.
