(* ===== verification/Session.v ===== *)
(** * A session

    What the users of two programs on a wire see, from the first call of
    [async_connect] to the last text that comes back. *)

From S2P Require Import Prelude Utils Skbuff Addr Headers TcpOptions CircularBuffer Tcb TcbFacts TcbSend.
From S2P Require Import TcbRecv TcbState TcbHandshake BaseProtocol Packets TcbManager Socket SocketFacts Echo.
From S2P Require Import Accept Tcp NeighCache RoutingTable Arp Ipv4 Ethernet Device Stack Layers Netns.
From S2P Require Import NetnsFacts NetnsRun Ping Resolve Program Prior ProgramFacts EchoFrame EchoOpen EchoServer.
From S2P Require Import ClientOpen ClientTalk Neighbours Wire TwoPrograms Exchange.

(** The client writes what is in a buffer and reads as much into another;
    the numbers are those of its callbacks. *)
Record exchange : Type := mk_exchange {
  x_write : span; x_wrote : nat; x_read : span; x_done : nat;
}.

Section Session.
Context {Sig : Type} `{Hsig : Signal ethernetv2_frame Sig} `{Hspec : !SignalSpec ethernetv2_frame Sig}.
Context {B : Type} `{Hc : CircularBuffer B} `{Hs : !CircularBufferSpec B}.
Context (pl : side → place) (run_cb : nat → endpoint → endpoint → M tcp tcp_event bool).
Context (Heven : ∀ sd skb, Z.even (pl_addr (pl sd) skb) = true).
Context (Hisn : ∀ sd, is_u 32 (pl_isn (pl sd))) (Hjunk : ∀ sd, ind_ok (pl_junk (pl sd))).
Context (te : two_ends_t) (sk : nat).
Context (nhC nhS : rt_record) (srcC macC srcS macS : mac_addr_t).
Implicit Types (w : wired Sig B) (n : netns Sig B) (s : program Sig B) (a : application B) (mem : memory_t).
Abbreviation WM := (M (wired Sig B) (side * app_event)).

Fixpoint talk (xs : list exchange) : WM unit :=
  match xs with
  | [] => mret ()
  | x :: xs =>
      _ ← (_ ← at_side pl run_cb AtClient (say (Hh := pl_host (pl AtClient)) (pl_addr (pl AtClient)) run_cb
                 (pl_port (pl AtClient)) sk (x_write x) (x_wrote x) (x_read x) (x_done x));
           until_quiet pl run_cb (3 * Z.to_nat (sp_size (x_write x))));
      talk xs
  end.

(** The server is started, the client connects, and then writes and reads. *)
Definition session (k : nat) (ports : list Z) (moved : option nat → option nat) (xs : list exchange) : WM unit :=
  _ ← at_side pl run_cb AtServer (prog_act (Hh := pl_host (pl AtServer)) (pl_addr (pl AtServer)) run_cb
        (ProgApp (OpServe (pl_port (pl AtServer)) (te_remote_ep te))));
  _ ← opening pl run_cb te sk k ports moved;
  talk xs.

(** A text that the window takes, and room for it. *)
Definition asks mem (x : exchange) (text : list byte) : Prop :=
  contents mem (x_write x) = Ok text ∧ span_ok mem (x_read x) ∧ sp_size (x_read x) = len text ∧
  0 < len text ≤ rcv_window_init ∧
  ∀ sd, host_endian (Host := pl_host (pl sd)) = Big → Z.even (len text) = true.

(** What the users see: the client that its text was written, the server the
    text, in pieces, and the client that it has read the whole of it. *)
Definition exchanged (x : exchange) (text : list byte) (es : list (side * app_event)) : Prop :=
  ∃ mem pieces mem',
    es = (AtClient, AppIo (x_wrote x) false (len text) mem) ::
         ((λ piece, (AtServer, AppPrint piece)) <$> pieces) ++
         [(AtClient, AppIo (x_done x) false (len text) mem')] ∧
    concat pieces = text ∧ contents mem' (x_read x) = Ok text.

(** The client, whose maximum segment size nobody has set, cuts its texts at
    a size that a frame takes, and that is even when a host is big-endian. *)
Definition mss_fits : Prop :=
  0 < ind_mss (pl_junk (pl AtClient)) ≤ 1446 ∧
  ∀ sd, host_endian (Host := pl_host (pl sd)) = Big → Z.even (ind_mss (pl_junk (pl AtClient))) = true.

(** Nothing is read into a buffer that is yet to be written. *)
Definition spans_apart (xs : list exchange) : Prop :=
  ∀ x x', x ∈ xs → x' ∈ xs → sp_buf (x_write x) ≠ sp_buf (x_read x').

Lemma asks_same_but mem mem' i x text :
  same_but i mem mem' → sp_buf (x_write x) ≠ i → asks mem x text → asks mem' x text.
Proof.
  intros [Hother Hsp] Hne (Hw & Hr & Hrest). split; [|split; [by apply Hsp|done]].
  rewrite <- Hw. unfold contents. by rewrite Hother.
Qed.

Lemma talk_run acc xs : mss_fits → ∀ w (x y : Z) nC aC t pq nS aS conns texts,
  linked pl te sk acc nhC nhS srcC macC srcS macS w x y (ind_mss (pl_junk (pl AtClient)))
    nC aC t pq nS aS conns →
  Forall2 (asks (memory aC)) xs texts → spans_apart xs → 0 ≤ x → 0 ≤ y →
  x + len (concat texts) + rcv_window_init < 2 ^ 32 → y + len (concat texts) + rcv_window_init < 2 ^ 32 →
  ∃ w' ess, talk xs w = Ok ((), w', concat ess) ∧ Forall3 exchanged xs texts ess ∧
    ∃ nC' aC' t' pq' nS' aS' conns',
      linked pl te sk acc nhC nhS srcC macC srcS macS w' (x + len (concat texts)) (y + len (concat texts))
        (ind_mss (pl_junk (pl AtClient))) nC' aC' t' pq' nS' aS' conns'.
Proof.
  intros [Hm Heven_m].
  induction xs as [|e xs IH]; intros w x y nC aC t pq nS aS conns texts Hlk Hasks Hapart Hx Hy Hwx Hwy.
  { inversion Hasks. exists w, []. cbn. rewrite !Z.add_0_r. split; [done|]. split; [constructor|].
    by exists nC, aC, t, pq, nS, aS, conns. }
  inversion Hasks as [|? text ? texts' (Htext & Hsp & Hsize & Hlen & Hbig) Hrest]; subst. clear Hasks.
  cbn [concat] in *. rewrite length_app in *. pose proof Hlk as [_ _ _ _ _ _ _ [Hre Hle]].
  destruct (exchange_run pl run_cb Heven Hisn Hjunk te sk acc nhC nhS srcC macC srcS macS Hre Hle w x y _ nC aC t pq nS aS
    conns (x_write e) (x_wrote e) (x_read e) (x_done e) text Hlk Htext Hsp Hsize)
    as (pieces & w1 & nC1 & a1 & t1 & pq1 & nS1 & aS1 & conns1 & E1 & Epieces & Hsame & Hcont & Hlk1).
  { unfold fits_window. split; [done|]. split; [lia|]. split; [|lia]. intros sd HB. split; [by apply (Heven_m sd)|by apply (Hbig sd)]. }
  destruct (IH w1 _ _ nC1 a1 t1 pq1 nS1 aS1 conns1 texts' Hlk1) as (w2 & ess & E2 & Hess & Hend); [| |lia..|].
  { apply Forall2_same_length_lookup in Hrest as [Hl Hrest].
    apply Forall2_same_length_lookup. split; [done|]. intros i x' text' Hx' Ht'.
    eapply asks_same_but; [exact Hsame| |by eapply Hrest].
    apply Hapart; [right; by eapply list_elem_of_lookup_2|left]. }
  { intros x1 x2 H1 H2. apply Hapart; by right. }
  exists w2. eexists (_ :: ess).
  split; [cbn [talk concat]; exact (bind_run_Ok _ _ _ _ _ _ _ _ _ E1 E2)|].
  split; [constructor; [by exists (memory aC), pieces, (memory a1)|done]|].
  replace (x + Z.of_nat (length text + length (concat texts')))
    with (x + len text + len (concat texts')) by lia.
  replace (y + Z.of_nat (length text + length (concat texts')))
    with (y + len text + len (concat texts')) by lia. done.
Qed.

(** Before the session: nothing is pending in either program, the client has
    a socket, no connection is known, and there is a route both ways; either
    both ends know the MAC address of their next hop, or they are strangers. *)
Record ready w (nC : netns Sig B) (aC : application B) (nS : netns Sig B) (aS : application B) : Prop := {
  rd_wire : wire_ w = [];
  rd_client : stands (client_ w) nC [] aC ∧ idle (set_tcb_m (mngr aC) (set_io_ctx [] nC));
  rd_free : tcbs_ (mngr aC) !! te = None;
  rd_socket : is_Some (sockets aC !! sk);
  rd_server : blank (server_ w) nS aS;
  rd_ways : ways pl te nhC nhS srcC macC srcS macS nC nS;
  rd_ids : is_u 16 (seq_ (ipv4_ nC)) ∧ is_u 16 (seq_ (ipv4_ nS));
  rd_ends : endpoint_ok (te_remote_ep te) ∧ endpoint_ok (te_local_ep te);
}.

(** After it: the wire is empty, both ends are connected, everything was
    acknowledged, and the numbers of each end are those of the other. *)
Definition in_step w (acc : nat) (x y : Z) : Prop :=
  ∃ nC aC t pq nS aS conns,
    linked pl te sk acc nhC nhS srcC macC srcS macS w x y (ind_mss (pl_junk (pl AtClient))) nC aC t pq nS aS conns.

Lemma server_started w nC aC nS aS :
  ready w nC aC nS aS →
  ∃ sS aS', at_side pl run_cb AtServer (prog_act (Hh := pl_host (pl AtServer)) (pl_addr (pl AtServer)) run_cb
        (ProgApp (OpServe (pl_port (pl AtServer)) (te_remote_ep te)))) w = Ok ((), mk_wired (client_ w) sS [], []) ∧
    apart pl te sk (allocated aS) nhC nhS srcC macC srcS macS (mk_wired (client_ w) sS []) nC aC nS aS' ∅.
Proof.
  intros [Hw Hclient Hfree Hsk Hblank Hways Hids Hends].
  destruct (serve_starts (Hh := pl_host (pl AtServer)) (pl_addr (pl AtServer)) run_cb (pl_port (pl AtServer))
    (te_remote_ep te) (server_ w) nS aS Hblank) as (sS & aS' & E & Hh').
  exists sS, aS'. split.
  - rewrite (at_side_run pl run_cb AtServer _ w sS sS [] E eq_refl). cbn. by rewrite Hw.
  - by split.
Qed.

(** C1: what a client writes to the echo server it reads back.  Two programs
    are on a wire, each on a host with a byte order of its own: the program
    of main.cpp, and one that calls [async_connect], and then, any number of
    times, [async_write] with a text and [async_read] with room for as much.
    Every frame that one writes is the next that the other reads.  They know
    their next hops, or the client knows only its own MAC address and the
    server one that the client can ask for.  No handler faults, and the wire
    falls silent after the handshake and after every text.  The client's callback of the connection is called without an
    error; then for each text, in order, the client is told that it was
    written, the server prints it piece by piece, and the client is told that the read is
    complete, when its buffer holds the text.  A text goes in as many segments
    as it takes, the server prints and answers each, and the client reads
    until it has the whole.  No text is lost or printed twice, however it was
    cut.  In the end both are connected, with the same numbers, which count
    the texts.

    The conditions.  A text is neither empty nor longer than the window of
    64240 bytes, and is read into a buffer that no text is written from.  The
    client's maximum segment size, which nothing in the program sets when it
    connects, happens to lie between 1 and 1446, so that a segment fits a
    frame.  When one of the hosts is big-endian, this size and the lengths of
    all texts are even, because the checksum of a segment of odd length is
    wrong there ([checksum_big_endian_odd]).  And no sequence number wraps:
    the initial numbers of both ends, all texts and one window more stay below
    2^32. *)
Theorem texts_come_back w nC aC nS aS k ports moved xs texts :
  ready w nC aC nS aS → mss_fits →
  Forall2 (asks (memory aC)) xs texts → spans_apart xs →
  (∀ sd, pl_isn (pl sd) + 1 + len (concat texts) + rcv_window_init < 2 ^ 32) →
  ∃ w' ess,
    session k ports moved xs w = Ok ((), w', (AtClient, AppDone k false) :: concat ess) ∧
    Forall3 exchanged xs texts ess ∧
    in_step w' (allocated aS) (pl_isn (pl AtServer) + 1 + len (concat texts))
      (pl_isn (pl AtClient) + 1 + len (concat texts)).
Proof.
  intros Hready Hmss Hasks Hapart Hfit.
  destruct (server_started w nC aC nS aS Hready) as (sS & aS' & E1 & Hap).
  assert (draws_fit pl) as Hdraws by (split; [apply Hmss|]; intros sd; specialize (Hfit sd); lia).
  destruct (opening_run pl run_cb Heven Hisn Hjunk te sk (allocated aS) nhC nhS srcC macC srcS macS
    (mk_wired (client_ w) sS []) nC aC nS aS' ∅ k ports moved Hdraws Hap)
    as (w1 & nC1 & aC1 & t1 & pq1 & nS1 & aS1 & conns1 & E2 & Hmem & Hlk).
  rewrite <- Hmem in Hasks. pose proof (Hisn AtClient) as HiC. pose proof (Hisn AtServer) as HiS.
  unfold is_u in HiC, HiS.
  destruct (talk_run (allocated aS) xs Hmss w1 _ _ nC1 aC1 t1 pq1 nS1 aS1 conns1 texts Hlk Hasks Hapart)
    as (w2 & ess & E3 & Hess & Hend); [lia|lia|apply Hfit|apply Hfit|].
  exists w2, ess. split; [|done].
  apply (bind_run_Ok _ _ _ () _ [] _ _ _ E1). exact (bind_run_Ok _ _ _ () w1 [_] () w2 _ E2 E3).
Qed.
End Session.

(** A client on a little-endian host sends two texts to the server on a
    big-endian one, the second of them in two segments.  They are neighbours, and either knows only its own MAC
    address. *)
Definition test_place (e : endian) (isn : Z) : place :=
  mk_place (test_host e) (λ _, 64) 0 isn (mk_indeterminate 0 0 0 2 0 0) 0.
Definition test_places (sd : side) : place :=
  match sd with AtClient => test_place Little 5000 | AtServer => test_place Big 9000 end.
Definition test_texts : list (list byte) := [[Byte.x41; Byte.x42]; [Byte.x43; Byte.x44; Byte.x45; Byte.x46]].
Definition test_caller_app : application reserve_buffer :=
  mk_app (mk_manager (mk_base true []) [] ∅) [] [] [] {[0%nat := socket_new 0]} ∅
    (<[1%nat := concat test_texts]> {[2%nat := replicate 6 Byte.x00]}) 3.
Definition test_exchanges : list exchange :=
  [mk_exchange (mk_span 1 0 2) 10 (mk_span 2 0 2) 11; mk_exchange (mk_span 1 2 4) 12 (mk_span 2 1 4) 13].
Definition test_back : rt_record := mk_record (Ipv4 1) (Ipv4 9) (Some 0%nat).
Definition serving_net : netns (list ethernetv2_frame) reserve_buffer :=
  set_ipv4 (mk_ipv4 (mk_base true []) 7 (mk_routing_table ∅ (Some test_back))
    (mk_arp (mk_base true []) {[ Ipv4 9 := test_mac Byte.x08 ]} ∅))
    (set_devs {[ 0%nat := mk_device [] ]} netns_new).
Definition test_wired : wired (list ethernetv2_frame) reserve_buffer :=
  mk_wired (mk_program (set_tcb_m (mngr test_caller_app) asking) test_caller_app)
    (mk_program (set_tcb_m (mngr test_blank_app) serving_net) test_blank_app) [].

Lemma test_strangers :
  strangers test_places test_te test_route test_back (test_mac Byte.x02) (test_mac Byte.x08)
    (test_mac Byte.x08) (test_mac Byte.x02) asking serving_net.
Proof.
  split.
  - unfold unknown_hop. split_and!; reflexivity.
  - split; [reflexivity|apply List.Forall_nil].
  - by vm_compute; split_and!.
  - by split.
  - reflexivity.
  - split; [unfold way_out; split_and!; reflexivity|]. split; [eexists; reflexivity|].
    split; [reflexivity|apply List.Forall_nil].
Qed.

Lemma test_ready :
  ready test_places test_te 0 test_route test_back (test_mac Byte.x02) (test_mac Byte.x08)
    (test_mac Byte.x08) (test_mac Byte.x02) test_wired asking test_caller_app serving_net test_blank_app.
Proof.
  split; [done|split; [by split|split; [done|by intros []]]|done|by eexists| |right; exact test_strangers| |].
  - split; [by split|split; [done|by intros []]|by split|by split].
  - by vm_compute; split_and!.
  - by vm_compute; split_and!.
Qed.

Lemma test_asks (wo ro n : Z) kw kr text :
  contents (memory test_caller_app) (mk_span 1 wo n) = Ok text → len text = n → 0 ≤ ro → 0 < n → ro + n ≤ 6 →
  Z.even n = true → asks test_places (memory test_caller_app) (mk_exchange (mk_span 1 wo n) kw (mk_span 2 ro n) kr) text.
Proof.
  intros Hw Hlen Hro Hn Hin Heven.
  assert (memory test_caller_app !! 2%nat = Some (replicate 6 Byte.x00)) as Hbuf by reflexivity.
  unfold asks, span_ok. cbn [x_read x_write sp_off sp_size sp_buf]. rewrite Hbuf, Hlen.
  split; [exact Hw|]. split; [|split; [done|]].
  - split; [done|]. split; [lia|]. exists (replicate 6 Byte.x00). split; [done|]. cbn. lia.
  - split; [unfold rcv_window_init; lia|]. by intros.
Qed.

Lemma texts_come_back_witness :
  ∃ w' ess,
    session test_places (λ _ _ _, mret false) test_te 0 7 [] id test_exchanges test_wired =
      Ok ((), w', (AtClient, AppDone 7 false) :: concat ess) ∧
    Forall3 exchanged test_exchanges test_texts ess ∧
    in_step test_places test_te 0 test_route test_back (test_mac Byte.x02) (test_mac Byte.x08)
      (test_mac Byte.x08) (test_mac Byte.x02) w' 0 9007 5007.
Proof.
  refine (texts_come_back test_places (λ _ _ _, mret false) _ _ _ test_te 0 test_route test_back
    (test_mac Byte.x02) (test_mac Byte.x08) (test_mac Byte.x08) (test_mac Byte.x02) test_wired asking
    test_caller_app serving_net test_blank_app 7 [] id test_exchanges test_texts test_ready _ _ _ _).
  - by intros [].
  - by intros [].
  - intros []; vm_compute; by split_and!.
  - done.
  - apply List.Forall2_cons; [|apply List.Forall2_cons; [|apply List.Forall2_nil]];
      (apply test_asks; [reflexivity|reflexivity|lia..|reflexivity]).
  - intros x x' Hx Hx'. unfold test_exchanges in *.
    rewrite !elem_of_cons in Hx, Hx'. pose proof (not_elem_of_nil x). pose proof (not_elem_of_nil x').
    by destruct Hx as [-> | [-> |]], Hx' as [-> | [-> |]].
  - by intros [].
Defined.
